(** * Swirl-LM: outflow boundary update and scalar source functions

    A shallow embedding of

      - [boundary_condition/outflow.py]
        ([outflow_boundary_condition] and the closure it returns),
      - [equations/source_function/total_energy.py] ([TotalEnergy]),
      - [equations/source_function/potential_temperature.py]
        ([PotentialTemperature]),
      - [utility/monitor.py] ([Monitor]: the names of the monitor variables,
        [update] and the time filter),

    and the properties of these functions that the specification states.

    Conventions of the embedding.

      - Tensor entries are exact rationals ([Qc]): rounding and the IEEE
        special values of the [float32] tensors are outside the model, and so
        is a division by zero ([x / 0] is [0] in [Qc], an infinity or a NaN
        in the source).
      - A flow field ([types.FlowFieldVal]) is a Python list of 2-D tensors,
        one per z level; a 2-D tensor is the list of its rows.
      - Dictionaries are association lists in insertion order, read with
        [lookup]; a missing key is Python's [KeyError].
      - Python exceptions are the [Err] results of an error monad.
      - Element-wise tensor arithmetic is defined on operands of one shape;
        operands of different shapes are a [ShapeError] (TensorFlow's
        broadcasting of size-one axes is not modelled, the row broadcast
        used by the outflow update is). A statement on shapes is made for
        operands of one shape.
      - Strings are strings of bytes, and the classes of the regular
        expressions are the ASCII classes: on a key of ASCII characters
        they are those of Python's [re] on a [str].
      - The step of the simulation is an integer tensor of type [int32] or
        [int64], with the wrap-around of its arithmetic; its cast to
        [float32] keeps 24 significant bits. *)

From Stdlib Require Import List String Ascii ZArith QArith Qcanon Lia Bool.
Import ListNotations.

Local Open Scope string_scope.
Local Open Scope Qc_scope.

(** ** Errors and results *)

Inductive error : Type :=
| KeyError (key : string)
| IndexError
| ShapeError
| AssertionError
| ValueError
| TypeError
| AttributeError
| NameError
| ConfigurationError.

Inductive result (A : Type) : Type :=
| Ok (a : A)
| Err (e : error).

Arguments Ok {A} a.
Arguments Err {A} e.

Definition bind {A B : Type} (m : result A) (k : A -> result B) : result B :=
  match m with
  | Ok a => k a
  | Err e => Err e
  end.

Declare Scope result_scope.
Delimit Scope result_scope with result.
Notation "x <- m ;; k" := (bind m (fun x => k))
  (at level 61, m at next level, right associativity) : result_scope.
Local Open Scope result_scope.

Fixpoint mapM {A B : Type} (f : A -> result B) (l : list A) : result (list B) :=
  match l with
  | [] => Ok []
  | x :: r =>
      y <- f x ;;
      ys <- mapM f r ;;
      Ok (y :: ys)
  end.

(** ** Tensors *)

Definition Tensor1 : Type := list Qc.
Definition Tensor2 : Type := list Tensor1.
Definition FlowFieldVal : Type := list Tensor2.

(** A scalar (Python float or 0-d tensor) times a tensor. *)
Definition scale1 (c : Qc) (v : Tensor1) : Tensor1 := map (Qcmult c) v.
Definition scale2 (c : Qc) (t : Tensor2) : Tensor2 := map (scale1 c) t.

(** Element-wise binary operation on two 1-D tensors of one length. *)
Fixpoint zip1 (op : Qc -> Qc -> Qc) (a b : Tensor1) : result Tensor1 :=
  match a, b with
  | [], [] => Ok []
  | x :: a', y :: b' =>
      r <- zip1 op a' b' ;;
      Ok (op x y :: r)
  | _, _ => Err ShapeError
  end.

(** Element-wise binary operation on two 2-D tensors of one shape. *)
Fixpoint zip2 (op : Qc -> Qc -> Qc) (a b : Tensor2) : result Tensor2 :=
  match a, b with
  | [], [] => Ok []
  | x :: a', y :: b' =>
      r0 <- zip1 op x y ;;
      r <- zip2 op a' b' ;;
      Ok (r0 :: r)
  | _, _ => Err ShapeError
  end.

(** [t + v] for a 2-D tensor [t] of shape (k, n) and a 1-D tensor [v] of
    shape (n,): [v] is added to every row of [t]. *)
Definition add_row (t : Tensor2) (v : Tensor1) : result Tensor2 :=
  mapM (fun row => zip1 Qcplus row v) t.

(** [t[i, :]] with Python's negative indices. *)
Definition x_face (i : Z) (t : Tensor2) : result Tensor1 :=
  let n := Z.of_nat (List.length t) in
  let j := if (i <? 0)%Z then (i + n)%Z else i in
  if ((0 <=? j) && (j <? n))%Z
  then match nth_error t (Z.to_nat j) with
       | Some row => Ok row
       | None => Err IndexError
       end
  else Err IndexError.

(** [tf.concat(rows, axis=0)] of 1-D tensors; an empty list of operands is
    refused. *)
Definition tf_concat (rows : list Tensor1) : result Tensor1 :=
  match rows with
  | [] => Err ValueError
  | _ => Ok (List.concat rows)
  end.

(** ** Dictionaries *)

Definition StatesMap : Type := list (string * FlowFieldVal).

Fixpoint lookup (key : string) (m : StatesMap) : option FlowFieldVal :=
  match m with
  | [] => None
  | (k, v) :: r => if String.eqb key k then Some v else lookup key r
  end.

(** [m[key]] *)
Definition getitem (m : StatesMap) (key : string) : result FlowFieldVal :=
  match lookup key m with
  | Some v => Ok v
  | None => Err (KeyError key)
  end.

Definition keys (m : StatesMap) : list string := map fst m.

(** ** The regular expression [bc_(\w+)_0_1] *)

Module Regex.

(** [\w] on the ASCII range: letters, digits and the underscore. *)
Definition word_char (c : ascii) : bool :=
  let n := nat_of_ascii c in
  ((48 <=? n) && (n <=? 57) || (65 <=? n) && (n <=? 90)
   || (97 <=? n) && (n <=? 122) || (n =? 95))%nat.

(** The longest prefix of word characters, and the rest. *)
Fixpoint span_word (s : list ascii) : list ascii * list ascii :=
  match s with
  | [] => ([], [])
  | c :: r =>
      if word_char c
      then let (w, t) := span_word r in (c :: w, t)
      else ([], s)
  end.

(** [s] begins with the literal [p]. *)
Fixpoint starts_with (p s : list ascii) : bool :=
  match p, s with
  | [], _ => true
  | a :: p', b :: s' => Ascii.eqb a b && starts_with p' s'
  | _ :: _, [] => false
  end.

Definition literal_bc : list ascii := list_ascii_of_string "bc_".
Definition literal_0_1 : list ascii := list_ascii_of_string "_0_1".

(** Greedy [\w+] followed by [_0_1]: [k] counts down from the longest run of
    word characters; the first [k >= 1] after which [_0_1] follows wins. *)
Fixpoint backtrack (k : nat) (s : list ascii) : option (list ascii) :=
  match k with
  | O => None
  | S k' =>
      if starts_with literal_0_1 (skipn k s)
      then Some (firstn k s)
      else backtrack k' s
  end.

(** A match of the whole pattern anchored at the head of [s]; the result is
    group 1. *)
Definition match_here (s : list ascii) : option (list ascii) :=
  if starts_with literal_bc s
  then let rest := skipn 3 s in
       backtrack (List.length (fst (span_word rest))) rest
  else None.

(** The leftmost match. *)
Fixpoint search_from (s : list ascii) : option (list ascii) :=
  match match_here s with
  | Some g => Some g
  | None =>
      match s with
      | [] => None
      | _ :: r => search_from r
      end
  end.

(** Group 1 of the leftmost match: what [re.search(r'bc_(\w+)_0_1', key)]
    finds and what [re.split(r'bc_(\w+)_0_1', key)[1]] returns when it does. *)
Definition search (key : string) : option string :=
  option_map string_of_list_ascii (search_from (list_ascii_of_string key)).

(** A name made of word characters only, and not empty. *)
Definition word (var : string) : bool :=
  match list_ascii_of_string var with
  | [] => false
  | l => forallb word_char l
  end.

End Regex.

(** ** Collective reduction *)

(** The reduction operators the sources pass to [common_ops.global_reduce]. *)
Inductive ReduceOp : Type :=
| reduce_max
| reduce_sum.

(** [common_ops.global_reduce(operand, op, group_assignment)] is a collaborator
    of the sources embedded here: the local reduction of [operand] followed by
    the reduction over the replicas of the caller's group. *)
Definition GlobalReduce : Type :=
  Tensor1 -> ReduceOp -> list (list nat) -> Qc.

Definition Qcmax (a b : Qc) : Qc := if Qclt_le_dec a b then b else a.

(** The collective on a topology of one replica: the local reduction. A
    reduction of no element at all does not occur in a run (the mesh is not
    empty); it is given the value 0 here. *)
Definition single_replica_reduce : GlobalReduce :=
  fun operand op _ =>
    match op, operand with
    | _, [] => 0
    | reduce_max, x :: r => fold_left Qcmax r x
    | reduce_sum, x :: r => fold_left Qcplus r x
    end.

(** * The outflow boundary condition ([boundary_condition/outflow.py]) *)

Module Outflow.

(** The fields of [grid_parametrization.GridParametrization] the update
    reads. *)
Record GridParametrization : Type := {
  halo_width : Z;
  dt : Qc;
  dx : Qc
}.

Section BoundaryUpdate.

Variable global_reduce : GlobalReduce.

(** [np.array([np.reshape(replicas[i, :, :], -1)
               for i in range(replicas.shape[0])])] *)
Definition group_assignment (replicas : list (list (list nat)))
  : list (list nat) :=
  map (@List.concat nat) replicas.

Variable replicas : list (list (list nat)).
Variable states : StatesMap.
Variable additional_states : StatesMap.
Variable params : GridParametrization.

(** The index of the outlet face, [-params.halo_width - 1]. *)
Definition outlet_face : Z := (- halo_width params - 1)%Z.

Definition u_max_operand : result Tensor1 :=
  u <- getitem states "u" ;;
  rows <- mapM (x_face outlet_face) u ;;
  tf_concat rows.

(** [u_max]: the reduction by [tf.math.reduce_max] of the outlet face of
    [u], over the replicas of the group. *)
Definition u_max : result Qc :=
  operand <- u_max_operand ;;
  Ok (global_reduce operand reduce_max (group_assignment replicas)).

(** [cfl = params.dt * u_max / params.dx] *)
Definition cfl_of (u_max : Qc) : Qc := dt params * u_max / dx params.

(** [mass_flux_x_face(face_index)] *)
Definition mass_flux_operand (face_index : Z) : result Tensor1 :=
  rho <- getitem states "rho" ;;
  u <- getitem states "u" ;;
  rows <- mapM (fun '(rho_i, u_i) =>
                  r <- x_face face_index rho_i ;;
                  v <- x_face face_index u_i ;;
                  zip1 Qcmult r v)
               (combine rho u) ;;
  tf_concat rows.

Definition mass_flux_x_face (face_index : Z) : result Qc :=
  operand <- mass_flux_operand face_index ;;
  Ok (global_reduce operand reduce_sum (group_assignment replicas)).

(** One element of the list comprehension of [update_boundary_values]. *)
Definition update_slice (correction_factor coeff : Qc)
    (u_j u_j_1 : Tensor2) : result Tensor2 :=
  up <- x_face outlet_face u_j_1 ;;
  s <- add_row (scale2 coeff u_j) (scale1 (1 - coeff) up) ;;
  Ok (scale2 correction_factor s).

(** [update_boundary_values(var_name)] *)
Definition update_boundary_values (mass_correction coeff : Qc)
    (var_name : string) : result FlowFieldVal :=
  let bc_name := "bc_" ++ var_name ++ "_0_1" in
  let correction_factor :=
    if String.eqb var_name "u" then mass_correction else 1 in
  bc <- getitem additional_states bc_name ;;
  phi <- getitem states var_name ;;
  mapM (fun '(u_j, u_j_1) => update_slice correction_factor coeff u_j u_j_1)
       (combine bc phi).

(** One item of the dictionary comprehension that is returned. *)
Definition update_item (mass_correction coeff : Qc)
    (item : string * FlowFieldVal) : result (string * FlowFieldVal) :=
  let (key, val) := item in
  match Regex.search key with
  | Some var_name =>
      v <- update_boundary_values mass_correction coeff var_name ;;
      Ok (key, v)
  | None => Ok (key, val)
  end.

(** [get_boundary_update_fn]; its arguments [kernel_op] and [replica_id] are
    deleted on entry. *)
Definition get_boundary_update_fn : result StatesMap :=
  u_max <- u_max ;;
  let cfl := cfl_of u_max in
  let coeff := 1 - cfl in
  mass_exit <- mass_flux_x_face outlet_face ;;
  mass_inlet <- mass_flux_x_face (halo_width params) ;;
  let mass_correction := mass_inlet / mass_exit in
  mapM (update_item mass_correction coeff) additional_states.

End BoundaryUpdate.

End Outflow.

(** * Scalar source functions *)

(** ** More tensor operations *)

Definition tadd : Tensor2 -> Tensor2 -> result Tensor2 := zip2 Qcplus.
Definition tsub : Tensor2 -> Tensor2 -> result Tensor2 := zip2 Qcminus.
Definition tmul : Tensor2 -> Tensor2 -> result Tensor2 := zip2 Qcmult.
Definition tneg (t : Tensor2) : Tensor2 := map (map Qcopp) t.

(** [c + t] for a Python float [c]. *)
Definition add_scalar (c : Qc) (t : Tensor2) : Tensor2 := map (map (Qcplus c)) t.

(** [t / c] for a Python float [c]. *)
Definition div_scalar (t : Tensor2) (c : Qc) : Tensor2 :=
  map (map (fun x => x / c)) t.

(** [tf.math.reciprocal] *)
Definition reciprocal (t : Tensor2) : Tensor2 := map (map Qcinv) t.

(** [tf.zeros_like] *)
Definition zeros_like (t : Tensor2) : Tensor2 := map (map (fun _ => 0)) t.

(** The shape of a 2-D tensor (the lengths of its rows) and of a field. *)
Definition shape2 (t : Tensor2) : list nat := map (@List.length Qc) t.
Definition shape (f : FlowFieldVal) : list (list nat) := map shape2 f.

(** ** [tf.nest.map_structure] on lists of tensors

    The structures must have one length ([ValueError] otherwise); the
    function is applied to the tensors level by level. *)

Definition map_structure1 (f : Tensor2 -> Tensor2) (a : FlowFieldVal)
  : FlowFieldVal := map f a.

Fixpoint map_structure2 (f : Tensor2 -> Tensor2 -> result Tensor2)
    (a b : FlowFieldVal) : result FlowFieldVal :=
  match a, b with
  | [], [] => Ok []
  | x :: a', y :: b' =>
      r0 <- f x y ;;
      r <- map_structure2 f a' b' ;;
      Ok (r0 :: r)
  | _, _ => Err ValueError
  end.

Fixpoint map_structure3 (f : Tensor2 -> Tensor2 -> Tensor2 -> result Tensor2)
    (a b c : FlowFieldVal) : result FlowFieldVal :=
  match a, b, c with
  | [], [], [] => Ok []
  | x :: a', y :: b', z :: c' =>
      r0 <- f x y z ;;
      r <- map_structure3 f a' b' c' ;;
      Ok (r0 :: r)
  | _, _, _ => Err ValueError
  end.

Fixpoint map_structure4
    (f : Tensor2 -> Tensor2 -> Tensor2 -> Tensor2 -> result Tensor2)
    (a b c d : FlowFieldVal) : result FlowFieldVal :=
  match a, b, c, d with
  | [], [], [], [] => Ok []
  | x :: a', y :: b', z :: c', t :: d' =>
      r0 <- f x y z t ;;
      r <- map_structure4 f a' b' c' d' ;;
      Ok (r0 :: r)
  | _, _, _, _ => Err ValueError
  end.

Fixpoint map_structure6
    (f : Tensor2 -> Tensor2 -> Tensor2 -> Tensor2 -> Tensor2 -> Tensor2
         -> result Tensor2)
    (a b c d e g : FlowFieldVal) : result FlowFieldVal :=
  match a, b, c, d, e, g with
  | [], [], [], [], [], [] => Ok []
  | x :: a', y :: b', z :: c', t :: d', s :: e', r :: g' =>
      r0 <- f x y z t s r ;;
      rs <- map_structure6 f a' b' c' d' e' g' ;;
      Ok (r0 :: rs)
  | _, _, _, _, _, _ => Err ValueError
  end.

(** ** Dictionaries built by the source functions *)

(** [m[key] = val] and [m.update({key: val})]: an existing key keeps its
    place. *)
Fixpoint dict_set (key : string) (val : FlowFieldVal) (m : StatesMap)
  : StatesMap :=
  match m with
  | [] => [(key, val)]
  | (k, v) :: r =>
      if String.eqb key k then (k, val) :: r else (k, v) :: dict_set key val r
  end.

(** [key in m] *)
Definition contains (m : StatesMap) (key : string) : bool :=
  match lookup key m with
  | Some _ => true
  | None => false
  end.

(** [m.get(key, default)] *)
Definition get_default (m : StatesMap) (key : string) (default : FlowFieldVal)
  : FlowFieldVal :=
  match lookup key m with
  | Some v => v
  | None => default
  end.

(** ** The input maps of a source function as a store

    [source_fn] receives the dictionaries [states] and [additional_states] by
    reference. A computation of [M] runs on the two dictionaries and returns,
    with its result, the dictionaries as they are when it ends. *)

Record Store : Type := {
  states : StatesMap;
  additional_states : StatesMap
}.

Definition M (A : Type) : Type := Store -> result A * Store.

Definition ret {A : Type} (a : A) : M A := fun s => (Ok a, s).

Definition raise {A : Type} (e : error) : M A := fun s => (Err e, s).

Definition bindM {A B : Type} (m : M A) (k : A -> M B) : M B :=
  fun s =>
    match m s with
    | (Ok a, s') => k a s'
    | (Err e, s') => (Err e, s')
    end.

Definition lift {A : Type} (r : result A) : M A := fun s => (r, s).

Declare Scope store_scope.
Delimit Scope store_scope with store.
Notation "x <- m ;; k" := (bindM m (fun x => k))
  (at level 61, m at next level, right associativity) : store_scope.

(** [states[key]] and [additional_states[key]] *)
Definition read_states (key : string) : M FlowFieldVal :=
  fun s => (getitem (states s) key, s).

Definition read_additional (key : string) : M FlowFieldVal :=
  fun s => (getitem (additional_states s) key, s).

(** [key in additional_states] *)
Definition additional_contains (key : string) : M bool :=
  fun s => (Ok (contains (additional_states s) key), s).

(** [additional_states.get(key, default)] *)
Definition additional_get (key : string) (default : FlowFieldVal)
  : M FlowFieldVal :=
  fun s => (Ok (get_default (additional_states s) key default), s).

(** The dictionary [additional_states] itself, handed to a collaborator. *)
Definition the_additional_states : M StatesMap :=
  fun s => (Ok (additional_states s), s).

(** The result of a computation and the store it leaves. *)
Definition eval {A : Type} (m : M A) (s : Store) : result A := fst (m s).
Definition exec {A : Type} (m : M A) (s : Store) : Store := snd (m s).

(** [{key: states[key] for key in names}], built on [acc]: the values are
    read in the order of the names, and the first missing one is the
    [KeyError]. *)
Fixpoint states_of (names : list string) (acc : StatesMap) : M StatesMap :=
  match names with
  | [] => ret acc
  | key :: r =>
      bindM (read_states key) (fun v => states_of r (dict_set key v acc))
  end.

(** [m.update(other)] *)
Definition dict_update (m other : StatesMap) : StatesMap :=
  fold_left (fun acc item => dict_set (fst item) (snd item) acc) other m.

(** ** Configuration and the base class *)

(** The messages [total_energy], [potential_temperature] of a scalar's
    configuration; an unset message is [None] ([HasField] is false). *)
Record TotalEnergyConfig : Type := {
  te_include_radiation : bool;
  te_include_subsidence : bool;
  te_include_precipitation : bool
}.

Record PotentialTemperatureConfig : Type := {
  pt_include_radiation : bool;
  pt_include_subsidence : bool
}.

Record Scalar : Type := {
  name : string;
  total_energy : option TotalEnergyConfig;
  potential_temperature : option PotentialTemperatureConfig
}.

Definition HasField {A : Type} (message : option A) : bool :=
  match message with
  | Some _ => true
  | None => false
  end.

(** [message.flag] of a message that may be unset (the default of a flag is
    false). *)
Definition flag_of {A : Type} (message : option A) (flag : A -> bool) : bool :=
  match message with
  | Some c => flag c
  | None => false
  end.

(** The attributes of [parameters_lib.SwirlLMParameters] that are read. *)
Record SwirlLMParameters : Type := {
  use_sgs : bool;
  nu : Qc;
  halo_width : Z;
  scalars : list Scalar;
  g_dim : option nat;
  dx : Qc;
  dy : Qc;
  dz : Qc
}.

(** [get_kernel_fn.ApplyKernelOp]: the finite-difference kernels. *)
Record ApplyKernelOp : Type := {
  apply_kernel_op_x : FlowFieldVal -> string -> FlowFieldVal;
  apply_kernel_op_y : FlowFieldVal -> string -> FlowFieldVal;
  apply_kernel_op_z : FlowFieldVal -> string -> string -> FlowFieldVal
}.

(** [x is not None] *)
Definition is_not_None {A : Type} (x : option A) : bool :=
  match x with
  | Some _ => true
  | None => false
  end.

(** [t[i]] for a tuple of three. *)
Definition tuple3_get (t : Qc * Qc * Qc) (i : nat) : result Qc :=
  match t, i with
  | (a, _, _), 0%nat => Ok a
  | (_, b, _), 1%nat => Ok b
  | (_, _, c), 2%nat => Ok c
  | _, _ => Err IndexError
  end.

(** [l[i]] and [l[i] = x] on a Python list. *)
Definition list_get {A : Type} (l : list A) (i : nat) : result A :=
  match nth_error l i with
  | Some x => Ok x
  | None => Err IndexError
  end.

Fixpoint list_set {A : Type} (l : list A) (i : nat) (x : A) : result (list A) :=
  match l, i with
  | [], _ => Err IndexError
  | _ :: r, O => Ok (x :: r)
  | y :: r, S i' =>
      r' <- list_set r i' x ;;
      Ok (y :: r')
  end.

Section ScalarGeneric.

(** The class of the moist thermodynamics model, [water.Water]. *)
Variable Water : Type.

(** [thermodynamics.model] is a [water.Water] or a model of another class. *)
Inductive ThermodynamicsModel : Type :=
| WaterModel (w : Water)
| OtherModel.

Record ThermodynamicsManager : Type := {
  model : ThermodynamicsModel
}.

(** The attributes of [scalar_generic.ScalarGeneric] the subclasses read. *)
Record ScalarGeneric : Type := {
  _kernel_op : ApplyKernelOp;
  _params : SwirlLMParameters;
  _scalar_name : string;
  _thermodynamics : ThermodynamicsManager;
  _scalar_params : Scalar;
  _h : Qc * Qc * Qc;
  _g_dim : option nat
}.

(** What the base constructor derives from [params] for the scalar:
    [_scalar_params], [_h] and [_g_dim], or the error it raises. *)
Definition Derive : Type :=
  SwirlLMParameters -> string -> result (Scalar * (Qc * Qc * Qc) * option nat).

(** [scalar_generic.ScalarGeneric.__init__]. The base class is not among the
    sources embedded here: its constructor keeps its four arguments in the
    attributes of their names, and the rest is the parameter [derive]. *)
Definition ScalarGeneric_init (derive : Derive) (kernel_op : ApplyKernelOp)
    (params : SwirlLMParameters) (scalar_name : string)
    (thermodynamics : ThermodynamicsManager) : result ScalarGeneric :=
  d <- derive params scalar_name ;;
  let '(scalar_params, h, g) := d in
  Ok {| _kernel_op := kernel_op;
        _params := params;
        _scalar_name := scalar_name;
        _thermodynamics := thermodynamics;
        _scalar_params := scalar_params;
        _h := h;
        _g_dim := g |}.

(** [self._h[self._g_dim]]: indexing with [None] is a [TypeError]. *)
Definition h_at_g_dim (self : ScalarGeneric) : result Qc :=
  match _g_dim self with
  | Some g => tuple3_get (_h self) g
  | None => Err TypeError
  end.

End ScalarGeneric.

Arguments WaterModel {Water} w.
Arguments OtherModel {Water}.
Arguments model {Water} t.
Arguments _kernel_op {Water} s.
Arguments _params {Water} s.
Arguments _scalar_name {Water} s.
Arguments _thermodynamics {Water} s.
Arguments _scalar_params {Water} s.
Arguments _h {Water} s.
Arguments _g_dim {Water} s.
Arguments ScalarGeneric_init {Water} derive kernel_op params scalar_name
  thermodynamics.
Arguments h_at_g_dim {Water} self.

(** Modelled from the spec: the lookup of the scalar in the configuration by
    the base constructor, which is not among the sources. The constructor
    fails with ConfigurationError if [scalar_name] is not found among the
    configured scalars; the spacings are (dx, dy, dz) and the gravity axis is
    the configured one. *)
Definition derive_from_config : Derive :=
  fun params scalar_name =>
    match find (fun sc => String.eqb (name sc) scalar_name) (scalars params) with
    | Some sc => Ok (sc, (dx params, dy params, dz params), g_dim params)
    | None => Err ConfigurationError
    end.

(** Modelled from the spec: the keys of [swirl_lm.equations.common], which is
    not among the sources; the states are keyed [u], [v], [w], [rho]. *)
Definition KEY_U : string := "u".
Definition KEY_V : string := "v".
Definition KEY_W : string := "w".
Definition KEY_RHO : string := "rho".

(** * The total energy equation ([source_function/total_energy.py]) *)

Module TotalEnergy.

Local Open Scope store_scope.

Definition TOTAL_ENERGY_VARNAME : string := "e_t".

(** *** Collaborators, with the signatures of their calls in this file *)

(** [water.Water] *)
Record Water : Type := {
  internal_energy_from_total_energy :
    FlowFieldVal -> FlowFieldVal -> FlowFieldVal -> FlowFieldVal
    -> FlowFieldVal -> FlowFieldVal;
  saturation_adjustment :
    string -> FlowFieldVal -> FlowFieldVal -> FlowFieldVal -> StatesMap
    -> FlowFieldVal;
  potential_temperatures :
    FlowFieldVal -> FlowFieldVal -> FlowFieldVal -> FlowFieldVal -> StatesMap
    -> StatesMap;
  total_enthalpy :
    FlowFieldVal -> FlowFieldVal -> FlowFieldVal -> FlowFieldVal
    -> FlowFieldVal;
  equilibrium_phase_partition :
    FlowFieldVal -> FlowFieldVal -> FlowFieldVal
    -> FlowFieldVal * FlowFieldVal;
  internal_energy_components :
    FlowFieldVal -> FlowFieldVal * FlowFieldVal * FlowFieldVal;
  saturation_excess :
    FlowFieldVal -> FlowFieldVal -> FlowFieldVal -> FlowFieldVal
}.

(** [cloud.Cloud] *)
Record Cloud : Type := {
  source_by_radiation :
    FlowFieldVal -> FlowFieldVal -> FlowFieldVal -> Qc -> nat -> list Z
    -> nat -> list (list (list nat)) -> FlowFieldVal
}.

(** [microphysics_kw1978.MicrophysicsKW1978] *)
Record MicrophysicsKW1978 : Type := {
  autoconversion_and_accretion : FlowFieldVal -> FlowFieldVal -> FlowFieldVal;
  evaporation :
    FlowFieldVal -> FlowFieldVal -> FlowFieldVal -> FlowFieldVal
    -> FlowFieldVal -> FlowFieldVal -> FlowFieldVal
}.

(** The constructors and functions of other modules that are called. *)
Record Collaborators : Type := {
  derive : Derive;
  new_Cloud : Water -> Cloud;
  new_MicrophysicsKW1978 : SwirlLMParameters -> Water -> MicrophysicsKW1978;
  (** [eq_utils.shear_stress]: a dictionary keyed [xx], [xy], ... *)
  shear_stress :
    ApplyKernelOp -> FlowFieldVal -> Qc -> Qc -> Qc
    -> FlowFieldVal -> FlowFieldVal -> FlowFieldVal -> StatesMap;
  (** [eq_utils.source_by_subsidence_velocity] *)
  source_by_subsidence_velocity :
    ApplyKernelOp -> FlowFieldVal -> FlowFieldVal -> Qc -> FlowFieldVal -> nat
    -> FlowFieldVal;
  (** [calculus.divergence] *)
  divergence :
    ApplyKernelOp -> list FlowFieldVal -> Qc * Qc * Qc -> FlowFieldVal;
  (** [constants.G] *)
  G : Qc
}.

(** *** The class *)

Record TotalEnergy : Type := {
  base : ScalarGeneric Water;
  _include_radiation : bool;
  _include_subsidence : bool;
  _include_precipitation : bool;
  _cloud : option Cloud;
  _microphysics : option MicrophysicsKW1978
}.

Section Methods.

Variable env : Collaborators.

(** [TotalEnergy.__init__] *)
Definition __init__ (kernel_op : ApplyKernelOp) (params : SwirlLMParameters)
    (scalar_name : string) (thermodynamics : ThermodynamicsManager Water)
  : result TotalEnergy :=
  (b <- ScalarGeneric_init (derive env) kernel_op params scalar_name
          thermodynamics ;;
   _ <- (if String.eqb scalar_name TOTAL_ENERGY_VARNAME
         then Ok tt else Err AssertionError) ;;
   let include_radiation :=
     HasField (total_energy (_scalar_params b))
     && flag_of (total_energy (_scalar_params b)) te_include_radiation
     && is_not_None (_g_dim b) in
   let include_subsidence :=
     HasField (total_energy (_scalar_params b))
     && flag_of (total_energy (_scalar_params b)) te_include_subsidence
     && is_not_None (_g_dim b) in
   let include_precipitation :=
     HasField (total_energy (_scalar_params b))
     && flag_of (total_energy (_scalar_params b)) te_include_precipitation
     && is_not_None (_g_dim b) in
   match model (_thermodynamics b) with
   | WaterModel w =>
       Ok {| base := b;
             _include_radiation := include_radiation;
             _include_subsidence := include_subsidence;
             _include_precipitation := include_precipitation;
             _cloud := Some (new_Cloud env w);
             _microphysics := Some (new_MicrophysicsKW1978 env params w) |}
   | OtherModel => Err ValueError
   end)%result.

Variable self : TotalEnergy.

(** The guard [if not isinstance(self._thermodynamics.model, water.Water):
    raise ValueError(...)]. *)
Definition require_water : M Water :=
  match model (_thermodynamics (base self)) with
  | WaterModel w => ret w
  | OtherModel => raise ValueError
  end.

(** [_get_thermodynamic_variables] *)
Definition _get_thermodynamic_variables (phi : FlowFieldVal) : M StatesMap :=
  w <- require_water ;;
  zz <- additional_get "zz" (map_structure1 zeros_like phi) ;;
  q_t <- read_states "q_t" ;;
  rho_thermal <- read_states "rho_thermal" ;;
  has_T <- additional_contains "T" ;;
  temperature <-
    (if has_T : bool then read_additional "T"
     else
       u <- read_states KEY_U ;;
       v <- read_states KEY_V ;;
       w' <- read_states KEY_W ;;
       let e := internal_energy_from_total_energy w phi u v w' zz in
       ads <- the_additional_states ;;
       ret (saturation_adjustment w "e_int" e rho_thermal q_t ads)) ;;
  has_theta <- additional_contains "theta" ;;
  theta <-
    (if has_theta : bool then read_additional "theta"
     else
       ads <- the_additional_states ;;
       let buf := potential_temperatures w temperature q_t rho_thermal zz ads in
       lift (getitem buf "theta")) ;;
  let h_t := total_enthalpy w phi rho_thermal q_t temperature in
  ret (dict_set "h_t" h_t
        (dict_set "theta" theta
          (dict_set "T" temperature
            (dict_set "zz" zz
              (dict_set "q_t" q_t
                (dict_set (_scalar_name (base self)) phi [])))))).

(** [_get_scalar_for_convection] and [_get_scalar_for_diffusion] *)
Definition _get_scalar_for_convection (phi : FlowFieldVal) : M FlowFieldVal :=
  thermo_states <- _get_thermodynamic_variables phi ;;
  lift (getitem thermo_states "h_t").

Definition _get_scalar_for_diffusion (phi : FlowFieldVal) : M FlowFieldVal :=
  thermo_states <- _get_thermodynamic_variables phi ;;
  lift (getitem thermo_states "h_t").

(** [u_dot_tau]: [u * tau_0j_l + v * tau_1j_l + w * tau_2j_l] *)
Definition u_dot_tau (u v w tau_0j_l tau_1j_l tau_2j_l : Tensor2)
  : result Tensor2 :=
  (a <- tmul u tau_0j_l ;;
   b <- tmul v tau_1j_l ;;
   ab <- tadd a b ;;
   c <- tmul w tau_2j_l ;;
   tadd ab c)%result.

(** [compute_rho_u_tau] *)
Definition compute_rho_u_tau (tau_0j tau_1j tau_2j : FlowFieldVal)
  : M FlowFieldVal :=
  u <- read_states KEY_U ;;
  v <- read_states KEY_V ;;
  w <- read_states KEY_W ;;
  lift (map_structure6 u_dot_tau u v w tau_0j tau_1j tau_2j).

(** The effective viscosity [mu]. *)
Definition viscosity (rho : FlowFieldVal) : M FlowFieldVal :=
  if use_sgs (_params (base self))
  then
    nu_t <- read_additional "nu_t" ;;
    lift (map_structure2
            (fun nu_t rho_i =>
               tmul (add_scalar (nu (_params (base self))) nu_t) rho_i)
            nu_t rho)
  else ret (map_structure1 (scale2 (nu (_params (base self)))) rho).

(** The list [rho_u_tau] of the three components of rho u_i tau_ij. *)
Definition rho_u_tau (mu : FlowFieldVal) : M (list FlowFieldVal) :=
  let '(h0, h1, h2) := _h (base self) in
  u <- read_states KEY_U ;;
  v <- read_states KEY_V ;;
  w <- read_states KEY_W ;;
  let tau := shear_stress env (_kernel_op (base self)) mu h0 h1 h2 u v w in
  txx <- lift (getitem tau "xx") ;;
  tyx <- lift (getitem tau "yx") ;;
  tzx <- lift (getitem tau "zx") ;;
  c0 <- compute_rho_u_tau txx tyx tzx ;;
  txy <- lift (getitem tau "xy") ;;
  tyy <- lift (getitem tau "yy") ;;
  tzy <- lift (getitem tau "zy") ;;
  c1 <- compute_rho_u_tau txy tyy tzy ;;
  txz <- lift (getitem tau "xz") ;;
  tyz <- lift (getitem tau "yz") ;;
  tzz <- lift (getitem tau "zz") ;;
  c2 <- compute_rho_u_tau txz tyz tzz ;;
  ret [c0; c1; c2].

(** The cloud liquid humidity [q_l], bound only when radiation or
    precipitation is included. *)
Definition liquid_humidity (w : Water) (thermo_states : StatesMap)
  : M (option FlowFieldVal) :=
  if _include_radiation self || _include_precipitation self
  then
    temperature <- lift (getitem thermo_states "T") ;;
    rho_thermal <- read_states "rho_thermal" ;;
    q_t <- lift (getitem thermo_states "q_t") ;;
    ret (Some (fst (equilibrium_phase_partition w temperature rho_thermal q_t)))
  else ret None.

(** A local name that may be unbound. *)
Definition bound {A : Type} (x : option A) : M A :=
  match x with
  | Some a => ret a
  | None => raise NameError
  end.

(** An attribute that may be [None], on which a method is called. *)
Definition attribute {A : Type} (x : option A) : M A :=
  match x with
  | Some a => ret a
  | None => raise AttributeError
  end.

(** [self._g_dim] used as an index. *)
Definition g_dim_index : M nat :=
  match _g_dim (base self) with
  | Some g => ret g
  | None => raise TypeError
  end.

(** The radiation block: the gravity-axis entry of [div_terms] is replaced by
    [div_term_i - rho_i * f_r_i]. *)
Definition radiation_correction (rho : FlowFieldVal)
    (q_l : option FlowFieldVal) (thermo_states : StatesMap)
    (replica_id : nat) (replicas : list (list (list nat)))
    (div_terms : list FlowFieldVal) : M (list FlowFieldVal) :=
  if _include_radiation self
  then
    let halos := repeat (halo_width (_params (base self))) 3 in
    c <- attribute (_cloud self) ;;
    q_l' <- bound q_l ;;
    rho_thermal <- read_states "rho_thermal" ;;
    zz <- lift (getitem thermo_states "zz") ;;
    hg <- lift (h_at_g_dim (base self)) ;;
    g <- g_dim_index ;;
    let f_r :=
      source_by_radiation c q_l' rho_thermal zz hg g halos replica_id replicas
    in
    d <- lift (list_get div_terms g) ;;
    d' <- lift (map_structure3
                  (fun div_term_i rho_i f_r_i =>
                     (m <- tmul rho_i f_r_i ;; tsub div_term_i m)%result)
                  d rho f_r) ;;
    lift (list_set div_terms g d')
  else ret div_terms.

(** The subsidence block. *)
Definition add_subsidence (rho : FlowFieldVal) (thermo_states : StatesMap)
    (source : FlowFieldVal) : M FlowFieldVal :=
  if _include_subsidence self
  then
    zz <- lift (getitem thermo_states "zz") ;;
    hg <- lift (h_at_g_dim (base self)) ;;
    h_t <- lift (getitem thermo_states "h_t") ;;
    g <- g_dim_index ;;
    let src_subsidence :=
      source_by_subsidence_velocity env (_kernel_op (base self)) rho zz hg h_t g
    in
    lift (map_structure2 tadd source src_subsidence)
  else ret source.

(** The precipitation block. *)
Definition add_precipitation (w : Water) (rho rho_thermal : FlowFieldVal)
    (q_l : option FlowFieldVal) (thermo_states : StatesMap)
    (source : FlowFieldVal) : M FlowFieldVal :=
  if _include_precipitation self
  then
    temperature <- lift (getitem thermo_states "T") ;;
    let '(e_v, e_l, _) := internal_energy_components w temperature in
    q_r <- read_states "q_r" ;;
    mp <- attribute (_microphysics self) ;;
    q_l' <- bound q_l ;;
    let cloud_liquid_to_rain_water_rate :=
      autoconversion_and_accretion mp q_r q_l' in
    temperature' <- lift (getitem thermo_states "T") ;;
    q_t <- lift (getitem thermo_states "q_t") ;;
    let q_c := saturation_excess w temperature' rho_thermal q_t in
    q_t' <- lift (getitem thermo_states "q_t") ;;
    q_v <- lift (map_structure2 tsub q_t' q_c) ;;
    temperature'' <- lift (getitem thermo_states "T") ;;
    let rain_water_evaporation_rate :=
      evaporation mp rho_thermal temperature'' q_r q_v q_l' q_c in
    zz <- lift (getitem thermo_states "zz") ;;
    let pe := map_structure1 (scale2 (G env)) zz in
    source_v <- lift (map_structure4
                        (fun e pe rho c_lv =>
                           (s <- tadd e pe ;;
                            sr <- tmul s rho ;;
                            tmul sr (tneg c_lv))%result)
                        e_v pe rho rain_water_evaporation_rate) ;;
    source_l <- lift (map_structure4
                        (fun e pe rho c_lr =>
                           (s <- tadd e pe ;;
                            sr <- tmul s rho ;;
                            tmul sr c_lr)%result)
                        e_l pe rho cloud_liquid_to_rain_water_rate) ;;
    lift (map_structure3
            (fun s sv sl => (ssv <- tadd s sv ;; tadd ssv sl)%result)
            source source_v source_l)
  else ret source.

(** [TotalEnergy.source_fn] *)
Definition source_fn (replica_id : nat) (replicas : list (list (list nat)))
    (phi : FlowFieldVal) : M FlowFieldVal :=
  w <- require_water ;;
  rho <- read_states KEY_RHO ;;
  rho_thermal <- read_states "rho_thermal" ;;
  thermo_states <- _get_thermodynamic_variables phi ;;
  mu <- viscosity rho ;;
  terms <- rho_u_tau mu ;;
  q_l <- liquid_humidity w thermo_states ;;
  div_terms <- radiation_correction rho q_l thermo_states replica_id replicas
                 terms ;;
  let source :=
    divergence env (_kernel_op (base self)) div_terms (_h (base self)) in
  source <- add_subsidence rho thermo_states source ;;
  add_precipitation w rho rho_thermal q_l thermo_states source.

(** [_get_wall_diffusive_flux_helper_variables]. The tuple
    [common.KEYS_VELOCITY] is not among the sources embedded here and is an
    argument. *)
Definition _get_wall_diffusive_flux_helper_variables
    (KEYS_VELOCITY : list string) (phi : FlowFieldVal) : M StatesMap :=
  helper_variables <- states_of KEYS_VELOCITY [] ;;
  thermo_states <- _get_thermodynamic_variables phi ;;
  theta <- lift (getitem thermo_states "theta") ;;
  ret (dict_set "theta" theta helper_variables).

End Methods.

End TotalEnergy.

(** * The potential temperature equation
      ([source_function/potential_temperature.py]) *)

Module PotentialTemperature.

Local Open Scope store_scope.

Definition _POTENTIAL_TEMPERATURE_VARNAME : list string :=
  ["theta"; "theta_li"].

(** [x in names] *)
Definition string_in (x : string) (names : list string) : bool :=
  existsb (String.eqb x) names.

(** *** Collaborators, with the signatures of their calls in this file *)

(** [water.Water] *)
Record Water : Type := {
  saturation_adjustment :
    string -> FlowFieldVal -> FlowFieldVal -> FlowFieldVal -> FlowFieldVal
    -> FlowFieldVal;
  potential_temperatures :
    FlowFieldVal -> FlowFieldVal -> FlowFieldVal -> FlowFieldVal -> StatesMap;
  equilibrium_phase_partition :
    FlowFieldVal -> FlowFieldVal -> FlowFieldVal
    -> FlowFieldVal * FlowFieldVal;
  cp_m : FlowFieldVal -> FlowFieldVal -> FlowFieldVal -> FlowFieldVal;
  exner_inverse :
    FlowFieldVal -> FlowFieldVal -> FlowFieldVal -> FlowFieldVal
    -> FlowFieldVal
}.

(** [cloud.Cloud] *)
Record Cloud : Type := {
  source_by_radiation :
    FlowFieldVal -> FlowFieldVal -> FlowFieldVal -> Qc -> nat -> list Z
    -> nat -> list (list (list nat)) -> FlowFieldVal
}.

(** [microphysics_kw1978.MicrophysicsKW1978]; none of its methods is called
    in this file. *)
Record MicrophysicsKW1978 : Type := {
  microphysics_model : Water
}.

Record Collaborators : Type := {
  derive : Derive;
  new_Cloud : Water -> Cloud;
  new_MicrophysicsKW1978 : Water -> MicrophysicsKW1978;
  (** [eq_utils.source_by_subsidence_velocity] *)
  source_by_subsidence_velocity :
    ApplyKernelOp -> FlowFieldVal -> FlowFieldVal -> Qc -> FlowFieldVal -> nat
    -> FlowFieldVal
}.

(** *** The class *)

Record PotentialTemperature : Type := {
  base : ScalarGeneric Water;
  _microphysics : option MicrophysicsKW1978;
  _cloud : option Cloud;
  _include_radiation : bool;
  _include_subsidence : bool
}.

Section Methods.

Variable env : Collaborators.

(** [PotentialTemperature.__init__] *)
Definition __init__ (kernel_op : ApplyKernelOp) (params : SwirlLMParameters)
    (scalar_name : string) (thermodynamics : ThermodynamicsManager Water)
  : result PotentialTemperature :=
  (b <- ScalarGeneric_init (derive env) kernel_op params scalar_name
          thermodynamics ;;
   _ <- (if string_in scalar_name _POTENTIAL_TEMPERATURE_VARNAME
         then Ok tt else Err AssertionError) ;;
   let '(microphysics, cloud) :=
     match model (_thermodynamics b) with
     | WaterModel w =>
         (Some (new_MicrophysicsKW1978 env w), Some (new_Cloud env w))
     | OtherModel => (None, None)
     end in
   Ok {| base := b;
         _microphysics := microphysics;
         _cloud := cloud;
         _include_radiation :=
           HasField (potential_temperature (_scalar_params b))
           && flag_of (potential_temperature (_scalar_params b))
                pt_include_radiation
           && is_not_None (_g_dim b);
         _include_subsidence :=
           HasField (potential_temperature (_scalar_params b))
           && flag_of (potential_temperature (_scalar_params b))
                pt_include_subsidence
           && is_not_None (_g_dim b) |})%result.

Variable self : PotentialTemperature.

(** [isinstance(self._thermodynamics.model, water.Water)] *)
Definition isinstance_Water : bool :=
  match model (_thermodynamics (base self)) with
  | WaterModel _ => true
  | OtherModel => false
  end.

(** The model, where the code has established that it is a [water.Water]. *)
Definition the_water : M Water :=
  match model (_thermodynamics (base self)) with
  | WaterModel w => ret w
  | OtherModel => raise AttributeError
  end.

(** [self._grad_central[i](f)] *)
Definition _grad_central (i : nat) (f : FlowFieldVal) : result FlowFieldVal :=
  match i with
  | 0%nat => Ok (apply_kernel_op_x (_kernel_op (base self)) f "kDx")
  | 1%nat => Ok (apply_kernel_op_y (_kernel_op (base self)) f "kDy")
  | 2%nat => Ok (apply_kernel_op_z (_kernel_op (base self)) f "kDz" "kDzsh")
  | _ => Err IndexError
  end.

(** [_get_thermodynamic_variables] *)
Definition _get_thermodynamic_variables (phi : FlowFieldVal) : M StatesMap :=
  let thermo_states := dict_set (_scalar_name (base self)) phi [] in
  match model (_thermodynamics (base self)) with
  | OtherModel => ret thermo_states
  | WaterModel w =>
      q_t <- read_states "q_t" ;;
      rho_thermal <- read_states "rho_thermal" ;;
      zz <- additional_get "zz" (map_structure1 zeros_like phi) ;;
      let thermo_states := dict_set "zz" zz thermo_states in
      let temperature :=
        saturation_adjustment w (_scalar_name (base self)) phi rho_thermal q_t
          zz in
      let thermo_states := dict_set "T" temperature thermo_states in
      thermo_states <-
        (if String.eqb (_scalar_name (base self)) "theta_li"
         then
           let buf := potential_temperatures w temperature q_t rho_thermal zz in
           theta <- lift (getitem buf "theta") ;;
           ret (dict_set "theta" theta thermo_states)
         else ret thermo_states) ;;
      let '(q_l, q_i) :=
        equilibrium_phase_partition w temperature rho_thermal q_t in
      ret (dict_set "q_i" q_i (dict_set "q_l" q_l thermo_states))
  end.

(** An attribute that may be [None], on which a method is called. *)
Definition attribute {A : Type} (x : option A) : M A :=
  match x with
  | Some a => ret a
  | None => raise AttributeError
  end.

(** [self._g_dim] used as an index. *)
Definition g_dim_index : M nat :=
  match _g_dim (base self) with
  | Some g => ret g
  | None => raise TypeError
  end.

(** The radiation block of [source_fn]. *)
Definition radiation_source (thermo_states : StatesMap) (replica_id : nat)
    (replicas : list (list (list nat))) (source : FlowFieldVal)
  : M FlowFieldVal :=
  if _include_radiation self && isinstance_Water
  then
    let halos := repeat (halo_width (_params (base self))) 3 in
    c <- attribute (_cloud self) ;;
    q_l <- lift (getitem thermo_states "q_l") ;;
    rho_thermal <- read_states "rho_thermal" ;;
    zz <- lift (getitem thermo_states "zz") ;;
    hg <- lift (h_at_g_dim (base self)) ;;
    g <- g_dim_index ;;
    let f_r :=
      source_by_radiation c q_l rho_thermal zz hg g halos replica_id replicas
    in
    rho <- read_states KEY_RHO ;;
    rad_src <- lift (map_structure2 (fun rho f_r => tmul (tneg rho) f_r)
                       rho f_r) ;;
    grad <- lift (_grad_central g rad_src) ;;
    source <- lift (mapM (fun f =>
                            (hg' <- h_at_g_dim (base self) ;;
                             Ok (div_scalar f (Q2Qc 2 * hg')))%result)
                         grad) ;;
    w <- the_water ;;
    q_t <- read_states "q_t" ;;
    q_l' <- lift (getitem thermo_states "q_l") ;;
    q_i <- lift (getitem thermo_states "q_i") ;;
    let cp_m_inv := map_structure1 reciprocal (cp_m w q_t q_l' q_i) in
    rho_thermal' <- read_states "rho_thermal" ;;
    q_t' <- read_states "q_t" ;;
    temperature <- lift (getitem thermo_states "T") ;;
    zz' <- lift (getitem thermo_states "zz") ;;
    let exner_inv := exner_inverse w rho_thermal' q_t' temperature zz' in
    cp_m_exner_inv <- lift (map_structure2 tmul cp_m_inv exner_inv) ;;
    lift (map_structure2 tmul cp_m_exner_inv source)
  else ret source.

(** The subsidence block of [source_fn]. *)
Definition add_subsidence (thermo_states : StatesMap) (phi : FlowFieldVal)
    (source : FlowFieldVal) : M FlowFieldVal :=
  if _include_subsidence self && isinstance_Water
     && String.eqb (_scalar_name (base self)) "theta_li"
  then
    rho <- read_states KEY_RHO ;;
    zz <- lift (getitem thermo_states "zz") ;;
    hg <- lift (h_at_g_dim (base self)) ;;
    g <- g_dim_index ;;
    let src_subsidence :=
      source_by_subsidence_velocity env (_kernel_op (base self)) rho zz hg phi g
    in
    lift (map_structure2 tadd source src_subsidence)
  else ret source.

(** [PotentialTemperature.source_fn] *)
Definition source_fn (replica_id : nat) (replicas : list (list (list nat)))
    (phi : FlowFieldVal) : M FlowFieldVal :=
  thermo_states <- _get_thermodynamic_variables phi ;;
  let source := map_structure1 zeros_like phi in
  source <- radiation_source thermo_states replica_id replicas source ;;
  add_subsidence thermo_states phi source.

(** [_get_wall_diffusive_flux_helper_variables]. The tuple
    [common.KEYS_VELOCITY] is not among the sources embedded here and is an
    argument. *)
Definition _get_wall_diffusive_flux_helper_variables
    (KEYS_VELOCITY : list string) (phi : FlowFieldVal) : M StatesMap :=
  helper_variables <- states_of KEYS_VELOCITY [] ;;
  thermo_states <- _get_thermodynamic_variables phi ;;
  ret (dict_update helper_variables thermo_states).

End Methods.

End PotentialTemperature.

(** * The monitor of analytical quantities ([utility/monitor.py])

    The methods of [Monitor] that work on the names of the monitor variables
    and on the dictionary [_data], and the time filter of
    [compute_analytics]. Names are ASCII strings. A monitor variable is a
    tensor of any rank, held here as its shape and its entries in row-major
    order. *)

Module Monitor.

Definition _MONITOR_NAME_DELIMITER : ascii := "_"%char.

(** ['MONITOR_{module}_{statistic_type}_{metric_name}'.format(...)] *)
Definition MONITOR_KEY_TEMPLATE (module statistic_type metric_name : string)
  : string :=
  "MONITOR_" ++ module ++ "_" ++ statistic_type ++ "_" ++ metric_name.

Inductive StatisticType : Type :=
| UNKNOWN
| MOMENT
| RAW
| SUBITER_SCALAR.

(** [StatisticType.X.value] *)
Definition value (t : StatisticType) : string :=
  match t with
  | UNKNOWN => "unknown"
  | MOMENT => "moment"
  | RAW => "raw"
  | SUBITER_SCALAR => "subiter-scalar"
  end.

(** [s.split(sep)] for a separator of one character: the pieces between the
    occurrences of [sep], empty pieces included. *)
Fixpoint split (sep : ascii) (s : string) : list string :=
  match s with
  | EmptyString => [EmptyString]
  | String c r =>
      if Ascii.eqb c sep then EmptyString :: split sep r
      else match split sep r with
           | piece :: pieces => String c piece :: pieces
           | [] => [String c EmptyString]
           end
  end.

(** [s.lower()] on ASCII. *)
Definition lower_char (c : ascii) : ascii :=
  let n := nat_of_ascii c in
  if ((65 <=? n) && (n <=? 90))%nat then ascii_of_nat (n + 32) else c.

Fixpoint lower (s : string) : string :=
  match s with
  | EmptyString => EmptyString
  | String c r => String (lower_char c) (lower r)
  end.

(** [statistic_type] *)
Definition statistic_type (key : string) : result StatisticType :=
  statistic_str <- list_get (split _MONITOR_NAME_DELIMITER key) 2 ;;
  if String.eqb (lower statistic_str) (value MOMENT) then Ok MOMENT
  else if String.eqb (lower statistic_str) (value RAW) then Ok RAW
  else if String.eqb (lower statistic_str) (value SUBITER_SCALAR)
       then Ok SUBITER_SCALAR
  else Ok UNKNOWN.

(** The pattern [MONITOR_[\w+]]: the literal and one character that is a
    word character or a plus sign. *)
Definition literal_MONITOR : list ascii := list_ascii_of_string "MONITOR_".

Definition class_char (c : ascii) : bool :=
  Regex.word_char c || Ascii.eqb c "+"%char.

(** A match at the head of [s]: [re.match]. *)
Definition match_here (s : list ascii) : bool :=
  Regex.starts_with literal_MONITOR s
  && match skipn 8 s with
     | c :: _ => class_char c
     | [] => false
     end.

(** A match somewhere in [s]: [re.search]. *)
Fixpoint search_from (s : list ascii) : bool :=
  match_here s
  || match s with
     | [] => false
     | _ :: r => search_from r
     end.

(** [regex.match], the filter of [monitor_var_init] on
    [helper_var_keys]. *)
Definition regex_match (varname : string) : bool :=
  match_here (list_ascii_of_string varname).

Definition monitor_var_names (helper_var_keys : list string) : list string :=
  filter regex_match helper_var_keys.

(** [_is_monitor_variable] *)
Definition _is_monitor_variable (varname : string) : bool :=
  search_from (list_ascii_of_string varname).

(** A tensor: its shape, which is known, and its entries. *)
Record Tensor : Type := {
  tensor_shape : list nat;
  tensor_entries : list Qc
}.

(** What a monitor variable holds, and what [update] and the time filter
    receive: a tensor, or a Python list of tensors. [_initial_moment]
    returns the list [[tf.constant(0, shape=(1, 1))]] when [periodic_dims]
    is [None], and [monitor_var_init] stores it under the name of the
    moment. *)
Inductive Value : Type :=
| TensorValue (t : Tensor)
| ListValue (l : list Tensor).

(** [MonitorDataType], a dictionary from names to values. *)
Definition MonitorDataType : Type := list (string * Value).

Fixpoint data_lookup (key : string) (m : MonitorDataType) : option Value :=
  match m with
  | [] => None
  | (k, v) :: r => if String.eqb key k then Some v else data_lookup key r
  end.

(** [m.update({key: val})] *)
Fixpoint data_set (key : string) (val : Value) (m : MonitorDataType)
  : MonitorDataType :=
  match m with
  | [] => [(key, val)]
  | (k, v) :: r =>
      if String.eqb key k then (k, val) :: r else (k, v) :: data_set key val r
  end.

(** The attributes of a [Monitor] that these methods read and write. The
    two steps are Python integers. *)
Record Monitor : Type := {
  _time_averaging : bool;
  _averaging_start_step : Z;
  _averaging_end_step : option Z;
  _data : MonitorDataType
}.

(** The property [data]. *)
Definition data (self : Monitor) : MonitorDataType := _data self.

(** The argument of [check_key]: one name or a sequence of names. *)
Inductive Varnames : Type :=
| Name (varname : string)
| Names (varnames : list string).

Definition _is_key (self : Monitor) (name : string) : bool :=
  match data_lookup name (_data self) with
  | Some _ => true
  | None => false
  end.

(** [check_key] *)
Definition check_key (self : Monitor) (varnames : Varnames) : bool :=
  match varnames with
  | Name varname => _is_key self varname
  | Names l => existsb (_is_key self) l
  end.

(** [a == b] on two shapes. *)
Fixpoint shape_eqb (a b : list nat) : bool :=
  match a, b with
  | [], [] => true
  | x :: a', y :: b' => Nat.eqb x y && shape_eqb a' b'
  | _, _ => false
  end.

(** [self._data[varname]] *)
Definition data_getitem (m : MonitorDataType) (key : string) : result Value :=
  match data_lookup key m with
  | Some v => Ok v
  | None => Err (KeyError key)
  end.

(** [v.shape]: a tensor has a shape, a Python list has no such attribute. *)
Definition shape_of (v : Value) : result (list nat) :=
  match v with
  | TensorValue t => Ok (tensor_shape t)
  | ListValue _ => Err AttributeError
  end.

(** [update]: the object after the call, or the exception, which is raised
    before [_data] is written. In [value.shape != self._data[varname].shape]
    the left operand is evaluated first. *)
Definition update (self : Monitor) (varname : string) (val : Value)
  : result Monitor :=
  if negb (check_key self (Name varname)) then Err ValueError
  else
    new_shape <- shape_of val ;;
    cached <- data_getitem (_data self) varname ;;
    cached_shape <- shape_of cached ;;
    if negb (shape_eqb new_shape cached_shape)
    then Err ValueError
    else Ok {| _time_averaging := _time_averaging self;
               _averaging_start_step := _averaging_start_step self;
               _averaging_end_step := _averaging_end_step self;
               _data := data_set varname val (_data self) |}.

(** *** The step of the simulation

    The argument [step] of [compute_analytics] is an integer tensor of no
    dimension. Its arithmetic is that of its type: two's complement, with
    wrap-around. *)

Inductive IntType : Type :=
| int32
| int64.

Definition bits (t : IntType) : Z :=
  match t with
  | int32 => 32
  | int64 => 64
  end.

Definition min_value (t : IntType) : Z := (- 2 ^ (bits t - 1))%Z.
Definition max_value (t : IntType) : Z := (2 ^ (bits t - 1) - 1)%Z.

(** The integers that the type holds. *)
Definition representable (t : IntType) (n : Z) : bool :=
  ((min_value t <=? n) && (n <=? max_value t))%Z.

(** The value of the type that an exact result [x] wraps to. *)
Definition wrap (t : IntType) (x : Z) : Z :=
  ((x + 2 ^ (bits t - 1)) mod 2 ^ bits t - 2 ^ (bits t - 1))%Z.

Record StepTensor : Type := {
  dtype : IntType;
  step_value : Z
}.

(** A Python integer as an operand of a tensor of type [t]: it is converted
    to a constant of this type, and refused, with an error, when the type
    cannot hold it. *)
Definition as_constant (t : IntType) (n : Z) : result Z :=
  if representable t n then Ok n else Err ValueError.

(** [n / d] rounded to the nearest integer, a tie to the even one, for a
    positive [d]. *)
Definition round_half_even (n d : Z) : Z :=
  let quotient := (n / d)%Z in
  let remainder := (n mod d)%Z in
  if (2 * remainder <? d)%Z then quotient
  else if (d <? 2 * remainder)%Z then (quotient + 1)%Z
  else if Z.even quotient then quotient else (quotient + 1)%Z.

(** [tf.cast(n, tf.float32)] of an integer: an integer of at most 24
    significant bits is kept, a larger one is rounded to 24 significant
    bits. *)
Definition float32_of_int (n : Z) : Qc :=
  let a := Z.abs n in
  if (a <? 2 ^ 24)%Z then Q2Qc (inject_Z n)
  else
    let ulp := (2 ^ (Z.log2 a - 23))%Z in
    Q2Qc (inject_Z (Z.sgn n * (round_half_even a ulp * ulp))).

(** [should_time_filter], of [compute_analytics]; [step] is [None] or the
    step of the simulation. *)
Definition should_time_filter (self : Monitor) (step : option StepTensor)
  : result bool :=
  if negb (_time_averaging self) then Ok false
  else
    match step with
    | None => Ok false
    | Some n =>
        first <- as_constant (dtype n) (_averaging_start_step self) ;;
        let check_lower_bound := (first <? step_value n)%Z in
        check_upper_bound <-
          match _averaging_end_step self with
          | None => Ok true
          | Some last_step =>
              last <- as_constant (dtype n) last_step ;;
              Ok (step_value n <=? last)%Z
          end ;;
        Ok (check_lower_bound && check_upper_bound)
    end.

(** [prev_stat + (statistic - prev_stat) / valid_count] on two tensors of
    one shape. *)
Definition filter_tensor (valid_count : Qc) (prev_stat statistic : Tensor)
  : result Tensor :=
  if shape_eqb (tensor_shape prev_stat) (tensor_shape statistic)
  then
    entries <- zip1 (fun prev_stat statistic =>
                       prev_stat + (statistic - prev_stat) / valid_count)
                    (tensor_entries prev_stat) (tensor_entries statistic) ;;
    Ok {| tensor_shape := tensor_shape prev_stat;
          tensor_entries := entries |}
  else Err ShapeError.

(** [tf.nest.map_structure] on two lists of tensors. *)
Fixpoint filter_tensors (valid_count : Qc) (prev_stat statistic : list Tensor)
  : result (list Tensor) :=
  match prev_stat, statistic with
  | [], [] => Ok []
  | p :: prev_stat', s :: statistic' =>
      t <- filter_tensor valid_count p s ;;
      r <- filter_tensors valid_count prev_stat' statistic' ;;
      Ok (t :: r)
  | _, _ => Err ValueError
  end.

(** [apply_time_filter], of [compute_analytics]:
    [valid_count = tf.cast(step - self._averaging_start_step + 1,
    tf.float32)], computed in the type of [step], and the structures
    [prev_stat] and [statistic] are combined tensor by tensor. *)
Definition apply_time_filter (self : Monitor) (step : option StepTensor)
    (statistic prev_stat : Value) : result Value :=
  match step with
  | None => Ok statistic
  | Some n =>
      first <- as_constant (dtype n) (_averaging_start_step self) ;;
      let elapsed := wrap (dtype n) (step_value n - first) in
      let valid_count := float32_of_int (wrap (dtype n) (elapsed + 1)) in
      match prev_stat, statistic with
      | TensorValue p, TensorValue s =>
          t <- filter_tensor valid_count p s ;;
          Ok (TensorValue t)
      | ListValue p, ListValue s =>
          l <- filter_tensors valid_count p s ;;
          Ok (ListValue l)
      | _, _ => Err ValueError
      end
  end.

End Monitor.

(** * Vocabulary of the statements *)

(** The entry [(k, j)] of level [z] of a field. *)
Definition entry (f : FlowFieldVal) (z k j : nat) : option Qc :=
  match nth_error f z with
  | Some t =>
      match nth_error t k with
      | Some row => nth_error row j
      | None => None
      end
  | None => None
  end.

(** The entry [j] of the face [face] of level [z] of a field:
    [f[z][face, j]]. *)
Definition face_entry (face : Z) (f : FlowFieldVal) (z j : nat) : option Qc :=
  match nth_error f z with
  | Some t =>
      match x_face face t with
      | Ok row => nth_error row j
      | Err _ => None
      end
  | None => None
  end.

(** A 2-D tensor of shape (nx, ny), and a list of rows of length ny. *)
Definition rows_of_length (ny : nat) (t : Tensor2) : Prop :=
  Forall (fun row => List.length row = ny) t.

Definition mesh_tensor (nx ny : nat) (t : Tensor2) : Prop :=
  List.length t = nx /\ rows_of_length ny t.

(** The string holds ASCII characters only (every byte is below 128). On
    such a key the class [\w] of a Python pattern on [str] is the class
    [[a-zA-Z0-9_]] of [Regex.word_char]. *)
Definition is_ascii (s : string) : bool :=
  forallb (fun c => (nat_of_ascii c <? 128)%nat) (list_ascii_of_string s).

Module OutflowSpec.
Import Outflow.

(** The inputs of the boundary update on a mesh whose levels have shape
    (nx, ny): [u] and [rho] are in [states] and have at least one level, the
    halo fits in the mesh, and every key of [additional_states] that the
    pattern matches with group [var] comes with a buffer [bc_<var>_0_1] of
    rows of length ny and with a field [var] in [states]. *)
Record well_shaped (nx ny : nat) (states additional_states : StatesMap)
    (params : GridParametrization) : Prop := {
  ws_halo : (0 <= halo_width params < Z.of_nat nx)%Z;
  ws_u : exists u, lookup "u" states = Some u /\ u <> []
                   /\ Forall (mesh_tensor nx ny) u;
  ws_rho : exists rho, lookup "rho" states = Some rho /\ rho <> []
                       /\ Forall (mesh_tensor nx ny) rho;
  ws_bc : forall key val var,
      In (key, val) additional_states ->
      Regex.search key = Some var ->
      exists bc phi,
        lookup ("bc_" ++ var ++ "_0_1") additional_states = Some bc
        /\ lookup var states = Some phi
        /\ Forall (rows_of_length ny) bc
        /\ Forall (mesh_tensor nx ny) phi
}.

(** The row [t[face, :]] of a 2-D tensor; no entry when the index is out of
    range. *)
Definition face_row (face : Z) (t : Tensor2) : Tensor1 :=
  match x_face face t with
  | Ok row => row
  | Err _ => []
  end.

(** The values of [u] on the outlet face (index [-halo_width - 1]), level
    after level. *)
Definition outlet_values (params : GridParametrization) (u : FlowFieldVal)
  : Tensor1 :=
  flat_map (face_row (outlet_face params)) u.

(** The number [c = dt * u_max / dx], where [u_max] is the maximum of [u]
    over the outlet face, reduced over the replicas of the group. *)
Definition courant (global_reduce : GlobalReduce)
    (replicas : list (list (list nat))) (params : GridParametrization)
    (u : FlowFieldVal) : Qc :=
  dt params
  * global_reduce (outlet_values params u) reduce_max
      (group_assignment replicas)
  / dx params.

(** The upwind update at the key [key], matched with group [var]: every
    entry of the new buffer is [(1 - c) * old + c * upstream], where [old] is
    the entry of the buffer [bc_<var>_0_1], [upstream] the entry of the outlet
    face of [var] in the same column, and [c] the number [courant] of the
    field [u]. *)
Definition upwind_update_at (global_reduce : GlobalReduce)
    (replicas : list (list (list nat))) (states additional_states : StatesMap)
    (params : GridParametrization) (key var : string) : Prop :=
  forall out u bc phi i val new z k j x,
    get_boundary_update_fn global_reduce replicas states additional_states
      params = Ok out ->
    lookup "u" states = Some u ->
    nth_error additional_states i = Some (key, val) ->
    nth_error out i = Some (key, new) ->
    lookup ("bc_" ++ var ++ "_0_1") additional_states = Some bc ->
    lookup var states = Some phi ->
    entry new z k j = Some x ->
    let c := courant global_reduce replicas params u in
    exists old up,
      entry bc z k j = Some old
      /\ face_entry (outlet_face params) phi z j = Some up
      /\ x = (1 - c) * old + c * up.

(** The products [rho[z][face, j] * u[z][face, j]] on the face [face], level
    after level ([z]) and, in a level, column after column ([j]). *)
Definition face_products (face : Z) (rho u : FlowFieldVal) : Tensor1 :=
  flat_map (fun level =>
              map (fun ru => fst ru * snd ru)
                  (combine (face_row face (fst level))
                           (face_row face (snd level))))
           (combine rho u).

(** The mass flux through the face [face]: the sum of the products
    [rho * u] on the face, reduced over the replicas of the group. *)
Definition face_mass_flux (global_reduce : GlobalReduce)
    (replicas : list (list (list nat))) (face : Z) (rho u : FlowFieldVal)
  : Qc :=
  global_reduce (face_products face rho u) reduce_sum
    (group_assignment replicas).

(** The corrected upwind update at the key [key], matched with the variable
    [u]: when the mass flux through the outlet face is not zero, every entry
    of the new buffer is [(1 - c) * old + c * upstream] times the mass flux
    through the inlet face (index [halo_width]) divided by the mass flux
    through the outlet face (index [-halo_width - 1]). *)
Definition corrected_update_at (global_reduce : GlobalReduce)
    (replicas : list (list (list nat))) (states additional_states : StatesMap)
    (params : GridParametrization) (key : string) : Prop :=
  forall out rho u bc i val new z k j x,
    get_boundary_update_fn global_reduce replicas states additional_states
      params = Ok out ->
    lookup "rho" states = Some rho ->
    lookup "u" states = Some u ->
    face_mass_flux global_reduce replicas (outlet_face params) rho u <> 0 ->
    nth_error additional_states i = Some (key, val) ->
    nth_error out i = Some (key, new) ->
    lookup "bc_u_0_1" additional_states = Some bc ->
    entry new z k j = Some x ->
    let c := courant global_reduce replicas params u in
    exists old up,
      entry bc z k j = Some old
      /\ face_entry (outlet_face params) u z j = Some up
      /\ x = face_mass_flux global_reduce replicas (halo_width params) rho u
             / face_mass_flux global_reduce replicas (outlet_face params) rho u
             * ((1 - c) * old + c * up).

End OutflowSpec.

(** The entry [(k, j)] of a 2-D tensor. *)
Definition entry2 (t : Tensor2) (k j : nat) : option Qc :=
  match nth_error t k with
  | Some row => nth_error row j
  | None => None
  end.

(** The components of a list of fields other than the component [g] are
    those of another list. *)
Definition same_but (g : nat) (a b : list FlowFieldVal) : Prop :=
  List.length a = List.length b
  /\ forall i, i <> g -> nth_error a i = nth_error b i.

(** The value of the upwind update before the mass flux correction:
    [coeff * u_j + (1.0 - coeff) * u_j_1[-halo_width - 1, :]], entry by
    entry. *)
Definition uncorrected (coeff old up : Qc) : Qc :=
  coeff * old + (1 - coeff) * up.

(** A computation that leaves the store as it found it. *)
Definition read_only {A : Type} (m : M A) : Prop :=
  forall s, snd (m s) = s.

(** The field of zeros of the shape of [phi]. *)
Definition zeros (phi : FlowFieldVal) : FlowFieldVal :=
  map_structure1 zeros_like phi.

Module TotalEnergySpec.
Import TotalEnergy.
Local Open Scope store_scope.

(** The object with the radiation term switched off. *)
Definition without_radiation (self : TotalEnergy) : TotalEnergy :=
  {| base := base self;
     _include_radiation := false;
     _include_subsidence := _include_subsidence self;
     _include_precipitation := _include_precipitation self;
     _cloud := _cloud self;
     _microphysics := _microphysics self |}.

(** The halo widths handed to the cloud model, [[halo_width] * 3]. *)
Definition halos (self : TotalEnergy) : list Z :=
  repeat (halo_width (_params (base self))) 3.

(** The source of the total energy equation with no optional term: the
    divergence of rho u_i tau_ij. *)
Definition source_of_shear (env : Collaborators) (self : TotalEnergy)
    (phi : FlowFieldVal) : M FlowFieldVal :=
  w <- require_water self ;;
  rho <- read_states KEY_RHO ;;
  rho_thermal <- read_states "rho_thermal" ;;
  thermo_states <- _get_thermodynamic_variables self phi ;;
  mu <- viscosity self rho ;;
  terms <- rho_u_tau env self mu ;;
  ret (divergence env (_kernel_op (base self)) terms (_h (base self))).

(** [div_terms] are the components [terms] of rho u_i tau_ij after the
    radiative correction along the gravity axis [g]: the component [g] of
    [div_terms] is that of [terms] minus [rho * f_r], entry by entry, and the
    other components are those of [terms]. The flux [f_r] is what the cloud
    model [c] returns for the liquid humidity [q_l], which is the first part
    of the equilibrium phase partition at the temperature and the total
    humidity of the thermodynamic variables [ts]. *)
Definition corrected_terms (self : TotalEnergy) (rid : nat)
    (reps : list (list (list nat))) (s : Store) (w : Water) (c : Cloud)
    (g : nat) (ts : StatesMap) (rho q_l : FlowFieldVal)
    (terms div_terms : list FlowFieldVal) : Prop :=
  exists hg rho_thermal zz temperature q_t d d',
    tuple3_get (_h (base self)) g = Ok hg
    /\ lookup "rho_thermal" (states s) = Some rho_thermal
    /\ lookup "zz" ts = Some zz
    /\ lookup "T" ts = Some temperature
    /\ lookup "q_t" ts = Some q_t
    /\ q_l = fst (equilibrium_phase_partition w temperature rho_thermal q_t)
    /\ nth_error terms g = Some d
    /\ nth_error div_terms g = Some d'
    /\ same_but g div_terms terms
    /\ shape d' = shape d
    /\ forall z k j x,
        entry d' z k j = Some x ->
        exists dv rv fv,
          entry d z k j = Some dv /\ entry rho z k j = Some rv
          /\ entry
               (source_by_radiation c q_l rho_thermal zz hg g (halos self)
                  rid reps) z k j = Some fv
          /\ x = dv - rv * fv.

(** The source computed from the components [div_terms]: their divergence,
    to which the subsidence term and the precipitation term are added when
    they are included. *)
Definition source_of_terms (env : Collaborators) (self : TotalEnergy)
    (w : Water) (rho rho_thermal q_l : FlowFieldVal) (ts : StatesMap)
    (div_terms : list FlowFieldVal) : M FlowFieldVal :=
  let source :=
    divergence env (_kernel_op (base self)) div_terms (_h (base self)) in
  source <- add_subsidence env self rho ts source ;;
  add_precipitation env self w rho rho_thermal (Some q_l) ts source.

End TotalEnergySpec.

Module PotentialTemperatureSpec.
Import PotentialTemperature.
Local Open Scope store_scope.

(** The object with the subsidence term switched off. *)
Definition without_subsidence (self : PotentialTemperature)
  : PotentialTemperature :=
  {| base := base self;
     _microphysics := _microphysics self;
     _cloud := _cloud self;
     _include_radiation := _include_radiation self;
     _include_subsidence := false |}.

(** The source of the potential temperature equation with no optional term:
    zeros, once the thermodynamic variables are computed. *)
Definition source_of_zeros (self : PotentialTemperature) (phi : FlowFieldVal)
  : M FlowFieldVal :=
  thermo_states <- _get_thermodynamic_variables self phi ;;
  ret (map_structure1 zeros_like phi).

(** The halo widths handed to the cloud model, [[halo_width] * 3]. *)
Definition halos (self : PotentialTemperature) : list Z :=
  repeat (halo_width (_params (base self))) 3.

End PotentialTemperatureSpec.

Module TotalEnergyZero.
Import TotalEnergy TotalEnergySpec.

(** The stress tensor has the nine components, each of the shape of [phi]. *)
Definition stress_shaped (phi : FlowFieldVal) (tau : StatesMap) : Prop :=
  forall key,
    In key ["xx"; "yx"; "zx"; "xy"; "yy"; "zy"; "xz"; "yz"; "zz"] ->
    exists t, lookup key tau = Some t /\ shape t = shape phi.

(** The inputs that generate the mechanical source are zero: the velocity is
    a field of zeros; [rho] and the stress tensor have the shape of [phi];
    the thermodynamic variables and the viscosity can be computed; and the
    divergence of three fields of zeros is the field of zeros. *)
Record zero_inputs (env : Collaborators) (self : TotalEnergy)
    (phi : FlowFieldVal) (s : Store) : Prop := {
  zi_water : exists w, model (_thermodynamics (base self)) = WaterModel w;
  zi_rho : exists rho, lookup KEY_RHO (states s) = Some rho
                       /\ shape rho = shape phi;
  zi_rho_thermal : exists rho_thermal,
      lookup "rho_thermal" (states s) = Some rho_thermal;
  zi_u : lookup KEY_U (states s) = Some (zeros phi);
  zi_v : lookup KEY_V (states s) = Some (zeros phi);
  zi_w : lookup KEY_W (states s) = Some (zeros phi);
  zi_thermo : exists ts,
      eval (_get_thermodynamic_variables self phi) s = Ok ts;
  zi_viscosity : forall rho,
      lookup KEY_RHO (states s) = Some rho ->
      exists mu, eval (viscosity self rho) s = Ok mu;
  zi_stress : forall rho mu,
      lookup KEY_RHO (states s) = Some rho ->
      eval (viscosity self rho) s = Ok mu ->
      stress_shaped phi
        (shear_stress env (_kernel_op (base self)) mu
           (fst (fst (_h (base self)))) (snd (fst (_h (base self))))
           (snd (_h (base self))) (zeros phi) (zeros phi) (zeros phi));
  zi_divergence :
    divergence env (_kernel_op (base self)) [zeros phi; zeros phi; zeros phi]
      (_h (base self)) = zeros phi
}.

(** The radiation term is zero: the cloud model returns a flux of zeros. *)
Record zero_radiation (self : TotalEnergy) (phi : FlowFieldVal) (s : Store)
    (rid : nat) (reps : list (list (list nat))) : Prop := {
  zr_cloud : exists c,
      _cloud self = Some c
      /\ forall q_l rho_thermal zz hg g,
          lookup "rho_thermal" (states s) = Some rho_thermal ->
          source_by_radiation c q_l rho_thermal zz hg g (halos self) rid reps
          = zeros phi;
  zr_axis : exists g, _g_dim (base self) = Some g /\ (g < 3)%nat
}.

(** The subsidence term is zero. *)
Record zero_subsidence (env : Collaborators) (self : TotalEnergy)
    (phi : FlowFieldVal) (s : Store) : Prop := {
  zs_axis : exists g, _g_dim (base self) = Some g /\ (g < 3)%nat;
  zs_source : forall ts rho zz hg h_t g,
      eval (_get_thermodynamic_variables self phi) s = Ok ts ->
      lookup "h_t" ts = Some h_t ->
      source_by_subsidence_velocity env (_kernel_op (base self)) rho zz hg h_t
        g = zeros phi
}.

(** The precipitation term is zero: the conversion rates are fields of
    zeros, and the fields it combines have the shape of [phi]. *)
Record zero_precipitation (self : TotalEnergy) (phi : FlowFieldVal)
    (s : Store) : Prop := {
  zp_q_r : exists q_r, lookup "q_r" (states s) = Some q_r;
  zp_microphysics : exists mp,
      _microphysics self = Some mp
      /\ (forall q_r q_l,
             lookup "q_r" (states s) = Some q_r ->
             autoconversion_and_accretion mp q_r q_l = zeros phi)
      /\ (forall rho_thermal temperature q_r q_v q_l q_c,
             lookup "rho_thermal" (states s) = Some rho_thermal ->
             evaporation mp rho_thermal temperature q_r q_v q_l q_c
             = zeros phi);
  zp_energy : forall w ts temperature,
      model (_thermodynamics (base self)) = WaterModel w ->
      eval (_get_thermodynamic_variables self phi) s = Ok ts ->
      lookup "T" ts = Some temperature ->
      shape (fst (fst (internal_energy_components w temperature)))
      = shape phi
      /\ shape (snd (fst (internal_energy_components w temperature)))
         = shape phi;
  zp_excess : forall w temperature rho_thermal q_t,
      model (_thermodynamics (base self)) = WaterModel w ->
      lookup "q_t" (states s) = Some q_t ->
      shape (saturation_excess w temperature rho_thermal q_t) = shape q_t;
  zp_zz : forall zz,
      lookup "zz" (additional_states s) = Some zz -> shape zz = shape phi
}.

End TotalEnergyZero.

Module PotentialTemperatureZero.
Import PotentialTemperature PotentialTemperatureSpec.

(** The radiation term is zero: the cloud model returns a flux of zeros,
    the kernel of the central difference maps zeros to zeros, and the fields
    that are combined have the shape of [phi]. *)
Record zero_radiation (self : PotentialTemperature) (phi : FlowFieldVal)
    (s : Store) (rid : nat) (reps : list (list (list nat))) : Prop := {
  zr_cloud : exists c,
      _cloud self = Some c
      /\ forall q_l rho_thermal zz hg g,
          lookup "rho_thermal" (states s) = Some rho_thermal ->
          source_by_radiation c q_l rho_thermal zz hg g (halos self) rid reps
          = zeros phi;
  zr_axis : exists g hg,
      _g_dim (base self) = Some g
      /\ tuple3_get (_h (base self)) g = Ok hg
      /\ hg <> 0
      /\ _grad_central self g (zeros phi) = Ok (zeros phi);
  zr_rho : exists rho, lookup KEY_RHO (states s) = Some rho
                       /\ shape rho = shape phi;
  zr_cp_m : forall w q_t q_l q_i,
      model (_thermodynamics (base self)) = WaterModel w ->
      lookup "q_t" (states s) = Some q_t ->
      shape (cp_m w q_t q_l q_i) = shape phi;
  zr_exner : forall w rho_thermal q_t temperature zz,
      model (_thermodynamics (base self)) = WaterModel w ->
      lookup "rho_thermal" (states s) = Some rho_thermal ->
      shape (exner_inverse w rho_thermal q_t temperature zz) = shape phi
}.

(** The subsidence term is zero. *)
Record zero_subsidence (env : Collaborators) (self : PotentialTemperature)
    (phi : FlowFieldVal) (s : Store) : Prop := {
  zs_axis : exists g, _g_dim (base self) = Some g /\ (g < 3)%nat;
  zs_rho : exists rho, lookup KEY_RHO (states s) = Some rho;
  zs_source : forall rho zz hg g,
      source_by_subsidence_velocity env (_kernel_op (base self)) rho zz hg
        phi g = zeros phi
}.

End PotentialTemperatureZero.

Module RadiationSpec.

(** The kernel of the central difference along the axis [g], applied to
    [f]: the kernel [kDx] along x, [kDy] along y, and [kDz] with its shift
    [kDzsh] along z. Its result divided by [2 h] is the central difference
    of [f] along the axis. *)
Definition central_difference_kernel (kernel_op : ApplyKernelOp) (g : nat)
    (f : FlowFieldVal) : option FlowFieldVal :=
  match g with
  | 0%nat => Some (apply_kernel_op_x kernel_op f "kDx")
  | 1%nat => Some (apply_kernel_op_y kernel_op f "kDy")
  | 2%nat => Some (apply_kernel_op_z kernel_op f "kDz" "kDzsh")
  | _ => None
  end.

(** [source] is the radiation term of the potential temperature equation:
    with [f_r] the flux of the cloud model, [rad_src] is [-rho * f_r];
    [grad] is the kernel of the central difference along the gravity axis
    applied to [rad_src]; and every entry of [source] is
    [cp_m^-1 * exner^-1 * (grad / (2 h))]. *)
Definition potential_temperature_term
    (self : PotentialTemperature.PotentialTemperature) (rid : nat)
    (reps : list (list (list nat))) (phi : FlowFieldVal) (s : Store)
    (w : PotentialTemperature.Water) (source : FlowFieldVal) : Prop :=
  exists c g hg q_t rho_thermal rho rad_src grad,
    PotentialTemperature._cloud self = Some c
    /\ _g_dim (PotentialTemperature.base self) = Some g
    /\ tuple3_get (_h (PotentialTemperature.base self)) g = Ok hg
    /\ lookup "q_t" (states s) = Some q_t
    /\ lookup "rho_thermal" (states s) = Some rho_thermal
    /\ lookup KEY_RHO (states s) = Some rho
    /\ let zz := get_default (additional_states s) "zz"
                   (map_structure1 zeros_like phi) in
       let temperature :=
         PotentialTemperature.saturation_adjustment w
           (_scalar_name (PotentialTemperature.base self)) phi
           rho_thermal q_t zz in
       let partition :=
         PotentialTemperature.equilibrium_phase_partition w temperature
           rho_thermal q_t in
       let f_r :=
         PotentialTemperature.source_by_radiation c (fst partition)
           rho_thermal zz hg g (PotentialTemperatureSpec.halos self) rid
           reps in
       let cp :=
         PotentialTemperature.cp_m w q_t (fst partition) (snd partition) in
       let exner_inv :=
         PotentialTemperature.exner_inverse w rho_thermal q_t temperature zz
       in
       shape rad_src = shape rho
       /\ (forall z k j x,
              entry rad_src z k j = Some x ->
              exists r f,
                entry rho z k j = Some r /\ entry f_r z k j = Some f
                /\ x = - r * f)
       /\ central_difference_kernel
            (_kernel_op (PotentialTemperature.base self)) g rad_src
          = Some grad
       /\ shape grad = shape source
       /\ shape source = shape cp
       /\ forall z k j x,
           entry source z k j = Some x ->
           exists cv ev gv,
             entry cp z k j = Some cv /\ entry exner_inv z k j = Some ev
             /\ entry grad z k j = Some gv
             /\ x = / cv * ev * (gv / (Q2Qc 2 * hg)).

(** [source] is the source of the total energy equation with the radiation
    term and no other optional term: [terms] are the components of
    rho u_i tau_ij, [div_terms] are [terms] but for the gravity-axis
    component, which is that of [terms] minus [rho * f_r], and [source] is the
    divergence of [div_terms]. *)
Definition total_energy_term (env : TotalEnergy.Collaborators)
    (self : TotalEnergy.TotalEnergy) (rid : nat)
    (reps : list (list (list nat))) (s : Store) (source : FlowFieldVal)
  : Prop :=
  exists rho mu terms div_terms c g hg q_l rho_thermal zz d d',
    lookup KEY_RHO (states s) = Some rho
    /\ eval (TotalEnergy.viscosity self rho) s = Ok mu
    /\ eval (TotalEnergy.rho_u_tau env self mu) s = Ok terms
    /\ TotalEnergy._cloud self = Some c
    /\ _g_dim (TotalEnergy.base self) = Some g
    /\ tuple3_get (_h (TotalEnergy.base self)) g = Ok hg
    /\ nth_error terms g = Some d
    /\ nth_error div_terms g = Some d'
    /\ same_but g div_terms terms
    /\ shape d' = shape d
    /\ (forall z k j x,
           entry d' z k j = Some x ->
           exists dv rv fv,
             entry d z k j = Some dv /\ entry rho z k j = Some rv
             /\ entry
                  (TotalEnergy.source_by_radiation c q_l rho_thermal zz
                     hg g (TotalEnergySpec.halos self) rid reps)
                  z k j = Some fv
             /\ x = dv - rv * fv)
    /\ source
       = TotalEnergy.divergence env (_kernel_op (TotalEnergy.base self))
           div_terms (_h (TotalEnergy.base self)).

End RadiationSpec.

(** * Decidable equality of values, to evaluate runs on concrete inputs *)

Fixpoint list_eqb {A : Type} (eqb : A -> A -> bool) (l1 l2 : list A) : bool :=
  match l1, l2 with
  | [], [] => true
  | x :: r1, y :: r2 => eqb x y && list_eqb eqb r1 r2
  | _, _ => false
  end.

Definition field_eqb : FlowFieldVal -> FlowFieldVal -> bool :=
  list_eqb (list_eqb (list_eqb Qc_eq_bool)).

Definition item_eqb (a b : string * FlowFieldVal) : bool :=
  String.eqb (fst a) (fst b) && field_eqb (snd a) (snd b).

Definition states_eqb : StatesMap -> StatesMap -> bool := list_eqb item_eqb.

Definition result_eqb {A : Type} (eqb : A -> A -> bool) (r1 r2 : result A)
  : bool :=
  match r1, r2 with
  | Ok a, Ok b => eqb a b
  | _, _ => false
  end.

(** The rational [n / d]. *)
Definition q (n : Z) (d : positive) : Qc := Q2Qc (n # d).

(** A run on one replica: one level of a 4 x 1 mesh with halo width 1, so
    that the inlet face is row 1 and the outlet face row 2. *)
Module OutflowExample.
Import Outflow.

Definition replicas : list (list (list nat)) := [[[0%nat]]].

Definition u : FlowFieldVal := [[[q 1 1]; [q 1 1]; [q 2 1]; [q 2 1]]].
Definition rho : FlowFieldVal := [[[q 1 1]; [q 1 1]; [q 1 1]; [q 1 1]]].
Definition T : FlowFieldVal := [[[q 1 1]; [q 1 1]; [q 8 1]; [q 2 1]]].

Definition states : StatesMap := [("u", u); ("rho", rho); ("T", T)].

Definition additional_states : StatesMap :=
  [("bc_u_0_1", [[[q 4 1]]]); ("zz", [[[q 7 1]]]); ("bc_T_0_1", [[[q 4 1]]])].

Definition params : GridParametrization :=
  {| halo_width := 1; dt := q 1 4; dx := q 1 1 |}.

Definition run : result StatesMap :=
  get_boundary_update_fn single_replica_reduce replicas states
    additional_states params.

End OutflowExample.

(** * A small run of the source functions

    One level of a 1 x 2 mesh, with collaborators that are simple enough to
    evaluate: the kernels of the central differences are the identity, the
    divergence is the sum of the three components, the temperature is the
    transported scalar. *)
Module SourceExample.

Definition constant (c : Qc) (f : FlowFieldVal) : FlowFieldVal :=
  map (map (map (fun _ => c))) f.

(** The sum of two fields, entry by entry. *)
Definition tensor_sum (a b : Tensor2) : Tensor2 :=
  map (fun rows => map (fun xy => fst xy + snd xy)
                     (combine (fst rows) (snd rows)))
      (combine a b).

Definition field_sum (a b : FlowFieldVal) : FlowFieldVal :=
  map (fun ts => tensor_sum (fst ts) (snd ts)) (combine a b).

Definition kernel_op : ApplyKernelOp :=
  {| apply_kernel_op_x := fun f _ => f;
     apply_kernel_op_y := fun f _ => f;
     apply_kernel_op_z := fun f _ _ => f |}.

Definition replicas : list (list (list nat)) := [[[0%nat]]].

Definition phi : FlowFieldVal := [[[q 1 1; q 2 1]]].
Definition ones : FlowFieldVal := [[[q 1 1; q 1 1]]].
Definition velocity : FlowFieldVal := [[[q 2 1; q 4 1]]].

(** A flux, or a source by the subsidence velocity, that is its argument. *)
Definition same (f : FlowFieldVal) : FlowFieldVal := f.

(** The scalars of the configuration: every optional term is requested. *)
Definition scalar_e_t : Scalar :=
  {| name := "e_t";
     total_energy :=
       Some {| te_include_radiation := true;
               te_include_subsidence := true;
               te_include_precipitation := true |};
     potential_temperature := None |}.

Definition scalar_theta (scalar_name : string) : Scalar :=
  {| name := scalar_name;
     total_energy := None;
     potential_temperature :=
       Some {| pt_include_radiation := true;
               pt_include_subsidence := true |} |}.

Definition params (gravity : option nat) : SwirlLMParameters :=
  {| use_sgs := false;
     nu := q 1 2;
     halo_width := 2;
     scalars := [scalar_e_t; scalar_theta "theta"; scalar_theta "theta_li"];
     g_dim := gravity;
     dx := q 1 1;
     dy := q 1 1;
     dz := q 1 2 |}.

(** The stores: with a velocity, and at rest. *)
Definition moving : Store :=
  {| states := [("rho", constant (q 2 1) phi); ("rho_thermal", ones);
                ("q_t", constant 0 phi); ("q_r", constant 0 phi);
                ("u", velocity); ("v", velocity); ("w", velocity)];
     additional_states := [] |}.

Definition at_rest : Store :=
  {| states := [("rho", constant (q 2 1) phi); ("rho_thermal", ones);
                ("q_t", constant 0 phi); ("q_r", constant 0 phi);
                ("u", zeros phi); ("v", zeros phi); ("w", zeros phi)];
     additional_states := [] |}.

Module TE.
Import TotalEnergy.

Definition water : Water :=
  {| internal_energy_from_total_energy := fun phi _ _ _ _ => phi;
     saturation_adjustment := fun _ e _ _ _ => e;
     potential_temperatures := fun temperature _ _ _ _ => [("theta", temperature)];
     total_enthalpy := fun phi _ _ _ => phi;
     equilibrium_phase_partition :=
       fun temperature _ _ => (zeros temperature, zeros temperature);
     internal_energy_components :=
       fun temperature => (temperature, temperature, temperature);
     saturation_excess := fun _ _ q_t => zeros q_t |}.

(** The stress tensor: every component is [mu]. *)
Definition stress (mu : FlowFieldVal) : StatesMap :=
  [("xx", mu); ("xy", mu); ("xz", mu); ("yx", mu); ("yy", mu); ("yz", mu);
   ("zx", mu); ("zy", mu); ("zz", mu)].

(** The collaborators; the radiative flux is [flux rho_thermal] and the
    source by the subsidence velocity is [subsidence h_t]. *)
Definition env (flux subsidence : FlowFieldVal -> FlowFieldVal)
  : Collaborators :=
  {| derive := derive_from_config;
     new_Cloud := fun _ =>
       {| source_by_radiation := fun _ rho_thermal _ _ _ _ _ _ =>
                                   flux rho_thermal |};
     new_MicrophysicsKW1978 := fun _ _ =>
       {| autoconversion_and_accretion := fun q_r _ => zeros q_r;
          evaporation := fun rho_thermal _ _ _ _ _ => zeros rho_thermal |};
     shear_stress := fun _ mu _ _ _ _ _ _ => stress mu;
     source_by_subsidence_velocity := fun _ _ _ _ h_t _ => subsidence h_t;
     divergence := fun _ terms _ =>
       match terms with
       | [a; b; c] => field_sum (field_sum a b) c
       | _ => []
       end;
     G := q 10 1 |}.

Definition thermodynamics : ThermodynamicsManager Water :=
  {| model := WaterModel water |}.

Definition ideal_gas : ThermodynamicsManager Water :=
  {| model := OtherModel |}.

(** The object that the constructor returns for [e_t] with the gravity axis
    [gravity]. *)
Definition built (flux subsidence : FlowFieldVal -> FlowFieldVal)
    (gravity : option nat) : result TotalEnergy :=
  __init__ (env flux subsidence) kernel_op (params gravity) "e_t"
    thermodynamics.

(** An object with the gravity axis [gravity] and the chosen terms
    included. *)
Definition object (flux subsidence : FlowFieldVal -> FlowFieldVal)
    (gravity : option nat) (radiation subsid precipitation : bool)
  : TotalEnergy :=
  {| base := {| _kernel_op := kernel_op;
                _params := params gravity;
                _scalar_name := "e_t";
                _thermodynamics := thermodynamics;
                _scalar_params := scalar_e_t;
                _h := (q 1 1, q 1 1, q 1 2);
                _g_dim := gravity |};
     _include_radiation := radiation;
     _include_subsidence := subsid;
     _include_precipitation := precipitation;
     _cloud := Some (new_Cloud (env flux subsidence) water);
     _microphysics :=
       Some (new_MicrophysicsKW1978 (env flux subsidence) (params gravity)
               water)
  |}.

End TE.

Module PT.
Import PotentialTemperature.

Definition water : Water :=
  {| saturation_adjustment := fun _ phi _ _ _ => phi;
     potential_temperatures := fun temperature _ _ _ => [("theta", temperature)];
     equilibrium_phase_partition :=
       fun temperature _ _ => (zeros temperature, zeros temperature);
     cp_m := fun q_t _ _ => constant (q 2 1) q_t;
     exner_inverse := fun rho_thermal _ _ _ => constant (q 3 1) rho_thermal |}.

(** The collaborators; the radiative flux is [flux rho_thermal] and the
    source by the subsidence velocity is [subsidence phi]. *)
Definition env (flux subsidence : FlowFieldVal -> FlowFieldVal)
  : Collaborators :=
  {| derive := derive_from_config;
     new_Cloud := fun _ =>
       {| source_by_radiation := fun _ rho_thermal _ _ _ _ _ _ =>
                                   flux rho_thermal |};
     new_MicrophysicsKW1978 := fun w => {| microphysics_model := w |};
     source_by_subsidence_velocity := fun _ _ _ _ phi _ => subsidence phi |}.

Definition thermodynamics : ThermodynamicsManager Water :=
  {| model := WaterModel water |}.

(** An object for the scalar [scalar_name] with the gravity axis [gravity]
    and the chosen terms included. *)
Definition object (flux subsidence : FlowFieldVal -> FlowFieldVal)
    (scalar_name : string) (gravity : option nat) (radiation subsid : bool)
  : PotentialTemperature :=
  {| base := {| _kernel_op := kernel_op;
                _params := params gravity;
                _scalar_name := scalar_name;
                _thermodynamics := thermodynamics;
                _scalar_params := scalar_theta scalar_name;
                _h := (q 1 1, q 1 1, q 1 2);
                _g_dim := gravity |};
     _microphysics := Some (new_MicrophysicsKW1978 (env flux subsidence) water);
     _cloud := Some (new_Cloud (env flux subsidence) water);
     _include_radiation := radiation;
     _include_subsidence := subsid |}.

End PT.

(** The objects of the run at rest: every optional term is included, and
    the collaborators return zeros for each. *)
Definition te_env : TotalEnergy.Collaborators := TE.env zeros zeros.
Definition te_obj : TotalEnergy.TotalEnergy :=
  TE.object zeros zeros (Some 2%nat) true true true.
Definition pt_env : PotentialTemperature.Collaborators := PT.env zeros zeros.
Definition pt_obj : PotentialTemperature.PotentialTemperature :=
  PT.object zeros zeros "theta_li" (Some 2%nat) true true.

End SourceExample.

(** * More runs of the boundary update *)

(** Two keys that hold the pattern for the variable [T]: the buffer
    [bc_T_0_1] and a key that only contains its name. *)
Module OutflowExample2.
Import Outflow.

Definition additional_states : StatesMap :=
  [("bc_T_0_1", [[[q 4 1]]]); ("prev_bc_T_0_1", [[[q 9 1]]])].

Definition run : result StatesMap :=
  get_boundary_update_fn single_replica_reduce OutflowExample.replicas
    OutflowExample.states additional_states OutflowExample.params.

End OutflowExample2.

(** One level of a 4 x 2 mesh on which the largest velocity of the outlet
    face is 0 while the outlet flux is not: nothing is convected out. *)
Module OutflowExample3.
Import Outflow.

Definition u : FlowFieldVal :=
  [[[q 1 1; q 1 1]; [q 1 1; q 1 1]; [q 0 1; q (-1) 1]; [q 0 1; q 0 1]]].
Definition rho : FlowFieldVal :=
  [[[q 1 1; q 1 1]; [q 1 1; q 1 1]; [q 1 1; q 1 1]; [q 1 1; q 1 1]]].
Definition T : FlowFieldVal :=
  [[[q 1 1; q 1 1]; [q 1 1; q 1 1]; [q 8 1; q 6 1]; [q 2 1; q 2 1]]].

Definition states : StatesMap := [("u", u); ("rho", rho); ("T", T)].

Definition additional_states : StatesMap := [("bc_T_0_1", [[[q 4 1; q 5 1]]])].

Definition run : result StatesMap :=
  get_boundary_update_fn single_replica_reduce OutflowExample.replicas
    states additional_states OutflowExample.params.

End OutflowExample3.

(** The run of [OutflowExample] with a time step for which [c = 1]. *)
Module OutflowExample4.
Import Outflow.

Definition params : GridParametrization :=
  {| halo_width := 1; dt := q 1 2; dx := q 1 1 |}.

Definition run : result StatesMap :=
  get_boundary_update_fn single_replica_reduce OutflowExample.replicas
    OutflowExample.states OutflowExample.additional_states params.

End OutflowExample4.

(** * More runs of the source functions *)

Module SourceExample2.
Import SourceExample.

(** A store with no velocity, in which the temperature and the potential
    temperature are held in [additional_states]. *)
Definition cached : Store :=
  {| states := [("rho", constant (q 2 1) phi); ("rho_thermal", ones);
                ("q_t", constant 0 phi)];
     additional_states := [("T", constant (q 5 1) phi);
                           ("theta", constant (q 6 1) phi)] |}.

(** The object of the potential temperature equation that the constructor
    returns on a thermodynamics model that is not water, both flags set. *)
Definition dry : PotentialTemperature.PotentialTemperature :=
  {| PotentialTemperature.base :=
       {| _kernel_op := kernel_op;
          _params := params (Some 2%nat);
          _scalar_name := "theta";
          _thermodynamics := {| model := OtherModel |};
          _scalar_params := scalar_theta "theta";
          _h := (q 1 1, q 1 1, q 1 2);
          _g_dim := Some 2%nat |};
     PotentialTemperature._microphysics := None;
     PotentialTemperature._cloud := None;
     PotentialTemperature._include_radiation := true;
     PotentialTemperature._include_subsidence := true |}.

(** The helper variables of the wall models on the store [moving], for the
    object [pt_obj] of the potential temperature equation. *)
Definition pt_helpers : StatesMap :=
  [("u", velocity); ("v", velocity); ("w", velocity); ("theta_li", phi);
   ("zz", zeros phi); ("T", phi); ("theta", phi); ("q_l", zeros phi);
   ("q_i", zeros phi)].

(** The store [moving] with an eddy viscosity of zeros. *)
Definition moving_sgs : Store :=
  {| states := states moving;
     additional_states := [("nu_t", zeros phi)] |}.

(** The object of the total energy equation of the example, with the
    subgrid-scale model in use. *)
Definition te_sgs : TotalEnergy.TotalEnergy :=
  {| TotalEnergy.base :=
       {| _kernel_op := kernel_op;
          _params :=
            {| use_sgs := true;
               nu := q 1 2;
               halo_width := 2;
               scalars := [scalar_e_t];
               g_dim := Some 2%nat;
               dx := q 1 1;
               dy := q 1 1;
               dz := q 1 2 |};
          _scalar_name := "e_t";
          _thermodynamics := TE.thermodynamics;
          _scalar_params := scalar_e_t;
          _h := (q 1 1, q 1 1, q 1 2);
          _g_dim := Some 2%nat |};
     TotalEnergy._include_radiation := true;
     TotalEnergy._include_subsidence := true;
     TotalEnergy._include_precipitation := true;
     TotalEnergy._cloud := Some (TotalEnergy.new_Cloud (TE.env same same) TE.water);
     TotalEnergy._microphysics :=
       Some (TotalEnergy.new_MicrophysicsKW1978 (TE.env same same)
               (params (Some 2%nat)) TE.water) |}.

End SourceExample2.

(** * The errors of a source function *)

(** The errors that come from the data handed to a function: a missing key,
    an index out of range, tensors of different shapes, structures of
    different lengths. The others ([NameError], [AttributeError],
    [TypeError], [AssertionError], [ConfigurationError]) would come from the
    object itself. *)
Definition input_error (e : error) : bool :=
  match e with
  | KeyError _ | IndexError | ShapeError | ValueError => true
  | _ => false
  end.

(** A result, and a computation, whose only errors are input errors. *)
Definition fails_on_input {A : Type} (r : result A) : Prop :=
  forall e, r = Err e -> input_error e = true.

Definition raises_on_input {A : Type} (m : M A) : Prop :=
  forall s e, eval m s = Err e -> input_error e = true.

Module TotalEnergySgs.
Import TotalEnergy.

(** The object with the subgrid-scale model switched off. *)
Definition without_sgs (self : TotalEnergy) : TotalEnergy :=
  let b := base self in
  let p := _params b in
  {| base := {| _kernel_op := _kernel_op b;
                _params := {| use_sgs := false;
                              nu := nu p;
                              halo_width := halo_width p;
                              scalars := scalars p;
                              g_dim := g_dim p;
                              dx := dx p;
                              dy := dy p;
                              dz := dz p |};
                _scalar_name := _scalar_name b;
                _thermodynamics := _thermodynamics b;
                _scalar_params := _scalar_params b;
                _h := _h b;
                _g_dim := _g_dim b |};
     _include_radiation := _include_radiation self;
     _include_subsidence := _include_subsidence self;
     _include_precipitation := _include_precipitation self;
     _cloud := _cloud self;
     _microphysics := _microphysics self |}.

End TotalEnergySgs.

(** * Vocabulary of the statements on the monitor *)

Module MonitorSpec.
Import Monitor.

(** The number of delimiters [_] of a name. *)
Fixpoint count_delimiters (s : string) : nat :=
  match s with
  | EmptyString => 0
  | String c r =>
      if Ascii.eqb c _MONITOR_NAME_DELIMITER
      then S (count_delimiters r)
      else count_delimiters r
  end.

(** A name with no delimiter. *)
Definition no_delimiter (s : string) : bool :=
  Nat.eqb (count_delimiters s) 0.

(** A name that is empty or begins with a character of the class [[\w+]]. *)
Definition begins_in_class (s : string) : bool :=
  match s with
  | EmptyString => true
  | String c _ => class_char c
  end.

(** The names and the shapes of the monitor variables; a variable that is a
    Python list has no shape. *)
Definition names (m : MonitorDataType) : list string := map fst m.

Definition shapes (m : MonitorDataType) : list (result (list nat)) :=
  map (fun item => shape_of (snd item)) m.

End MonitorSpec.

(** A monitor that averages from step 10 on, with a raw field of shape
    (1, 2), a scalar, and a moment that is as [_initial_moment] returns it
    when [periodic_dims] is [None]. *)
Module MonitorExample.
Import Monitor.

Definition field (a b : Qc) : Tensor :=
  {| tensor_shape := [1; 2]%nat; tensor_entries := [a; b] |}.

Definition scalar (a : Qc) : Tensor :=
  {| tensor_shape := []; tensor_entries := [a] |}.

(** [[tf.constant(0, shape=(1, 1))]] *)
Definition initial_moment : Value :=
  ListValue [{| tensor_shape := [1; 1]%nat; tensor_entries := [0] |}].

Definition monitor : Monitor :=
  {| _time_averaging := true;
     _averaging_start_step := 10;
     _averaging_end_step := Some 20%Z;
     _data := [("MONITOR_velocity_raw_u", TensorValue (field 0 0));
               ("MONITOR_pressure_subiter-scalar_convergence",
                TensorValue (scalar 0));
               ("MONITOR_velocity_moment_u", initial_moment)] |}.

End MonitorExample.

(** * Lemmas and theorems *)

Local Open Scope result_scope.

(** * Keys of the boundary buffers *)

Module RegexFacts.
Import Regex.

Lemma list_ascii_of_string_app (a b : string) :
  list_ascii_of_string (a ++ b)
  = (list_ascii_of_string a ++ list_ascii_of_string b)%list.
Proof.
  induction a as [| c a IH]; simpl.
  - reflexivity.
  - now rewrite IH.
Qed.

(** A run of word characters is taken whole. *)
Lemma span_word_all (l : list ascii) :
  forallb word_char l = true -> span_word l = (l, []).
Proof.
  induction l as [| c l IH]; simpl; intro H.
  - reflexivity.
  - apply andb_true_iff in H as [Hc Hl].
    rewrite Hc, (IH Hl). reflexivity.
Qed.

Lemma skipn_past (n : nat) (v l : list ascii) :
  skipn (n + List.length v) (v ++ l) = skipn n l.
Proof.
  rewrite skipn_app, skipn_all2 by lia.
  simpl. f_equal. lia.
Qed.

Lemma firstn_exact (v l : list ascii) :
  firstn (List.length v) (v ++ l) = v.
Proof.
  rewrite firstn_app, firstn_all, Nat.sub_diag, firstn_O.
  apply app_nil_r.
Qed.

(** Backtracking from the end of [v ++ "_0_1"] stops when the group is [v]:
    the four shorter candidates leave fewer than four characters. *)
Lemma backtrack_exact (v : list ascii) :
  v <> [] ->
  backtrack (4 + List.length v) (v ++ literal_0_1) = Some v.
Proof.
  intro Hv.
  change (4 + List.length v)%nat with (S (3 + List.length v)).
  cbn [backtrack].
  change (S (3 + List.length v)) with (4 + List.length v)%nat.
  rewrite skipn_past. cbn [skipn literal_0_1 list_ascii_of_string starts_with].
  change (3 + List.length v)%nat with (S (2 + List.length v)).
  cbn [backtrack].
  change (S (2 + List.length v)) with (3 + List.length v)%nat.
  rewrite skipn_past. cbn [skipn literal_0_1 list_ascii_of_string starts_with].
  cbn [Ascii.eqb Bool.eqb andb].
  change (2 + List.length v)%nat with (S (1 + List.length v)).
  cbn [backtrack].
  change (S (1 + List.length v)) with (2 + List.length v)%nat.
  rewrite skipn_past. cbn [skipn literal_0_1 list_ascii_of_string starts_with].
  cbn [Ascii.eqb Bool.eqb andb].
  change (1 + List.length v)%nat with (S (0 + List.length v)).
  cbn [backtrack].
  change (S (0 + List.length v)) with (1 + List.length v)%nat.
  rewrite skipn_past. cbn [skipn literal_0_1 list_ascii_of_string starts_with].
  cbn [Ascii.eqb Bool.eqb andb].
  change (0 + List.length v)%nat with (List.length v).
  destruct v as [| c v']; [contradiction Hv; reflexivity |].
  change (List.length (c :: v')) with (S (List.length v')).
  cbn [backtrack].
  change (S (List.length v')) with (0 + List.length (c :: v'))%nat.
  rewrite skipn_past.
  change (0 + List.length (c :: v'))%nat with (List.length (c :: v')).
  rewrite firstn_exact. reflexivity.
Qed.

(** The key built from a variable name is matched, with that name as the
    group: [re.search(r'bc_(\w+)_0_1', 'bc_{}_0_1'.format(var))] finds [var]
    whenever [var] is a non-empty run of word characters. *)
Lemma search_bc_key (var : string) :
  word var = true ->
  search ("bc_" ++ var ++ "_0_1") = Some var.
Proof.
  unfold word, search. intro Hw.
  rewrite !list_ascii_of_string_app.
  set (v := list_ascii_of_string var) in *.
  assert (Hv : v <> []) by (destruct v; [discriminate Hw | discriminate]).
  assert (Hall : forallb word_char v = true) by (destruct v; [discriminate Hw | exact Hw]).
  change (list_ascii_of_string "bc_") with literal_bc.
  change (list_ascii_of_string "_0_1") with literal_0_1.
  assert (Hm : match_here (literal_bc ++ v ++ literal_0_1) = Some v).
  { unfold match_here.
    cbn [literal_bc list_ascii_of_string app starts_with skipn Ascii.eqb Bool.eqb andb].
    rewrite span_word_all.
    - cbn [fst]. rewrite length_app, Nat.add_comm.
      exact (backtrack_exact v Hv).
    - rewrite forallb_app, Hall. reflexivity. }
  assert (Hs : search_from (literal_bc ++ v ++ literal_0_1) = Some v).
  { destruct (literal_bc ++ v ++ literal_0_1)%list eqn:E;
      cbn [search_from]; rewrite Hm; reflexivity. }
  rewrite Hs. cbn [option_map]. unfold v.
  now rewrite string_of_list_ascii_of_string.
Qed.

End RegexFacts.

(** * Results and lists *)

Lemma bind_ok {A B : Type} (m : result A) (k : A -> result B) (b : B) :
  bind m k = Ok b -> exists a, m = Ok a /\ k a = Ok b.
Proof.
  destruct m as [a | e]; simpl; intro H.
  - exists a. split; [reflexivity | exact H].
  - discriminate.
Qed.

Ltac inv_bind H :=
  let a := fresh "a" in
  let Ha := fresh "Ha" in
  apply bind_ok in H; destruct H as (a & Ha & H).

Lemma mapM_nth {A B : Type} (f : A -> result B) (l : list A) (l' : list B) :
  mapM f l = Ok l' ->
  forall i y, nth_error l' i = Some y ->
              exists x, nth_error l i = Some x /\ f x = Ok y.
Proof.
  revert l'. induction l as [| x r IH]; simpl; intros l' H i y Hy.
  - injection H as <-. destruct i; discriminate.
  - inv_bind H. inv_bind H. injection H as <-.
    destruct i as [| i]; simpl in *.
    + injection Hy as <-. exists x. split; [reflexivity | assumption].
    + eapply IH; eassumption.
Qed.

Lemma mapM_nth_inv {A B : Type} (f : A -> result B) (l : list A) (l' : list B) :
  mapM f l = Ok l' ->
  forall i x, nth_error l i = Some x ->
              exists y, nth_error l' i = Some y /\ f x = Ok y.
Proof.
  revert l'. induction l as [| x0 r IH]; simpl; intros l' H i x Hx.
  - destruct i; discriminate.
  - inv_bind H. inv_bind H. injection H as <-.
    destruct i as [| i]; simpl in *.
    + injection Hx as <-. exists a. split; [reflexivity | assumption].
    + eapply IH; eassumption.
Qed.

Lemma mapM_length {A B : Type} (f : A -> result B) (l : list A) (l' : list B) :
  mapM f l = Ok l' -> List.length l' = List.length l.
Proof.
  revert l'. induction l as [| x r IH]; simpl; intros l' H.
  - injection H as <-. reflexivity.
  - inv_bind H. inv_bind H. injection H as <-. simpl. f_equal. auto.
Qed.

Lemma mapM_total {A B : Type} (f : A -> result B) (l : list A) :
  Forall (fun x => exists y, f x = Ok y) l -> exists l', mapM f l = Ok l'.
Proof.
  induction 1 as [| x r (y & Hy) _ (l' & Hl')]; simpl.
  - eexists. reflexivity.
  - rewrite Hy, Hl'. simpl. eexists. reflexivity.
Qed.

Lemma zip1_nth (op : Qc -> Qc -> Qc) (a b c : Tensor1) :
  zip1 op a b = Ok c ->
  forall j z, nth_error c j = Some z ->
              exists x y, nth_error a j = Some x /\ nth_error b j = Some y
                          /\ z = op x y.
Proof.
  revert b c. induction a as [| x a IH]; intros [| y b] c H j z Hz;
    simpl in H; try discriminate.
  - injection H as <-. destruct j; discriminate.
  - inv_bind H. injection H as <-.
    destruct j as [| j]; simpl in *.
    + injection Hz as <-. exists x, y. auto.
    + eapply IH; eassumption.
Qed.

Lemma zip1_length (op : Qc -> Qc -> Qc) (a b c : Tensor1) :
  zip1 op a b = Ok c -> List.length c = List.length a.
Proof.
  revert b c. induction a as [| x a IH]; intros [| y b] c H;
    simpl in H; try discriminate.
  - injection H as <-. reflexivity.
  - inv_bind H. injection H as <-. simpl. f_equal. eauto.
Qed.

Lemma zip1_total (op : Qc -> Qc -> Qc) (a b : Tensor1) :
  List.length a = List.length b -> exists c, zip1 op a b = Ok c.
Proof.
  revert b. induction a as [| x a IH]; intros [| y b] H;
    simpl in H; try discriminate.
  - eexists. reflexivity.
  - injection H as H. destruct (IH b H) as (c & Hc).
    simpl. rewrite Hc. eexists. reflexivity.
Qed.

Lemma getitem_ok (m : StatesMap) (key : string) (v : FlowFieldVal) :
  getitem m key = Ok v <-> lookup key m = Some v.
Proof.
  unfold getitem. destruct (lookup key m); split; intro H;
    try discriminate; injection H as <-; reflexivity.
Qed.

(** * The faces of a mesh tensor *)

Lemma x_face_nth (i : Z) (t : Tensor2) (row : Tensor1) :
  x_face i t = Ok row -> exists k, nth_error t k = Some row.
Proof.
  unfold x_face. destruct (_ && _); [| discriminate].
  destruct (nth_error t _) eqn:E; [| discriminate].
  intro H. injection H as <-. eauto.
Qed.

Lemma x_face_total (nx ny : nat) (i : Z) (t : Tensor2) :
  mesh_tensor nx ny t ->
  (- Z.of_nat nx <= i < Z.of_nat nx)%Z ->
  exists row, x_face i t = Ok row /\ List.length row = ny.
Proof.
  intros [Hlen Hrows] Hi. unfold x_face. rewrite Hlen.
  set (j := if (i <? 0)%Z then (i + Z.of_nat nx)%Z else i).
  assert (Hj : (0 <= j < Z.of_nat nx)%Z).
  { subst j. destruct (Z.ltb_spec i 0); lia. }
  replace ((0 <=? j)%Z && (j <? Z.of_nat nx)%Z) with true
    by (symmetry; apply andb_true_intro; split;
        [apply Z.leb_le | apply Z.ltb_lt]; lia).
  destruct (nth_error t (Z.to_nat j)) as [row |] eqn:E.
  - exists row. split; [reflexivity |].
    unfold rows_of_length in Hrows. rewrite Forall_forall in Hrows.
    apply Hrows. eapply nth_error_In. eassumption.
  - apply nth_error_None in E. lia.
Qed.

Module OutflowFacts.
Import Outflow OutflowSpec.

Section Facts.

Variable global_reduce : GlobalReduce.
Variable replicas : list (list (list nat)).
Variable states additional_states : StatesMap.
Variable params : GridParametrization.

(** Every entry of an updated level is
    [factor * (coeff * old + (1 - coeff) * upstream)]. *)
Lemma update_slice_entry (factor coeff : Qc) (u_j u_j_1 t : Tensor2) :
  update_slice params factor coeff u_j u_j_1 = Ok t ->
  forall k row j x,
    nth_error t k = Some row -> nth_error row j = Some x ->
    exists old_row up_row old up,
      nth_error u_j k = Some old_row /\ nth_error old_row j = Some old
      /\ x_face (outlet_face params) u_j_1 = Ok up_row
      /\ nth_error up_row j = Some up
      /\ x = factor * (coeff * old + (1 - coeff) * up).
Proof.
  unfold update_slice. intros H k row j x Hrow Hx.
  inv_bind H. rename a into up_row. inv_bind H. rename a into s.
  injection H as <-.
  unfold scale2 in Hrow. rewrite nth_error_map in Hrow.
  destruct (nth_error s k) as [srow |] eqn:Es; [| discriminate].
  injection Hrow as <-.
  unfold scale1 in Hx. rewrite nth_error_map in Hx.
  destruct (nth_error srow j) as [y |] eqn:Ey; [| discriminate].
  injection Hx as <-.
  unfold add_row in Ha0.
  destruct (mapM_nth _ _ _ Ha0 _ _ Es) as (crow & Hcrow & Hzip).
  destruct (zip1_nth _ _ _ _ Hzip _ _ Ey) as (a & b & Hca & Hcb & ->).
  unfold scale2 in Hcrow. rewrite nth_error_map in Hcrow.
  destruct (nth_error u_j k) as [old_row |] eqn:Eo; [| discriminate].
  injection Hcrow as <-.
  unfold scale1 in Hca, Hcb. rewrite nth_error_map in Hca, Hcb.
  destruct (nth_error old_row j) as [old |] eqn:Eold; [| discriminate].
  destruct (nth_error up_row j) as [up |] eqn:Eup; [| discriminate].
  injection Hca as <-. injection Hcb as <-.
  exists old_row, up_row, old, up. repeat split; auto.
Qed.

Lemma update_boundary_values_entry (mass_correction coeff : Qc)
    (var : string) (new : FlowFieldVal) :
  update_boundary_values states additional_states params mass_correction coeff
    var = Ok new ->
  exists bc phi,
    lookup ("bc_" ++ var ++ "_0_1") additional_states = Some bc
    /\ lookup var states = Some phi
    /\ List.length new = Nat.min (List.length bc) (List.length phi)
    /\ forall z k j x,
        entry new z k j = Some x ->
        exists old up,
          entry bc z k j = Some old
          /\ face_entry (outlet_face params) phi z j = Some up
          /\ x = (if String.eqb var "u" then mass_correction else 1)
                 * (coeff * old + (1 - coeff) * up).
Proof.
  unfold update_boundary_values. intro H.
  inv_bind H. rename a into bc. inv_bind H. rename a into phi.
  apply getitem_ok in Ha, Ha0.
  exists bc, phi. repeat split; auto.
  - rewrite (mapM_length _ _ _ H). apply length_combine.
  - intros z k j x Hx. unfold entry in Hx.
    destruct (nth_error new z) as [t |] eqn:Et; [| discriminate].
    destruct (nth_error t k) as [row |] eqn:Erow; [| discriminate].
    destruct (mapM_nth _ _ _ H _ _ Et) as ([u_j u_j_1] & Hc & Hs).
    destruct (update_slice_entry _ _ _ _ _ Hs _ _ _ _ Erow Hx)
      as (old_row & up_row & old & up & H1 & H2 & H3 & H4 & ->).
    assert (Hz : nth_error bc z = Some u_j /\ nth_error phi z = Some u_j_1).
    { clear - Hc. revert phi z Hc.
      induction bc as [| b bc IH]; intros [| p phi] [| z] Hc; simpl in *;
        try discriminate.
      - injection Hc as <- <-. auto.
      - auto. }
    destruct Hz as [Hb Hp].
    exists old, up. unfold entry, face_entry.
    rewrite Hb, H1, Hp, H3. auto.
Qed.

(** The dictionary comprehension keeps the keys, in their order, and every
    value whose key the pattern does not match. *)
Lemma update_items_frame (mass_correction coeff : Qc) (m out : StatesMap) :
  mapM (update_item states additional_states params mass_correction coeff) m
  = Ok out ->
  keys out = keys m
  /\ forall i key val,
      nth_error m i = Some (key, val) ->
      exists new,
        nth_error out i = Some (key, new)
        /\ match Regex.search key with
           | Some var =>
               update_boundary_values states additional_states params
                 mass_correction coeff var = Ok new
           | None => new = val
           end.
Proof.
  revert out. induction m as [| [k v] m IH]; simpl; intros out H.
  - injection H as <-. split; [reflexivity |].
    intros [| i] ? ? Hi; discriminate.
  - inv_bind H. inv_bind H. injection H as <-.
    destruct (IH _ Ha0) as [Hk Hv].
    assert (Hitem : exists new, a = (k, new)
              /\ match Regex.search k with
                 | Some var =>
                     update_boundary_values states additional_states params
                       mass_correction coeff var = Ok new
                 | None => new = v
                 end).
    { destruct (Regex.search k) as [var |].
      - inv_bind Ha. injection Ha as <-. eauto.
      - injection Ha as <-. eauto. }
    destruct Hitem as (new & -> & Hnew).
    split.
    + simpl. f_equal. exact Hk.
    + intros [| i] key val Hi; simpl in *.
      * injection Hi as <- <-. eauto.
      * eauto.
Qed.

End Facts.

End OutflowFacts.

Module OutflowTotal.
Import Outflow OutflowSpec OutflowFacts.

Section Total.

Variable global_reduce : GlobalReduce.
Variable replicas : list (list (list nat)).
Variable states additional_states : StatesMap.
Variable params : GridParametrization.
Variables nx ny : nat.
Hypothesis shaped : well_shaped nx ny states additional_states params.

Lemma outlet_face_in_range :
  (- Z.of_nat nx <= outlet_face params < Z.of_nat nx)%Z.
Proof. destruct shaped. unfold outlet_face. lia. Qed.

Lemma inlet_face_in_range :
  (- Z.of_nat nx <= halo_width params < Z.of_nat nx)%Z.
Proof. destruct shaped. lia. Qed.

Lemma u_max_total : exists um, u_max global_reduce replicas states params = Ok um.
Proof.
  destruct (ws_u _ _ _ _ _ shaped) as (u & Hu & Hne & Hmesh).
  unfold u_max, u_max_operand, getitem. rewrite Hu. simpl.
  destruct (mapM_total (x_face (outlet_face params)) u) as (rows & Hrows).
  { eapply Forall_impl; [| exact Hmesh]. intros t Ht.
    destruct (x_face_total _ _ _ _ Ht outlet_face_in_range) as (row & Hr & _).
    eauto. }
  rewrite Hrows. simpl.
  destruct rows as [| r rows].
  - apply mapM_length in Hrows. destruct u; [congruence | discriminate].
  - simpl. eauto.
Qed.

Lemma mass_flux_total (face : Z) :
  (- Z.of_nat nx <= face < Z.of_nat nx)%Z ->
  exists m, mass_flux_x_face global_reduce replicas states face = Ok m.
Proof.
  intro Hface.
  destruct (ws_u _ _ _ _ _ shaped) as (u & Hu & Hne & Hmesh).
  destruct (ws_rho _ _ _ _ _ shaped) as (rho & Hrho & Hner & Hmeshr).
  unfold mass_flux_x_face, mass_flux_operand, getitem. rewrite Hrho, Hu. simpl.
  match goal with |- context [mapM ?f (combine rho u)] =>
    destruct (mapM_total f (combine rho u)) as (rows & Hrows) end.
  { apply Forall_forall. intros [r v] Hin.
    rewrite Forall_forall in Hmesh, Hmeshr.
    destruct (x_face_total _ _ _ _ (Hmeshr _ (in_combine_l _ _ _ _ Hin)) Hface)
      as (a & Ha & Hla).
    destruct (x_face_total _ _ _ _ (Hmesh _ (in_combine_r _ _ _ _ Hin)) Hface)
      as (b & Hb & Hlb).
    rewrite Ha, Hb. simpl. apply zip1_total. congruence. }
  rewrite Hrows. simpl.
  destruct rows as [| r rows].
  - apply mapM_length in Hrows. destruct rho; [congruence |].
    destruct u; [congruence | discriminate].
  - simpl. eauto.
Qed.

Lemma update_boundary_values_total (mass_correction coeff : Qc)
    (key var : string) (val : FlowFieldVal) :
  In (key, val) additional_states ->
  Regex.search key = Some var ->
  exists new,
    update_boundary_values states additional_states params mass_correction
      coeff var = Ok new.
Proof.
  intros Hin Hs.
  destruct (ws_bc _ _ _ _ _ shaped _ _ _ Hin Hs)
    as (bc & phi & Hbc & Hphi & Hrows & Hmesh).
  unfold update_boundary_values, getitem. rewrite Hbc, Hphi. simpl.
  apply mapM_total. apply Forall_forall. intros [b t] Hc.
  rewrite Forall_forall in Hrows, Hmesh.
  destruct (x_face_total _ _ _ _ (Hmesh _ (in_combine_r _ _ _ _ Hc))
              outlet_face_in_range) as (up & Hup & Hlen).
  unfold update_slice. rewrite Hup. simpl.
  destruct (mapM_total
              (fun row => zip1 Qcplus row (scale1 (1 - coeff) up))
              (scale2 coeff b)) as (s & Hs').
  { apply Forall_forall. intros row Hrow. apply zip1_total.
    unfold scale2 in Hrow. apply in_map_iff in Hrow.
    destruct Hrow as (row0 & <- & Hrow0).
    unfold scale1. rewrite !length_map, Hlen.
    specialize (Hrows _ (in_combine_l _ _ _ _ Hc)).
    unfold rows_of_length in Hrows. rewrite Forall_forall in Hrows. auto. }
  unfold add_row. rewrite Hs'. simpl. eauto.
Qed.

(** On well-shaped inputs the boundary update returns a dictionary. *)
Lemma get_boundary_update_fn_total :
  exists out,
    get_boundary_update_fn global_reduce replicas states additional_states
      params = Ok out.
Proof.
  unfold get_boundary_update_fn.
  destruct u_max_total as (um & ->). simpl.
  destruct (mass_flux_total _ outlet_face_in_range) as (me & ->). simpl.
  destruct (mass_flux_total _ inlet_face_in_range) as (mi & ->). simpl.
  apply mapM_total. apply Forall_forall. intros [key val] Hin.
  unfold update_item. destruct (Regex.search key) as [var |] eqn:Hs.
  - destruct (update_boundary_values_total (mi / me) (1 - cfl_of params um)
                _ _ _ Hin Hs) as (new & ->).
    simpl. eauto.
  - eauto.
Qed.

End Total.

End OutflowTotal.

Module OutflowTheorems.
Import Outflow OutflowSpec OutflowFacts OutflowTotal.

(** What a successful run of the update has computed. *)
Lemma get_boundary_update_fn_ok gr replicas st ast p out :
  get_boundary_update_fn gr replicas st ast p = Ok out ->
  exists um m_out m_in,
    u_max gr replicas st p = Ok um
    /\ mass_flux_x_face gr replicas st (outlet_face p) = Ok m_out
    /\ mass_flux_x_face gr replicas st (halo_width p) = Ok m_in
    /\ mapM (update_item st ast p (m_in / m_out) (1 - cfl_of p um)) ast
       = Ok out.
Proof.
  unfold get_boundary_update_fn. intro H.
  inv_bind H. inv_bind H. inv_bind H. eauto 8.
Qed.

Lemma updated_entry gr replicas st ast p out um m_out m_in i key val var new
    bc phi z k j x :
  get_boundary_update_fn gr replicas st ast p = Ok out ->
  u_max gr replicas st p = Ok um ->
  mass_flux_x_face gr replicas st (outlet_face p) = Ok m_out ->
  mass_flux_x_face gr replicas st (halo_width p) = Ok m_in ->
  nth_error ast i = Some (key, val) ->
  Regex.search key = Some var ->
  nth_error out i = Some (key, new) ->
  lookup ("bc_" ++ var ++ "_0_1") ast = Some bc ->
  lookup var st = Some phi ->
  entry new z k j = Some x ->
  exists old up,
    entry bc z k j = Some old
    /\ face_entry (outlet_face p) phi z j = Some up
    /\ x = (if String.eqb var "u" then m_in / m_out else 1)
           * ((1 - cfl_of p um) * old + (1 - (1 - cfl_of p um)) * up).
Proof.
  intros Hrun Hum Hout Hin Hi Hs Hnew Hbc Hphi Hx.
  destruct (get_boundary_update_fn_ok _ _ _ _ _ _ Hrun)
    as (um' & mo & mi & Hum' & Hmo & Hmi & Hmap).
  assert (um' = um) by congruence.
  assert (mo = m_out) by congruence.
  assert (mi = m_in) by congruence. subst.
  destruct (update_items_frame _ _ _ _ _ _ _ Hmap) as [_ Hitems].
  destruct (Hitems _ _ _ Hi) as (new' & Hnew' & Hupd).
  rewrite Hs in Hupd.
  assert (new' = new) by congruence. subst.
  destruct (update_boundary_values_entry _ _ _ _ _ _ _ Hupd)
    as (bc' & phi' & Hbc' & Hphi' & _ & Hentry).
  assert (bc' = bc) by congruence.
  assert (phi' = phi) by congruence. subst.
  exact (Hentry _ _ _ _ Hx).
Qed.

(** A successful element-wise product is the product of the pairs. *)
Lemma zip1_combine (op : Qc -> Qc -> Qc) (a b c : Tensor1) :
  zip1 op a b = Ok c ->
  c = map (fun xy => op (fst xy) (snd xy)) (combine a b).
Proof.
  revert b c. induction a as [| x a IH]; intros [| y b] c H; simpl in H;
    try discriminate.
  - injection H as <-. reflexivity.
  - inv_bind H. injection H as <-. simpl. f_equal. apply IH. assumption.
Qed.

Lemma mapM_concat {A : Type} (f : A -> result Tensor1) (g : A -> Tensor1)
    (l : list A) (rows : list Tensor1) :
  (forall a row, f a = Ok row -> row = g a) ->
  mapM f l = Ok rows ->
  List.concat rows = flat_map g l.
Proof.
  intro Hfg. revert rows. induction l as [| a l IH]; intros rows H;
    simpl in H.
  - injection H as <-. reflexivity.
  - inv_bind H. inv_bind H. injection H as <-. simpl.
    f_equal; [apply Hfg; assumption | apply IH; assumption].
Qed.

(** The operand of a mass flux reduction holds the products [rho * u] on the
    face. *)
Lemma mass_flux_operand_spec st face operand rho u :
  mass_flux_operand st face = Ok operand ->
  lookup "rho" st = Some rho ->
  lookup "u" st = Some u ->
  operand = face_products face rho u.
Proof.
  unfold mass_flux_operand. intros H Hrho Hu.
  inv_bind H. inv_bind H. inv_bind H.
  apply getitem_ok in Ha, Ha0.
  assert (a = rho) by congruence. assert (a0 = u) by congruence. subst.
  unfold tf_concat in H. destruct a1 as [| row rows]; [discriminate |].
  injection H as <-. unfold face_products.
  refine (mapM_concat _ _ _ _ _ Ha1).
  intros [rho_i u_i] r Hr. simpl.
  inv_bind Hr. inv_bind Hr. unfold face_row. rewrite Ha2, Ha3.
  apply (zip1_combine _ _ _ _ Hr).
Qed.

(** A mass flux the update has computed is the reduced sum of the products
    [rho * u] on the face. *)
Lemma mass_flux_x_face_spec gr replicas st face m rho u :
  mass_flux_x_face gr replicas st face = Ok m ->
  lookup "rho" st = Some rho ->
  lookup "u" st = Some u ->
  m = face_mass_flux gr replicas face rho u.
Proof.
  unfold mass_flux_x_face. intros H Hrho Hu. inv_bind H. injection H as <-.
  unfold face_mass_flux. f_equal.
  exact (mass_flux_operand_spec _ _ _ _ _ Ha Hrho Hu).
Qed.

(** The largest outlet velocity that the update has computed is the reduced
    maximum of [u] over the outlet face. *)
Lemma u_max_spec gr replicas st p um u :
  u_max gr replicas st p = Ok um ->
  lookup "u" st = Some u ->
  cfl_of p um = courant gr replicas p u.
Proof.
  unfold u_max, u_max_operand. intros H Hu.
  inv_bind H. inv_bind Ha. inv_bind Ha. apply getitem_ok in Ha0.
  assert (a0 = u) by congruence. subst a0.
  injection H as <-.
  unfold tf_concat in Ha. destruct a1 as [| row rows]; [discriminate |].
  injection Ha as <-.
  unfold cfl_of, courant, outlet_values. do 3 f_equal.
  refine (mapM_concat _ _ _ _ _ Ha1).
  intros t r Hr. unfold face_row. rewrite Hr. reflexivity.
Qed.

(** C1, as amended. For every key of [additional_states] that the pattern
    [bc_(\w+)_0_1] matches with a variable [var], the entries of the updated
    buffer are as follows, where [old] is the entry of the buffer
    [bc_<var>_0_1] (the buffer of the key itself when the key is
    [bc_<var>_0_1], see [RegexFacts.search_bc_key]), [upstream] the entry of
    the outlet face of the variable in [states], [c = dt * u_max / dx], and
    [u_max] the reduction by maximum of the outlet face of [u] over the
    replicas ([OutflowSpec.courant]); [c] is not clamped. For a variable
    other than [u] the entry is [(1 - c) * old + c * upstream]. For the
    variable [u], when the mass flux through the outlet face is not zero, the
    entry is this value times the mass flux correction: the reduced sum of
    [rho * u] over the inlet face divided by the reduced sum of [rho * u]
    over the outlet face. *)
Theorem outflow_upwind_update gr replicas st ast p key var :
  Regex.search key = Some var ->
  (var <> "u" -> upwind_update_at gr replicas st ast p key var)
  /\ (var = "u" -> corrected_update_at gr replicas st ast p key).
Proof.
  intros Hs. split.
  - intros Hvar out u bc phi i val new z k j x Hrun Hu Hi Hnew Hbc Hphi Hx c.
    destruct (get_boundary_update_fn_ok _ _ _ _ _ _ Hrun)
      as (um & mo & mi & Hum & Hmo & Hmi & _).
    destruct (updated_entry _ _ _ _ _ _ _ _ _ _ _ _ _ _ _ _ _ _ _ _
                Hrun Hum Hmo Hmi Hi Hs Hnew Hbc Hphi Hx)
      as (old & up & Hold & Hup & ->).
    exists old, up. repeat split; auto.
    apply String.eqb_neq in Hvar. rewrite Hvar.
    rewrite (u_max_spec _ _ _ _ _ _ Hum Hu). fold c. ring.
  - intros -> out rho u bc i val new z k j x Hrun Hrho Hu Hexit Hi Hnew Hbc
      Hx c.
    destruct (get_boundary_update_fn_ok _ _ _ _ _ _ Hrun)
      as (um & mo & mi & Hum & Hmo & Hmi & _).
    destruct (updated_entry _ _ _ _ _ _ _ _ _ _ _ _ _ _ _ _ _ _ _ _
                Hrun Hum Hmo Hmi Hi Hs Hnew Hbc Hu Hx)
      as (old & up & Hold & Hup & ->).
    exists old, up. repeat split; auto.
    rewrite (mass_flux_x_face_spec _ _ _ _ _ _ _ Hmo Hrho Hu).
    rewrite (mass_flux_x_face_spec _ _ _ _ _ _ _ Hmi Hrho Hu).
    rewrite (u_max_spec _ _ _ _ _ _ Hum Hu). fold c.
    simpl. f_equal. ring.
Qed.

End OutflowTheorems.

Lemma list_eqb_sound {A : Type} (eqb : A -> A -> bool) :
  (forall x y, eqb x y = true -> x = y) ->
  forall l1 l2, list_eqb eqb l1 l2 = true -> l1 = l2.
Proof.
  intros Hsound. induction l1 as [| x r1 IH]; intros [| y r2] H;
    simpl in H; try discriminate.
  - reflexivity.
  - apply andb_prop in H. destruct H as [Hx Hr].
    f_equal; [apply Hsound; assumption | apply IH; assumption].
Qed.

Lemma field_eqb_sound (a b : FlowFieldVal) : field_eqb a b = true -> a = b.
Proof.
  apply list_eqb_sound, list_eqb_sound, list_eqb_sound.
  exact Qc_eq_bool_correct.
Qed.

Lemma states_eqb_sound (a b : StatesMap) : states_eqb a b = true -> a = b.
Proof.
  apply list_eqb_sound. intros [k v] [k' v'] H. unfold item_eqb in H.
  simpl in H. apply andb_prop in H. destruct H as [Hk Hv].
  apply String.eqb_eq in Hk. apply field_eqb_sound in Hv. congruence.
Qed.

Lemma result_eqb_sound {A : Type} (eqb : A -> A -> bool) :
  (forall x y, eqb x y = true -> x = y) ->
  forall r1 r2, result_eqb eqb r1 r2 = true -> r1 = r2.
Proof.
  intros Hsound [a | e] [b | e'] H; simpl in H; try discriminate.
  f_equal. apply Hsound. assumption.
Qed.

Lemma Qc_eqb_sound_option (a b : Qc) :
  Qc_eq_bool a b = true -> Some a = Some b.
Proof. intro H. f_equal. apply Qc_eq_bool_correct. assumption. Qed.

(** Evaluation of a run, of a scalar result or of an entry. *)
Ltac run_states := apply (result_eqb_sound _ states_eqb_sound); vm_compute; reflexivity.
Ltac run_field := apply (result_eqb_sound _ field_eqb_sound); vm_compute; reflexivity.
Ltac run_scalar := apply (result_eqb_sound _ Qc_eq_bool_correct); vm_compute; reflexivity.
Ltac run_entry := apply Qc_eqb_sound_option; vm_compute; reflexivity.
Ltac run_qc := apply Qc_eq_bool_correct; vm_compute; reflexivity.

Module OutflowWitness.
Import Outflow OutflowSpec OutflowFacts OutflowTotal OutflowTheorems.

Lemma example_run :
  OutflowExample.run
  = Ok [("bc_u_0_1", [[[q 3 2]]]); ("zz", [[[q 7 1]]]);
        ("bc_T_0_1", [[[q 6 1]]])].
Proof. run_states. Qed.

Lemma example_u_max :
  u_max single_replica_reduce OutflowExample.replicas OutflowExample.states
    OutflowExample.params = Ok (q 2 1).
Proof. run_scalar. Qed.

(** On the example run the pattern matches [bc_T_0_1] with [T], and the new
    entry 6 of the buffer is (1 - c) * 4 + c * 8 with c = 1/4 * 2 / 1; it
    matches [bc_u_0_1] with [u], the inlet flux is 1, the outlet flux 2, and
    the new entry 3/2 of the buffer is 1/2 * ((1 - c) * 4 + c * 2). *)
Lemma outflow_upwind_update_witness :
  courant single_replica_reduce OutflowExample.replicas OutflowExample.params
    OutflowExample.u = q 1 2
  /\ Regex.search "bc_T_0_1" = Some "T"
  /\ (exists old up,
        entry [[[q 4 1]]] 0 0 0 = Some old
        /\ face_entry (outlet_face OutflowExample.params) OutflowExample.T 0 0
           = Some up
        /\ q 6 1
           = (1 - courant single_replica_reduce OutflowExample.replicas
                    OutflowExample.params OutflowExample.u) * old
             + courant single_replica_reduce OutflowExample.replicas
                 OutflowExample.params OutflowExample.u * up)
  /\ Regex.search "bc_u_0_1" = Some "u"
  /\ face_mass_flux single_replica_reduce OutflowExample.replicas
       (outlet_face OutflowExample.params) OutflowExample.rho OutflowExample.u
     <> 0
  /\ (exists old up,
        entry [[[q 4 1]]] 0 0 0 = Some old
        /\ face_entry (outlet_face OutflowExample.params) OutflowExample.u 0 0
           = Some up
        /\ q 3 2
           = face_mass_flux single_replica_reduce OutflowExample.replicas
               (halo_width OutflowExample.params) OutflowExample.rho
               OutflowExample.u
             / face_mass_flux single_replica_reduce OutflowExample.replicas
                 (outlet_face OutflowExample.params) OutflowExample.rho
                 OutflowExample.u
             * ((1 - courant single_replica_reduce OutflowExample.replicas
                       OutflowExample.params OutflowExample.u) * old
                + courant single_replica_reduce OutflowExample.replicas
                    OutflowExample.params OutflowExample.u * up)).
Proof.
  assert (Hexit : face_mass_flux single_replica_reduce OutflowExample.replicas
                    (outlet_face OutflowExample.params) OutflowExample.rho
                    OutflowExample.u <> 0).
  { intro H. apply (f_equal this) in H. vm_compute in H. discriminate. }
  split; [run_qc |]. split; [reflexivity |].
  split; [| split; [reflexivity | split; [exact Hexit |]]].
  - pose proof (proj1 (outflow_upwind_update single_replica_reduce
                         OutflowExample.replicas OutflowExample.states
                         OutflowExample.additional_states
                         OutflowExample.params "bc_T_0_1" "T" eq_refl)
                  ltac:(discriminate)) as H.
    apply (H [("bc_u_0_1", [[[q 3 2]]]); ("zz", [[[q 7 1]]]);
              ("bc_T_0_1", [[[q 6 1]]])]
             OutflowExample.u [[[q 4 1]]] OutflowExample.T 2%nat [[[q 4 1]]]
             [[[q 6 1]]] 0%nat 0%nat 0%nat (q 6 1)).
    + exact example_run.
    + reflexivity.
    + reflexivity.
    + reflexivity.
    + reflexivity.
    + reflexivity.
    + reflexivity.
  - pose proof (proj2 (outflow_upwind_update single_replica_reduce
                         OutflowExample.replicas OutflowExample.states
                         OutflowExample.additional_states
                         OutflowExample.params "bc_u_0_1" "u" eq_refl)
                  eq_refl) as H.
    apply (H [("bc_u_0_1", [[[q 3 2]]]); ("zz", [[[q 7 1]]]);
              ("bc_T_0_1", [[[q 6 1]]])]
             OutflowExample.rho OutflowExample.u [[[q 4 1]]] 0%nat
             [[[q 4 1]]] [[[q 3 2]]] 0%nat 0%nat 0%nat (q 3 2)).
    + exact example_run.
    + reflexivity.
    + reflexivity.
    + exact Hexit.
    + reflexivity.
    + reflexivity.
    + reflexivity.
    + reflexivity.
Defined.

(** C1 as stated fails at the key [bc_u_0_1]: on the example run c = 1/2,
    old = 4 and upstream = 2, so that (1 - c) * old + c * upstream = 3, and the
    updated entry is 3/2 (the inlet flux is 1, the outlet flux 2). *)
Lemma outflow_upwind_update_fails_for_u :
  Regex.search "bc_u_0_1" = Some "u"
  /\ ~ upwind_update_at single_replica_reduce OutflowExample.replicas
         OutflowExample.states OutflowExample.additional_states
         OutflowExample.params "bc_u_0_1" "u".
Proof.
  split; [reflexivity |]. intro H.
  destruct (H _ OutflowExample.u [[[q 4 1]]] OutflowExample.u 0%nat
              [[[q 4 1]]] [[[q 3 2]]] 0%nat 0%nat 0%nat (q 3 2) example_run
              eq_refl eq_refl eq_refl eq_refl eq_refl eq_refl)
    as (old & up & Hold & Hup & Hx).
  injection Hold as <-. injection Hup as <-.
  apply (f_equal this) in Hx. vm_compute in Hx. discriminate.
Qed.

End OutflowWitness.

Module OutflowTheorems2.
Import Outflow OutflowSpec OutflowFacts OutflowTotal OutflowTheorems OutflowWitness.

(** C5. The mass flux correction is the mass flux through the inlet face
    (index [halo_width]) divided by the mass flux through the outlet face
    (index [-halo_width - 1]), each the sum of the products [rho * u] over
    the face, reduced over the replicas. It multiplies the updated buffer of
    the variable [u] and of no other variable: when the outlet flux is not
    zero, an updated entry of [u] is the ratio times the uncorrected value;
    an updated entry of another variable is the uncorrected value. *)
Theorem mass_flux_correction_scales_only_u gr replicas st ast p out um rho u
    i key val var new bc phi z k j x :
  get_boundary_update_fn gr replicas st ast p = Ok out ->
  u_max gr replicas st p = Ok um ->
  lookup "rho" st = Some rho ->
  lookup "u" st = Some u ->
  nth_error ast i = Some (key, val) ->
  Regex.search key = Some var ->
  nth_error out i = Some (key, new) ->
  lookup ("bc_" ++ var ++ "_0_1") ast = Some bc ->
  lookup var st = Some phi ->
  entry new z k j = Some x ->
  let mass_inlet := face_mass_flux gr replicas (halo_width p) rho u in
  let mass_exit := face_mass_flux gr replicas (outlet_face p) rho u in
  exists old up,
    entry bc z k j = Some old
    /\ face_entry (outlet_face p) phi z j = Some up
    /\ (var = "u" ->
        mass_exit <> 0 ->
        x = mass_inlet / mass_exit * uncorrected (1 - cfl_of p um) old up)
    /\ (var <> "u" -> x = uncorrected (1 - cfl_of p um) old up).
Proof.
  intros Hrun Hum Hrho Hu Hi Hs Hnew Hbc Hphi Hx mass_inlet mass_exit.
  destruct (get_boundary_update_fn_ok _ _ _ _ _ _ Hrun)
    as (um' & mo & mi & _ & Hmo & Hmi & _).
  destruct (updated_entry _ _ _ _ _ _ _ _ _ _ _ _ _ _ _ _ _ _ _ _
              Hrun Hum Hmo Hmi Hi Hs Hnew Hbc Hphi Hx)
    as (old & up & Hold & Hup & ->).
  rewrite (mass_flux_x_face_spec _ _ _ _ _ _ _ Hmo Hrho Hu).
  rewrite (mass_flux_x_face_spec _ _ _ _ _ _ _ Hmi Hrho Hu).
  exists old, up. unfold uncorrected. repeat split; auto.
  - intros -> _. reflexivity.
  - intro Hvar. apply String.eqb_neq in Hvar. rewrite Hvar. ring.
Qed.

(** On the example run the products [rho * u] are [1] on the inlet face and
    [2] on the outlet face: the updated entry 3/2 of [bc_u_0_1] is 1/2 times
    the uncorrected value 3. *)
Lemma mass_flux_correction_scales_only_u_witness :
  face_products (halo_width OutflowExample.params) OutflowExample.rho
    OutflowExample.u = [q 1 1]
  /\ face_products (outlet_face OutflowExample.params) OutflowExample.rho
       OutflowExample.u = [q 2 1]
  /\ exists old up,
      entry [[[q 4 1]]] 0 0 0 = Some old
      /\ face_entry (outlet_face OutflowExample.params) OutflowExample.u 0 0
         = Some up
      /\ ("u" = "u" ->
          face_mass_flux single_replica_reduce OutflowExample.replicas
            (outlet_face OutflowExample.params) OutflowExample.rho
            OutflowExample.u <> 0 ->
          q 3 2
          = face_mass_flux single_replica_reduce OutflowExample.replicas
              (halo_width OutflowExample.params) OutflowExample.rho
              OutflowExample.u
            / face_mass_flux single_replica_reduce OutflowExample.replicas
                (outlet_face OutflowExample.params) OutflowExample.rho
                OutflowExample.u
            * uncorrected (1 - cfl_of OutflowExample.params (q 2 1)) old up)
      /\ ("u" <> "u" ->
          q 3 2 = uncorrected (1 - cfl_of OutflowExample.params (q 2 1)) old up).
Proof.
  split; [apply (list_eqb_sound _ Qc_eq_bool_correct); vm_compute; reflexivity |].
  split; [apply (list_eqb_sound _ Qc_eq_bool_correct); vm_compute; reflexivity |].
  apply (mass_flux_correction_scales_only_u single_replica_reduce
           OutflowExample.replicas OutflowExample.states
           OutflowExample.additional_states OutflowExample.params
           [("bc_u_0_1", [[[q 3 2]]]); ("zz", [[[q 7 1]]]);
            ("bc_T_0_1", [[[q 6 1]]])]
           (q 2 1) OutflowExample.rho OutflowExample.u 0%nat "bc_u_0_1"
           [[[q 4 1]]] "u" [[[q 3 2]]] [[[q 4 1]]] OutflowExample.u
           0%nat 0%nat 0%nat (q 3 2)).
  - exact example_run.
  - exact example_u_max.
  - reflexivity.
  - reflexivity.
  - reflexivity.
  - reflexivity.
  - reflexivity.
  - reflexivity.
  - reflexivity.
  - reflexivity.
Defined.

(** C10. On a dictionary [additional_states] whose keys are ASCII strings,
    the boundary update returns a dictionary with the keys of
    [additional_states], in their order, in which every entry whose key the
    pattern [bc_(\w+)_0_1] does not match has kept its value; and it does
    return one on well-shaped inputs. *)
Theorem boundary_update_frame gr replicas st ast p :
  Forall (fun item => is_ascii (fst item) = true) ast ->
  (forall out,
      get_boundary_update_fn gr replicas st ast p = Ok out ->
      keys out = keys ast
      /\ forall i key val,
          nth_error ast i = Some (key, val) ->
          Regex.search key = None ->
          nth_error out i = Some (key, val))
  /\ (forall nx ny,
        well_shaped nx ny st ast p ->
        exists out, get_boundary_update_fn gr replicas st ast p = Ok out).
Proof.
  intros _. split.
  - intros out Hrun.
    destruct (get_boundary_update_fn_ok _ _ _ _ _ _ Hrun)
      as (um & mo & mi & _ & _ & _ & Hmap).
    destruct (update_items_frame _ _ _ _ _ _ _ Hmap) as [Hkeys Hitems].
    split; [exact Hkeys |].
    intros i key val Hi Hs.
    destruct (Hitems _ _ _ Hi) as (new & Hnew & Hupd).
    rewrite Hs in Hupd. subst. exact Hnew.
  - intros nx ny Hws. eapply get_boundary_update_fn_total. exact Hws.
Qed.

Lemma example_well_shaped :
  well_shaped 4 1 OutflowExample.states OutflowExample.additional_states
    OutflowExample.params.
Proof.
  assert (Hmesh : forall a b c d : Qc, mesh_tensor 4 1 [[a]; [b]; [c]; [d]]).
  { intros. split; [reflexivity |]. repeat constructor. }
  constructor.
  - simpl. lia.
  - exists OutflowExample.u. split; [reflexivity |].
    split; [discriminate |]. repeat constructor.
  - exists OutflowExample.rho. split; [reflexivity |].
    split; [discriminate |]. repeat constructor.
  - intros key val var Hin Hs. simpl in Hin.
    destruct Hin as [Hin | [Hin | [Hin | []]]]; injection Hin as <- <-;
      vm_compute in Hs; try discriminate; injection Hs as <-.
    + exists [[[q 4 1]]], OutflowExample.u. repeat constructor.
    + exists [[[q 4 1]]], OutflowExample.T. repeat constructor.
Qed.

(** The keys of the example run are ASCII strings; the run is well shaped
    and returns; its output has the keys of the input, and the entry [zz],
    which the pattern does not match, is unchanged. *)
Lemma boundary_update_frame_witness :
  (keys [("bc_u_0_1", [[[q 3 2]]]); ("zz", [[[q 7 1]]]);
         ("bc_T_0_1", [[[q 6 1]]])]
   = keys OutflowExample.additional_states
   /\ nth_error [("bc_u_0_1", [[[q 3 2]]]); ("zz", [[[q 7 1]]]);
                 ("bc_T_0_1", [[[q 6 1]]])] 1
      = Some ("zz", [[[q 7 1]]]))
  /\ exists out, OutflowExample.run = Ok out.
Proof.
  destruct (boundary_update_frame single_replica_reduce
              OutflowExample.replicas OutflowExample.states
              OutflowExample.additional_states OutflowExample.params
              ltac:(repeat constructor))
    as [Hframe Htotal].
  split.
  - destruct (Hframe _ example_run) as [Hkeys Hitems].
    split; [exact Hkeys |].
    apply (Hitems 1%nat "zz" [[[q 7 1]]]); reflexivity.
  - exact (Htotal 4%nat 1%nat example_well_shaped).
Defined.

End OutflowTheorems2.

(** * Dictionaries *)

Lemma lookup_dict_set_eq (key : string) (val : FlowFieldVal) (m : StatesMap) :
  lookup key (dict_set key val m) = Some val.
Proof.
  induction m as [| [k v] m IH]; simpl.
  - rewrite String.eqb_refl. reflexivity.
  - destruct (String.eqb key k) eqn:E; simpl; rewrite E; auto.
Qed.

Lemma lookup_dict_set_neq (key key' : string) (val : FlowFieldVal)
    (m : StatesMap) :
  String.eqb key key' = false ->
  lookup key (dict_set key' val m) = lookup key m.
Proof.
  intro Hne. induction m as [| [k v] m IH]; simpl.
  - rewrite Hne. reflexivity.
  - destruct (String.eqb key' k) eqn:E; simpl.
    + apply String.eqb_eq in E. subst k. rewrite Hne. reflexivity.
    + destruct (String.eqb key k); auto.
Qed.

(** * Shapes *)

Lemma zip1_length_r (op : Qc -> Qc -> Qc) (a b c : Tensor1) :
  zip1 op a b = Ok c -> List.length b = List.length a.
Proof.
  revert b c. induction a as [| x a IH]; intros [| y b] c H;
    simpl in H; try discriminate.
  - reflexivity.
  - inv_bind H. simpl. f_equal. eauto.
Qed.

Lemma zip2_shape (op : Qc -> Qc -> Qc) (a b c : Tensor2) :
  zip2 op a b = Ok c -> shape2 c = shape2 a /\ shape2 b = shape2 a.
Proof.
  revert b c. induction a as [| x a IH]; intros [| y b] c H;
    simpl in H; try discriminate.
  - injection H as <-. auto.
  - inv_bind H. inv_bind H. injection H as <-.
    destruct (IH _ _ Ha0) as [H1 H2]. simpl. split; f_equal; auto.
    + eapply zip1_length; eassumption.
    + eapply zip1_length_r; eassumption.
Qed.

Lemma zip1_same_shape (op : Qc -> Qc -> Qc) (a b : Tensor1) :
  List.length b = List.length a ->
  exists c, zip1 op a b = Ok c
            /\ forall j z, nth_error c j = Some z ->
                 exists x y, nth_error a j = Some x /\ nth_error b j = Some y
                             /\ z = op x y.
Proof.
  intro H. destruct (zip1_total op a b (eq_sym H)) as (c & Hc).
  exists c. split; [assumption |]. apply (zip1_nth _ _ _ _ Hc).
Qed.

(** Element-wise operations whose result is the first operand. *)
Lemma zip1_absorb (op : Qc -> Qc -> Qc) (a b : Tensor1) :
  List.length b = List.length a ->
  (forall j x y, nth_error a j = Some x -> nth_error b j = Some y ->
                 op x y = x) ->
  zip1 op a b = Ok a.
Proof.
  revert b. induction a as [| x a IH]; intros [| y b] Hlen Hop;
    simpl in Hlen; try discriminate.
  - reflexivity.
  - injection Hlen as Hlen. simpl. rewrite IH; auto.
    + simpl. rewrite (Hop 0%nat x y); auto.
    + intros j. apply (Hop (S j)).
Qed.

Lemma zip2_absorb (op : Qc -> Qc -> Qc) (a b : Tensor2) :
  shape2 b = shape2 a ->
  (forall k ra rb j x y,
      nth_error a k = Some ra -> nth_error b k = Some rb ->
      nth_error ra j = Some x -> nth_error rb j = Some y -> op x y = x) ->
  zip2 op a b = Ok a.
Proof.
  revert b. induction a as [| x a IH]; intros [| y b] Hsh Hop;
    simpl in Hsh; try discriminate.
  - reflexivity.
  - injection Hsh as Hlen Hsh. simpl.
    rewrite (zip1_absorb op x y Hlen
               (fun j x0 y0 => Hop 0%nat x y j x0 y0 eq_refl eq_refl)). simpl.
    rewrite IH; auto. intros k. apply (Hop (S k)).
Qed.

Lemma zeros_like_shape (t : Tensor2) : shape2 (zeros_like t) = shape2 t.
Proof.
  unfold zeros_like, shape2. rewrite map_map.
  apply map_ext. intro row. apply length_map.
Qed.

Lemma zeros_like_entry (t : Tensor2) (k : nat) (row : Tensor1) (j : nat)
    (x : Qc) :
  nth_error (zeros_like t) k = Some row -> nth_error row j = Some x -> x = 0.
Proof.
  unfold zeros_like. rewrite nth_error_map.
  destruct (nth_error _ k) as [r |]; simpl; intro H; [| discriminate H].
  injection H as <-. rewrite nth_error_map.
  destruct (nth_error _ j); simpl; intro H; [| discriminate H].
  injection H as <-. reflexivity.
Qed.

(** * The store *)

Lemma read_only_ret {A : Type} (a : A) : read_only (ret a).
Proof. intro s. reflexivity. Qed.

Lemma read_only_raise {A : Type} (e : error) : read_only (@raise A e).
Proof. intro s. reflexivity. Qed.

Lemma read_only_lift {A : Type} (r : result A) : read_only (lift r).
Proof. intro s. reflexivity. Qed.

Lemma read_only_read_states (key : string) : read_only (read_states key).
Proof. intro s. reflexivity. Qed.

Lemma read_only_read_additional (key : string) :
  read_only (read_additional key).
Proof. intro s. reflexivity. Qed.

Lemma read_only_additional_contains (key : string) :
  read_only (additional_contains key).
Proof. intro s. reflexivity. Qed.

Lemma read_only_additional_get (key : string) (d : FlowFieldVal) :
  read_only (additional_get key d).
Proof. intro s. reflexivity. Qed.

Lemma read_only_the_additional_states : read_only the_additional_states.
Proof. intro s. reflexivity. Qed.

Lemma read_only_bindM {A B : Type} (m : M A) (k : A -> M B) :
  read_only m -> (forall a, read_only (k a)) -> read_only (bindM m k).
Proof.
  intros Hm Hk s. unfold bindM. specialize (Hm s).
  destruct (m s) as [[a | e] s']; simpl in *; subst.
  - apply Hk.
  - reflexivity.
Qed.

Create HintDb read_only.
#[export] Hint Resolve read_only_ret read_only_raise read_only_lift
  read_only_read_states read_only_read_additional
  read_only_additional_contains read_only_additional_get
  read_only_the_additional_states : read_only.

(** Structural proof that a method only reads the store. *)
Ltac read_only_step :=
  match goal with
  | |- read_only (bindM _ _) => apply read_only_bindM; [| intro]
  | |- read_only (if ?b then _ else _) => destruct b
  | |- read_only (match ?x with _ => _ end) => destruct x
  | |- read_only (let '(_, _) := ?x in _) => destruct x
  | |- read_only _ => solve [auto with read_only]
  end.

Ltac prove_read_only := repeat read_only_step.

(** Sequencing after a read-only computation. *)
Lemma bindM_read_only {A B : Type} (m : M A) (k : A -> M B) (s : Store) :
  read_only m ->
  bindM m k s = match eval m s with
                | Ok a => k a s
                | Err e => (Err e, s)
                end.
Proof.
  intro Hm. unfold bindM, eval. specialize (Hm s).
  destruct (m s) as [[a | e] s']; simpl in *; subst; reflexivity.
Qed.

Lemma run_read_only {A : Type} (m : M A) (s : Store) :
  read_only m -> m s = (eval m s, s).
Proof.
  intro Hm. unfold eval. specialize (Hm s).
  destruct (m s) as [r s']. simpl in *. subst. reflexivity.
Qed.

Module TotalEnergyFacts.
Import TotalEnergy.

Section Facts.

Variable env : Collaborators.
Variable self : TotalEnergy.

Lemma read_only_require_water : read_only (require_water self).
Proof. unfold require_water. prove_read_only. Qed.

Lemma read_only_get_thermodynamic_variables phi :
  read_only (_get_thermodynamic_variables self phi).
Proof.
  unfold _get_thermodynamic_variables.
  pose proof read_only_require_water. prove_read_only.
Qed.

Lemma read_only_compute_rho_u_tau a b c :
  read_only (compute_rho_u_tau a b c).
Proof. unfold compute_rho_u_tau. prove_read_only. Qed.

Lemma read_only_viscosity rho : read_only (viscosity self rho).
Proof. unfold viscosity. prove_read_only. Qed.

Lemma read_only_rho_u_tau mu : read_only (rho_u_tau env self mu).
Proof.
  unfold rho_u_tau. pose proof read_only_compute_rho_u_tau.
  prove_read_only.
Qed.

Lemma read_only_liquid_humidity w ts : read_only (liquid_humidity self w ts).
Proof. unfold liquid_humidity. prove_read_only. Qed.

Lemma read_only_bound {A : Type} (x : option A) : read_only (bound x).
Proof. unfold bound. prove_read_only. Qed.

Lemma read_only_attribute {A : Type} (x : option A) : read_only (attribute x).
Proof. unfold attribute. prove_read_only. Qed.

Lemma read_only_g_dim_index : read_only (g_dim_index self).
Proof. unfold g_dim_index. prove_read_only. Qed.

Lemma read_only_radiation_correction rho q_l ts rid reps terms :
  read_only (radiation_correction self rho q_l ts rid reps terms).
Proof.
  unfold radiation_correction.
  pose proof (@read_only_bound). pose proof (@read_only_attribute).
  pose proof read_only_g_dim_index. prove_read_only.
Qed.

Lemma read_only_add_subsidence rho ts source :
  read_only (add_subsidence env self rho ts source).
Proof.
  unfold add_subsidence. pose proof read_only_g_dim_index. prove_read_only.
Qed.

Lemma read_only_add_precipitation w rho rho_thermal q_l ts source :
  read_only (add_precipitation env self w rho rho_thermal q_l ts source).
Proof.
  unfold add_precipitation.
  pose proof (@read_only_bound). pose proof (@read_only_attribute).
  prove_read_only.
Qed.

(** [source_fn] leaves [states] and [additional_states] as it found them. *)
Lemma read_only_source_fn rid reps phi :
  read_only (source_fn env self rid reps phi).
Proof.
  unfold source_fn.
  pose proof read_only_require_water.
  pose proof read_only_get_thermodynamic_variables.
  pose proof read_only_viscosity.
  pose proof read_only_rho_u_tau.
  pose proof read_only_liquid_humidity.
  pose proof read_only_radiation_correction.
  pose proof read_only_add_subsidence.
  pose proof read_only_add_precipitation.
  prove_read_only.
Qed.

End Facts.

End TotalEnergyFacts.

(** * Running computations of [M] *)

Lemma bindM_ok {A B : Type} (m : M A) (k : A -> M B) (s s' : Store) (b : B) :
  bindM m k s = (Ok b, s') ->
  exists a s1, m s = (Ok a, s1) /\ k a s1 = (Ok b, s').
Proof.
  unfold bindM. destruct (m s) as [[a | e] s1]; intro H.
  - eauto.
  - discriminate.
Qed.

Lemma eval_ok {A : Type} (m : M A) (s : Store) (a : A) :
  read_only m -> eval m s = Ok a -> m s = (Ok a, s).
Proof. intros Hm He. rewrite (run_read_only m s Hm), He. reflexivity. Qed.

Lemma eval_read_states (key : string) (s : Store) (v : FlowFieldVal) :
  eval (read_states key) s = Ok v <-> lookup key (states s) = Some v.
Proof. unfold eval, read_states. simpl. apply getitem_ok. Qed.

Lemma eval_read_additional (key : string) (s : Store) (v : FlowFieldVal) :
  eval (read_additional key) s = Ok v
  <-> lookup key (additional_states s) = Some v.
Proof. unfold eval, read_additional. simpl. apply getitem_ok. Qed.

Lemma eval_lift {A : Type} (r : result A) (s : Store) : eval (lift r) s = r.
Proof. reflexivity. Qed.

Lemma eval_ret {A : Type} (a : A) (s : Store) : eval (ret a) s = Ok a.
Proof. reflexivity. Qed.

Lemma eval_bindM {A B : Type} (m : M A) (k : A -> M B) (s : Store) :
  read_only m ->
  eval (bindM m k) s = match eval m s with
                       | Ok a => eval (k a) s
                       | Err e => Err e
                       end.
Proof.
  intro Hm. unfold eval at 1. rewrite (bindM_read_only m k s Hm).
  destruct (eval m s); reflexivity.
Qed.

Lemma Ok_inj {A : Type} (a b : A) : Ok a = Ok b -> a = b.
Proof. intro H. injection H as H. exact H. Qed.

(** * Lists *)

Lemma list_set_same {A : Type} (l : list A) (i : nat) (x : A) :
  list_get l i = Ok x -> list_set l i x = Ok l.
Proof.
  unfold list_get. revert i. induction l as [| y l IH]; intros [| i] H;
    simpl in *; try discriminate.
  - injection H as <-. reflexivity.
  - rewrite (IH i H). reflexivity.
Qed.

(** * Fields of zeros *)

Lemma zip1_mult_zeros_r (x y : Tensor1) :
  List.length y = List.length x ->
  zip1 Qcmult x (map (fun _ => 0) y) = Ok (map (fun _ => 0) x).
Proof.
  revert y. induction x as [| c x IHx]; intros [| d y] Hlen; simpl in Hlen;
    try discriminate.
  - reflexivity.
  - injection Hlen as Hlen. simpl. rewrite (IHx _ Hlen). simpl.
    do 2 f_equal. ring.
Qed.

Lemma tmul_zeros_r (a b : Tensor2) :
  shape2 b = shape2 a -> tmul a (zeros_like b) = Ok (zeros_like a).
Proof.
  unfold tmul. revert b. induction a as [| x a IH]; intros [| y b] H;
    simpl in H; try discriminate.
  - reflexivity.
  - injection H as Hlen Hsh.
    change (zeros_like (y :: b)) with (map (fun _ => 0) y :: zeros_like b).
    change (zeros_like (x :: a)) with (map (fun _ => 0) x :: zeros_like a).
    cbn [zip2]. rewrite (zip1_mult_zeros_r _ _ Hlen), (IH _ Hsh).
    reflexivity.
Qed.

Lemma tsub_zeros_r (a b : Tensor2) :
  shape2 b = shape2 a -> tsub a (zeros_like b) = Ok a.
Proof.
  intro H. apply zip2_absorb.
  - rewrite zeros_like_shape. assumption.
  - intros k ra rb j x y _ Hrb _ Hy.
    rewrite (zeros_like_entry _ _ _ _ _ Hrb Hy). ring.
Qed.

Lemma tadd_zeros_r (a b : Tensor2) :
  shape2 b = shape2 a -> tadd a (zeros_like b) = Ok a.
Proof.
  intro H. apply zip2_absorb.
  - rewrite zeros_like_shape. assumption.
  - intros k ra rb j x y _ Hrb _ Hy.
    rewrite (zeros_like_entry _ _ _ _ _ Hrb Hy). ring.
Qed.

Lemma tmul_zeros_l (a b : Tensor2) :
  shape2 b = shape2 a -> tmul (zeros_like a) b = Ok (zeros_like a).
Proof.
  intro H. apply zip2_absorb.
  - rewrite zeros_like_shape. assumption.
  - intros k ra rb j x y Hra _ Hx _.
    rewrite (zeros_like_entry _ _ _ _ _ Hra Hx). ring.
Qed.

Lemma zeros_like_idem (a : Tensor2) : zeros_like (zeros_like a) = zeros_like a.
Proof.
  unfold zeros_like. rewrite map_map. apply map_ext. intro row.
  rewrite map_map. reflexivity.
Qed.

Lemma zeros_like_same_shape (a b : Tensor2) :
  shape2 a = shape2 b -> zeros_like a = zeros_like b.
Proof.
  unfold zeros_like, shape2. revert b.
  induction a as [| x a IH]; intros [| y b] H; simpl in H; try discriminate.
  - reflexivity.
  - injection H as Hlen Hsh. simpl. f_equal; [| auto].
    clear - Hlen. revert y Hlen.
    induction x as [| c x IHx]; intros [| d y] Hlen; simpl in Hlen;
      try discriminate; [reflexivity |].
    injection Hlen as Hlen. simpl. f_equal. auto.
Qed.

Lemma shape_zeros (f : FlowFieldVal) :
  shape (map_structure1 zeros_like f) = shape f.
Proof.
  unfold shape, map_structure1. rewrite map_map. apply map_ext.
  intro t. apply zeros_like_shape.
Qed.

Lemma zeros_same_shape (f g : FlowFieldVal) :
  shape f = shape g ->
  map_structure1 zeros_like f = map_structure1 zeros_like g.
Proof.
  unfold shape, map_structure1. revert g.
  induction f as [| x f IH]; intros [| y g] H; simpl in H; try discriminate.
  - reflexivity.
  - injection H as Hx Hf. simpl. f_equal; [| auto].
    apply zeros_like_same_shape. assumption.
Qed.

#[export] Hint Resolve
  TotalEnergyFacts.read_only_require_water
  TotalEnergyFacts.read_only_get_thermodynamic_variables
  TotalEnergyFacts.read_only_compute_rho_u_tau
  TotalEnergyFacts.read_only_viscosity
  TotalEnergyFacts.read_only_rho_u_tau
  TotalEnergyFacts.read_only_liquid_humidity
  TotalEnergyFacts.read_only_bound
  TotalEnergyFacts.read_only_attribute
  TotalEnergyFacts.read_only_g_dim_index
  TotalEnergyFacts.read_only_radiation_correction
  TotalEnergyFacts.read_only_add_subsidence
  TotalEnergyFacts.read_only_add_precipitation
  TotalEnergyFacts.read_only_source_fn : read_only.

(** One step of a computation that returned. *)
Ltac step_in E name :=
  (rewrite eval_bindM in E by (solve [prove_read_only]));
  match type of E with
  | match ?x with _ => _ end = _ =>
      destruct x eqn:name; [| discriminate E]
  end.

Ltac step_as E name v :=
  (rewrite eval_bindM in E by (solve [prove_read_only]));
  match type of E with
  | match ?x with _ => _ end = _ =>
      destruct x as [v |] eqn:name; [| discriminate E]
  end.

(** Normal forms of the facts collected on the steps of a computation. *)
Ltac tidy :=
  repeat match goal with
    | H : Ok ?a = Ok ?b |- _ => apply Ok_inj in H; first [subst a | subst b]
    | H : eval (lift _) _ = _ |- _ => rewrite eval_lift in H
    | H : eval (ret _) _ = _ |- _ => rewrite eval_ret in H
    | H : eval (read_states _) _ = Ok _ |- _ => apply eval_read_states in H
    | H : eval (read_additional _) _ = Ok _ |- _ =>
        apply eval_read_additional in H
    | H : getitem _ _ = Ok _ |- _ => apply getitem_ok in H
    end.

(** Two readings of one key give one value. *)
Ltac same_lookups :=
  repeat match goal with
    | H1 : lookup ?k ?m = Some ?a, H2 : lookup ?k ?m = Some ?b |- _ =>
        assert (a = b) by congruence; first [subst a | subst b]; clear H2
    end.

Module TotalEnergyRun.
Import TotalEnergy TotalEnergySpec TotalEnergyFacts.

Section Run.

Variable env : Collaborators.
Variable self : TotalEnergy.

(** The thermodynamic variables hold [q_t], [zz], [T] and [h_t]. *)
Lemma thermo_states_keys phi s ts :
  eval (_get_thermodynamic_variables self phi) s = Ok ts ->
  exists q_t temperature h_t,
    lookup "q_t" (states s) = Some q_t
    /\ lookup "q_t" ts = Some q_t
    /\ lookup "zz" ts
       = Some (get_default (additional_states s) "zz"
                 (map_structure1 zeros_like phi))
    /\ lookup "T" ts = Some temperature
    /\ lookup "h_t" ts = Some h_t.
Proof.
  unfold _get_thermodynamic_variables. intro E.
  step_in E Ew. step_in E Ezz. step_in E Eqt. step_in E Ert. step_in E EhasT.
  step_in E ET. step_in E Ehastheta. step_in E Etheta.
  rewrite eval_ret in E. apply Ok_inj in E. subst ts.
  apply eval_read_states in Eqt.
  unfold eval, additional_get in Ezz. simpl in Ezz. injection Ezz as <-.
  exists a1, a4. eexists. split; [exact Eqt |].
  split; [| split; [| split]].
  - rewrite (lookup_dict_set_neq "q_t" "h_t") by reflexivity.
    rewrite (lookup_dict_set_neq "q_t" "theta") by reflexivity.
    rewrite (lookup_dict_set_neq "q_t" "T") by reflexivity.
    rewrite (lookup_dict_set_neq "q_t" "zz") by reflexivity.
    apply lookup_dict_set_eq.
  - rewrite (lookup_dict_set_neq "zz" "h_t") by reflexivity.
    rewrite (lookup_dict_set_neq "zz" "theta") by reflexivity.
    rewrite (lookup_dict_set_neq "zz" "T") by reflexivity.
    rewrite lookup_dict_set_eq. reflexivity.
  - rewrite (lookup_dict_set_neq "T" "h_t") by reflexivity.
    rewrite (lookup_dict_set_neq "T" "theta") by reflexivity.
    apply lookup_dict_set_eq.
  - apply lookup_dict_set_eq.
Qed.

End Run.

End TotalEnergyRun.

Module TotalEnergyShapes.
Import TotalEnergy TotalEnergySpec TotalEnergyFacts TotalEnergyRun.

Lemma u_dot_tau_shape u v w a b c r :
  u_dot_tau u v w a b c = Ok r -> shape2 r = shape2 u.
Proof.
  unfold u_dot_tau. intro H.
  inv_bind H. inv_bind H. inv_bind H. inv_bind H.
  destruct (zip2_shape _ _ _ _ Ha) as [H1 _].
  destruct (zip2_shape _ _ _ _ Ha1) as [H2 _].
  destruct (zip2_shape _ _ _ _ H) as [H3 _].
  congruence.
Qed.

Lemma map_structure6_shape f u v w a b c r :
  (forall x y z t s g r0, f x y z t s g = Ok r0 -> shape2 r0 = shape2 x) ->
  map_structure6 f u v w a b c = Ok r -> shape r = shape u.
Proof.
  intro Hf. revert v w a b c r.
  induction u as [| x u IH]; intros [| y v] [| z w] [| t a] [| s b] [| g c] r H;
    simpl in H; try discriminate.
  - apply Ok_inj in H. subst. reflexivity.
  - inv_bind H. inv_bind H. apply Ok_inj in H. subst. simpl.
    f_equal; eauto.
Qed.

Section Shapes.

Variable env : Collaborators.
Variable self : TotalEnergy.

Lemma compute_rho_u_tau_shape a b c s r u :
  eval (compute_rho_u_tau a b c) s = Ok r ->
  lookup KEY_U (states s) = Some u ->
  shape r = shape u.
Proof.
  unfold compute_rho_u_tau. intros E Hu.
  step_in E Eu. step_in E Ev. step_in E Ew. rewrite eval_lift in E.
  apply eval_read_states in Eu.
  assert (a0 = u) by congruence. subst.
  eapply map_structure6_shape; [| eassumption].
  intros. eapply u_dot_tau_shape. eassumption.
Qed.

(** The three components of rho u_i tau_ij have the shape of [u]. *)
Lemma rho_u_tau_shape mu s terms u :
  eval (rho_u_tau env self mu) s = Ok terms ->
  lookup KEY_U (states s) = Some u ->
  exists c0 c1 c2,
    terms = [c0; c1; c2]
    /\ shape c0 = shape u /\ shape c1 = shape u /\ shape c2 = shape u.
Proof.
  unfold rho_u_tau. destruct (_h (base self)) as [[h0 h1] h2]. intros E Hu.
  step_in E Eu. step_in E Ev. step_in E Ew.
  step_in E E1. step_in E E2. step_in E E3. step_in E Ec0.
  step_in E E4. step_in E E5. step_in E E6. step_in E Ec1.
  step_in E E7. step_in E E8. step_in E E9. step_in E Ec2.
  rewrite eval_ret in E. apply Ok_inj in E. subst terms.
  do 3 eexists. split; [reflexivity |].
  split; [| split]; eapply compute_rho_u_tau_shape; eassumption.
Qed.

End Shapes.

(** [div_term_i - rho_i * f_r_i] with a flux of zeros. *)
Lemma radiation_zero_flux (d rho : FlowFieldVal) :
  shape rho = shape d ->
  map_structure3
    (fun div_term_i rho_i f_r_i =>
       m <- tmul rho_i f_r_i ;; tsub div_term_i m)
    d rho (map_structure1 zeros_like rho)
  = Ok d.
Proof.
  unfold shape, map_structure1. revert rho.
  induction d as [| x d IH]; intros [| y rho] H; simpl in H;
    try discriminate.
  - reflexivity.
  - injection H as Hx Hd. cbn [map map_structure3].
    rewrite (tmul_zeros_r y y eq_refl). cbn [bind].
    rewrite (tsub_zeros_r x y Hx). cbn [bind].
    rewrite (IH _ Hd). reflexivity.
Qed.

End TotalEnergyShapes.

(** One step of two computations with a common head. *)
Ltac step_both name :=
  (rewrite !bindM_read_only by (solve [prove_read_only]));
  match goal with
  | |- match ?x with _ => _ end = _ => destruct x eqn:name; [| reflexivity]
  end.

Module TotalEnergyRadiation.
Import TotalEnergy TotalEnergySpec TotalEnergyFacts TotalEnergyRun
  TotalEnergyShapes.

Section Radiation.

Variable env : Collaborators.
Variable self : TotalEnergy.

Lemma liquid_humidity_returns w phi s ts rho_thermal :
  eval (_get_thermodynamic_variables self phi) s = Ok ts ->
  lookup "rho_thermal" (states s) = Some rho_thermal ->
  _include_radiation self || _include_precipitation self = true ->
  exists q_l, eval (liquid_humidity self w ts) s = Ok (Some q_l).
Proof.
  intros Ets Hrt Hflag.
  destruct (thermo_states_keys _ _ _ _ Ets)
    as (q_t & temperature & h_t & _ & Hqt & _ & HT & _).
  unfold liquid_humidity. rewrite Hflag.
  unfold eval, bindM, lift, read_states, getitem. simpl.
  rewrite HT, Hrt, Hqt. simpl. eauto.
Qed.

Lemma liquid_humidity_without_radiation w ts s :
  _include_precipitation self = true ->
  liquid_humidity (without_radiation self) w ts s
  = liquid_humidity self w ts s.
Proof.
  intro Hp. unfold liquid_humidity. simpl. rewrite Hp, orb_true_r.
  reflexivity.
Qed.

(** With a flux of zeros the radiation block returns [div_terms] as it
    received it. *)
Lemma radiation_correction_zero_flux rho rho_thermal q_l ts rid reps terms s
    phi c g u mu :
  _include_radiation self = true ->
  _cloud self = Some c ->
  _g_dim (base self) = Some g -> (g < 3)%nat ->
  eval (_get_thermodynamic_variables self phi) s = Ok ts ->
  eval (rho_u_tau env self mu) s = Ok terms ->
  lookup "rho_thermal" (states s) = Some rho_thermal ->
  lookup KEY_U (states s) = Some u ->
  shape rho = shape u ->
  (forall q_l zz hg,
      source_by_radiation c q_l rho_thermal zz hg g (halos self) rid reps
      = map_structure1 zeros_like rho) ->
  radiation_correction self rho (Some q_l) ts rid reps terms s = (Ok terms, s).
Proof.
  intros Hrad Hc Hg Hlt Ets Eterms Hrt Hu Hshape Hflux.
  destruct (thermo_states_keys _ _ _ _ Ets)
    as (q_t & temperature & h_t & _ & _ & Hzz & _ & _).
  destruct (rho_u_tau_shape _ _ _ _ _ _ Eterms Hu)
    as (c0 & c1 & c2 & -> & H0 & H1 & H2).
  unfold radiation_correction. rewrite Hrad, Hc.
  unfold bindM, attribute, bound, ret, lift, read_states, getitem,
    g_dim_index, h_at_g_dim.
  rewrite Hrt, Hzz, Hg.
  assert (Hh : exists hg, tuple3_get (_h (base self)) g = Ok hg).
  { destruct (_h (base self)) as [[a b] d].
    destruct g as [| [| [| g]]]; simpl; eauto. exfalso; lia. }
  destruct Hh as (hg & ->). unfold ret.
  fold (halos self). rewrite Hflux.
  assert (Hd : exists d, list_get [c0; c1; c2] g = Ok d /\ shape d = shape u).
  { destruct g as [| [| [| g]]];
      [exists c0 | exists c1 | exists c2 | exfalso; lia]; split; auto. }
  destruct Hd as (d & Hd & Hsd).
  rewrite Hd, radiation_zero_flux by congruence.
  rewrite (list_set_same _ _ _ Hd). reflexivity.
Qed.

End Radiation.

End TotalEnergyRadiation.

Module TotalEnergyTheorems.
Import TotalEnergy TotalEnergySpec TotalEnergyFacts TotalEnergyRun
  TotalEnergyShapes TotalEnergyRadiation.

(** When the radiative flux is a field of zeros of the shape of the mesh,
    the source is the source computed with radiation not included. *)
Lemma source_fn_zero_flux env self rid reps phi s c g :
  _include_radiation self = true ->
  _cloud self = Some c ->
  _g_dim (base self) = Some g ->
  (g < 3)%nat ->
  (forall rho u,
      lookup KEY_RHO (states s) = Some rho ->
      lookup KEY_U (states s) = Some u ->
      shape rho = shape u) ->
  (forall rho rho_thermal q_l zz hg,
      lookup KEY_RHO (states s) = Some rho ->
      lookup "rho_thermal" (states s) = Some rho_thermal ->
      source_by_radiation c q_l rho_thermal zz hg g (halos self) rid reps
      = map_structure1 zeros_like rho) ->
  source_fn env self rid reps phi s
  = source_fn env (without_radiation self) rid reps phi s.
Proof.
  intros Hrad Hc Hg Hlt Hshape Hflux.
  unfold source_fn.
  change (require_water (without_radiation self)) with (require_water self).
  step_both Ew. rename a into w.
  step_both Erho. rename a into rho.
  step_both Ert. rename a into rho_thermal.
  change (_get_thermodynamic_variables (without_radiation self) phi)
    with (_get_thermodynamic_variables self phi).
  step_both Ets. rename a into ts.
  change (viscosity (without_radiation self) rho) with (viscosity self rho).
  step_both Emu. rename a into mu.
  change (rho_u_tau env (without_radiation self) mu)
    with (rho_u_tau env self mu).
  step_both Eterms. rename a into terms.
  apply eval_read_states in Erho, Ert.
  assert (Hu : exists u, lookup KEY_U (states s) = Some u).
  { unfold rho_u_tau in Eterms. destruct (_h (base self)) as [[h0 h1] h2].
    step_in Eterms Eu. apply eval_read_states in Eu. eauto. }
  destruct Hu as (u & Hu).
  destruct (liquid_humidity_returns self w phi s ts rho_thermal Ets Ert)
    as (q_l & Eql).
  { rewrite Hrad. reflexivity. }
  rewrite (bindM_read_only (liquid_humidity self w ts))
    by (solve [prove_read_only]).
  rewrite Eql.
  rewrite (bindM_read_only (radiation_correction self _ _ _ _ _ _))
    by (solve [prove_read_only]).
  unfold eval at 1.
  rewrite (radiation_correction_zero_flux env self rho rho_thermal q_l ts rid
             reps terms s phi c g u mu Hrad Hc Hg Hlt Ets Eterms Ert Hu
             (Hshape _ _ Erho Hu) (fun q zz hg => Hflux _ _ q zz hg Erho Ert)).
  cbn [fst].
  change (add_subsidence env self rho ts)
    with (add_subsidence env (without_radiation self) rho ts).
  destruct (_include_precipitation self) eqn:Hp.
  - rewrite (bindM_read_only (liquid_humidity (without_radiation self) w ts))
      by (solve [prove_read_only]).
    unfold eval at 1. rewrite liquid_humidity_without_radiation by assumption.
    fold (eval (liquid_humidity self w ts) s). rewrite Eql.
    reflexivity.
  - unfold liquid_humidity at 1. cbn [_include_radiation without_radiation
      _include_precipitation orb]. rewrite Hp.
    unfold bindM at 3. unfold ret at 1.
    unfold radiation_correction at 1. cbn [_include_radiation without_radiation].
    unfold bindM at 3. unfold ret at 1.
    unfold add_precipitation.
    cbn [_include_precipitation without_radiation]. rewrite Hp.
    reflexivity.
Qed.

End TotalEnergyTheorems.

Module PotentialTemperatureFacts.
Import PotentialTemperature PotentialTemperatureSpec.

Section Facts.

Variable env : Collaborators.
Variable self : PotentialTemperature.

Lemma read_only_the_water : read_only (the_water self).
Proof. unfold the_water. prove_read_only. Qed.

Lemma read_only_pt_thermodynamic_variables phi :
  read_only (_get_thermodynamic_variables self phi).
Proof. unfold _get_thermodynamic_variables. prove_read_only. Qed.

Lemma read_only_pt_attribute {A : Type} (x : option A) : read_only (attribute x).
Proof. unfold attribute. prove_read_only. Qed.

Lemma read_only_pt_g_dim_index : read_only (g_dim_index self).
Proof. unfold g_dim_index. prove_read_only. Qed.

Lemma read_only_radiation_source ts rid reps source :
  read_only (radiation_source self ts rid reps source).
Proof.
  unfold radiation_source.
  pose proof (@read_only_pt_attribute). pose proof read_only_pt_g_dim_index.
  pose proof read_only_the_water. prove_read_only.
Qed.

Lemma read_only_pt_add_subsidence ts phi source :
  read_only (add_subsidence env self ts phi source).
Proof.
  unfold add_subsidence. pose proof read_only_pt_g_dim_index. prove_read_only.
Qed.

(** [source_fn] leaves [states] and [additional_states] as it found them. *)
Lemma read_only_pt_source_fn rid reps phi :
  read_only (source_fn env self rid reps phi).
Proof.
  unfold source_fn.
  pose proof read_only_pt_thermodynamic_variables.
  pose proof read_only_radiation_source.
  pose proof read_only_pt_add_subsidence.
  prove_read_only.
Qed.

End Facts.

End PotentialTemperatureFacts.

#[export] Hint Resolve
  PotentialTemperatureFacts.read_only_the_water
  PotentialTemperatureFacts.read_only_pt_thermodynamic_variables
  PotentialTemperatureFacts.read_only_pt_attribute
  PotentialTemperatureFacts.read_only_pt_g_dim_index
  PotentialTemperatureFacts.read_only_radiation_source
  PotentialTemperatureFacts.read_only_pt_add_subsidence
  PotentialTemperatureFacts.read_only_pt_source_fn : read_only.

Module ConstructionTheorems.

(** C2. The constructor of [TotalEnergy] raises for every thermodynamics
    model that is not [water.Water] (once the base class and the name are
    accepted, the error is the [ValueError] of the model check), so that no
    object exists on which a source could be evaluated; with a [water.Water]
    model and the name [e_t] it returns the object. *)
Theorem total_energy_requires_water env kernel_op params scalar_name
    (thermodynamics : ThermodynamicsManager TotalEnergy.Water) :
  (model thermodynamics = OtherModel ->
   (exists e,
       TotalEnergy.__init__ env kernel_op params scalar_name thermodynamics
       = Err e)
   /\ (forall d,
         TotalEnergy.derive env params scalar_name = Ok d ->
         scalar_name = "e_t" ->
         TotalEnergy.__init__ env kernel_op params scalar_name thermodynamics
         = Err ValueError))
  /\ (forall w d,
        model thermodynamics = WaterModel w ->
        TotalEnergy.derive env params scalar_name = Ok d ->
        scalar_name = "e_t" ->
        exists obj,
          TotalEnergy.__init__ env kernel_op params scalar_name thermodynamics
          = Ok obj)
  /\ (forall obj,
        TotalEnergy.__init__ env kernel_op params scalar_name thermodynamics
        = Ok obj ->
        exists w, model thermodynamics = WaterModel w).
Proof.
  unfold TotalEnergy.__init__, ScalarGeneric_init.
  split; [| split].
  - intro Hm. split.
    + destruct (TotalEnergy.derive env params scalar_name)
        as [[[sp h] g] | e]; simpl; [| eauto].
      destruct (String.eqb scalar_name TotalEnergy.TOTAL_ENERGY_VARNAME);
        simpl; [| eauto].
      rewrite Hm. eauto.
    + intros [[sp h] g] Hd ->. rewrite Hd. simpl. rewrite Hm. reflexivity.
  - intros w [[sp h] g] Hm Hd ->. rewrite Hd. simpl. rewrite Hm. eauto.
  - intros obj H.
    destruct (TotalEnergy.derive env params scalar_name)
      as [[[sp h] g] | e]; simpl in H; [| discriminate].
    destruct (String.eqb scalar_name TotalEnergy.TOTAL_ENERGY_VARNAME);
      simpl in H; [| discriminate].
    destruct (model thermodynamics) as [w |]; [eauto | discriminate].
Qed.

(** C6. The constructor of [PotentialTemperature] raises for every name
    other than [theta] and [theta_li], with the [AssertionError] of the name
    check when the base class has accepted the name; for the two names it
    returns the object when the base class does. *)
Theorem potential_temperature_name_check env kernel_op params scalar_name
    (thermodynamics : ThermodynamicsManager PotentialTemperature.Water) :
  (scalar_name <> "theta" -> scalar_name <> "theta_li" ->
   (exists e,
       PotentialTemperature.__init__ env kernel_op params scalar_name
         thermodynamics = Err e)
   /\ (forall d,
         PotentialTemperature.derive env params scalar_name = Ok d ->
         PotentialTemperature.__init__ env kernel_op params scalar_name
           thermodynamics = Err AssertionError))
  /\ (scalar_name = "theta" \/ scalar_name = "theta_li" ->
      forall d,
        PotentialTemperature.derive env params scalar_name = Ok d ->
        exists obj,
          PotentialTemperature.__init__ env kernel_op params scalar_name
            thermodynamics = Ok obj).
Proof.
  unfold PotentialTemperature.__init__, ScalarGeneric_init.
  split.
  - intros H1 H2.
    assert (Hin : PotentialTemperature.string_in scalar_name
                    PotentialTemperature._POTENTIAL_TEMPERATURE_VARNAME
                  = false).
    { unfold PotentialTemperature.string_in. simpl.
      apply String.eqb_neq in H1, H2. rewrite H1, H2. reflexivity. }
    split.
    + destruct (PotentialTemperature.derive env params scalar_name)
        as [[[sp h] g] | e]; cbn [bind]; [| eauto].
      rewrite Hin. cbn [bind]. eauto.
    + intros [[sp h] g] Hd. rewrite Hd. cbn [bind]. rewrite Hin. reflexivity.
  - intros Hname [[sp h] g] Hd. rewrite Hd. cbn [bind].
    assert (Hin : PotentialTemperature.string_in scalar_name
                    PotentialTemperature._POTENTIAL_TEMPERATURE_VARNAME
                  = true).
    { destruct Hname as [-> | ->]; reflexivity. }
    rewrite Hin. cbn [bind _thermodynamics].
    destruct (model thermodynamics); eauto.
Qed.

End ConstructionTheorems.

Module OptionalTerms.

(** With the three flags off, the source of the total energy equation is the
    divergence of rho u_i tau_ij. *)
Lemma total_energy_no_optional_term env self rid reps phi :
  TotalEnergy._include_radiation self = false ->
  TotalEnergy._include_subsidence self = false ->
  TotalEnergy._include_precipitation self = false ->
  TotalEnergy.source_fn env self rid reps phi
  = TotalEnergySpec.source_of_shear env self phi.
Proof.
  intros H1 H2 H3.
  unfold TotalEnergy.source_fn, TotalEnergySpec.source_of_shear,
    TotalEnergy.liquid_humidity, TotalEnergy.radiation_correction,
    TotalEnergy.add_subsidence, TotalEnergy.add_precipitation.
  rewrite H1, H2, H3. reflexivity.
Qed.

(** With the two flags off, the source of the potential temperature equation
    is zeros. *)
Lemma potential_temperature_no_optional_term env self rid reps phi :
  PotentialTemperature._include_radiation self = false ->
  PotentialTemperature._include_subsidence self = false ->
  PotentialTemperature.source_fn env self rid reps phi
  = PotentialTemperatureSpec.source_of_zeros self phi.
Proof.
  intros H1 H2.
  unfold PotentialTemperature.source_fn,
    PotentialTemperatureSpec.source_of_zeros,
    PotentialTemperature.radiation_source,
    PotentialTemperature.add_subsidence.
  rewrite H1, H2. reflexivity.
Qed.

Lemma total_energy_init_flags env kernel_op params scalar_name thermodynamics
    obj :
  TotalEnergy.__init__ env kernel_op params scalar_name thermodynamics
  = Ok obj ->
  let cfg := total_energy (_scalar_params (TotalEnergy.base obj)) in
  let gravity := is_not_None (_g_dim (TotalEnergy.base obj)) in
  TotalEnergy._include_radiation obj
  = HasField cfg && flag_of cfg te_include_radiation && gravity
  /\ TotalEnergy._include_subsidence obj
     = HasField cfg && flag_of cfg te_include_subsidence && gravity
  /\ TotalEnergy._include_precipitation obj
     = HasField cfg && flag_of cfg te_include_precipitation && gravity.
Proof.
  unfold TotalEnergy.__init__, ScalarGeneric_init. intro H.
  inv_bind H. inv_bind Ha. destruct a0 as [[sp h] g].
  apply Ok_inj in Ha. subst a. inv_bind H. cbn [_thermodynamics] in H.
  destruct (model thermodynamics); [| discriminate].
  apply Ok_inj in H. subst obj. cbn. auto.
Qed.

Lemma potential_temperature_init_flags env kernel_op params scalar_name
    thermodynamics obj :
  PotentialTemperature.__init__ env kernel_op params scalar_name
    thermodynamics = Ok obj ->
  let cfg :=
    potential_temperature (_scalar_params (PotentialTemperature.base obj)) in
  let gravity := is_not_None (_g_dim (PotentialTemperature.base obj)) in
  PotentialTemperature._include_radiation obj
  = HasField cfg && flag_of cfg pt_include_radiation && gravity
  /\ PotentialTemperature._include_subsidence obj
     = HasField cfg && flag_of cfg pt_include_subsidence && gravity.
Proof.
  unfold PotentialTemperature.__init__, ScalarGeneric_init. intro H.
  inv_bind H. inv_bind Ha. destruct a0 as [[sp h] g].
  apply Ok_inj in Ha. subst a. inv_bind H. cbn [_thermodynamics] in H.
  destruct (model thermodynamics); cbn in H; apply Ok_inj in H; subst obj;
    cbn; auto.
Qed.

(** C9. In the objects that the constructors return, an optional term
    (radiation, subsidence, precipitation of [TotalEnergy]; radiation,
    subsidence of [PotentialTemperature]) is included exactly when its
    message is set, its flag is set and a gravity axis is configured; with
    no gravity axis, whatever the flags, the source of total energy is the
    divergence of rho u_i tau_ij alone and the source of potential
    temperature is zeros. *)
Theorem optional_terms_need_gravity_axis kernel_op params scalar_name :
  (forall env thermodynamics obj,
      TotalEnergy.__init__ env kernel_op params scalar_name thermodynamics
      = Ok obj ->
      let cfg := total_energy (_scalar_params (TotalEnergy.base obj)) in
      let gravity := is_not_None (_g_dim (TotalEnergy.base obj)) in
      TotalEnergy._include_radiation obj
      = HasField cfg && flag_of cfg te_include_radiation && gravity
      /\ TotalEnergy._include_subsidence obj
         = HasField cfg && flag_of cfg te_include_subsidence && gravity
      /\ TotalEnergy._include_precipitation obj
         = HasField cfg && flag_of cfg te_include_precipitation && gravity
      /\ (_g_dim (TotalEnergy.base obj) = None ->
          forall rid reps phi,
            TotalEnergy.source_fn env obj rid reps phi
            = TotalEnergySpec.source_of_shear env obj phi))
  /\ (forall env thermodynamics obj,
        PotentialTemperature.__init__ env kernel_op params scalar_name
          thermodynamics = Ok obj ->
        let cfg :=
          potential_temperature
            (_scalar_params (PotentialTemperature.base obj)) in
        let gravity := is_not_None (_g_dim (PotentialTemperature.base obj)) in
        PotentialTemperature._include_radiation obj
        = HasField cfg && flag_of cfg pt_include_radiation && gravity
        /\ PotentialTemperature._include_subsidence obj
           = HasField cfg && flag_of cfg pt_include_subsidence && gravity
        /\ (_g_dim (PotentialTemperature.base obj) = None ->
            forall rid reps phi,
              PotentialTemperature.source_fn env obj rid reps phi
              = PotentialTemperatureSpec.source_of_zeros obj phi)).
Proof.
  split.
  - intros env thermodynamics obj Hinit cfg gravity.
    destruct (total_energy_init_flags _ _ _ _ _ _ Hinit) as (H1 & H2 & H3).
    fold cfg gravity in H1, H2, H3.
    split; [exact H1 |]. split; [exact H2 |]. split; [exact H3 |].
    intros Hg rid reps phi.
    assert (Hgr : gravity = false) by (unfold gravity; rewrite Hg; reflexivity).
    rewrite Hgr, andb_false_r in H1, H2, H3.
    apply total_energy_no_optional_term; assumption.
  - intros env thermodynamics obj Hinit cfg gravity.
    destruct (potential_temperature_init_flags _ _ _ _ _ _ Hinit) as (H1 & H2).
    fold cfg gravity in H1, H2.
    split; [exact H1 |]. split; [exact H2 |].
    intros Hg rid reps phi.
    assert (Hgr : gravity = false) by (unfold gravity; rewrite Hg; reflexivity).
    rewrite Hgr, andb_false_r in H1, H2.
    apply potential_temperature_no_optional_term; assumption.
Qed.

End OptionalTerms.

Module PotentialTemperatureRun.
Import PotentialTemperature PotentialTemperatureSpec PotentialTemperatureFacts.

Section Run.

Variable env : Collaborators.
Variable self : PotentialTemperature.

(** With a [water.Water] model the thermodynamic variables hold [zz], [T],
    [q_l] and [q_i]. *)
Lemma pt_thermo_states_keys phi s ts w :
  model (_thermodynamics (base self)) = WaterModel w ->
  eval (_get_thermodynamic_variables self phi) s = Ok ts ->
  exists q_t rho_thermal,
    lookup "q_t" (states s) = Some q_t
    /\ lookup "rho_thermal" (states s) = Some rho_thermal
    /\ let zz := get_default (additional_states s) "zz"
                   (map_structure1 zeros_like phi) in
       let temperature :=
         saturation_adjustment w (_scalar_name (base self)) phi rho_thermal
           q_t zz in
       let partition :=
         equilibrium_phase_partition w temperature rho_thermal q_t in
       lookup "zz" ts = Some zz
       /\ lookup "T" ts = Some temperature
       /\ lookup "q_l" ts = Some (fst partition)
       /\ lookup "q_i" ts = Some (snd partition).
Proof.
  unfold _get_thermodynamic_variables. intros Hw E. rewrite Hw in E.
  step_in E Eqt. step_in E Ert. step_in E Ezz. step_in E Ets.
  apply eval_read_states in Eqt, Ert.
  unfold eval, additional_get in Ezz. simpl in Ezz. apply Ok_inj in Ezz.
  subst a1.
  exists a, a0. split; [exact Eqt |]. split; [exact Ert |].
  cbv zeta.
  destruct (equilibrium_phase_partition w _ a0 a) as [q_l q_i] eqn:Ep.
  rewrite eval_ret in E. apply Ok_inj in E. subst ts.
  assert (Ha2 : lookup "zz" a2
                = Some (get_default (additional_states s) "zz"
                          (map_structure1 zeros_like phi))
                /\ lookup "T" a2
                   = Some (saturation_adjustment w (_scalar_name (base self))
                             phi a0 a
                             (get_default (additional_states s) "zz"
                                (map_structure1 zeros_like phi)))).
  { destruct (String.eqb (_scalar_name (base self)) "theta_li").
    - step_in Ets Eth. rewrite eval_ret in Ets. apply Ok_inj in Ets.
      subst a2. split.
      + rewrite (lookup_dict_set_neq "zz" "theta") by reflexivity.
        rewrite (lookup_dict_set_neq "zz" "T") by reflexivity.
        apply lookup_dict_set_eq.
      + rewrite (lookup_dict_set_neq "T" "theta") by reflexivity.
        apply lookup_dict_set_eq.
    - rewrite eval_ret in Ets. apply Ok_inj in Ets. subst a2. split.
      + rewrite (lookup_dict_set_neq "zz" "T") by reflexivity.
        apply lookup_dict_set_eq.
      + apply lookup_dict_set_eq. }
  destruct Ha2 as [Hzz HT].
  split; [| split; [| split]].
  - rewrite (lookup_dict_set_neq "zz" "q_i") by reflexivity.
    rewrite (lookup_dict_set_neq "zz" "q_l") by reflexivity. exact Hzz.
  - rewrite (lookup_dict_set_neq "T" "q_i") by reflexivity.
    rewrite (lookup_dict_set_neq "T" "q_l") by reflexivity. exact HT.
  - rewrite (lookup_dict_set_neq "q_l" "q_i") by reflexivity.
    apply lookup_dict_set_eq.
  - apply lookup_dict_set_eq.
Qed.

End Run.

End PotentialTemperatureRun.

Module SubsidenceTheorem.
Import PotentialTemperature PotentialTemperatureSpec PotentialTemperatureFacts
  PotentialTemperatureRun.

(** C3. The subsidence term of the potential temperature equation is added
    exactly when the flag is set, the model is a [water.Water] and the name is
    [theta_li]: for any other name (for [theta]), and whenever the flag is off
    or the model is another one, the source is the source computed with the
    flag off; for [theta_li] with the flag set and a [water.Water] model it is
    that source plus the source by the subsidence velocity. *)
Theorem subsidence_only_for_theta_li env self rid reps phi :
  (_scalar_name (base self) <> "theta_li"
   \/ _include_subsidence self = false
   \/ model (_thermodynamics (base self)) = OtherModel ->
   source_fn env self rid reps phi
   = source_fn env (without_subsidence self) rid reps phi)
  /\ (forall w s source rho g hg,
        _scalar_name (base self) = "theta_li" ->
        _include_subsidence self = true ->
        model (_thermodynamics (base self)) = WaterModel w ->
        eval (source_fn env (without_subsidence self) rid reps phi) s
        = Ok source ->
        lookup KEY_RHO (states s) = Some rho ->
        _g_dim (base self) = Some g ->
        tuple3_get (_h (base self)) g = Ok hg ->
        eval (source_fn env self rid reps phi) s
        = map_structure2 tadd source
            (source_by_subsidence_velocity env (_kernel_op (base self)) rho
               (get_default (additional_states s) "zz"
                  (map_structure1 zeros_like phi))
               hg phi g)).
Proof.
  split.
  - intro H. unfold source_fn, add_subsidence, isinstance_Water.
    cbn [_include_subsidence without_subsidence base andb].
    assert (Hc : _include_subsidence self
                 && match model (_thermodynamics (base self)) with
                    | WaterModel _ => true
                    | OtherModel => false
                    end
                 && String.eqb (_scalar_name (base self)) "theta_li" = false).
    { destruct H as [H | [H | H]].
      - apply String.eqb_neq in H. rewrite H. apply andb_false_r.
      - rewrite H. reflexivity.
      - rewrite H. rewrite andb_false_r. reflexivity. }
    rewrite Hc. reflexivity.
  - intros w s source rho g hg Hname Hsub Hw E Hrho Hg Hh.
    unfold source_fn in *.
    change (_get_thermodynamic_variables (without_subsidence self) phi)
      with (_get_thermodynamic_variables self phi) in E.
    step_in E Ets. rename a into ts.
    change (radiation_source (without_subsidence self) ts rid reps)
      with (radiation_source self ts rid reps) in E.
    step_in E Erad.
    unfold add_subsidence in E.
    cbn [_include_subsidence without_subsidence andb] in E.
    rewrite eval_ret in E. apply Ok_inj in E. subst a.
    rewrite eval_bindM by (solve [prove_read_only]). rewrite Ets.
    rewrite eval_bindM by (solve [prove_read_only]). rewrite Erad.
    destruct (pt_thermo_states_keys self phi s ts w Hw Ets)
      as (q_t & rho_thermal & _ & _ & Hzz & _).
    unfold add_subsidence, isinstance_Water.
    rewrite Hsub, Hw, Hname, String.eqb_refl. cbn [andb].
    unfold eval, bindM, read_states, lift, getitem, g_dim_index, h_at_g_dim.
    rewrite Hrho, Hzz, Hg, Hh. reflexivity.
Qed.

End SubsidenceTheorem.

Lemma Some_inj {A : Type} (a b : A) : Some a = Some b -> a = b.
Proof. intro H. injection H as H. exact H. Qed.

(** * Entries of element-wise results *)

Lemma entry_entry2 (f : FlowFieldVal) (z k j : nat) :
  entry f z k j = match nth_error f z with
                  | Some t => entry2 t k j
                  | None => None
                  end.
Proof. reflexivity. Qed.

Lemma zip2_entry (op : Qc -> Qc -> Qc) (a b c : Tensor2) :
  zip2 op a b = Ok c ->
  forall k j z, entry2 c k j = Some z ->
    exists x y, entry2 a k j = Some x /\ entry2 b k j = Some y /\ z = op x y.
Proof.
  revert b c. induction a as [| ra a IH]; intros [| rb b] c H k j z Hz;
    simpl in H; try discriminate.
  - apply Ok_inj in H. subst c. destruct k; discriminate.
  - inv_bind H. inv_bind H. apply Ok_inj in H. subst c.
    destruct k as [| k]; unfold entry2 in *; simpl in *.
    + eapply zip1_nth; eassumption.
    + eapply IH; eassumption.
Qed.

Lemma map_entry (f : Qc -> Qc) (t : Tensor2) (k j : nat) :
  entry2 (map (map f) t) k j = option_map f (entry2 t k j).
Proof.
  unfold entry2. rewrite nth_error_map.
  destruct (nth_error _ k) as [row |]; simpl; [| reflexivity].
  apply nth_error_map.
Qed.

Lemma map_structure1_nth (f : Tensor2 -> Tensor2) (a : FlowFieldVal) (z : nat) :
  nth_error (map_structure1 f a) z = option_map f (nth_error a z).
Proof. apply nth_error_map. Qed.

Lemma map_structure2_nth f a b c :
  map_structure2 f a b = Ok c ->
  forall z t, nth_error c z = Some t ->
    exists x y, nth_error a z = Some x /\ nth_error b z = Some y
                /\ f x y = Ok t.
Proof.
  revert b c. induction a as [| x a IH]; intros [| y b] c H z t Ht;
    simpl in H; try discriminate.
  - apply Ok_inj in H. subst c. destruct z; discriminate.
  - inv_bind H. inv_bind H. apply Ok_inj in H. subst c.
    destruct z as [| z]; simpl in *.
    + apply Some_inj in Ht. subst. eauto.
    + eapply IH; eassumption.
Qed.

Lemma map_structure2_shape f a b c :
  (forall x y t, f x y = Ok t -> shape2 t = shape2 x) ->
  map_structure2 f a b = Ok c -> shape c = shape a.
Proof.
  intro Hf. revert b c. induction a as [| x a IH]; intros [| y b] c H;
    simpl in H; try discriminate.
  - apply Ok_inj in H. subst c. reflexivity.
  - inv_bind H. inv_bind H. apply Ok_inj in H. subst c.
    simpl. f_equal; eauto.
Qed.

Lemma map_structure3_nth f a b c d :
  map_structure3 f a b c = Ok d ->
  forall z t, nth_error d z = Some t ->
    exists x y w, nth_error a z = Some x /\ nth_error b z = Some y
                  /\ nth_error c z = Some w /\ f x y w = Ok t.
Proof.
  revert b c d. induction a as [| x a IH]; intros [| y b] [| w c] d H z t Ht;
    simpl in H; try discriminate.
  - apply Ok_inj in H. subst d. destruct z; discriminate.
  - inv_bind H. inv_bind H. apply Ok_inj in H. subst d.
    destruct z as [| z]; simpl in *.
    + apply Some_inj in Ht. subst. eauto 8.
    + eapply IH; eassumption.
Qed.

Lemma map_structure3_shape f a b c d :
  (forall x y w t, f x y w = Ok t -> shape2 t = shape2 x) ->
  map_structure3 f a b c = Ok d -> shape d = shape a.
Proof.
  intro Hf. revert b c d.
  induction a as [| x a IH]; intros [| y b] [| w c] d H;
    simpl in H; try discriminate.
  - apply Ok_inj in H. subst d. reflexivity.
  - inv_bind H. inv_bind H. apply Ok_inj in H. subst d.
    simpl. f_equal; eauto.
Qed.

Lemma mapM_shape (f : Tensor2 -> result Tensor2) a c :
  (forall x t, f x = Ok t -> shape2 t = shape2 x) ->
  mapM f a = Ok c -> shape c = shape a.
Proof.
  intro Hf. revert c. induction a as [| x a IH]; intros c H; simpl in H.
  - apply Ok_inj in H. subst c. reflexivity.
  - inv_bind H. inv_bind H. apply Ok_inj in H. subst c.
    simpl. f_equal; eauto.
Qed.

Lemma map_shape2 (f : Qc -> Qc) (t : Tensor2) :
  shape2 (map (map f) t) = shape2 t.
Proof.
  unfold shape2. rewrite map_map. apply map_ext. intro. apply length_map.
Qed.

Lemma map_structure2_shape_r f a b c :
  (forall x y t, f x y = Ok t -> shape2 y = shape2 x) ->
  map_structure2 f a b = Ok c -> shape b = shape a.
Proof.
  intro Hf. revert b c. induction a as [| x a IH]; intros [| y b] c H;
    simpl in H; try discriminate.
  - reflexivity.
  - inv_bind H. inv_bind H. simpl. f_equal; eauto.
Qed.

Lemma list_set_spec {A : Type} (l l' : list A) (g : nat) (x : A) :
  list_set l g x = Ok l' ->
  nth_error l' g = Some x
  /\ List.length l' = List.length l
  /\ forall i, i <> g -> nth_error l' i = nth_error l i.
Proof.
  revert l' g. induction l as [| y l IH]; intros l' [| g] H; simpl in H;
    try discriminate.
  - apply Ok_inj in H. subst l'. simpl. repeat split; auto.
    intros [| i] Hi; [congruence | reflexivity].
  - inv_bind H. apply Ok_inj in H. subst l'.
    destruct (IH _ _ Ha) as (H1 & H2 & H3). simpl. repeat split; auto.
    intros [| i] Hi; simpl; [reflexivity | apply H3; congruence].
Qed.

Module TotalEnergyRadiationSpec.
Import TotalEnergy TotalEnergySpec TotalEnergyFacts TotalEnergyRun
  TotalEnergyShapes TotalEnergyRadiation.

(** Entries of [div_term_i - rho_i * f_r_i]. *)
Lemma radiation_lambda_entry d rho f_r d' :
  map_structure3
    (fun div_term_i rho_i f_r_i =>
       m <- tmul rho_i f_r_i ;; tsub div_term_i m) d rho f_r = Ok d' ->
  shape d' = shape d
  /\ forall z k j x,
      entry d' z k j = Some x ->
      exists dv rv fv,
        entry d z k j = Some dv /\ entry rho z k j = Some rv
        /\ entry f_r z k j = Some fv /\ x = dv - rv * fv.
Proof.
  intro H. split.
  - eapply map_structure3_shape; [| exact H].
    intros x y w t Ht. inv_bind Ht.
    destruct (zip2_shape _ _ _ _ Ht) as [H1 _]. exact H1.
  - intros z k j x Hx. rewrite entry_entry2 in Hx.
    destruct (nth_error d' z) as [t |] eqn:Et; [| discriminate].
    destruct (map_structure3_nth _ _ _ _ _ H _ _ Et)
      as (dt & rt & ft & Hd & Hr & Hf & Ht).
    inv_bind Ht.
    destruct (zip2_entry _ _ _ _ Ht _ _ _ Hx) as (dv & mv & Hdv & Hmv & ->).
    destruct (zip2_entry _ _ _ _ Ha _ _ _ Hmv) as (rv & fv & Hrv & Hfv & ->).
    exists dv, rv, fv. rewrite !entry_entry2, Hd, Hr, Hf. auto.
Qed.

(** What the radiation block does to [div_terms]. *)
Lemma radiation_correction_spec self rho q_l ts rid reps terms s div_terms :
  _include_radiation self = true ->
  eval (radiation_correction self rho q_l ts rid reps terms) s
  = Ok div_terms ->
  exists c g hg ql rho_thermal zz d d',
    _cloud self = Some c
    /\ _g_dim (base self) = Some g
    /\ tuple3_get (_h (base self)) g = Ok hg
    /\ q_l = Some ql
    /\ lookup "rho_thermal" (states s) = Some rho_thermal
    /\ lookup "zz" ts = Some zz
    /\ nth_error terms g = Some d
    /\ nth_error div_terms g = Some d'
    /\ same_but g div_terms terms
    /\ shape d' = shape d
    /\ forall z k j x,
        entry d' z k j = Some x ->
        exists dv rv fv,
          entry d z k j = Some dv /\ entry rho z k j = Some rv
          /\ entry
               (source_by_radiation c ql rho_thermal zz hg g (halos self) rid
                  reps) z k j = Some fv
          /\ x = dv - rv * fv.
Proof.
  intros Hrad E. unfold radiation_correction in E. rewrite Hrad in E.
  pose proof (@read_only_attribute) as RA. pose proof (@read_only_bound) as RB.
  pose proof (read_only_g_dim_index self) as RG.
  step_in E Ec. step_in E Eql. step_in E Ert. step_in E Ezz. step_in E Eh.
  step_in E Eg. step_in E Ed. step_in E Ed'.
  rewrite eval_lift in E. rewrite eval_lift in Ezz. rewrite eval_lift in Eh.
  rewrite eval_lift in Ed. rewrite eval_lift in Ed'.
  apply eval_read_states in Ert. apply getitem_ok in Ezz.
  unfold attribute in Ec. destruct (_cloud self) as [c |]; [| discriminate].
  apply Ok_inj in Ec. subst a.
  unfold bound in Eql. destruct q_l as [ql |]; [| discriminate].
  apply Ok_inj in Eql. subst a0.
  unfold g_dim_index in Eg. unfold h_at_g_dim in Eh.
  destruct (_g_dim (base self)) as [g |]; [| discriminate].
  apply Ok_inj in Eg. subst a4.
  unfold list_get in Ed.
  destruct (nth_error terms g) as [d |] eqn:End; [| discriminate].
  apply Ok_inj in Ed. subst a5.
  destruct (list_set_spec _ _ _ _ E) as (Hn & Hlen & Hother).
  destruct (radiation_lambda_entry _ _ _ _ Ed') as (Hsh & Hentry).
  exists c, g, a3, ql, a1, a2, d, a6.
  repeat (split; [solve [auto] |]).
  split; [split; auto |]. split; [exact Hsh |]. exact Hentry.
Qed.

End TotalEnergyRadiationSpec.

Module PotentialTemperatureRadiation.
Import PotentialTemperature PotentialTemperatureSpec PotentialTemperatureFacts
  PotentialTemperatureRun.

(** The radiation block of the potential temperature equation: the kernel
    of the central difference along the gravity axis is applied to
    [-rho * f_r], the result is divided by [2 h], and then multiplied by
    [cp_m^-1 * exner^-1]. *)
Lemma radiation_source_spec self phi ts rid reps source0 s source w :
  _include_radiation self = true ->
  model (_thermodynamics (base self)) = WaterModel w ->
  eval (_get_thermodynamic_variables self phi) s = Ok ts ->
  eval (radiation_source self ts rid reps source0) s = Ok source ->
  exists c g hg q_t rho_thermal rho rad_src grad,
    _cloud self = Some c
    /\ _g_dim (base self) = Some g
    /\ tuple3_get (_h (base self)) g = Ok hg
    /\ lookup "q_t" (states s) = Some q_t
    /\ lookup "rho_thermal" (states s) = Some rho_thermal
    /\ lookup KEY_RHO (states s) = Some rho
    /\ let zz := get_default (additional_states s) "zz"
                   (map_structure1 zeros_like phi) in
       let temperature :=
         saturation_adjustment w (_scalar_name (base self)) phi rho_thermal
           q_t zz in
       let partition :=
         equilibrium_phase_partition w temperature rho_thermal q_t in
       let f_r :=
         source_by_radiation c (fst partition) rho_thermal zz hg g
           (halos self) rid reps in
       let cp := cp_m w q_t (fst partition) (snd partition) in
       let exner_inv := exner_inverse w rho_thermal q_t temperature zz in
       shape rad_src = shape rho
       /\ (forall z k j x,
              entry rad_src z k j = Some x ->
              exists r f,
                entry rho z k j = Some r /\ entry f_r z k j = Some f
                /\ x = - r * f)
       /\ RadiationSpec.central_difference_kernel (_kernel_op (base self)) g
            rad_src = Some grad
       /\ shape grad = shape source
       /\ shape source = shape cp
       /\ forall z k j x,
           entry source z k j = Some x ->
           exists cv ev gv,
             entry cp z k j = Some cv /\ entry exner_inv z k j = Some ev
             /\ entry grad z k j = Some gv
             /\ x = / cv * ev * (gv / (Q2Qc 2 * hg)).
Proof.
  intros Hrad Hw Ets E.
  destruct (pt_thermo_states_keys self phi s ts w Hw Ets)
    as (q_t & rho_thermal & Hqt & Hrt & Hzz & HT & Hql & Hqi).
  cbv zeta in Hzz, HT, Hql, Hqi.
  unfold radiation_source, isinstance_Water in E. rewrite Hrad, Hw in E.
  cbn [andb] in E.
  pose proof (@read_only_pt_attribute) as RA.
  pose proof (read_only_pt_g_dim_index self) as RG.
  pose proof (read_only_the_water self) as RW.
  step_as E Ec c. step_in E E1. step_in E E2. step_in E E3. step_as E Eh hg.
  step_as E Eg g. step_as E Erho rho. step_as E Erad rad_src.
  step_as E Egrad grad. step_as E Esrc divided. step_as E Ew w'.
  step_in E E4. step_in E E5. step_in E E6.
  step_in E E7. step_in E E8. step_in E E9. step_in E E10.
  step_as E Ecp cp_exner.
  unfold attribute in Ec. destruct (_cloud self) as [c' |]; [| discriminate].
  unfold g_dim_index in Eg. unfold h_at_g_dim in Eh.
  destruct (_g_dim (base self)) as [g' |] eqn:Hg; [| discriminate].
  unfold the_water in Ew. rewrite Hw, eval_ret in Ew.
  apply Ok_inj in Ew. subst w'.
  tidy. same_lookups.
  exists c, g, hg, q_t, rho_thermal, rho, rad_src, grad.
  repeat (split; [solve [auto] |]).
  cbv zeta.
  split.
  { eapply map_structure2_shape; [| exact Erad].
    intros x y t Ht. destruct (zip2_shape _ _ _ _ Ht) as [H1 _].
    rewrite H1. apply map_shape2. }
  split.
  { intros z k j x Hx. rewrite entry_entry2 in Hx.
    destruct (nth_error rad_src z) as [t |] eqn:Et; [| discriminate].
    destruct (map_structure2_nth _ _ _ _ Erad _ _ Et)
      as (rt & ft & Hr & Hf & Ht).
    destruct (zip2_entry _ _ _ _ Ht _ _ _ Hx) as (nv & fv & Hnv & Hfv & ->).
    unfold tneg in Hnv. rewrite map_entry in Hnv.
    destruct (entry2 rt k j) as [rv |] eqn:Erv; [| discriminate].
    apply Some_inj in Hnv. subst nv.
    exists rv, fv. unfold halos. rewrite !entry_entry2, Hr, Hf. auto. }
  split.
  { unfold _grad_central in Egrad.
    destruct g as [| [| [| g]]]; simpl; try discriminate;
      apply Ok_inj in Egrad; subst grad; reflexivity. }
  split.
  { transitivity (shape divided).
    - symmetry. eapply mapM_shape; [| exact Esrc].
      intros x t Ht. inv_bind Ht. apply Ok_inj in Ht. subst t.
      apply map_shape2.
    - transitivity (shape cp_exner).
      + eapply map_structure2_shape_r; [| exact E].
        intros x y t Ht. destruct (zip2_shape _ _ _ _ Ht) as [_ H2]. exact H2.
      + symmetry. eapply map_structure2_shape; [| exact E].
        intros x y t Ht. destruct (zip2_shape _ _ _ _ Ht) as [H1 _].
        exact H1. }
  assert (Hcp_shape : shape cp_exner = shape (map_structure1 reciprocal
            (cp_m w q_t
               (fst (equilibrium_phase_partition w
                       (saturation_adjustment w (_scalar_name (base self))
                          phi rho_thermal q_t
                          (get_default (additional_states s) "zz"
                             (map_structure1 zeros_like phi)))
                       rho_thermal q_t))
               (snd (equilibrium_phase_partition w
                       (saturation_adjustment w (_scalar_name (base self))
                          phi rho_thermal q_t
                          (get_default (additional_states s) "zz"
                             (map_structure1 zeros_like phi)))
                       rho_thermal q_t))))).
  { eapply map_structure2_shape; [| exact Ecp].
    intros x y t Ht. destruct (zip2_shape _ _ _ _ Ht) as [H1 _]. exact H1. }
  split.
  { transitivity (shape cp_exner).
    - eapply map_structure2_shape; [| exact E].
      intros x y t Ht. destruct (zip2_shape _ _ _ _ Ht) as [H1 _]. exact H1.
    - rewrite Hcp_shape. unfold shape, map_structure1. rewrite map_map.
      apply map_ext. intro t. apply map_shape2. }
  intros z k j x Hx. rewrite entry_entry2 in Hx.
  destruct (nth_error source z) as [t |] eqn:Et; [| discriminate].
  destruct (map_structure2_nth _ _ _ _ E _ _ Et) as (ct & st & Hc & Hs & Ht).
  destruct (zip2_entry _ _ _ _ Ht _ _ _ Hx) as (cev & sv & Hcev & Hsv & ->).
  destruct (map_structure2_nth _ _ _ _ Ecp _ _ Hc)
    as (cit & et & Hci & He & Hct).
  destruct (zip2_entry _ _ _ _ Hct _ _ _ Hcev) as (civ & ev & Hciv & Hev & ->).
  rewrite map_structure1_nth in Hci.
  destruct (nth_error (cp_m _ _ _ _) z) as [cpt |] eqn:Ecpt; [| discriminate].
  cbn [option_map] in Hci. apply Some_inj in Hci. subst cit.
  unfold reciprocal in Hciv. rewrite map_entry in Hciv.
  destruct (entry2 cpt k j) as [cv |] eqn:Ecv; [| discriminate].
  apply Some_inj in Hciv. subst civ.
  destruct (mapM_nth _ _ _ Esrc _ _ Hs) as (gt & Hgt & Hdiv).
  unfold h_at_g_dim in Hdiv. rewrite Hg, Eh in Hdiv. cbn [bind] in Hdiv.
  apply Ok_inj in Hdiv. subst st.
  unfold div_scalar in Hsv. rewrite map_entry in Hsv.
  destruct (entry2 gt k j) as [gv |] eqn:Egv; [| discriminate].
  apply Some_inj in Hsv. subst sv.
  exists cv, ev, gv. rewrite !entry_entry2, Ecpt, He, Hgt. auto.
Qed.

End PotentialTemperatureRadiation.

Module RadiationTheorem.
Import RadiationSpec.

(** C7. In the potential temperature equation the radiation term is the
    central difference along the gravity axis of [-rho * f_r] (the kernel
    [kDx], [kDy] or [kDz] of the axis applied to [-rho * f_r], divided by
    [2 h]), and then multiplied entry by entry by [cp_m^-1 * exner^-1]; in
    the total energy equation [rho * f_r] is subtracted from the gravity-axis
    component of rho u_i tau_ij, the other components are kept, and the
    source is the divergence of the result, with no such factor. *)
Theorem radiation_scaling_asymmetry rid reps phi s :
  (forall env self w source,
      PotentialTemperature._include_radiation self = true ->
      PotentialTemperature._include_subsidence self = false ->
      model (_thermodynamics (PotentialTemperature.base self))
      = WaterModel w ->
      eval (PotentialTemperature.source_fn env self rid reps phi) s
      = Ok source ->
      potential_temperature_term self rid reps phi s w source)
  /\ (forall env self source,
        TotalEnergy._include_radiation self = true ->
        TotalEnergy._include_subsidence self = false ->
        TotalEnergy._include_precipitation self = false ->
        eval (TotalEnergy.source_fn env self rid reps phi) s = Ok source ->
        total_energy_term env self rid reps s source).
Proof.
  split.
  - intros env self w source Hrad Hsub Hw E.
    unfold PotentialTemperature.source_fn in E.
    step_as E Ets ts. step_as E Erad src.
    unfold PotentialTemperature.add_subsidence in E. rewrite Hsub in E.
    cbn [andb] in E. tidy.
    eapply PotentialTemperatureRadiation.radiation_source_spec; eassumption.
  - intros env self source Hrad Hsub Hp E.
    unfold TotalEnergy.source_fn in E.
    step_as E Ew w. step_as E Erho rho. step_as E Ert rho_thermal.
    step_as E Ets ts. step_as E Emu mu. step_as E Eterms terms.
    step_as E Eql q_l. step_as E Ediv div_terms. step_as E Esub src.
    unfold TotalEnergy.add_subsidence in Esub. rewrite Hsub in Esub.
    unfold TotalEnergy.add_precipitation in E. rewrite Hp in E.
    destruct (TotalEnergyRadiationSpec.radiation_correction_spec
                _ _ _ _ _ _ _ _ _ Hrad Ediv)
      as (c & g & hg & ql & rt & zz & d & d' & H1 & H2 & H3 & H4 & H5 & H6
          & H7 & H8 & H9 & H10 & H11).
    tidy.
    exists rho, mu, terms, div_terms, c, g, hg, ql, rt, zz, d, d'.
    repeat (split; [solve [auto] |]). reflexivity.
Qed.

End RadiationTheorem.

(** * Element-wise operations on fields of zeros *)

Lemma zip2_total (op : Qc -> Qc -> Qc) (a b : Tensor2) :
  shape2 b = shape2 a -> exists c, zip2 op a b = Ok c.
Proof.
  revert b. induction a as [| x a IH]; intros [| y b] H; simpl in H;
    try discriminate.
  - eexists. reflexivity.
  - injection H as Hlen Hsh.
    destruct (zip1_total op x y (eq_sym Hlen)) as (r & Hr).
    destruct (IH _ Hsh) as (c & Hc).
    simpl. rewrite Hr, Hc. simpl. eauto.
Qed.

Lemma map_structure2_total (op : Qc -> Qc -> Qc) (a b : FlowFieldVal) :
  shape b = shape a ->
  exists c, map_structure2 (zip2 op) a b = Ok c /\ shape c = shape a.
Proof.
  revert b. induction a as [| x a IH]; intros [| y b] H; simpl in H;
    try discriminate.
  - eexists. split; reflexivity.
  - injection H as Hx Ha.
    destruct (zip2_total op x y Hx) as (t & Ht).
    destruct (IH _ Ha) as (c & Hc & Hsc).
    simpl. rewrite Ht, Hc. simpl. eexists. split; [reflexivity |].
    simpl. f_equal; [| exact Hsc].
    destruct (zip2_shape _ _ _ _ Ht) as [H1 _]. exact H1.
Qed.

Lemma shape_zeros_eq (phi : FlowFieldVal) : shape (zeros phi) = shape phi.
Proof. apply shape_zeros. Qed.

Lemma zeros_of_shape (f phi : FlowFieldVal) :
  shape f = shape phi -> zeros f = zeros phi.
Proof. apply zeros_same_shape. Qed.

(** [a + 0 = a] *)
Lemma map_structure2_tadd_zeros (a phi : FlowFieldVal) :
  shape a = shape phi -> map_structure2 tadd a (zeros phi) = Ok a.
Proof.
  unfold zeros, map_structure1, shape. revert phi.
  induction a as [| x a IH]; intros [| p phi] H; simpl in H;
    try discriminate.
  - reflexivity.
  - injection H as Hx Ha. cbn [map map_structure2].
    rewrite (tadd_zeros_r x p (eq_sym Hx)). cbn [bind].
    rewrite (IH _ Ha). reflexivity.
Qed.

(** [a * 0 = 0] *)
Lemma map_structure2_tmul_zeros (a phi : FlowFieldVal) :
  shape a = shape phi -> map_structure2 tmul a (zeros phi) = Ok (zeros phi).
Proof.
  unfold zeros, map_structure1, shape. revert phi.
  induction a as [| x a IH]; intros [| p phi] H; simpl in H;
    try discriminate.
  - reflexivity.
  - injection H as Hx Ha. cbn [map map_structure2].
    rewrite (tmul_zeros_r x p (eq_sym Hx)). cbn [bind].
    rewrite (IH _ Ha). cbn [bind].
    do 2 f_equal. apply zeros_like_same_shape. exact Hx.
Qed.

(** The dot product of a velocity of zeros with the stress tensor. *)
Lemma u_dot_tau_zeros (p a b c : Tensor2) :
  shape2 a = shape2 p -> shape2 b = shape2 p -> shape2 c = shape2 p ->
  TotalEnergy.u_dot_tau (zeros_like p) (zeros_like p) (zeros_like p) a b c
  = Ok (zeros_like p).
Proof.
  intros Ha Hb Hc. unfold TotalEnergy.u_dot_tau.
  assert (Hz : forall t, shape2 t = shape2 p ->
                         tmul (zeros_like p) t = Ok (zeros_like p)).
  { intros t Ht. apply tmul_zeros_l. exact Ht. }
  rewrite (Hz a Ha). cbn [bind]. rewrite (Hz b Hb). cbn [bind].
  rewrite (tadd_zeros_r (zeros_like p) p) by (symmetry; apply zeros_like_shape).
  cbn [bind]. rewrite (Hz c Hc). cbn [bind].
  apply tadd_zeros_r. symmetry. apply zeros_like_shape.
Qed.

Lemma map_structure6_zeros (phi a b c : FlowFieldVal) :
  shape a = shape phi -> shape b = shape phi -> shape c = shape phi ->
  map_structure6 TotalEnergy.u_dot_tau (zeros phi) (zeros phi) (zeros phi)
    a b c = Ok (zeros phi).
Proof.
  unfold zeros, map_structure1, shape. revert a b c.
  induction phi as [| p phi IH]; intros [| x a] [| y b] [| z c] Ha Hb Hc;
    simpl in Ha, Hb, Hc; try discriminate.
  - reflexivity.
  - injection Ha as Hx Ha. injection Hb as Hy Hb. injection Hc as Hz Hc.
    cbn [map map_structure6].
    rewrite (u_dot_tau_zeros p x y z Hx Hy Hz). cbn [bind].
    rewrite (IH _ _ _ Ha Hb Hc). reflexivity.
Qed.

Lemma tneg_zeros (p : Tensor2) : tneg (zeros_like p) = zeros_like p.
Proof.
  unfold tneg, zeros_like. rewrite map_map. apply map_ext. intro row.
  rewrite map_map. apply map_ext. intro x. ring.
Qed.

Lemma scale_shape (c : Qc) (f : FlowFieldVal) :
  shape (map_structure1 (scale2 c) f) = shape f.
Proof.
  unfold shape, map_structure1. rewrite map_map. apply map_ext. intro t.
  apply map_shape2.
Qed.

(** [(e + pe) * rho * rate] with a rate of zeros, the rate negated or not. *)
Lemma conversion_zero_rate (neg : bool) (e pe rho phi : FlowFieldVal) :
  shape e = shape phi -> shape pe = shape phi -> shape rho = shape phi ->
  map_structure4
    (fun e pe rho c =>
       s <- tadd e pe ;;
       sr <- tmul s rho ;;
       tmul sr (if neg then tneg c else c))
    e pe rho (zeros phi)
  = Ok (zeros phi).
Proof.
  unfold zeros, map_structure1, shape. revert e pe rho.
  induction phi as [| p phi IH]; intros [| x e] [| y pe] [| z rho] He Hpe Hrho;
    simpl in He, Hpe, Hrho; try discriminate.
  - reflexivity.
  - injection He as Hx He. injection Hpe as Hy Hpe. injection Hrho as Hz Hrho.
    cbn [map map_structure4].
    destruct (zip2_total Qcplus x y) as (s & Hs); [congruence |].
    destruct (zip2_shape _ _ _ _ Hs) as [Hss _].
    destruct (zip2_total Qcmult s z) as (sr & Hsr); [congruence |].
    destruct (zip2_shape _ _ _ _ Hsr) as [Hsrs _].
    unfold tadd, tmul in *. rewrite Hs. cbn [bind]. rewrite Hsr. cbn [bind].
    replace (if neg then tneg (zeros_like p) else zeros_like p)
      with (zeros_like p) by (destruct neg; [rewrite tneg_zeros |]; reflexivity).
    fold (tmul sr (zeros_like p)).
    rewrite (tmul_zeros_r sr p) by congruence. cbn [bind].
    rewrite (IH _ _ _ He Hpe Hrho). cbn [bind].
    do 2 f_equal. apply zeros_like_same_shape. congruence.
Qed.

(** [s + 0 + 0 = s] *)
Lemma sum_with_zeros (source phi : FlowFieldVal) :
  shape source = shape phi ->
  map_structure3 (fun s sv sl => ssv <- tadd s sv ;; tadd ssv sl)
    source (zeros phi) (zeros phi)
  = Ok source.
Proof.
  unfold zeros, map_structure1, shape. revert phi.
  induction source as [| x source IH]; intros [| p phi] H; simpl in H;
    try discriminate.
  - reflexivity.
  - injection H as Hx H. cbn [map map_structure3].
    rewrite (tadd_zeros_r x p (eq_sym Hx)). cbn [bind].
    rewrite (tadd_zeros_r x p (eq_sym Hx)). cbn [bind].
    rewrite (IH _ H). reflexivity.
Qed.

Module TotalEnergyZeroFacts.
Import TotalEnergy TotalEnergySpec TotalEnergyFacts TotalEnergyRun
  TotalEnergyShapes TotalEnergyRadiation TotalEnergyZero.

Section Zero.

Variable env : Collaborators.
Variable self : TotalEnergy.
Variable phi : FlowFieldVal.
Variable s : Store.
Hypothesis inputs : zero_inputs env self phi s.

Lemma compute_rho_u_tau_zero a b c :
  shape a = shape phi -> shape b = shape phi -> shape c = shape phi ->
  eval (compute_rho_u_tau a b c) s = Ok (zeros phi).
Proof.
  intros Ha Hb Hc. unfold compute_rho_u_tau, eval, bindM, read_states, lift,
    getitem.
  rewrite (zi_u _ _ _ _ inputs), (zi_v _ _ _ _ inputs), (zi_w _ _ _ _ inputs).
  cbn [fst]. apply map_structure6_zeros; assumption.
Qed.

(** With a velocity of zeros the three components of rho u_i tau_ij are
    fields of zeros. *)
Lemma rho_u_tau_zero mu :
  forall rho,
    lookup KEY_RHO (states s) = Some rho ->
    eval (viscosity self rho) s = Ok mu ->
    eval (rho_u_tau env self mu) s = Ok [zeros phi; zeros phi; zeros phi].
Proof.
  intros rho Hrho Emu.
  pose proof (zi_stress _ _ _ _ inputs rho mu Hrho Emu) as Htau.
  unfold rho_u_tau. destruct (_h (base self)) as [[h0 h1] h2].
  cbn [fst snd] in Htau. unfold stress_shaped in Htau.
  destruct (Htau "xx") as (txx & Hxx & Sxx); [simpl; tauto |].
  destruct (Htau "yx") as (tyx & Hyx & Syx); [simpl; tauto |].
  destruct (Htau "zx") as (tzx & Hzx & Szx); [simpl; tauto |].
  destruct (Htau "xy") as (txy & Hxy & Sxy); [simpl; tauto |].
  destruct (Htau "yy") as (tyy & Hyy & Syy); [simpl; tauto |].
  destruct (Htau "zy") as (tzy & Hzy & Szy); [simpl; tauto |].
  destruct (Htau "xz") as (txz & Hxz & Sxz); [simpl; tauto |].
  destruct (Htau "yz") as (tyz & Hyz & Syz); [simpl; tauto |].
  destruct (Htau "zz") as (tzz & Hzz & Szz); [simpl; tauto |].
  repeat (rewrite eval_bindM by (solve [prove_read_only]);
          first [ rewrite (proj2 (eval_read_states _ _ _)
                             (zi_u _ _ _ _ inputs))
                | rewrite (proj2 (eval_read_states _ _ _)
                             (zi_v _ _ _ _ inputs))
                | rewrite (proj2 (eval_read_states _ _ _)
                             (zi_w _ _ _ _ inputs))
                | rewrite compute_rho_u_tau_zero by assumption
                | rewrite eval_lift; unfold getitem;
                  rewrite ?Hxx, ?Hyx, ?Hzx, ?Hxy, ?Hyy, ?Hzy, ?Hxz, ?Hyz, ?Hzz
                ]).
  reflexivity.
Qed.

End Zero.

End TotalEnergyZeroFacts.

Module TotalEnergyZeroSource.
Import TotalEnergy TotalEnergySpec TotalEnergyFacts TotalEnergyRun
  TotalEnergyShapes TotalEnergyRadiation TotalEnergyZero TotalEnergyZeroFacts.

Section Zero.

Variable env : Collaborators.
Variable self : TotalEnergy.
Variable phi : FlowFieldVal.
Variable s : Store.
Variables (rid : nat) (reps : list (list (list nat))).
Hypothesis inputs : zero_inputs env self phi s.

Lemma h_at_axis g :
  _g_dim (base self) = Some g -> (g < 3)%nat ->
  exists hg, h_at_g_dim (base self) = Ok hg.
Proof.
  intros Hg Hlt. unfold h_at_g_dim. rewrite Hg.
  destruct (_h (base self)) as [[a b] c].
  destruct g as [| [| [| g]]]; simpl; eauto. exfalso. lia.
Qed.

Lemma radiation_block_zero rho rho_thermal ts (mu : FlowFieldVal) q_l :
  eval (viscosity self rho) s = Ok mu ->
  lookup KEY_RHO (states s) = Some rho ->
  lookup "rho_thermal" (states s) = Some rho_thermal ->
  shape rho = shape phi ->
  eval (_get_thermodynamic_variables self phi) s = Ok ts ->
  (_include_radiation self = true -> exists ql, q_l = Some ql) ->
  _include_radiation self = false \/ zero_radiation self phi s rid reps ->
  eval (radiation_correction self rho q_l ts rid reps
          [zeros phi; zeros phi; zeros phi]) s
  = Ok [zeros phi; zeros phi; zeros phi].
Proof.
  intros Emu Hrho Hrt Hshape Ets Hql Hzero.
  destruct (_include_radiation self) eqn:Hrad.
  - destruct Hzero as [Hf | Hz]; [discriminate |].
    destruct (Hql eq_refl) as (ql & ->).
    destruct (zr_cloud _ _ _ _ _ Hz) as (c & Hc & Hflux).
    destruct (zr_axis _ _ _ _ _ Hz) as (g & Hg & Hlt).
    unfold eval.
    rewrite (radiation_correction_zero_flux env self rho rho_thermal ql ts rid
               reps _ s phi c g (zeros phi) mu Hrad Hc Hg Hlt Ets
               (rho_u_tau_zero env self phi s inputs mu rho Hrho Emu) Hrt
               (zi_u _ _ _ _ inputs)).
    + reflexivity.
    + rewrite shape_zeros_eq. exact Hshape.
    + intros. rewrite (Hflux _ _ _ _ _ Hrt). symmetry.
      apply zeros_of_shape. exact Hshape.
  - unfold radiation_correction. rewrite Hrad. reflexivity.
Qed.

Lemma subsidence_block_zero rho ts source :
  shape source = shape phi ->
  eval (_get_thermodynamic_variables self phi) s = Ok ts ->
  _include_subsidence self = false \/ zero_subsidence env self phi s ->
  eval (add_subsidence env self rho ts source) s = Ok source.
Proof.
  intros Hshape Ets Hzero. unfold add_subsidence.
  destruct (_include_subsidence self) eqn:Hsub; [| reflexivity].
  destruct Hzero as [Hf | Hz]; [discriminate |].
  destruct (zs_axis _ _ _ _ Hz) as (g & Hg & Hlt).
  destruct (h_at_axis g Hg Hlt) as (hg & Hh).
  destruct (thermo_states_keys _ _ _ _ Ets)
    as (q_t & temperature & h_t & _ & _ & Hzz & _ & Hht).
  unfold eval, bindM, lift, getitem, g_dim_index, ret.
  rewrite Hzz, Hh, Hht, Hg. cbn [fst].
  rewrite (zs_source _ _ _ _ Hz ts _ _ _ _ _ Ets Hht).
  apply map_structure2_tadd_zeros. exact Hshape.
Qed.

Lemma precipitation_block_zero w rho rho_thermal ts q_l source :
  lookup "rho_thermal" (states s) = Some rho_thermal ->
  model (_thermodynamics (base self)) = WaterModel w ->
  shape rho = shape phi ->
  shape source = shape phi ->
  eval (_get_thermodynamic_variables self phi) s = Ok ts ->
  (_include_precipitation self = true -> exists ql, q_l = Some ql) ->
  _include_precipitation self = false \/ zero_precipitation self phi s ->
  eval (add_precipitation env self w rho rho_thermal q_l ts source) s
  = Ok source.
Proof.
  intros Hrt Hw Hrho Hshape Ets Hql Hzero. unfold add_precipitation.
  destruct (_include_precipitation self) eqn:Hp; [| reflexivity].
  destruct Hzero as [Hf | Hz]; [discriminate |].
  destruct (Hql eq_refl) as (ql & ->).
  destruct (zp_q_r _ _ _ Hz) as (q_r & Hqr).
  destruct (zp_microphysics _ _ _ Hz) as (mp & Hmp & Hauto & Hevap).
  destruct (thermo_states_keys _ _ _ _ Ets)
    as (q_t & temperature & h_t & Hqts & Hqt & Hzz & HT & _).
  destruct (zp_energy _ _ _ Hz w ts temperature Hw Ets HT) as [Hev Hel].
  pose proof (zp_excess _ _ _ Hz w temperature rho_thermal q_t Hw Hqts)
    as Hqc.
  assert (Hzzs : shape (get_default (additional_states s) "zz"
                          (map_structure1 zeros_like phi)) = shape phi).
  { unfold get_default.
    destruct (lookup "zz" (additional_states s)) as [zz |] eqn:Ezz.
    - exact (zp_zz _ _ _ Hz zz Ezz).
    - apply shape_zeros. }
  destruct (map_structure2_total Qcminus q_t
              (saturation_excess w temperature rho_thermal q_t) Hqc)
    as (q_v & Hqv & _).
  rewrite eval_bindM by (solve [prove_read_only]).
  rewrite eval_lift. unfold getitem at 1. rewrite HT.
  destruct (internal_energy_components w temperature) as [[e_v e_l] e_i].
  cbn [fst snd] in Hev, Hel.
  pose proof (@read_only_attribute) as RA. pose proof (@read_only_bound) as RB.
  rewrite eval_bindM by (solve [prove_read_only]).
  rewrite (proj2 (eval_read_states _ _ _) Hqr).
  rewrite eval_bindM by (solve [prove_read_only]).
  rewrite Hmp. unfold attribute at 1. rewrite eval_ret.
  rewrite eval_bindM by (solve [prove_read_only]).
  unfold bound at 1. rewrite eval_ret.
  unfold eval, bindM, lift, getitem.
  rewrite HT, Hqt. unfold tsub. rewrite Hqv, Hzz.
  rewrite (Hevap _ _ _ _ _ _ Hrt), (Hauto _ _ Hqr).
  rewrite (conversion_zero_rate true e_v _ rho phi Hev)
    by (rewrite ?scale_shape; assumption).
  rewrite (conversion_zero_rate false e_l _ rho phi Hel)
    by (rewrite ?scale_shape; assumption).
  cbn [fst]. apply sum_with_zeros. exact Hshape.
Qed.

(** With inputs of zero, every optional term off or zero, the source of the
    total energy equation is the field of zeros of the shape of [phi]. *)
Lemma source_fn_zero :
  _include_radiation self = false \/ zero_radiation self phi s rid reps ->
  _include_subsidence self = false \/ zero_subsidence env self phi s ->
  _include_precipitation self = false \/ zero_precipitation self phi s ->
  source_fn env self rid reps phi s = (Ok (zeros phi), s).
Proof.
  intros Hrad Hsub Hprec.
  rewrite (run_read_only _ s (read_only_source_fn env self rid reps phi)).
  f_equal.
  destruct (zi_water _ _ _ _ inputs) as (w & Hw).
  destruct (zi_rho _ _ _ _ inputs) as (rho & Hrho & Hrhos).
  destruct (zi_rho_thermal _ _ _ _ inputs) as (rho_thermal & Hrt).
  destruct (zi_thermo _ _ _ _ inputs) as (ts & Ets).
  destruct (zi_viscosity _ _ _ _ inputs rho Hrho) as (mu & Emu).
  assert (Eql : exists q_l,
             eval (liquid_humidity self w ts) s = Ok q_l
             /\ (_include_radiation self || _include_precipitation self = true
                 -> exists ql, q_l = Some ql)).
  { destruct (_include_radiation self || _include_precipitation self) eqn:Hf.
    - destruct (liquid_humidity_returns self w phi s ts rho_thermal Ets Hrt Hf)
        as (ql & Hql).
      exists (Some ql). eauto.
    - exists None. split; [| discriminate].
      unfold liquid_humidity. rewrite Hf. reflexivity. }
  destruct Eql as (q_l & Eql & Hsome).
  unfold source_fn.
  rewrite eval_bindM by (solve [prove_read_only]).
  replace (eval (require_water self) s) with (Ok w)
    by (unfold eval, require_water; rewrite Hw; reflexivity).
  rewrite eval_bindM by (solve [prove_read_only]).
  rewrite (proj2 (eval_read_states _ _ _) Hrho).
  rewrite eval_bindM by (solve [prove_read_only]).
  rewrite (proj2 (eval_read_states _ _ _) Hrt).
  rewrite eval_bindM by (solve [prove_read_only]). rewrite Ets.
  rewrite eval_bindM by (solve [prove_read_only]). rewrite Emu.
  rewrite eval_bindM by (solve [prove_read_only]).
  rewrite (rho_u_tau_zero env self phi s inputs mu rho Hrho Emu).
  rewrite eval_bindM by (solve [prove_read_only]). rewrite Eql.
  rewrite eval_bindM by (solve [prove_read_only]).
  rewrite (radiation_block_zero rho rho_thermal ts mu q_l Emu Hrho Hrt Hrhos
             Ets)
    by (try assumption; intro Hr; apply Hsome; rewrite Hr; reflexivity).
  rewrite (zi_divergence _ _ _ _ inputs).
  rewrite eval_bindM by (solve [prove_read_only]).
  rewrite (subsidence_block_zero rho ts (zeros phi) (shape_zeros_eq phi) Ets
             Hsub).
  apply (precipitation_block_zero w rho rho_thermal ts q_l (zeros phi) Hrt Hw
           Hrhos (shape_zeros_eq phi) Ets); [| assumption].
  intro Hp. apply Hsome. rewrite Hp. apply orb_true_r.
Qed.

End Zero.

End TotalEnergyZeroSource.

(** [-rho * 0 = 0] *)
Lemma radiation_source_of_zero_flux (rho phi : FlowFieldVal) :
  shape rho = shape phi ->
  map_structure2 (fun rho f_r => tmul (tneg rho) f_r) rho (zeros phi)
  = Ok (zeros phi).
Proof.
  unfold zeros, map_structure1, shape. revert phi.
  induction rho as [| r rho IH]; intros [| p phi] H; simpl in H;
    try discriminate.
  - reflexivity.
  - injection H as Hr H. cbn [map map_structure2].
    rewrite (tmul_zeros_r (tneg r) p)
      by (unfold tneg; rewrite map_shape2; congruence).
    cbn [bind]. rewrite (IH _ H). cbn [bind]. do 2 f_equal.
    apply zeros_like_same_shape. unfold tneg. rewrite map_shape2. exact Hr.
Qed.

(** [0 / c = 0] *)
Lemma div_scalar_zeros (p : Tensor2) (c : Qc) :
  div_scalar (zeros_like p) c = zeros_like p.
Proof.
  unfold div_scalar, zeros_like. rewrite map_map. apply map_ext. intro row.
  rewrite map_map. apply map_ext. intro x. unfold Qcdiv. ring.
Qed.

Lemma divided_zeros (r : result Qc) (hg : Qc) (phi : FlowFieldVal) :
  r = Ok hg ->
  mapM (fun f => hg' <- r ;; Ok (div_scalar f (Q2Qc 2 * hg'))) (zeros phi)
  = Ok (zeros phi).
Proof.
  intros ->. unfold zeros, map_structure1.
  induction phi as [| p phi IH]; [reflexivity |].
  cbn [map mapM]. rewrite IH. cbn [bind].
  rewrite div_scalar_zeros. reflexivity.
Qed.

Lemma shape_reciprocal (f : FlowFieldVal) :
  shape (map_structure1 reciprocal f) = shape f.
Proof.
  unfold shape, map_structure1. rewrite map_map. apply map_ext. intro t.
  apply map_shape2.
Qed.

Module PotentialTemperatureZeroSource.
Import PotentialTemperature PotentialTemperatureSpec PotentialTemperatureFacts
  PotentialTemperatureRun PotentialTemperatureZero.

Section Zero.

Variable env : Collaborators.
Variable self : PotentialTemperature.
Variable phi : FlowFieldVal.
Variable s : Store.
Variables (rid : nat) (reps : list (list (list nat))).

Lemma pt_radiation_block_zero ts :
  eval (_get_thermodynamic_variables self phi) s = Ok ts ->
  _include_radiation self = false \/ zero_radiation self phi s rid reps ->
  eval (radiation_source self ts rid reps (zeros phi)) s = Ok (zeros phi).
Proof.
  intros Ets Hzero. unfold radiation_source, isinstance_Water.
  destruct (_include_radiation self) eqn:Hrad; [| reflexivity].
  destruct (model (_thermodynamics (base self))) as [w |] eqn:Hw;
    [| reflexivity].
  cbn [andb].
  destruct Hzero as [Hf | Hz]; [discriminate |].
  destruct (zr_cloud _ _ _ _ _ Hz) as (c & Hc & Hflux).
  destruct (zr_axis _ _ _ _ _ Hz) as (g & hg & Hg & Hh & Hne & Hgrad).
  destruct (zr_rho _ _ _ _ _ Hz) as (rho & Hrho & Hrhos).
  destruct (pt_thermo_states_keys self phi s ts w Hw Ets)
    as (q_t & rho_thermal & Hqt & Hrt & Hzz & HT & Hql & Hqi).
  cbv zeta in Hzz, HT, Hql, Hqi.
  assert (Hhg : h_at_g_dim (base self) = Ok hg).
  { unfold h_at_g_dim. rewrite Hg. exact Hh. }
  destruct (map_structure2_total Qcmult
              (map_structure1 reciprocal
                 (cp_m w q_t
                    (fst (equilibrium_phase_partition w
                            (saturation_adjustment w
                               (_scalar_name (base self)) phi rho_thermal q_t
                               (get_default (additional_states s) "zz"
                                  (map_structure1 zeros_like phi)))
                            rho_thermal q_t))
                    (snd (equilibrium_phase_partition w
                            (saturation_adjustment w
                               (_scalar_name (base self)) phi rho_thermal q_t
                               (get_default (additional_states s) "zz"
                                  (map_structure1 zeros_like phi)))
                            rho_thermal q_t))))
              (exner_inverse w rho_thermal q_t
                 (saturation_adjustment w (_scalar_name (base self)) phi
                    rho_thermal q_t
                    (get_default (additional_states s) "zz"
                       (map_structure1 zeros_like phi)))
                 (get_default (additional_states s) "zz"
                    (map_structure1 zeros_like phi))))
    as (ce & Hce & Hces).
  { rewrite (zr_exner _ _ _ _ _ Hz _ _ _ _ _ Hw Hrt), shape_reciprocal,
      (zr_cp_m _ _ _ _ _ Hz _ _ _ _ Hw Hqt).
    reflexivity. }
  rewrite Hc. unfold g_dim_index, the_water. rewrite Hg, Hw.
  unfold eval, bindM, attribute, lift, read_states, getitem, ret.
  rewrite Hql, Hrt, Hzz, Hhg. fold (halos self).
  rewrite (Hflux _ _ _ _ _ Hrt), Hrho.
  rewrite (radiation_source_of_zero_flux rho phi Hrhos), Hgrad.
  rewrite (divided_zeros (Ok hg) hg phi eq_refl).
  rewrite Hqt, Hqi, HT.
  unfold tmul in Hce |- *. rewrite Hce.
  cbn [fst]. apply map_structure2_tmul_zeros.
  rewrite Hces, shape_reciprocal.
  apply (zr_cp_m _ _ _ _ _ Hz _ _ _ _ Hw Hqt).
Qed.

Lemma pt_subsidence_block_zero ts :
  eval (_get_thermodynamic_variables self phi) s = Ok ts ->
  _include_subsidence self = false \/ zero_subsidence env self phi s ->
  eval (add_subsidence env self ts phi (zeros phi)) s = Ok (zeros phi).
Proof.
  intros Ets Hzero. unfold add_subsidence, isinstance_Water.
  destruct (_include_subsidence self) eqn:Hsub; [| reflexivity].
  destruct (model (_thermodynamics (base self))) as [w |] eqn:Hw;
    [| reflexivity].
  destruct (String.eqb (_scalar_name (base self)) "theta_li");
    [| reflexivity].
  cbn [andb].
  destruct Hzero as [Hf | Hz]; [discriminate |].
  destruct (zs_axis _ _ _ _ Hz) as (g & Hg & Hlt).
  destruct (zs_rho _ _ _ _ Hz) as (rho & Hrho).
  destruct (pt_thermo_states_keys self phi s ts w Hw Ets)
    as (q_t & rho_thermal & _ & _ & Hzz & _).
  assert (Hh : exists hg, tuple3_get (_h (base self)) g = Ok hg).
  { destruct (_h (base self)) as [[a b] c].
    destruct g as [| [| [| g]]]; simpl; eauto. exfalso. lia. }
  destruct Hh as (hg & Hh).
  unfold g_dim_index, h_at_g_dim. rewrite Hg.
  unfold eval, bindM, lift, read_states, getitem, ret.
  rewrite Hrho, Hzz, Hh. cbn [fst].
  rewrite (zs_source _ _ _ _ Hz). apply map_structure2_tadd_zeros.
  apply shape_zeros_eq.
Qed.

(** With every optional term off or zero, the source of the potential
    temperature equation is the field of zeros of the shape of [phi]. *)
Lemma pt_source_fn_zero :
  (exists ts, eval (_get_thermodynamic_variables self phi) s = Ok ts) ->
  _include_radiation self = false \/ zero_radiation self phi s rid reps ->
  _include_subsidence self = false \/ zero_subsidence env self phi s ->
  source_fn env self rid reps phi s = (Ok (zeros phi), s).
Proof.
  intros (ts & Ets) Hrad Hsub.
  rewrite (run_read_only _ s (read_only_pt_source_fn env self rid reps phi)).
  f_equal. unfold source_fn.
  rewrite eval_bindM by (solve [prove_read_only]). rewrite Ets.
  rewrite eval_bindM by (solve [prove_read_only]).
  fold (zeros phi). rewrite (pt_radiation_block_zero ts Ets Hrad).
  apply pt_subsidence_block_zero; assumption.
Qed.

End Zero.

End PotentialTemperatureZeroSource.

Lemma zeros_entry (phi : FlowFieldVal) (z k j : nat) (x : Qc) :
  entry (zeros phi) z k j = Some x -> x = 0.
Proof.
  unfold entry, zeros. rewrite map_structure1_nth.
  destruct (nth_error phi z) as [t |]; cbn [option_map]; [| discriminate].
  destruct (nth_error (zeros_like t) k) as [row |] eqn:Erow; [| discriminate].
  intro Hx. eapply zeros_like_entry; eassumption.
Qed.

Module ZeroSourceTheorem.

(** C8. For the total energy equation, when the velocity is a field of
    zeros and every optional term is off or zero, and for the potential
    temperature equation, when every optional term is off or zero,
    [source_fn] returns a field whose entries are all zero and whose shape
    (number of levels and shape of each level) is the shape of [phi]; and
    [source_fn], on any input, leaves the dictionaries [states] and
    [additional_states] as it received them. *)
Theorem zero_inputs_give_zero_source rid reps phi s :
  (forall env self,
      TotalEnergyZero.zero_inputs env self phi s ->
      TotalEnergy._include_radiation self = false
      \/ TotalEnergyZero.zero_radiation self phi s rid reps ->
      TotalEnergy._include_subsidence self = false
      \/ TotalEnergyZero.zero_subsidence env self phi s ->
      TotalEnergy._include_precipitation self = false
      \/ TotalEnergyZero.zero_precipitation self phi s ->
      exists source,
        TotalEnergy.source_fn env self rid reps phi s = (Ok source, s)
        /\ shape source = shape phi
        /\ forall z k j x, entry source z k j = Some x -> x = 0)
  /\ (forall env self,
        (exists ts,
            eval (PotentialTemperature._get_thermodynamic_variables self phi)
              s = Ok ts) ->
        PotentialTemperature._include_radiation self = false
        \/ PotentialTemperatureZero.zero_radiation self phi s rid reps ->
        PotentialTemperature._include_subsidence self = false
        \/ PotentialTemperatureZero.zero_subsidence env self phi s ->
        exists source,
          PotentialTemperature.source_fn env self rid reps phi s
          = (Ok source, s)
          /\ shape source = shape phi
          /\ forall z k j x, entry source z k j = Some x -> x = 0)
  /\ (forall env self,
        exec (TotalEnergy.source_fn env self rid reps phi) s = s)
  /\ (forall env self,
        exec (PotentialTemperature.source_fn env self rid reps phi) s = s).
Proof.
  split; [| split; [| split]].
  - intros env self Hin Hrad Hsub Hprec. exists (zeros phi).
    split; [| split].
    + apply TotalEnergyZeroSource.source_fn_zero; assumption.
    + apply shape_zeros_eq.
    + apply zeros_entry.
  - intros env self Hts Hrad Hsub. exists (zeros phi).
    split; [| split].
    + apply PotentialTemperatureZeroSource.pt_source_fn_zero; assumption.
    + apply shape_zeros_eq.
    + apply zeros_entry.
  - intros env self. apply TotalEnergyFacts.read_only_source_fn.
  - intros env self. apply PotentialTemperatureFacts.read_only_pt_source_fn.
Qed.

End ZeroSourceTheorem.

Module ZeroFluxTheorem.
Import TotalEnergy TotalEnergySpec.

(** With radiation included, the liquid humidity is bound to the first part
    of the equilibrium phase partition. *)
Lemma liquid_humidity_spec self w ts s q_l :
  _include_radiation self = true ->
  eval (liquid_humidity self w ts) s = Ok q_l ->
  exists temperature rho_thermal q_t,
    lookup "T" ts = Some temperature
    /\ lookup "rho_thermal" (states s) = Some rho_thermal
    /\ lookup "q_t" ts = Some q_t
    /\ q_l = Some (fst (equilibrium_phase_partition w temperature rho_thermal
                          q_t)).
Proof.
  intros Hrad E. unfold liquid_humidity in E. rewrite Hrad in E.
  cbn [orb] in E.
  step_as E ET temperature. step_as E Ert rho_thermal. step_as E Eqt q_t.
  tidy. exists temperature, rho_thermal, q_t. auto.
Qed.

(** C4. With radiation included, [TotalEnergy.source_fn] subtracts
    [rho * f_r], entry by entry, from the gravity-axis component of
    rho u_i tau_ij and from no other component, and the source it returns is
    computed from the divergence of the corrected components: it is this
    divergence when neither subsidence nor precipitation is included, and
    this divergence plus their terms otherwise. When the radiative flux
    [f_r] is a field of zeros (of the shape of the mesh), the source is the
    source computed with radiation not included. *)
Theorem radiation_zero_flux_reduces env self rid reps phi s c g :
  _include_radiation self = true ->
  _cloud self = Some c ->
  _g_dim (base self) = Some g ->
  (g < 3)%nat ->
  (forall source,
      eval (source_fn env self rid reps phi) s = Ok source ->
      exists w rho rho_thermal ts mu q_l terms div_terms,
        model (_thermodynamics (base self)) = WaterModel w
        /\ lookup KEY_RHO (states s) = Some rho
        /\ lookup "rho_thermal" (states s) = Some rho_thermal
        /\ eval (_get_thermodynamic_variables self phi) s = Ok ts
        /\ eval (viscosity self rho) s = Ok mu
        /\ eval (rho_u_tau env self mu) s = Ok terms
        /\ corrected_terms self rid reps s w c g ts rho q_l terms div_terms
        /\ eval (source_of_terms env self w rho rho_thermal q_l ts div_terms) s
           = Ok source
        /\ (_include_subsidence self = false ->
            _include_precipitation self = false ->
            source = divergence env (_kernel_op (base self)) div_terms
                       (_h (base self))))
  /\ ((forall rho u,
          lookup KEY_RHO (states s) = Some rho ->
          lookup KEY_U (states s) = Some u ->
          shape rho = shape u) ->
      (forall rho rho_thermal q_l zz hg,
          lookup KEY_RHO (states s) = Some rho ->
          lookup "rho_thermal" (states s) = Some rho_thermal ->
          source_by_radiation c q_l rho_thermal zz hg g (halos self) rid reps
          = map_structure1 zeros_like rho) ->
      source_fn env self rid reps phi s
      = source_fn env (without_radiation self) rid reps phi s).
Proof.
  intros Hrad Hc Hg Hlt. split.
  - intros source E. unfold source_fn in E.
    step_as E Ew w. step_as E Erho rho. step_as E Ert rho_thermal.
    step_as E Ets ts. step_as E Emu mu. step_as E Eterms terms.
    step_as E Eql q_l. step_as E Ediv div_terms.
    destruct (TotalEnergyRadiationSpec.radiation_correction_spec
                _ _ _ _ _ _ _ _ _ Hrad Ediv)
      as (c' & g' & hg & ql & rt & zz & d & d' & H1 & H2 & H3 & H4 & H5 & H6
          & H7 & H8 & H9 & H10 & H11).
    destruct (liquid_humidity_spec _ _ _ _ _ Hrad Eql)
      as (temperature & rt' & q_t & HT & Hrt' & Hqt & Hql).
    assert (c' = c) by congruence. assert (g' = g) by congruence.
    assert (rt' = rt) by congruence. subst c' g' rt'.
    unfold require_water in Ew.
    destruct (model (_thermodynamics (base self))) as [w' |] eqn:Hw;
      [| discriminate Ew].
    rewrite eval_ret in Ew. apply Ok_inj in Ew. subst w'.
    apply eval_read_states in Erho, Ert.
    assert (rt = rho_thermal) by congruence. subst rt.
    assert (Hpart : ql = fst (equilibrium_phase_partition w temperature
                                rho_thermal q_t)).
    { apply Some_inj. congruence. }
    clear Hql. subst q_l.
    exists w, rho, rho_thermal, ts, mu, ql, terms, div_terms.
    split; [first [exact Hw | reflexivity] |].
    split; [first [exact Erho | reflexivity] |].
    split; [first [exact Ert | reflexivity] |].
    split; [first [exact Ets | reflexivity] |].
    split; [first [exact Emu | reflexivity] |].
    split; [first [exact Eterms | reflexivity] |].
    split.
    { exists hg, rho_thermal, zz, temperature, q_t, d, d'.
      repeat (split; [solve [auto] |]). exact H11. }
    split; [exact E |].
    intros Hsub Hp.
    step_as E Esub src.
    unfold add_subsidence in Esub. rewrite Hsub in Esub.
    unfold add_precipitation in E. rewrite Hp in E.
    tidy. reflexivity.
  - intros Hshape Hflux.
    eapply TotalEnergyTheorems.source_fn_zero_flux; eassumption.
Qed.

End ZeroFluxTheorem.

Module ConstructionWitnesses.
Import SourceExample ConstructionTheorems.

(** With another model the constructor of [TotalEnergy] raises the
    [ValueError] of the model check; with the water model it returns. *)
Lemma total_energy_requires_water_witness :
  TotalEnergy.__init__ (TE.env same same) kernel_op (params (Some 2%nat))
    "e_t" TE.ideal_gas = Err ValueError
  /\ (exists obj,
         TotalEnergy.__init__ (TE.env same same) kernel_op
           (params (Some 2%nat)) "e_t" TE.thermodynamics = Ok obj).
Proof.
  split.
  - destruct (total_energy_requires_water (TE.env same same) kernel_op
                (params (Some 2%nat)) "e_t" TE.ideal_gas) as [H _].
    destruct (H eq_refl) as [_ H2].
    apply (H2 (scalar_e_t, (q 1 1, q 1 1, q 1 2), Some 2%nat));
      reflexivity.
  - destruct (total_energy_requires_water (TE.env same same) kernel_op
                (params (Some 2%nat)) "e_t" TE.thermodynamics)
      as (_ & H & _).
    apply (H TE.water (scalar_e_t, (q 1 1, q 1 1, q 1 2), Some 2%nat));
      reflexivity.
Defined.

(** The name [e_t], which is configured, is refused by the constructor of
    [PotentialTemperature] with an [AssertionError]; [theta_li] is
    accepted. *)
Lemma potential_temperature_name_check_witness :
  PotentialTemperature.__init__ (PT.env same same) kernel_op
    (params (Some 2%nat)) "e_t" PT.thermodynamics = Err AssertionError
  /\ (exists obj,
         PotentialTemperature.__init__ (PT.env same same) kernel_op
           (params (Some 2%nat)) "theta_li" PT.thermodynamics = Ok obj).
Proof.
  split.
  - destruct (potential_temperature_name_check (PT.env same same) kernel_op
                (params (Some 2%nat)) "e_t" PT.thermodynamics) as [H _].
    assert (H1 : "e_t" <> "theta") by discriminate.
    assert (H2 : "e_t" <> "theta_li") by discriminate.
    destruct (H H1 H2) as [_ H3].
    apply (H3 (scalar_e_t, (q 1 1, q 1 1, q 1 2), Some 2%nat)).
    reflexivity.
  - destruct (potential_temperature_name_check (PT.env same same) kernel_op
                (params (Some 2%nat)) "theta_li" PT.thermodynamics)
      as [_ H].
    apply (H (or_intror eq_refl)
             (scalar_theta "theta_li", (q 1 1, q 1 1, q 1 2), Some 2%nat)).
    reflexivity.
Defined.

End ConstructionWitnesses.

Module OptionalTermsWitness.
Import SourceExample OptionalTerms.

Lemma total_energy_built_without_gravity :
  TE.built same same None = Ok (TE.object same same None false false false).
Proof. reflexivity. Qed.

Lemma potential_temperature_built_without_gravity :
  PotentialTemperature.__init__ (PT.env same same) kernel_op (params None)
    "theta_li" PT.thermodynamics
  = Ok (PT.object same same "theta_li" None false false).
Proof. reflexivity. Qed.

(** With every flag set in the configuration and no gravity axis, the
    objects that the constructors return include no optional term, and
    their sources are the divergence of rho u_i tau_ij and zeros. *)
Lemma optional_terms_need_gravity_axis_witness :
  (forall rid reps phi,
      TotalEnergy.source_fn (TE.env same same)
        (TE.object same same None false false false) rid reps phi
      = TotalEnergySpec.source_of_shear (TE.env same same)
          (TE.object same same None false false false) phi)
  /\ (forall rid reps phi,
         PotentialTemperature.source_fn (PT.env same same)
           (PT.object same same "theta_li" None false false) rid reps phi
         = PotentialTemperatureSpec.source_of_zeros
             (PT.object same same "theta_li" None false false) phi).
Proof.
  split.
  - destruct (optional_terms_need_gravity_axis kernel_op (params None) "e_t")
      as [H _].
    destruct (H (TE.env same same) TE.thermodynamics _
                total_energy_built_without_gravity) as (_ & _ & _ & Hs).
    exact (Hs eq_refl).
  - destruct (optional_terms_need_gravity_axis kernel_op (params None)
                "theta_li") as [_ H].
    destruct (H (PT.env same same) PT.thermodynamics _
                potential_temperature_built_without_gravity) as (_ & _ & Hs).
    exact (Hs eq_refl).
Defined.

End OptionalTermsWitness.

Module SubsidenceWitness.
Import SourceExample SubsidenceTheorem.

(** For [theta] with the flag set the source is the source without
    subsidence; for [theta_li] it is that source, (-3, -3), plus the source by
    the subsidence velocity, (1, 2). *)
Lemma subsidence_only_for_theta_li_witness :
  PotentialTemperature.source_fn (PT.env same same)
    (PT.object same same "theta" (Some 2%nat) true true) 0 replicas phi
  = PotentialTemperature.source_fn (PT.env same same)
      (PotentialTemperatureSpec.without_subsidence
         (PT.object same same "theta" (Some 2%nat) true true)) 0 replicas phi
  /\ eval (PotentialTemperature.source_fn (PT.env same same)
             (PT.object same same "theta_li" (Some 2%nat) true true) 0
             replicas phi) moving
     = map_structure2 tadd [[[q (-3) 1; q (-3) 1]]]
         (PotentialTemperature.source_by_subsidence_velocity
            (PT.env same same) kernel_op (constant (q 2 1) phi)
            (get_default (additional_states moving) "zz"
               (map_structure1 zeros_like phi))
            (q 1 2) phi 2).
Proof.
  split.
  - destruct (subsidence_only_for_theta_li (PT.env same same)
                (PT.object same same "theta" (Some 2%nat) true true) 0%nat
                replicas phi) as [H _].
    apply H. left. discriminate.
  - destruct (subsidence_only_for_theta_li (PT.env same same)
                (PT.object same same "theta_li" (Some 2%nat) true true) 0%nat
                replicas phi) as [_ H].
    apply (H PT.water moving [[[q (-3) 1; q (-3) 1]]] (constant (q 2 1) phi)
             2%nat (q 1 2)); try reflexivity.
    run_field.
Defined.

End SubsidenceWitness.

Module RadiationWitnesses.
Import SourceExample.

(** On the example with the flux [rho_thermal] and radiation alone, the
    source (16, 34) is the divergence of the corrected components; with a
    flux of zeros the source with radiation, subsidence and precipitation is
    the source with subsidence and precipitation. *)
Lemma radiation_zero_flux_reduces_witness :
  (exists w rho rho_thermal ts mu q_l terms div_terms,
      model (_thermodynamics
               (TotalEnergy.base
                  (TE.object same same (Some 2%nat) true false false)))
      = WaterModel w
      /\ lookup KEY_RHO (states moving) = Some rho
      /\ lookup "rho_thermal" (states moving) = Some rho_thermal
      /\ eval (TotalEnergy._get_thermodynamic_variables
                 (TE.object same same (Some 2%nat) true false false) phi)
              moving = Ok ts
      /\ eval (TotalEnergy.viscosity
                 (TE.object same same (Some 2%nat) true false false) rho)
              moving = Ok mu
      /\ eval (TotalEnergy.rho_u_tau (TE.env same same)
                 (TE.object same same (Some 2%nat) true false false) mu)
              moving = Ok terms
      /\ TotalEnergySpec.corrected_terms
           (TE.object same same (Some 2%nat) true false false) 0 replicas
           moving w (TotalEnergy.new_Cloud (TE.env same same) TE.water) 2 ts
           rho q_l terms div_terms
      /\ eval (TotalEnergySpec.source_of_terms (TE.env same same)
                 (TE.object same same (Some 2%nat) true false false) w rho
                 rho_thermal q_l ts div_terms) moving
         = Ok [[[q 16 1; q 34 1]]]
      /\ (TotalEnergy._include_subsidence
            (TE.object same same (Some 2%nat) true false false) = false ->
          TotalEnergy._include_precipitation
            (TE.object same same (Some 2%nat) true false false) = false ->
          [[[q 16 1; q 34 1]]]
          = TotalEnergy.divergence (TE.env same same)
              (_kernel_op
                 (TotalEnergy.base
                    (TE.object same same (Some 2%nat) true false false)))
              div_terms
              (_h (TotalEnergy.base
                     (TE.object same same (Some 2%nat) true false false)))))
  /\ TotalEnergy.source_fn (TE.env zeros same)
       (TE.object zeros same (Some 2%nat) true true true) 0 replicas phi moving
     = TotalEnergy.source_fn (TE.env zeros same)
         (TotalEnergySpec.without_radiation
            (TE.object zeros same (Some 2%nat) true true true))
         0 replicas phi moving.
Proof.
  split.
  - destruct (ZeroFluxTheorem.radiation_zero_flux_reduces (TE.env same same)
                (TE.object same same (Some 2%nat) true false false) 0%nat
                replicas phi moving
                (TotalEnergy.new_Cloud (TE.env same same) TE.water) 2%nat
                eq_refl eq_refl eq_refl ltac:(lia)) as [H _].
    apply H. run_field.
  - destruct (ZeroFluxTheorem.radiation_zero_flux_reduces (TE.env zeros same)
                (TE.object zeros same (Some 2%nat) true true true) 0%nat
                replicas phi moving
                (TotalEnergy.new_Cloud (TE.env zeros same) TE.water) 2%nat
                eq_refl eq_refl eq_refl ltac:(lia)) as [_ H].
    apply H.
    + intros rho u Hrho Hu. cbn in Hrho, Hu.
      apply Some_inj in Hrho, Hu. subst. reflexivity.
    + intros rho rho_thermal q_l zz hg Hrho Hrt. cbn in Hrho, Hrt.
      apply Some_inj in Hrho, Hrt. subst. reflexivity.
Defined.

(** The radiation terms on the example: (-3, -3) for the potential
    temperature, where -rho f_r = (-2, -2), 2 h = 1, cp_m = 2 and
    exner^-1 = 3; (16, 34) for the total energy, where the components of
    rho u_i tau_ij are (6, 12) and rho f_r = (2, 2). *)
Lemma radiation_scaling_asymmetry_witness :
  RadiationSpec.potential_temperature_term
    (PT.object same same "theta_li" (Some 2%nat) true false) 0 replicas phi
    moving PT.water [[[q (-3) 1; q (-3) 1]]]
  /\ RadiationSpec.total_energy_term (TE.env same same)
       (TE.object same same (Some 2%nat) true false false) 0 replicas moving
       [[[q 16 1; q 34 1]]].
Proof.
  destruct (RadiationTheorem.radiation_scaling_asymmetry 0%nat replicas phi
              moving) as [Hpt Hte].
  split.
  - apply (Hpt (PT.env same same)); first [reflexivity | run_field].
  - apply Hte; first [reflexivity | run_field].
Defined.

End RadiationWitnesses.

Module ZeroSourceWitness.
Import SourceExample.

Lemma example_thermo :
  exists ts,
    eval (TotalEnergy._get_thermodynamic_variables te_obj phi) at_rest = Ok ts
    /\ lookup "T" ts = Some phi /\ lookup "h_t" ts = Some phi.
Proof. eexists. split; [reflexivity |]. split; reflexivity. Qed.

Lemma example_zero_inputs :
  TotalEnergyZero.zero_inputs te_env te_obj phi at_rest.
Proof.
  constructor.
  - eexists. reflexivity.
  - eexists. split; reflexivity.
  - eexists. reflexivity.
  - reflexivity.
  - reflexivity.
  - reflexivity.
  - destruct example_thermo as (ts & Hts & _). eauto.
  - intros rho Hrho. eexists. reflexivity.
  - intros rho mu Hrho Emu. cbn in Hrho. apply Some_inj in Hrho. subst rho.
    cbn in Emu. apply Ok_inj in Emu. subst mu.
    intros key Hin. cbn in Hin.
    repeat (destruct Hin as [<- | Hin];
            [eexists; split; reflexivity |]).
    destruct Hin.
  - apply field_eqb_sound. vm_compute. reflexivity.
Qed.

Lemma example_zero_radiation :
  TotalEnergyZero.zero_radiation te_obj phi at_rest 0 replicas.
Proof.
  constructor.
  - eexists. split; [reflexivity |].
    intros q_l rho_thermal zz hg g Hrt. cbn in Hrt. apply Some_inj in Hrt.
    subst. reflexivity.
  - exists 2%nat. split; [reflexivity | lia].
Qed.

Lemma example_zero_subsidence :
  TotalEnergyZero.zero_subsidence te_env te_obj phi at_rest.
Proof.
  constructor.
  - exists 2%nat. split; [reflexivity | lia].
  - intros ts rho zz hg h_t g Ets Hht.
    destruct example_thermo as (ts' & Hts' & _ & Hht').
    assert (ts' = ts) by congruence. subst ts'.
    assert (h_t = phi) by congruence. subst. reflexivity.
Qed.

Lemma example_zero_precipitation :
  TotalEnergyZero.zero_precipitation te_obj phi at_rest.
Proof.
  constructor.
  - eexists. reflexivity.
  - eexists. split; [reflexivity |]. split.
    + intros q_r q_l Hqr. cbn in Hqr. apply Some_inj in Hqr. subst.
      reflexivity.
    + intros rho_thermal temperature q_r q_v q_l q_c Hrt. cbn in Hrt.
      apply Some_inj in Hrt. subst. reflexivity.
  - intros w ts temperature Hw Ets HT.
    destruct example_thermo as (ts' & Hts' & HT' & _).
    assert (ts' = ts) by congruence. subst ts'.
    assert (temperature = phi) by congruence. subst.
    cbn in Hw. injection Hw as <-. split; reflexivity.
  - intros w temperature rho_thermal q_t Hw Hqt.
    cbn in Hw. injection Hw as <-. apply shape_zeros.
  - intros zz Hzz. discriminate.
Qed.

Lemma example_pt_zero_radiation :
  PotentialTemperatureZero.zero_radiation pt_obj phi at_rest 0 replicas.
Proof.
  constructor.
  - eexists. split; [reflexivity |].
    intros q_l rho_thermal zz hg g Hrt. cbn in Hrt. apply Some_inj in Hrt.
    subst. reflexivity.
  - exists 2%nat, (q 1 2). split; [reflexivity |]. split; [reflexivity |].
    split; [| reflexivity].
    intro H. apply (f_equal this) in H. discriminate.
  - eexists. split; reflexivity.
  - intros w q_t q_l q_i Hw Hqt. cbn in Hw. injection Hw as <-.
    cbn in Hqt. apply Some_inj in Hqt. subst. reflexivity.
  - intros w rho_thermal q_t temperature zz Hw Hrt. cbn in Hw.
    injection Hw as <-. cbn in Hrt. apply Some_inj in Hrt. subst.
    reflexivity.
Qed.

Lemma example_pt_zero_subsidence :
  PotentialTemperatureZero.zero_subsidence pt_env pt_obj phi at_rest.
Proof.
  constructor.
  - exists 2%nat. split; [reflexivity | lia].
  - eexists. reflexivity.
  - intros. reflexivity.
Qed.

(** At rest, with every optional term included and zero, the two sources
    are the field (0, 0) of the shape of [phi], and the store is the one
    received. *)
Lemma zero_inputs_give_zero_source_witness :
  (exists source,
      TotalEnergy.source_fn te_env te_obj 0 replicas phi at_rest
      = (Ok source, at_rest)
      /\ shape source = shape phi
      /\ forall z k j x, entry source z k j = Some x -> x = 0)
  /\ (exists source,
         PotentialTemperature.source_fn pt_env pt_obj 0 replicas phi at_rest
         = (Ok source, at_rest)
         /\ shape source = shape phi
         /\ forall z k j x, entry source z k j = Some x -> x = 0).
Proof.
  destruct (ZeroSourceTheorem.zero_inputs_give_zero_source 0%nat replicas phi
              at_rest) as (Hte & Hpt & _ & _).
  split.
  - apply Hte.
    + exact example_zero_inputs.
    + right. exact example_zero_radiation.
    + right. exact example_zero_subsidence.
    + right. exact example_zero_precipitation.
  - apply Hpt.
    + eexists. reflexivity.
    + right. exact example_pt_zero_radiation.
    + right. exact example_pt_zero_subsidence.
Defined.

End ZeroSourceWitness.

(** * The boundary update: errors, shapes and bounds *)

Module OutflowErrors.
Import Outflow OutflowSpec OutflowFacts OutflowTotal OutflowTheorems.

(** X1. The update reads [u] and [rho] before it looks at any key of
    [additional_states]: without [u] in [states] it raises [KeyError('u')];
    with the outlet face of [u] at hand and without [rho] it raises
    [KeyError('rho')], whatever [additional_states] holds. *)
Theorem update_reads_u_and_rho gr replicas st ast p :
  (lookup "u" st = None ->
   get_boundary_update_fn gr replicas st ast p = Err (KeyError "u"))
  /\ (forall um,
        u_max gr replicas st p = Ok um ->
        lookup "rho" st = None ->
        get_boundary_update_fn gr replicas st ast p = Err (KeyError "rho")).
Proof.
  split.
  - intro Hu.
    unfold get_boundary_update_fn, u_max, u_max_operand, getitem.
    rewrite Hu. reflexivity.
  - intros um Hum Hrho.
    unfold get_boundary_update_fn. rewrite Hum. cbn [bind].
    unfold mass_flux_x_face, mass_flux_operand, getitem.
    rewrite Hrho. reflexivity.
Qed.

Lemma update_reads_u_and_rho_witness :
  get_boundary_update_fn single_replica_reduce OutflowExample.replicas []
    [] OutflowExample.params = Err (KeyError "u")
  /\ get_boundary_update_fn single_replica_reduce OutflowExample.replicas
       [("u", OutflowExample.u)] [] OutflowExample.params
     = Err (KeyError "rho").
Proof.
  split.
  - apply (update_reads_u_and_rho single_replica_reduce
             OutflowExample.replicas [] [] OutflowExample.params).
    reflexivity.
  - apply (update_reads_u_and_rho single_replica_reduce
             OutflowExample.replicas [("u", OutflowExample.u)] []
             OutflowExample.params) with (um := q 2 1).
    + run_scalar.
    + reflexivity.
Defined.

(** X2. A halo that does not leave a row for the outlet face is refused: when
    the first level of [u] has no more rows than [halo_width], the index
    [-halo_width - 1] is out of range and the update raises. *)
Theorem outlet_face_out_of_range gr replicas st ast p t r :
  lookup "u" st = Some (t :: r) ->
  (Z.of_nat (List.length t) <= halo_width p)%Z ->
  get_boundary_update_fn gr replicas st ast p = Err IndexError.
Proof.
  intros Hu Hh.
  unfold get_boundary_update_fn, u_max, u_max_operand, getitem.
  rewrite Hu. cbn [bind mapM].
  assert (Hf : x_face (outlet_face p) t = Err IndexError).
  { unfold x_face, outlet_face.
    destruct (- halo_width p - 1 <? 0)%Z eqn:Hneg; [| apply Z.ltb_ge in Hneg; lia].
    destruct (0 <=? - halo_width p - 1 + Z.of_nat (List.length t))%Z eqn:Hlo;
      [apply Z.leb_le in Hlo; lia | reflexivity]. }
  rewrite Hf. reflexivity.
Qed.

Lemma outlet_face_out_of_range_witness :
  get_boundary_update_fn single_replica_reduce OutflowExample.replicas
    OutflowExample.states OutflowExample.additional_states
    {| halo_width := 4; dt := q 1 4; dx := q 1 1 |} = Err IndexError.
Proof.
  apply (outlet_face_out_of_range single_replica_reduce
           OutflowExample.replicas OutflowExample.states
           OutflowExample.additional_states
           {| halo_width := 4; dt := q 1 4; dx := q 1 1 |}
           [[q 1 1]; [q 1 1]; [q 2 1]; [q 2 1]] []).
  - reflexivity.
  - simpl. lia.
Defined.

(** X3. The pattern is searched in the key, not matched against the whole of
    it: two keys in which it finds the same variable receive the same value,
    the update of the buffer [bc_<var>_0_1]. *)
Theorem same_variable_same_value gr replicas st ast p out i1 i2 key1 key2
    val1 val2 new1 var :
  get_boundary_update_fn gr replicas st ast p = Ok out ->
  nth_error ast i1 = Some (key1, val1) ->
  nth_error ast i2 = Some (key2, val2) ->
  Regex.search key1 = Some var ->
  Regex.search key2 = Some var ->
  nth_error out i1 = Some (key1, new1) ->
  nth_error out i2 = Some (key2, new1).
Proof.
  intros Hrun H1 H2 Hs1 Hs2 Hn1.
  destruct (get_boundary_update_fn_ok _ _ _ _ _ _ Hrun)
    as (um & mo & mi & _ & _ & _ & Hmap).
  destruct (update_items_frame _ _ _ _ _ _ _ Hmap) as [_ Hitems].
  destruct (Hitems _ _ _ H1) as (n1 & Hn1' & Hu1).
  destruct (Hitems _ _ _ H2) as (n2 & Hn2' & Hu2).
  rewrite Hs1 in Hu1. rewrite Hs2 in Hu2.
  assert (n1 = new1) by congruence.
  assert (n2 = n1) by congruence.
  subst. exact Hn2'.
Qed.

Lemma example2_run :
  OutflowExample2.run
  = Ok [("bc_T_0_1", [[[q 6 1]]]); ("prev_bc_T_0_1", [[[q 6 1]]])].
Proof. run_states. Qed.

(** The key [prev_bc_T_0_1], whose value was 9, receives the update of the
    buffer [bc_T_0_1], whose value was 4. *)
Lemma same_variable_same_value_witness :
  nth_error [("bc_T_0_1", [[[q 6 1]]]); ("prev_bc_T_0_1", [[[q 6 1]]])] 1
  = Some ("prev_bc_T_0_1", [[[q 6 1]]]).
Proof.
  apply (same_variable_same_value single_replica_reduce
           OutflowExample.replicas OutflowExample.states
           OutflowExample2.additional_states OutflowExample.params
           [("bc_T_0_1", [[[q 6 1]]]); ("prev_bc_T_0_1", [[[q 6 1]]])]
           0%nat 1%nat "bc_T_0_1" "prev_bc_T_0_1" [[[q 4 1]]] [[[q 9 1]]]
           [[[q 6 1]]] "T").
  - exact example2_run.
  - reflexivity.
  - reflexivity.
  - reflexivity.
  - reflexivity.
  - reflexivity.
Defined.

End OutflowErrors.

Module OutflowBuffers.
Import Outflow OutflowSpec OutflowFacts OutflowTotal OutflowTheorems.

(** In a dictionary, whose keys are distinct, the value at a position is the
    value looked up by its key. *)
Lemma lookup_nth (m : StatesMap) (i : nat) (key : string) (val : FlowFieldVal) :
  NoDup (keys m) ->
  nth_error m i = Some (key, val) ->
  lookup key m = Some val.
Proof.
  revert i. induction m as [| [k v] m IH]; intros [| i] Hnd Hi;
    simpl in *; try discriminate.
  - injection Hi as -> ->. rewrite String.eqb_refl. reflexivity.
  - inversion Hnd as [| ? ? Hnotin Hnd']; subst.
    destruct (String.eqb key k) eqn:Hk.
    + apply String.eqb_eq in Hk. subst k. exfalso. apply Hnotin.
      apply nth_error_In in Hi. unfold keys.
      change key with (fst (key, val)). apply in_map. exact Hi.
    + eapply IH; eauto.
Qed.

(** X4. The buffer of a variable is advanced from its own values: for a
    variable name of word characters, an entry of the new buffer
    [bc_<var>_0_1] is the convex combination of the old entry of this buffer
    and the entry of the outlet face of the variable; when the variable is
    [u] and the mass flux through the outlet face is not zero, it is this
    value times the mass flux through the inlet face divided by the mass
    flux through the outlet face. *)
Theorem buffer_advances_from_itself gr replicas st ast p out um rho u i
    var val new phi z k j x :
  Regex.word var = true ->
  NoDup (keys ast) ->
  get_boundary_update_fn gr replicas st ast p = Ok out ->
  u_max gr replicas st p = Ok um ->
  lookup "rho" st = Some rho ->
  lookup "u" st = Some u ->
  nth_error ast i = Some ("bc_" ++ var ++ "_0_1", val) ->
  nth_error out i = Some ("bc_" ++ var ++ "_0_1", new) ->
  lookup var st = Some phi ->
  entry new z k j = Some x ->
  exists old up,
    entry val z k j = Some old
    /\ face_entry (outlet_face p) phi z j = Some up
    /\ (var <> "u" -> x = (1 - cfl_of p um) * old + cfl_of p um * up)
    /\ (var = "u" ->
        face_mass_flux gr replicas (outlet_face p) rho u <> 0 ->
        x = face_mass_flux gr replicas (halo_width p) rho u
            / face_mass_flux gr replicas (outlet_face p) rho u
            * ((1 - cfl_of p um) * old + cfl_of p um * up)).
Proof.
  intros Hw Hnd Hrun Hum Hrho Hu Hi Hnew Hphi Hx.
  pose proof (RegexFacts.search_bc_key var Hw) as Hs.
  pose proof (lookup_nth _ _ _ _ Hnd Hi) as Hbc.
  destruct (get_boundary_update_fn_ok _ _ _ _ _ _ Hrun)
    as (um' & mo & mi & _ & Hmo & Hmi & _).
  destruct (updated_entry _ _ _ _ _ _ _ _ _ _ _ _ _ _ _ _ _ _ _ _
              Hrun Hum Hmo Hmi Hi Hs Hnew Hbc Hphi Hx)
    as (old & up & Hold & Hup & ->).
  rewrite (mass_flux_x_face_spec _ _ _ _ _ _ _ Hmo Hrho Hu).
  rewrite (mass_flux_x_face_spec _ _ _ _ _ _ _ Hmi Hrho Hu).
  exists old, up. split; [exact Hold |]. split; [exact Hup |]. split.
  - intro Hvar. apply String.eqb_neq in Hvar. rewrite Hvar. ring.
  - intros -> _. simpl. f_equal. ring.
Qed.

(** On the example run, the new entry 3/2 of [bc_u_0_1] comes from its old
    entry 4 and the outlet value 2 of [u]: the outlet flux is 2, not zero,
    and the inlet flux 1. *)
Lemma buffer_advances_from_itself_witness :
  exists old up,
    entry [[[q 4 1]]] 0 0 0 = Some old
    /\ face_entry (outlet_face OutflowExample.params) OutflowExample.u 0 0
       = Some up
    /\ ("u" <> "u" ->
        q 3 2 = (1 - cfl_of OutflowExample.params (q 2 1)) * old
                + cfl_of OutflowExample.params (q 2 1) * up)
    /\ ("u" = "u" ->
        face_mass_flux single_replica_reduce OutflowExample.replicas
          (outlet_face OutflowExample.params) OutflowExample.rho
          OutflowExample.u <> 0 ->
        q 3 2
        = face_mass_flux single_replica_reduce OutflowExample.replicas
            (halo_width OutflowExample.params) OutflowExample.rho
            OutflowExample.u
          / face_mass_flux single_replica_reduce OutflowExample.replicas
              (outlet_face OutflowExample.params) OutflowExample.rho
              OutflowExample.u
          * ((1 - cfl_of OutflowExample.params (q 2 1)) * old
             + cfl_of OutflowExample.params (q 2 1) * up)).
Proof.
  apply (buffer_advances_from_itself single_replica_reduce
           OutflowExample.replicas OutflowExample.states
           OutflowExample.additional_states OutflowExample.params
           [("bc_u_0_1", [[[q 3 2]]]); ("zz", [[[q 7 1]]]);
            ("bc_T_0_1", [[[q 6 1]]])]
           (q 2 1) OutflowExample.rho OutflowExample.u 0%nat "u" [[[q 4 1]]]
           [[[q 3 2]]] OutflowExample.u 0%nat 0%nat 0%nat (q 3 2)).
  - reflexivity.
  - repeat constructor; simpl; intuition discriminate.
  - exact OutflowWitness.example_run.
  - exact OutflowWitness.example_u_max.
  - reflexivity.
  - reflexivity.
  - reflexivity.
  - reflexivity.
  - reflexivity.
  - reflexivity.
Defined.

(** An updated level has the shape of the level of the buffer. *)
Lemma update_slice_shape p factor coeff (u_j u_j_1 t : Tensor2) :
  update_slice p factor coeff u_j u_j_1 = Ok t ->
  shape2 t = shape2 u_j.
Proof.
  unfold update_slice. intro H.
  inv_bind H. rename a into up. inv_bind H. rename a into s.
  apply Ok_inj in H. subst t.
  unfold add_row in Ha0. unfold shape2, scale2 in *.
  rewrite map_map.
  revert s Ha0. induction u_j as [| row u_j IH]; intros s Hs; simpl in Hs.
  - apply Ok_inj in Hs. subst s. reflexivity.
  - inv_bind Hs. inv_bind Hs. apply Ok_inj in Hs. subst s.
    simpl. f_equal.
    + unfold scale1. rewrite length_map.
      rewrite (zip1_length _ _ _ _ Ha0). unfold scale1.
      rewrite length_map. reflexivity.
    + apply IH. exact Ha1.
Qed.

Lemma update_levels_shape p factor coeff (bc phi new : FlowFieldVal) :
  mapM (fun '(u_j, u_j_1) => update_slice p factor coeff u_j u_j_1)
       (combine bc phi) = Ok new ->
  shape new = shape (firstn (List.length phi) bc).
Proof.
  revert phi new. induction bc as [| b bc IH]; intros phi new H.
  - simpl in H. apply Ok_inj in H. subst new.
    rewrite firstn_nil. reflexivity.
  - destruct phi as [| f phi]; simpl in H.
    + apply Ok_inj in H. subst new. reflexivity.
    + inv_bind H. inv_bind H. apply Ok_inj in H. subst new.
      simpl. f_equal.
      * eapply update_slice_shape. exact Ha.
      * apply IH. exact Ha0.
Qed.

(** X5. For a buffer and a field whose rows have one number of columns (the
    sum of a level of the buffer and of the outlet face of the field
    stretches no axis), the new buffer has the shape of the old one, cut to
    the number of levels of the variable: levels of the buffer beyond those
    of the field are dropped without an error, and a buffer with no more
    levels than the field keeps its shape. *)
Theorem updated_buffer_shape gr replicas st ast p out i key val var new bc
    phi ny :
  get_boundary_update_fn gr replicas st ast p = Ok out ->
  nth_error ast i = Some (key, val) ->
  Regex.search key = Some var ->
  nth_error out i = Some (key, new) ->
  lookup ("bc_" ++ var ++ "_0_1") ast = Some bc ->
  lookup var st = Some phi ->
  Forall (rows_of_length ny) bc ->
  Forall (rows_of_length ny) phi ->
  shape new = shape (firstn (List.length phi) bc)
  /\ (List.length bc <= List.length phi -> shape new = shape bc)%nat.
Proof.
  intros Hrun Hi Hs Hnew Hbc Hphi _ _.
  destruct (get_boundary_update_fn_ok _ _ _ _ _ _ Hrun)
    as (um & mo & mi & _ & _ & _ & Hmap).
  destruct (update_items_frame _ _ _ _ _ _ _ Hmap) as [_ Hitems].
  destruct (Hitems _ _ _ Hi) as (new' & Hnew' & Hupd).
  rewrite Hs in Hupd.
  assert (new' = new) by congruence. subst new'.
  unfold update_boundary_values, getitem in Hupd.
  rewrite Hbc, Hphi in Hupd. cbn [bind] in Hupd.
  pose proof (update_levels_shape _ _ _ _ _ _ Hupd) as Hshape.
  split; [exact Hshape |].
  intro Hle. rewrite Hshape. rewrite firstn_all2 by exact Hle. reflexivity.
Qed.

(** On the example run the buffer [bc_T_0_1] and the field [T] have rows of
    one column, and the new buffer has the shape of the old one. *)
Lemma updated_buffer_shape_witness :
  shape [[[q 6 1]]] = shape (firstn (List.length OutflowExample.T) [[[q 4 1]]])
  /\ ((List.length ([[[q 4 1]]] : FlowFieldVal)
       <= List.length OutflowExample.T)%nat ->
      shape [[[q 6 1]]] = shape [[[q 4 1]]]).
Proof.
  apply (updated_buffer_shape single_replica_reduce
           OutflowExample.replicas OutflowExample.states
           OutflowExample.additional_states OutflowExample.params
           [("bc_u_0_1", [[[q 3 2]]]); ("zz", [[[q 7 1]]]);
            ("bc_T_0_1", [[[q 6 1]]])]
           2%nat "bc_T_0_1" [[[q 4 1]]] "T" [[[q 6 1]]] [[[q 4 1]]]
           OutflowExample.T 1%nat).
  - exact OutflowWitness.example_run.
  - reflexivity.
  - reflexivity.
  - reflexivity.
  - reflexivity.
  - reflexivity.
  - repeat constructor.
  - repeat constructor.
Defined.

End OutflowBuffers.

Module OutflowBounds.
Import Outflow OutflowSpec OutflowFacts OutflowTotal OutflowTheorems.

(** X7. The two ends of the range of the Courant number: with [c = 0]
    (nothing leaves through the outlet) a buffer of a variable other than
    [u] keeps its entries; with [c = 1] it takes the entries of the outlet
    face. *)
Theorem update_at_the_ends gr replicas st ast p out um i key val var new bc
    phi z k j x :
  var <> "u" ->
  get_boundary_update_fn gr replicas st ast p = Ok out ->
  u_max gr replicas st p = Ok um ->
  nth_error ast i = Some (key, val) ->
  Regex.search key = Some var ->
  nth_error out i = Some (key, new) ->
  lookup ("bc_" ++ var ++ "_0_1") ast = Some bc ->
  lookup var st = Some phi ->
  entry new z k j = Some x ->
  (cfl_of p um = 0 -> entry bc z k j = Some x)
  /\ (cfl_of p um = 1 -> face_entry (outlet_face p) phi z j = Some x).
Proof.
  intros Hvar Hrun Hum Hi Hs Hnew Hbc Hphi Hx.
  destruct (get_boundary_update_fn_ok _ _ _ _ _ _ Hrun)
    as (um' & mo & mi & Hum' & Hmo & Hmi & _).
  destruct (updated_entry _ _ _ _ _ _ _ _ _ _ _ _ _ _ _ _ _ _ _ _
              Hrun Hum Hmo Hmi Hi Hs Hnew Hbc Hphi Hx)
    as (old & up & Hold & Hup & ->).
  apply String.eqb_neq in Hvar. rewrite Hvar.
  split; intro Hc; rewrite Hc.
  - rewrite Hold. f_equal. ring.
  - rewrite Hup. f_equal. ring.
Qed.

Lemma example3_run :
  OutflowExample3.run = Ok [("bc_T_0_1", [[[q 4 1; q 5 1]]])].
Proof. run_states. Qed.

Lemma example3_u_max :
  u_max single_replica_reduce OutflowExample.replicas OutflowExample3.states
    OutflowExample.params = Ok (q 0 1).
Proof. run_scalar. Qed.

Lemma example4_run :
  OutflowExample4.run
  = Ok [("bc_u_0_1", [[[q 1 1]]]); ("zz", [[[q 7 1]]]);
        ("bc_T_0_1", [[[q 8 1]]])].
Proof. run_states. Qed.

Lemma example4_u_max :
  u_max single_replica_reduce OutflowExample.replicas OutflowExample.states
    OutflowExample4.params = Ok (q 2 1).
Proof. run_scalar. Qed.

(** With the largest outlet velocity 0 the buffer of [T] keeps its entry 5;
    with [dt * u_max = dx] it takes the outlet value 8. *)
Lemma update_at_the_ends_witness :
  entry [[[q 4 1; q 5 1]]] 0 0 1 = Some (q 5 1)
  /\ face_entry (outlet_face OutflowExample4.params) OutflowExample.T 0 0
     = Some (q 8 1).
Proof.
  split.
  - apply (update_at_the_ends single_replica_reduce
             OutflowExample.replicas OutflowExample3.states
             OutflowExample3.additional_states OutflowExample.params
             [("bc_T_0_1", [[[q 4 1; q 5 1]]])]
             (q 0 1) 0%nat "bc_T_0_1" [[[q 4 1; q 5 1]]] "T"
             [[[q 4 1; q 5 1]]] [[[q 4 1; q 5 1]]] OutflowExample3.T
             0%nat 0%nat 1%nat (q 5 1)).
    + discriminate.
    + exact example3_run.
    + exact example3_u_max.
    + reflexivity.
    + reflexivity.
    + reflexivity.
    + reflexivity.
    + reflexivity.
    + reflexivity.
    + run_qc.
  - apply (update_at_the_ends single_replica_reduce
             OutflowExample.replicas OutflowExample.states
             OutflowExample.additional_states OutflowExample4.params
             [("bc_u_0_1", [[[q 1 1]]]); ("zz", [[[q 7 1]]]);
              ("bc_T_0_1", [[[q 8 1]]])]
             (q 2 1) 2%nat "bc_T_0_1" [[[q 4 1]]] "T"
             [[[q 8 1]]] [[[q 4 1]]] OutflowExample.T
             0%nat 0%nat 0%nat (q 8 1)).
    + discriminate.
    + exact example4_run.
    + exact example4_u_max.
    + reflexivity.
    + reflexivity.
    + reflexivity.
    + reflexivity.
    + reflexivity.
    + reflexivity.
    + run_qc.
Defined.

End OutflowBounds.

(** * The thermodynamic variables of the total energy equation *)

Module TotalEnergyVariables.
Import TotalEnergy TotalEnergySpec TotalEnergyFacts TotalEnergyRun.

(** What [_get_thermodynamic_variables] has computed when it returns. *)
Lemma thermodynamic_variables_spec self phi s ts :
  eval (_get_thermodynamic_variables self phi) s = Ok ts ->
  exists w q_t rho_thermal temperature theta,
    let ads := additional_states s in
    let zz := get_default ads "zz" (map_structure1 zeros_like phi) in
    model (_thermodynamics (base self)) = WaterModel w
    /\ lookup "q_t" (states s) = Some q_t
    /\ lookup "rho_thermal" (states s) = Some rho_thermal
    /\ match lookup "T" ads with
       | Some t => temperature = t
       | None =>
           exists u v w',
             lookup KEY_U (states s) = Some u
             /\ lookup KEY_V (states s) = Some v
             /\ lookup KEY_W (states s) = Some w'
             /\ temperature
                = saturation_adjustment w "e_int"
                    (internal_energy_from_total_energy w phi u v w' zz)
                    rho_thermal q_t ads
       end
    /\ match lookup "theta" ads with
       | Some t => theta = t
       | None =>
           lookup "theta"
             (potential_temperatures w temperature q_t rho_thermal zz ads)
           = Some theta
       end
    /\ ts = dict_set "h_t" (total_enthalpy w phi rho_thermal q_t temperature)
              (dict_set "theta" theta
                (dict_set "T" temperature
                  (dict_set "zz" zz
                    (dict_set "q_t" q_t
                      (dict_set (_scalar_name (base self)) phi []))))).
Proof.
  unfold _get_thermodynamic_variables, require_water. intro E.
  destruct (model (_thermodynamics (base self))) as [w |] eqn:Hw;
    [| discriminate E].
  rewrite eval_bindM in E by (solve [prove_read_only]).
  rewrite eval_ret in E.
  rewrite eval_bindM in E by (solve [prove_read_only]).
  unfold additional_get at 1 in E. cbn [eval fst] in E.
  step_as E Eqt q_t. step_as E Ert rho_thermal.
  apply eval_read_states in Eqt, Ert.
  rewrite eval_bindM in E by (solve [prove_read_only]).
  unfold additional_contains at 1, contains in E. cbn [eval fst] in E.
  step_as E ET temperature.
  rewrite eval_bindM in E by (solve [prove_read_only]).
  unfold additional_contains at 1, contains in E. cbn [eval fst] in E.
  step_as E Eth theta.
  rewrite eval_ret in E. apply Ok_inj in E.
  exists w, q_t, rho_thermal, temperature, theta. cbv zeta.
  split; [reflexivity |]. split; [exact Eqt |]. split; [exact Ert |].
  split; [| split; [| symmetry; exact E]].
  - destruct (lookup "T" (additional_states s)) as [t |] eqn:HT.
    + apply eval_read_additional in ET. congruence.
    + step_as ET Eu u. step_as ET Ev v. step_as ET Ew w'.
      apply eval_read_states in Eu, Ev, Ew.
      rewrite eval_bindM in ET by (solve [prove_read_only]).
      unfold the_additional_states at 1 in ET. cbn [eval fst] in ET.
      rewrite eval_ret in ET. apply Ok_inj in ET.
      exists u, v, w'. auto.
  - destruct (lookup "theta" (additional_states s)) as [t |] eqn:HT.
    + apply eval_read_additional in Eth. congruence.
    + rewrite eval_bindM in Eth by (solve [prove_read_only]).
      unfold the_additional_states at 1 in Eth. cbn [eval fst] in Eth.
      rewrite eval_lift in Eth. apply getitem_ok in Eth. exact Eth.
Qed.

(** The object that the constructor returns is named [e_t] and has a
    [water.Water] model, a cloud model and a microphysics model. *)
Lemma constructed env kernel_op params scalar_name thermodynamics obj :
  __init__ env kernel_op params scalar_name thermodynamics = Ok obj ->
  _scalar_name (base obj) = "e_t"
  /\ (exists w, model (_thermodynamics (base obj)) = WaterModel w)
  /\ (exists c, _cloud obj = Some c)
  /\ (exists mp, _microphysics obj = Some mp).
Proof.
  unfold __init__, ScalarGeneric_init. intro H.
  inv_bind H. inv_bind Ha. destruct a0 as [[sp h] g].
  apply Ok_inj in Ha. subst a. inv_bind H. cbn [_thermodynamics] in H.
  destruct (String.eqb scalar_name TOTAL_ENERGY_VARNAME) eqn:Hn;
    [| discriminate Ha].
  apply String.eqb_eq in Hn.
  destruct (model thermodynamics) as [w |] eqn:Hm; [| discriminate].
  apply Ok_inj in H. subst obj. cbn.
  split; [exact Hn |]. rewrite Hm.
  split; [| split]; eexists; reflexivity.
Qed.

(** X8. The scalar that is convected and the scalar that is diffused are
    both the total enthalpy [h_t] of the thermodynamic variables, computed
    from [phi], [rho_thermal], [q_t] and the temperature; they fail when the
    thermodynamic variables do. *)
Theorem convected_and_diffused_scalar self phi s :
  (forall ts,
      eval (_get_thermodynamic_variables self phi) s = Ok ts ->
      exists w q_t rho_thermal temperature,
        model (_thermodynamics (base self)) = WaterModel w
        /\ lookup "q_t" (states s) = Some q_t
        /\ lookup "rho_thermal" (states s) = Some rho_thermal
        /\ lookup "T" ts = Some temperature
        /\ eval (_get_scalar_for_convection self phi) s
           = Ok (total_enthalpy w phi rho_thermal q_t temperature)
        /\ eval (_get_scalar_for_diffusion self phi) s
           = Ok (total_enthalpy w phi rho_thermal q_t temperature))
  /\ (forall e,
        eval (_get_thermodynamic_variables self phi) s = Err e ->
        eval (_get_scalar_for_convection self phi) s = Err e
        /\ eval (_get_scalar_for_diffusion self phi) s = Err e).
Proof.
  split.
  - intros ts E.
    destruct (thermodynamic_variables_spec _ _ _ _ E)
      as (w & q_t & rho_thermal & temperature & theta & Hw & Hqt & Hrt & _ & _
          & Hts).
    cbv zeta in Hts.
    exists w, q_t, rho_thermal, temperature.
    split; [exact Hw |]. split; [exact Hqt |]. split; [exact Hrt |].
    assert (HT : lookup "T" ts = Some temperature).
    { rewrite Hts.
      rewrite (lookup_dict_set_neq "T" "h_t") by reflexivity.
      rewrite (lookup_dict_set_neq "T" "theta") by reflexivity.
      apply lookup_dict_set_eq. }
    assert (Hh : getitem ts "h_t"
                 = Ok (total_enthalpy w phi rho_thermal q_t temperature)).
    { unfold getitem. rewrite Hts, lookup_dict_set_eq. reflexivity. }
    split; [exact HT |].
    unfold _get_scalar_for_convection, _get_scalar_for_diffusion.
    rewrite !eval_bindM by (solve [prove_read_only]).
    rewrite E, eval_lift, Hh. split; reflexivity.
  - intros e E.
    unfold _get_scalar_for_convection, _get_scalar_for_diffusion.
    rewrite !eval_bindM by (solve [prove_read_only]).
    rewrite E. split; reflexivity.
Qed.

(** On the run at rest the enthalpy of the example model is [phi]. *)
Lemma convected_and_diffused_scalar_witness :
  exists w q_t rho_thermal temperature,
    model (_thermodynamics (base SourceExample.te_obj)) = WaterModel w
    /\ lookup "q_t" (states SourceExample.at_rest) = Some q_t
    /\ lookup "rho_thermal" (states SourceExample.at_rest) = Some rho_thermal
    /\ lookup "T"
         [("e_t", SourceExample.phi); ("q_t", SourceExample.constant 0 SourceExample.phi);
          ("zz", zeros SourceExample.phi); ("T", SourceExample.phi);
          ("theta", SourceExample.phi); ("h_t", SourceExample.phi)]
       = Some temperature
    /\ eval (_get_scalar_for_convection SourceExample.te_obj SourceExample.phi)
         SourceExample.at_rest
       = Ok (total_enthalpy w SourceExample.phi rho_thermal q_t temperature)
    /\ eval (_get_scalar_for_diffusion SourceExample.te_obj SourceExample.phi)
         SourceExample.at_rest
       = Ok (total_enthalpy w SourceExample.phi rho_thermal q_t temperature).
Proof.
  apply (proj1 (convected_and_diffused_scalar SourceExample.te_obj
                  SourceExample.phi SourceExample.at_rest)).
  run_states.
Defined.

(** X9. The thermodynamic variables of an object that the constructor has
    returned are the six fields [e_t], [q_t], [zz], [T], [theta] and [h_t],
    in this order: [e_t] is [phi], [q_t] is the one of [states], [zz] is the
    one of [additional_states] or zeros, and a temperature or a potential
    temperature held in [additional_states] is taken as it is. *)
Theorem thermodynamic_variables_of_total_energy env kernel_op params
    scalar_name thermodynamics obj phi s ts :
  __init__ env kernel_op params scalar_name thermodynamics = Ok obj ->
  eval (_get_thermodynamic_variables obj phi) s = Ok ts ->
  keys ts = ["e_t"; "q_t"; "zz"; "T"; "theta"; "h_t"]
  /\ lookup "e_t" ts = Some phi
  /\ lookup "q_t" ts = lookup "q_t" (states s)
  /\ lookup "zz" ts
     = Some (get_default (additional_states s) "zz"
               (map_structure1 zeros_like phi))
  /\ (forall t,
        lookup "T" (additional_states s) = Some t -> lookup "T" ts = Some t)
  /\ (forall t,
        lookup "theta" (additional_states s) = Some t ->
        lookup "theta" ts = Some t).
Proof.
  intros Hinit E.
  destruct (constructed _ _ _ _ _ _ Hinit) as (Hname & _).
  destruct (thermodynamic_variables_spec _ _ _ _ E)
    as (w & q_t & rho_thermal & temperature & theta & Hw & Hqt & Hrt & HT
        & Hth & Hts).
  cbv zeta in HT, Hth, Hts. rewrite Hname in Hts. subst ts.
  split; [reflexivity |]. split; [reflexivity |].
  split; [rewrite Hqt; reflexivity |]. split; [reflexivity |].
  split.
  - intros t Ht. rewrite Ht in HT. subst temperature. reflexivity.
  - intros t Ht. rewrite Ht in Hth. subst theta. reflexivity.
Qed.

Lemma example_built :
  SourceExample.TE.built zeros zeros (Some 2%nat) = Ok SourceExample.te_obj.
Proof. reflexivity. Qed.

Lemma thermodynamic_variables_of_total_energy_witness :
  let ts := [("e_t", SourceExample.phi);
             ("q_t", SourceExample.constant 0 SourceExample.phi);
             ("zz", zeros SourceExample.phi); ("T", SourceExample.phi);
             ("theta", SourceExample.phi); ("h_t", SourceExample.phi)] in
  keys ts = ["e_t"; "q_t"; "zz"; "T"; "theta"; "h_t"]
  /\ lookup "e_t" ts = Some SourceExample.phi
  /\ lookup "q_t" ts = lookup "q_t" (states SourceExample.at_rest)
  /\ lookup "zz" ts
     = Some (get_default (additional_states SourceExample.at_rest) "zz"
               (map_structure1 zeros_like SourceExample.phi))
  /\ (forall t,
        lookup "T" (additional_states SourceExample.at_rest) = Some t ->
        lookup "T" ts = Some t)
  /\ (forall t,
        lookup "theta" (additional_states SourceExample.at_rest) = Some t ->
        lookup "theta" ts = Some t).
Proof.
  apply (thermodynamic_variables_of_total_energy
           (SourceExample.TE.env zeros zeros) SourceExample.kernel_op
           (SourceExample.params (Some 2%nat)) "e_t"
           SourceExample.TE.thermodynamics SourceExample.te_obj
           SourceExample.phi SourceExample.at_rest).
  - exact example_built.
  - run_states.
Defined.

End TotalEnergyVariables.

(** * Evaluating the steps of a computation *)

Lemma eval_read_states_eq (key : string) (s : Store) :
  eval (read_states key) s = getitem (states s) key.
Proof. reflexivity. Qed.

Lemma eval_read_additional_eq (key : string) (s : Store) :
  eval (read_additional key) s = getitem (additional_states s) key.
Proof. reflexivity. Qed.

Lemma eval_additional_get (key : string) (d : FlowFieldVal) (s : Store) :
  eval (additional_get key d) s = Ok (get_default (additional_states s) key d).
Proof. reflexivity. Qed.

Lemma eval_additional_contains (key : string) (s : Store) :
  eval (additional_contains key) s = Ok (contains (additional_states s) key).
Proof. reflexivity. Qed.

Lemma eval_the_additional_states (s : Store) :
  eval the_additional_states s = Ok (additional_states s).
Proof. reflexivity. Qed.

Lemma eval_raise {A : Type} (e : error) (s : Store) :
  eval (@raise A e) s = Err e.
Proof. reflexivity. Qed.

Lemma getitem_some (m : StatesMap) (key : string) (v : FlowFieldVal) :
  lookup key m = Some v -> getitem m key = Ok v.
Proof. unfold getitem. intros ->. reflexivity. Qed.

Lemma getitem_none (m : StatesMap) (key : string) :
  lookup key m = None -> getitem m key = Err (KeyError key).
Proof. unfold getitem. intros ->. reflexivity. Qed.

Lemma contains_some (m : StatesMap) (key : string) (v : FlowFieldVal) :
  lookup key m = Some v -> contains m key = true.
Proof. unfold contains. intros ->. reflexivity. Qed.

Lemma contains_none (m : StatesMap) (key : string) :
  lookup key m = None -> contains m key = false.
Proof. unfold contains. intros ->. reflexivity. Qed.

(** One step of a computation whose head is read-only. *)
Ltac next := rewrite eval_bindM by (solve [prove_read_only]).

Module TotalEnergyCache.
Import TotalEnergy TotalEnergySpec TotalEnergyFacts TotalEnergyRun.

(** X10. A temperature and a potential temperature held in
    [additional_states] spare the saturation adjustment: the thermodynamic
    variables are returned with these two fields whether or not the velocity
    is in [states]. Without a temperature in [additional_states] the
    velocity is read, and a missing [u] is a [KeyError]. *)
Theorem cached_temperature_spares_velocity self phi s w q_t rho_thermal :
  model (_thermodynamics (base self)) = WaterModel w ->
  lookup "q_t" (states s) = Some q_t ->
  lookup "rho_thermal" (states s) = Some rho_thermal ->
  (forall t th,
      lookup "T" (additional_states s) = Some t ->
      lookup "theta" (additional_states s) = Some th ->
      eval (_get_thermodynamic_variables self phi) s
      = Ok (dict_set "h_t" (total_enthalpy w phi rho_thermal q_t t)
             (dict_set "theta" th
               (dict_set "T" t
                 (dict_set "zz"
                    (get_default (additional_states s) "zz"
                       (map_structure1 zeros_like phi))
                    (dict_set "q_t" q_t
                      (dict_set (_scalar_name (base self)) phi [])))))))
  /\ (lookup "T" (additional_states s) = None ->
      lookup KEY_U (states s) = None ->
      eval (_get_thermodynamic_variables self phi) s = Err (KeyError "u")).
Proof.
  intros Hw Hqt Hrt. split.
  - intros t th HT Hth.
    unfold _get_thermodynamic_variables, require_water. rewrite Hw.
    next. rewrite eval_ret.
    next. rewrite eval_additional_get.
    next. rewrite eval_read_states_eq, (getitem_some _ _ _ Hqt).
    next. rewrite eval_read_states_eq, (getitem_some _ _ _ Hrt).
    next. rewrite eval_additional_contains, (contains_some _ _ _ HT).
    next. rewrite eval_read_additional_eq, (getitem_some _ _ _ HT).
    next. rewrite eval_additional_contains, (contains_some _ _ _ Hth).
    next. rewrite eval_read_additional_eq, (getitem_some _ _ _ Hth).
    reflexivity.
  - intros HT Hu.
    unfold _get_thermodynamic_variables, require_water. rewrite Hw.
    next. rewrite eval_ret.
    next. rewrite eval_additional_get.
    next. rewrite eval_read_states_eq, (getitem_some _ _ _ Hqt).
    next. rewrite eval_read_states_eq, (getitem_some _ _ _ Hrt).
    next. rewrite eval_additional_contains, (contains_none _ _ HT).
    next. next. rewrite eval_read_states_eq, (getitem_none _ _ Hu).
    reflexivity.
Qed.

Lemma cached_temperature_spares_velocity_witness :
  lookup KEY_U (states SourceExample2.cached) = None
  /\ eval (_get_thermodynamic_variables SourceExample.te_obj SourceExample.phi)
       SourceExample2.cached
     = Ok [("e_t", SourceExample.phi);
           ("q_t", SourceExample.constant 0 SourceExample.phi);
           ("zz", zeros SourceExample.phi);
           ("T", SourceExample.constant (q 5 1) SourceExample.phi);
           ("theta", SourceExample.constant (q 6 1) SourceExample.phi);
           ("h_t", SourceExample.phi)]
  /\ eval (_get_thermodynamic_variables SourceExample.te_obj SourceExample.phi)
       {| states := states SourceExample2.cached; additional_states := [] |}
     = Err (KeyError "u").
Proof.
  split; [reflexivity |]. split.
  - apply (proj1 (cached_temperature_spares_velocity SourceExample.te_obj
                    SourceExample.phi SourceExample2.cached
                    SourceExample.TE.water
                    (SourceExample.constant 0 SourceExample.phi)
                    SourceExample.ones eq_refl eq_refl eq_refl)
             (SourceExample.constant (q 5 1) SourceExample.phi)
             (SourceExample.constant (q 6 1) SourceExample.phi));
      reflexivity.
  - apply (proj2 (cached_temperature_spares_velocity SourceExample.te_obj
                    SourceExample.phi
                    {| states := states SourceExample2.cached;
                       additional_states := [] |}
                    SourceExample.TE.water
                    (SourceExample.constant 0 SourceExample.phi)
                    SourceExample.ones eq_refl eq_refl eq_refl));
      reflexivity.
Defined.

End TotalEnergyCache.

(** * Which errors a source function can raise *)

Lemma fails_on_input_Ok {A : Type} (a : A) : fails_on_input (Ok a).
Proof. intros e H. discriminate H. Qed.

Lemma fails_on_input_bind {A B : Type} (m : result A) (k : A -> result B) :
  fails_on_input m -> (forall a, fails_on_input (k a)) ->
  fails_on_input (bind m k).
Proof.
  intros Hm Hk e H. destruct m as [a | e']; simpl in H.
  - exact (Hk a e H).
  - injection H as <-. apply Hm. reflexivity.
Qed.

Lemma fails_on_input_getitem (m : StatesMap) (key : string) :
  fails_on_input (getitem m key).
Proof.
  intros e H. unfold getitem in H.
  destruct (lookup key m); [discriminate H |].
  injection H as <-. reflexivity.
Qed.

Lemma fails_on_input_zip1 op (a b : Tensor1) : fails_on_input (zip1 op a b).
Proof.
  revert b. induction a as [| x a IH]; intros [| y b] e H; simpl in H;
    try discriminate H; try (injection H as <-; reflexivity).
  destruct (zip1 op a b) as [r | e'] eqn:E; simpl in H; [discriminate H |].
  injection H as <-. exact (IH b e' E).
Qed.

Lemma fails_on_input_zip2 op (a b : Tensor2) : fails_on_input (zip2 op a b).
Proof.
  revert b. induction a as [| x a IH]; intros [| y b] e H; simpl in H;
    try discriminate H; try (injection H as <-; reflexivity).
  destruct (zip1 op x y) as [r0 | e0] eqn:E0; simpl in H.
  - destruct (zip2 op a b) as [r | e'] eqn:E; simpl in H; [discriminate H |].
    injection H as <-. exact (IH b e' E).
  - injection H as <-. exact (fails_on_input_zip1 _ _ _ _ E0).
Qed.

Lemma fails_on_input_tuple3_get (t : Qc * Qc * Qc) (i : nat) :
  fails_on_input (tuple3_get t i).
Proof.
  intros e H. destruct t as [[a b] c].
  destruct i as [| [| [| i]]]; simpl in H; try discriminate H;
    injection H as <-; reflexivity.
Qed.

Lemma fails_on_input_list_get {A : Type} (l : list A) (i : nat) :
  fails_on_input (list_get l i).
Proof.
  intros e H. unfold list_get in H. destruct (nth_error l i);
    [discriminate H | injection H as <-; reflexivity].
Qed.

Lemma fails_on_input_list_set {A : Type} (l : list A) (i : nat) (x : A) :
  fails_on_input (list_set l i x).
Proof.
  revert i. induction l as [| y l IH]; intros i e H; simpl in H.
  - injection H as <-. reflexivity.
  - destruct i as [| i]; [discriminate H |].
    destruct (list_set l i x) as [r | e'] eqn:E; simpl in H;
      [discriminate H |].
    injection H as <-. exact (IH i e' E).
Qed.

Lemma fails_on_input_mapM {A B : Type} (f : A -> result B) (l : list A) :
  (forall a, fails_on_input (f a)) -> fails_on_input (mapM f l).
Proof.
  intro Hf. induction l as [| x l IH]; simpl.
  - apply fails_on_input_Ok.
  - apply fails_on_input_bind; [apply Hf | intro].
    apply fails_on_input_bind; [exact IH | intro]. apply fails_on_input_Ok.
Qed.

Lemma fails_on_input_map_structure2 f (a b : FlowFieldVal) :
  (forall x y, fails_on_input (f x y)) ->
  fails_on_input (map_structure2 f a b).
Proof.
  intro Hf. revert b.
  induction a as [| x a IH]; intros [| y b]; simpl;
    try apply fails_on_input_Ok;
    try (intros e H; injection H as <-; reflexivity).
  apply fails_on_input_bind; [apply Hf | intro].
  apply fails_on_input_bind; [apply IH | intro]. apply fails_on_input_Ok.
Qed.

Lemma fails_on_input_map_structure3 f (a b c : FlowFieldVal) :
  (forall x y z, fails_on_input (f x y z)) ->
  fails_on_input (map_structure3 f a b c).
Proof.
  intro Hf. revert b c.
  induction a as [| x a IH]; intros [| y b] [| z c]; simpl;
    try apply fails_on_input_Ok;
    try (intros e H; injection H as <-; reflexivity).
  apply fails_on_input_bind; [apply Hf | intro].
  apply fails_on_input_bind; [apply IH | intro]. apply fails_on_input_Ok.
Qed.

Lemma fails_on_input_map_structure4 f (a b c d : FlowFieldVal) :
  (forall x y z t, fails_on_input (f x y z t)) ->
  fails_on_input (map_structure4 f a b c d).
Proof.
  intro Hf. revert b c d.
  induction a as [| x a IH]; intros [| y b] [| z c] [| t d]; simpl;
    try apply fails_on_input_Ok;
    try (intros e H; injection H as <-; reflexivity).
  apply fails_on_input_bind; [apply Hf | intro].
  apply fails_on_input_bind; [apply IH | intro]. apply fails_on_input_Ok.
Qed.

Lemma fails_on_input_map_structure6 f (a b c d e g : FlowFieldVal) :
  (forall x y z t s r, fails_on_input (f x y z t s r)) ->
  fails_on_input (map_structure6 f a b c d e g).
Proof.
  intro Hf. revert b c d e g.
  induction a as [| x a IH];
    intros [| y b] [| z c] [| t d] [| s e] [| r g]; simpl;
    try apply fails_on_input_Ok;
    try (intros e' H; injection H as <-; reflexivity).
  apply fails_on_input_bind; [apply Hf | intro].
  apply fails_on_input_bind; [apply IH | intro]. apply fails_on_input_Ok.
Qed.

Create HintDb on_input.
#[export] Hint Resolve fails_on_input_Ok fails_on_input_getitem
  fails_on_input_zip2 fails_on_input_tuple3_get fails_on_input_list_get
  fails_on_input_list_set : on_input.

Ltac fails_step :=
  match goal with
  | |- fails_on_input (bind _ _) => apply fails_on_input_bind; [| intro]
  | |- fails_on_input (tadd _ _) => apply fails_on_input_zip2
  | |- fails_on_input (tsub _ _) => apply fails_on_input_zip2
  | |- fails_on_input (tmul _ _) => apply fails_on_input_zip2
  | |- fails_on_input (map_structure2 _ _ _) =>
      apply fails_on_input_map_structure2; intros
  | |- fails_on_input (map_structure3 _ _ _ _) =>
      apply fails_on_input_map_structure3; intros
  | |- fails_on_input (map_structure4 _ _ _ _ _) =>
      apply fails_on_input_map_structure4; intros
  | |- fails_on_input (map_structure6 _ _ _ _ _ _ _) =>
      apply fails_on_input_map_structure6; intros
  | |- fails_on_input (mapM _ _) => apply fails_on_input_mapM; intros
  | |- fails_on_input _ => solve [auto with on_input]
  end.

Ltac prove_fails := repeat fails_step.

Lemma raises_on_input_ret {A : Type} (a : A) : raises_on_input (ret a).
Proof. intros s e H. discriminate H. Qed.

Lemma raises_on_input_lift {A : Type} (r : result A) :
  fails_on_input r -> raises_on_input (lift r).
Proof. intros Hr s e H. apply Hr. exact H. Qed.

Lemma raises_on_input_read_states (key : string) :
  raises_on_input (read_states key).
Proof. intros s e H. exact (fails_on_input_getitem _ _ e H). Qed.

Lemma raises_on_input_read_additional (key : string) :
  raises_on_input (read_additional key).
Proof. intros s e H. exact (fails_on_input_getitem _ _ e H). Qed.

Lemma raises_on_input_additional_get (key : string) (d : FlowFieldVal) :
  raises_on_input (additional_get key d).
Proof. intros s e H. discriminate H. Qed.

Lemma raises_on_input_additional_contains (key : string) :
  raises_on_input (additional_contains key).
Proof. intros s e H. discriminate H. Qed.

Lemma raises_on_input_the_additional_states :
  raises_on_input the_additional_states.
Proof. intros s e H. discriminate H. Qed.

Lemma raises_on_input_raise {A : Type} (e : error) :
  input_error e = true -> raises_on_input (@raise A e).
Proof. intros He s e' H. injection H as <-. exact He. Qed.

(** Sequencing, with what is known of the value of the first step. *)
Lemma raises_on_input_bindM_post {A B : Type} (Q : A -> Prop) (m : M A)
    (k : A -> M B) :
  raises_on_input m ->
  (forall s a, eval m s = Ok a -> Q a) ->
  (forall a, Q a -> raises_on_input (k a)) ->
  raises_on_input (bindM m k).
Proof.
  intros Hm HQ Hk s e H. unfold eval, bindM in H.
  destruct (m s) as [[a | e'] s'] eqn:Ems.
  - apply (Hk a) with (s := s'); [| exact H].
    apply (HQ s). unfold eval. rewrite Ems. reflexivity.
  - simpl in H. injection H as <-.
    apply (Hm s). unfold eval. rewrite Ems. reflexivity.
Qed.

Lemma raises_on_input_bindM {A B : Type} (m : M A) (k : A -> M B) :
  raises_on_input m -> (forall a, raises_on_input (k a)) ->
  raises_on_input (bindM m k).
Proof.
  intros Hm Hk.
  apply (raises_on_input_bindM_post (fun _ => True)); auto.
Qed.

#[export] Hint Resolve raises_on_input_ret raises_on_input_read_states
  raises_on_input_read_additional raises_on_input_additional_get
  raises_on_input_additional_contains raises_on_input_the_additional_states
  : on_input.

Ltac raises_step :=
  match goal with
  | |- raises_on_input (bindM _ _) => apply raises_on_input_bindM; [| intro]
  | |- raises_on_input (lift _) => apply raises_on_input_lift; prove_fails
  | |- raises_on_input (if ?b then _ else _) => destruct b eqn:?
  | |- raises_on_input (let '(_, _) := ?x in _) => destruct x
  | |- raises_on_input _ => solve [auto with on_input]
  end.

Ltac prove_raises := repeat raises_step.

Module TotalEnergyErrors.
Import TotalEnergy TotalEnergySpec TotalEnergyFacts TotalEnergyRun
  TotalEnergyVariables.

Section Errors.

Variable env : Collaborators.
Variable self : TotalEnergy.
Variable w : Water.
Variable c : Cloud.
Variable mp : MicrophysicsKW1978.

Hypothesis Hwater : model (_thermodynamics (base self)) = WaterModel w.
Hypothesis Hcloud : _cloud self = Some c.
Hypothesis Hmicro : _microphysics self = Some mp.
Hypothesis Hrad : _include_radiation self = true -> _g_dim (base self) <> None.
Hypothesis Hsub : _include_subsidence self = true -> _g_dim (base self) <> None.
Hypothesis Hpre :
  _include_precipitation self = true -> _g_dim (base self) <> None.

Lemma raises_require_water : raises_on_input (require_water self).
Proof. unfold require_water. rewrite Hwater. prove_raises. Qed.

Lemma raises_thermodynamic_variables phi :
  raises_on_input (_get_thermodynamic_variables self phi).
Proof.
  unfold _get_thermodynamic_variables.
  apply raises_on_input_bindM; [apply raises_require_water | intro].
  prove_raises.
Qed.

Lemma raises_viscosity rho : raises_on_input (viscosity self rho).
Proof. unfold viscosity. prove_raises. Qed.

Lemma raises_compute_rho_u_tau a b d :
  raises_on_input (compute_rho_u_tau a b d).
Proof. unfold compute_rho_u_tau. prove_raises. unfold u_dot_tau. prove_fails. Qed.

Lemma raises_rho_u_tau mu : raises_on_input (rho_u_tau env self mu).
Proof.
  unfold rho_u_tau. destruct (_h (base self)) as [[h0 h1] h2].
  repeat first
    [ apply raises_compute_rho_u_tau
    | apply raises_on_input_bindM; [| intro]
    | raises_step ].
Qed.

Lemma raises_liquid_humidity w0 ts :
  raises_on_input (liquid_humidity self w0 ts).
Proof. unfold liquid_humidity. prove_raises. Qed.

(** [q_l] is bound whenever a block that reads it runs. *)
Lemma liquid_humidity_bound w0 ts s q_l :
  eval (liquid_humidity self w0 ts) s = Ok q_l ->
  _include_radiation self || _include_precipitation self = true ->
  q_l <> None.
Proof.
  unfold liquid_humidity. intros E Hb. rewrite Hb in E.
  step_in E E1. step_in E E2. step_in E E3.
  rewrite eval_ret in E. apply Ok_inj in E. subst q_l. discriminate.
Qed.

Lemma raises_h_at_g_dim g :
  _g_dim (base self) = Some g -> fails_on_input (h_at_g_dim (base self)).
Proof. intro Hg. unfold h_at_g_dim. rewrite Hg. prove_fails. Qed.

Lemma raises_radiation_correction rho q_l ts rid reps terms :
  (_include_radiation self = true -> q_l <> None) ->
  raises_on_input (radiation_correction self rho q_l ts rid reps terms).
Proof.
  intro Hq. unfold radiation_correction.
  destruct (_include_radiation self) eqn:Hr; [| prove_raises].
  destruct (_g_dim (base self)) as [g |] eqn:Hg;
    [| exfalso; apply (Hrad eq_refl); reflexivity].
  destruct q_l as [q_l |]; [| exfalso; apply (Hq eq_refl); reflexivity].
  unfold attribute, bound, g_dim_index. rewrite Hcloud, Hg.
  pose proof (raises_h_at_g_dim g Hg) as Hh.
  repeat first
    [ apply raises_on_input_bindM; [| intro]
    | apply raises_on_input_lift; first [exact Hh | prove_fails]
    | raises_step ].
Qed.

Lemma raises_add_subsidence rho ts source :
  raises_on_input (add_subsidence env self rho ts source).
Proof.
  unfold add_subsidence.
  destruct (_include_subsidence self) eqn:Hs; [| prove_raises].
  destruct (_g_dim (base self)) as [g |] eqn:Hg;
    [| exfalso; apply (Hsub eq_refl); reflexivity].
  unfold g_dim_index. rewrite Hg.
  pose proof (raises_h_at_g_dim g Hg) as Hh.
  repeat first
    [ apply raises_on_input_bindM; [| intro]
    | apply raises_on_input_lift; first [exact Hh | prove_fails]
    | raises_step ].
Qed.

Lemma raises_add_precipitation w0 rho rho_thermal q_l ts source :
  (_include_precipitation self = true -> q_l <> None) ->
  raises_on_input (add_precipitation env self w0 rho rho_thermal q_l ts source).
Proof.
  intro Hq. unfold add_precipitation.
  destruct (_include_precipitation self) eqn:Hp; [| prove_raises].
  destruct q_l as [q_l |]; [| exfalso; apply (Hq eq_refl); reflexivity].
  unfold attribute, bound. rewrite Hmicro.
  apply raises_on_input_bindM; [prove_raises | intro temperature].
  destruct (internal_energy_components w0 temperature) as [[e_v e_l] e_i].
  repeat first
    [ apply raises_on_input_bindM; [| intro]
    | apply raises_on_input_lift; prove_fails
    | raises_step ].
Qed.

Lemma raises_source_fn rid reps phi :
  raises_on_input (source_fn env self rid reps phi).
Proof.
  unfold source_fn.
  apply raises_on_input_bindM; [apply raises_require_water | intro w0].
  apply raises_on_input_bindM; [prove_raises | intro rho].
  apply raises_on_input_bindM; [prove_raises | intro rho_thermal].
  apply raises_on_input_bindM;
    [apply raises_thermodynamic_variables | intro ts].
  apply raises_on_input_bindM; [apply raises_viscosity | intro mu].
  apply raises_on_input_bindM; [apply raises_rho_u_tau | intro terms].
  apply (raises_on_input_bindM_post
           (fun q_l =>
              _include_radiation self || _include_precipitation self = true
              -> q_l <> None)).
  - apply raises_liquid_humidity.
  - intros s q_l E. exact (liquid_humidity_bound _ _ _ _ E).
  - intros q_l Hq.
    apply raises_on_input_bindM; [| intro div_terms].
    + apply raises_radiation_correction. intro Hr. apply Hq.
      rewrite Hr. reflexivity.
    + apply raises_on_input_bindM; [apply raises_add_subsidence | intro].
      apply raises_add_precipitation. intro Hp. apply Hq.
      rewrite Hp. apply orb_true_r.
Qed.

End Errors.

End TotalEnergyErrors.

Module PotentialTemperatureErrors.
Import PotentialTemperature PotentialTemperatureSpec PotentialTemperatureFacts
  PotentialTemperatureRun.

(** The object that the constructor returns has one of the two names, and a
    cloud model when its thermodynamics model is a [water.Water]. *)
Lemma pt_constructed env kernel_op params scalar_name thermodynamics obj :
  __init__ env kernel_op params scalar_name thermodynamics = Ok obj ->
  (_scalar_name (base obj) = "theta" \/ _scalar_name (base obj) = "theta_li")
  /\ (forall w,
        model (_thermodynamics (base obj)) = WaterModel w ->
        exists c, _cloud obj = Some c).
Proof.
  unfold __init__, ScalarGeneric_init. intro H.
  inv_bind H. inv_bind Ha. destruct a0 as [[sp h] g].
  apply Ok_inj in Ha. subst a. inv_bind H. cbn [_thermodynamics] in H.
  assert (Hn : scalar_name = "theta" \/ scalar_name = "theta_li").
  { unfold string_in, _POTENTIAL_TEMPERATURE_VARNAME in Ha. simpl in Ha.
    destruct (String.eqb scalar_name "theta") eqn:H1.
    - left. apply String.eqb_eq. exact H1.
    - destruct (String.eqb scalar_name "theta_li") eqn:H2.
      + right. apply String.eqb_eq. exact H2.
      + discriminate Ha. }
  destruct (model thermodynamics) as [w |] eqn:Hm; cbn in H;
    apply Ok_inj in H; subst obj; cbn; (split; [exact Hn |]);
    rewrite Hm; intros w' Hw'; [eauto | discriminate Hw'].
Qed.

Section Errors.

Variable env : Collaborators.
Variable self : PotentialTemperature.

Hypothesis Hcloud :
  forall w, model (_thermodynamics (base self)) = WaterModel w ->
            exists c, _cloud self = Some c.
Hypothesis Hrad : _include_radiation self = true -> _g_dim (base self) <> None.
Hypothesis Hsub : _include_subsidence self = true -> _g_dim (base self) <> None.

Lemma raises_pt_thermodynamic_variables phi :
  raises_on_input (_get_thermodynamic_variables self phi).
Proof.
  unfold _get_thermodynamic_variables.
  destruct (model (_thermodynamics (base self))) as [w |]; [| prove_raises].
  repeat first
    [ apply raises_on_input_bindM; [| intro]
    | match goal with
      | |- raises_on_input (let '(_, _) := ?x in _) => destruct x
      end
    | raises_step ].
Qed.

Lemma fails_pt_h_at_g_dim g :
  _g_dim (base self) = Some g -> fails_on_input (h_at_g_dim (base self)).
Proof. intro Hg. unfold h_at_g_dim. rewrite Hg. prove_fails. Qed.

Lemma fails_grad_central g f : fails_on_input (_grad_central self g f).
Proof.
  unfold _grad_central. destruct g as [| [| [| g]]];
    try apply fails_on_input_Ok.
  intros e H. injection H as <-. reflexivity.
Qed.

Lemma raises_radiation_source ts rid reps source :
  raises_on_input (radiation_source self ts rid reps source).
Proof.
  unfold radiation_source, isinstance_Water, the_water.
  destruct (_include_radiation self) eqn:Hr; cbn [andb]; [| prove_raises].
  destruct (model (_thermodynamics (base self))) as [w |] eqn:Hw;
    [| prove_raises].
  destruct (Hcloud w eq_refl) as (c & Hc).
  destruct (_g_dim (base self)) as [g |] eqn:Hg;
    [| exfalso; apply (Hrad eq_refl); reflexivity].
  unfold attribute, g_dim_index. rewrite Hc, Hg.
  pose proof (fails_pt_h_at_g_dim g Hg) as Hh.
  repeat first
    [ apply raises_on_input_bindM; [| intro]
    | apply raises_on_input_lift;
      first [ exact Hh
            | apply fails_grad_central
            | apply fails_on_input_mapM; intro;
              apply fails_on_input_bind; [exact Hh | intro];
              apply fails_on_input_Ok
            | prove_fails ]
    | raises_step ].
Qed.

Lemma raises_pt_add_subsidence ts phi source :
  raises_on_input (add_subsidence env self ts phi source).
Proof.
  unfold add_subsidence.
  destruct (_include_subsidence self) eqn:Hs; cbn [andb]; [| prove_raises].
  destruct (isinstance_Water self); cbn [andb]; [| prove_raises].
  destruct (String.eqb (_scalar_name (base self)) "theta_li");
    [| prove_raises].
  destruct (_g_dim (base self)) as [g |] eqn:Hg;
    [| exfalso; apply (Hsub eq_refl); reflexivity].
  unfold g_dim_index. rewrite Hg.
  pose proof (fails_pt_h_at_g_dim g Hg) as Hh.
  repeat first
    [ apply raises_on_input_bindM; [| intro]
    | apply raises_on_input_lift; first [exact Hh | prove_fails]
    | raises_step ].
Qed.

Lemma raises_pt_source_fn rid reps phi :
  raises_on_input (source_fn env self rid reps phi).
Proof.
  unfold source_fn.
  apply raises_on_input_bindM;
    [apply raises_pt_thermodynamic_variables | intro ts].
  apply raises_on_input_bindM; [apply raises_radiation_source | intro].
  apply raises_pt_add_subsidence.
Qed.

End Errors.

End PotentialTemperatureErrors.

Lemma flag_needs_axis {A : Type} (g : option A) (a b : bool) :
  a && b && is_not_None g = true -> g <> None.
Proof.
  destruct g; [discriminate |].
  rewrite andb_false_r. discriminate.
Qed.

Module SourceErrors.

(** X11. On an object that the constructor of [TotalEnergy] has returned,
    [source_fn] fails only on its inputs: a missing key, an axis out of
    range, tensors of different shapes or fields of different lengths. The
    liquid humidity is bound wherever it is read, the cloud and microphysics
    models are there, and a term that needs the gravity axis is included
    only with one. *)
Theorem total_energy_source_fails_on_input env kernel_op params scalar_name
    thermodynamics obj rid reps phi s e :
  TotalEnergy.__init__ env kernel_op params scalar_name thermodynamics
  = Ok obj ->
  eval (TotalEnergy.source_fn env obj rid reps phi) s = Err e ->
  input_error e = true.
Proof.
  intros Hinit E.
  destruct (TotalEnergyVariables.constructed _ _ _ _ _ _ Hinit)
    as (_ & (w & Hw) & (c & Hc) & (mp & Hmp)).
  destruct (OptionalTerms.total_energy_init_flags _ _ _ _ _ _ Hinit)
    as (H1 & H2 & H3).
  cbv zeta in H1, H2, H3.
  apply (TotalEnergyErrors.raises_source_fn env obj w c mp Hw Hc Hmp)
    with (rid := rid) (reps := reps) (phi := phi) (s := s).
  - intro H. rewrite H in H1. symmetry in H1.
    exact (flag_needs_axis _ _ _ H1).
  - intro H. rewrite H in H2. symmetry in H2.
    exact (flag_needs_axis _ _ _ H2).
  - intro H. rewrite H in H3. symmetry in H3.
    exact (flag_needs_axis _ _ _ H3).
  - exact E.
Qed.

(** The constructed object of the example, run on empty dictionaries, fails
    on the first key that it reads. *)
Lemma total_energy_source_fails_on_input_witness :
  eval (TotalEnergy.source_fn SourceExample.te_env SourceExample.te_obj 0
          SourceExample.replicas SourceExample.phi)
    {| states := []; additional_states := [] |} = Err (KeyError "rho")
  /\ input_error (KeyError "rho") = true.
Proof.
  split; [reflexivity |].
  apply (total_energy_source_fails_on_input SourceExample.te_env
           SourceExample.kernel_op (SourceExample.params (Some 2%nat)) "e_t"
           SourceExample.TE.thermodynamics SourceExample.te_obj 0%nat
           SourceExample.replicas SourceExample.phi
           {| states := []; additional_states := [] |}).
  - reflexivity.
  - reflexivity.
Defined.

(** X12. On an object that the constructor of [PotentialTemperature] has
    returned, [source_fn] fails only on its inputs: a missing key, an axis
    out of range, tensors of different shapes or fields of different
    lengths. *)
Theorem potential_temperature_source_fails_on_input env kernel_op params
    scalar_name thermodynamics obj rid reps phi s e :
  PotentialTemperature.__init__ env kernel_op params scalar_name
    thermodynamics = Ok obj ->
  eval (PotentialTemperature.source_fn env obj rid reps phi) s = Err e ->
  input_error e = true.
Proof.
  intros Hinit E.
  destruct (PotentialTemperatureErrors.pt_constructed _ _ _ _ _ _ Hinit)
    as (_ & Hcloud).
  destruct (OptionalTerms.potential_temperature_init_flags _ _ _ _ _ _ Hinit)
    as (H1 & H2).
  cbv zeta in H1, H2.
  apply (PotentialTemperatureErrors.raises_pt_source_fn env obj Hcloud)
    with (rid := rid) (reps := reps) (phi := phi) (s := s).
  - intro H. rewrite H in H1. symmetry in H1.
    exact (flag_needs_axis _ _ _ H1).
  - intro H. rewrite H in H2. symmetry in H2.
    exact (flag_needs_axis _ _ _ H2).
  - exact E.
Qed.

Lemma pt_example_built :
  PotentialTemperature.__init__ SourceExample.pt_env SourceExample.kernel_op
    (SourceExample.params (Some 2%nat)) "theta_li"
    SourceExample.PT.thermodynamics = Ok SourceExample.pt_obj.
Proof. reflexivity. Qed.

Lemma potential_temperature_source_fails_on_input_witness :
  eval (PotentialTemperature.source_fn SourceExample.pt_env
          SourceExample.pt_obj 0 SourceExample.replicas SourceExample.phi)
    {| states := []; additional_states := [] |} = Err (KeyError "q_t")
  /\ input_error (KeyError "q_t") = true.
Proof.
  split; [reflexivity |].
  apply (potential_temperature_source_fails_on_input SourceExample.pt_env
           SourceExample.kernel_op (SourceExample.params (Some 2%nat))
           "theta_li" SourceExample.PT.thermodynamics SourceExample.pt_obj
           0%nat SourceExample.replicas SourceExample.phi
           {| states := []; additional_states := [] |}).
  - exact pt_example_built.
  - reflexivity.
Defined.

End SourceErrors.

(** * The helper variables of the wall models *)

Lemma read_only_states_of (names : list string) (acc : StatesMap) :
  read_only (states_of names acc).
Proof.
  revert acc. induction names as [| key names IH]; intro acc; simpl.
  - apply read_only_ret.
  - apply read_only_bindM; [apply read_only_read_states | intro]. apply IH.
Qed.

#[export] Hint Resolve read_only_states_of : read_only.

(** The dictionary of the fields of [states] that are named: each name holds
    the field of [states], and the other keys are those of [acc]. *)
Lemma states_of_spec (names : list string) (acc : StatesMap) (s : Store)
    (h : StatesMap) :
  eval (states_of names acc) s = Ok h ->
  (forall key,
      In key names ->
      exists v, lookup key (states s) = Some v /\ lookup key h = Some v)
  /\ (forall key, ~ In key names -> lookup key h = lookup key acc).
Proof.
  revert acc h. induction names as [| name names IH]; intros acc h E;
    simpl in E.
  - rewrite eval_ret in E. apply Ok_inj in E. subst h.
    split; [intros key [] | reflexivity].
  - step_as E Ev v. apply eval_read_states in Ev.
    destruct (IH _ _ E) as [Hin Hout]. split.
    + intros key [<- | Hk].
      * destruct (in_dec string_dec name names) as [Hd | Hd].
        -- exact (Hin name Hd).
        -- exists v. split; [exact Ev |].
           rewrite (Hout name Hd). apply lookup_dict_set_eq.
      * exact (Hin key Hk).
    + intros key Hk.
      assert (Hne : name <> key) by (intro; apply Hk; left; assumption).
      assert (Hni : ~ In key names) by (intro; apply Hk; right; assumption).
      rewrite (Hout key Hni). apply lookup_dict_set_neq.
      apply String.eqb_neq. intro Heq. apply Hne. symmetry. exact Heq.
Qed.

(** A name that [states] does not hold is a [KeyError]. *)
Lemma states_of_missing (names : list string) (acc : StatesMap) (s : Store) :
  (exists key, In key names /\ lookup key (states s) = None) ->
  exists key,
    In key names /\ lookup key (states s) = None
    /\ eval (states_of names acc) s = Err (KeyError key).
Proof.
  revert acc. induction names as [| name names IH]; intros acc (key & Hin & Hk).
  - destruct Hin.
  - simpl. next. rewrite eval_read_states_eq.
    destruct (lookup name (states s)) as [v |] eqn:Hv.
    + rewrite (getitem_some _ _ _ Hv).
      destruct Hin as [<- | Hin]; [congruence |].
      destruct (IH (dict_set name v acc) (ex_intro _ key (conj Hin Hk)))
        as (key' & Hin' & Hk' & E).
      exists key'. split; [right; exact Hin' |]. split; [exact Hk' | exact E].
    + rewrite (getitem_none _ _ Hv).
      exists name. split; [left; reflexivity |]. split; [exact Hv | reflexivity].
Qed.

Lemma lookup_snoc (key k : string) (v : FlowFieldVal) (l : StatesMap) :
  lookup key (l ++ [(k, v)])%list
  = match lookup key l with
    | Some x => Some x
    | None => if String.eqb key k then Some v else None
    end.
Proof.
  induction l as [| [k' v'] l IHl]; simpl.
  - reflexivity.
  - destruct (String.eqb key k'); [reflexivity | exact IHl].
Qed.

Lemma lookup_dict_update (key : string) (m other : StatesMap) :
  lookup key (dict_update m other)
  = match lookup key (rev other) with
    | Some v => Some v
    | None => lookup key m
    end.
Proof.
  unfold dict_update. revert m.
  induction other as [| [k v] other IH]; intro m; simpl.
  - reflexivity.
  - rewrite IH, lookup_snoc.
    destruct (lookup key (rev other)); [reflexivity |].
    destruct (String.eqb key k) eqn:Hk.
    + apply String.eqb_eq in Hk. subst k. apply lookup_dict_set_eq.
    + apply lookup_dict_set_neq. exact Hk.
Qed.

(** [dict_set] keeps the keys distinct. *)
Lemma keys_dict_set (key : string) (val : FlowFieldVal) (m : StatesMap) :
  keys (dict_set key val m)
  = if contains m key then keys m else (keys m ++ [key])%list.
Proof.
  unfold contains. induction m as [| [k v] m IH]; simpl.
  - reflexivity.
  - destruct (String.eqb key k) eqn:Hk; simpl.
    + reflexivity.
    + rewrite IH. destruct (lookup key m); reflexivity.
Qed.

Lemma lookup_none_not_in (key : string) (m : StatesMap) :
  lookup key m = None <-> ~ In key (keys m).
Proof.
  induction m as [| [k v] m IH]; simpl.
  - split; [intros _ [] | reflexivity].
  - destruct (String.eqb key k) eqn:Hk.
    + apply String.eqb_eq in Hk. subst k.
      split; [discriminate | intro H; exfalso; apply H; left; reflexivity].
    + apply String.eqb_neq in Hk. rewrite IH. split.
      * intros H [Heq | Hin]; [apply Hk; symmetry; exact Heq | exact (H Hin)].
      * intros H Hin. apply H. right. exact Hin.
Qed.

Lemma NoDup_dict_set (key : string) (val : FlowFieldVal) (m : StatesMap) :
  NoDup (keys m) -> NoDup (keys (dict_set key val m)).
Proof.
  intro Hnd. rewrite keys_dict_set. unfold contains.
  destruct (lookup key m) eqn:Hl; [exact Hnd |].
  apply lookup_none_not_in in Hl.
  apply NoDup_rev in Hnd.
  rewrite <- (rev_involutive (keys m ++ [key])).
  apply NoDup_rev. rewrite rev_app_distr. simpl.
  constructor; [| exact Hnd].
  intro Hin. apply Hl. apply in_rev. exact Hin.
Qed.

(** In a dictionary, the order of the items does not matter to a lookup. *)
Lemma lookup_rev (key : string) (m : StatesMap) :
  NoDup (keys m) -> lookup key (rev m) = lookup key m.
Proof.
  induction m as [| [k v] m IH]; intro Hnd; simpl.
  - reflexivity.
  - inversion Hnd as [| ? ? Hnotin Hnd']; subst.
    rewrite lookup_snoc, (IH Hnd').
    destruct (String.eqb key k) eqn:Hk.
    + apply String.eqb_eq in Hk. subst k.
      apply lookup_none_not_in in Hnotin. rewrite Hnotin. reflexivity.
    + destruct (lookup key m); reflexivity.
Qed.

(** [m.update(other)]: the items of [other] win. *)
Lemma lookup_dict_update_NoDup (key : string) (m other : StatesMap) :
  NoDup (keys other) ->
  lookup key (dict_update m other)
  = match lookup key other with
    | Some v => Some v
    | None => lookup key m
    end.
Proof.
  intro Hnd. rewrite lookup_dict_update, lookup_rev by exact Hnd.
  reflexivity.
Qed.

(** * The thermodynamic variables of the potential temperature equation *)

Module PotentialTemperatureVariables.
Import PotentialTemperature PotentialTemperatureSpec PotentialTemperatureFacts
  PotentialTemperatureRun PotentialTemperatureErrors.

(** What [_get_thermodynamic_variables] has computed when it returns, with a
    [water.Water] model. *)
Lemma pt_thermodynamic_variables_spec self phi s ts w :
  model (_thermodynamics (base self)) = WaterModel w ->
  eval (_get_thermodynamic_variables self phi) s = Ok ts ->
  exists q_t rho_thermal,
    lookup "q_t" (states s) = Some q_t
    /\ lookup "rho_thermal" (states s) = Some rho_thermal
    /\ let zz := get_default (additional_states s) "zz"
                   (map_structure1 zeros_like phi) in
       let temperature :=
         saturation_adjustment w (_scalar_name (base self)) phi rho_thermal
           q_t zz in
       let partition :=
         equilibrium_phase_partition w temperature rho_thermal q_t in
       let first :=
         dict_set "T" temperature
           (dict_set "zz" zz (dict_set (_scalar_name (base self)) phi [])) in
       if String.eqb (_scalar_name (base self)) "theta_li"
       then exists theta,
           lookup "theta"
             (potential_temperatures w temperature q_t rho_thermal zz)
           = Some theta
           /\ ts = dict_set "q_i" (snd partition)
                     (dict_set "q_l" (fst partition)
                        (dict_set "theta" theta first))
       else ts = dict_set "q_i" (snd partition)
                   (dict_set "q_l" (fst partition) first).
Proof.
  unfold _get_thermodynamic_variables. intros Hw E. rewrite Hw in E.
  step_as E Eqt q_t. step_as E Ert rho_thermal.
  apply eval_read_states in Eqt, Ert.
  rewrite eval_bindM in E by (solve [prove_read_only]).
  rewrite eval_additional_get in E.
  exists q_t, rho_thermal. split; [exact Eqt |]. split; [exact Ert |].
  cbv zeta.
  destruct (String.eqb (_scalar_name (base self)) "theta_li").
  - rewrite eval_bindM in E by (solve [prove_read_only]).
    rewrite eval_bindM in E by (solve [prove_read_only]).
    rewrite eval_lift in E.
    destruct (getitem _ "theta") as [theta |] eqn:Eth; [| discriminate E].
    apply getitem_ok in Eth. rewrite eval_ret in E.
    destruct (equilibrium_phase_partition w _ rho_thermal q_t) as [q_l q_i].
    rewrite eval_ret in E. apply Ok_inj in E.
    exists theta. split; [exact Eth | symmetry; exact E].
  - rewrite eval_bindM in E by (solve [prove_read_only]).
    rewrite eval_ret in E.
    destruct (equilibrium_phase_partition w _ rho_thermal q_t) as [q_l q_i].
    rewrite eval_ret in E. apply Ok_inj in E. symmetry. exact E.
Qed.

(** X13. With a model that is not a [water.Water], the potential temperature
    equation has no source whatever the flags of the object: [source_fn]
    returns zeros of the shape of [phi], and the thermodynamic variables are
    [phi] alone; neither reads [states] or [additional_states]. *)
Theorem no_source_without_water env self rid reps phi s :
  model (_thermodynamics (base self)) = OtherModel ->
  eval (source_fn env self rid reps phi) s = Ok (zeros phi)
  /\ eval (_get_thermodynamic_variables self phi) s
     = Ok [(_scalar_name (base self), phi)].
Proof.
  intro Hm.
  assert (Hts : eval (_get_thermodynamic_variables self phi) s
                = Ok [(_scalar_name (base self), phi)]).
  { unfold _get_thermodynamic_variables. rewrite Hm. reflexivity. }
  split; [| exact Hts].
  unfold source_fn. next. rewrite Hts.
  unfold radiation_source, add_subsidence, isinstance_Water. rewrite Hm.
  rewrite !andb_false_r. cbn [andb].
  next. rewrite eval_ret. reflexivity.
Qed.

Lemma dry_built :
  __init__ SourceExample.pt_env SourceExample.kernel_op
    (SourceExample.params (Some 2%nat)) "theta"
    {| model := OtherModel |} = Ok SourceExample2.dry.
Proof. reflexivity. Qed.

(** The object built on a model that is not water has both flags set, and
    returns zeros on empty dictionaries. *)
Lemma no_source_without_water_witness :
  _include_radiation SourceExample2.dry = true
  /\ _include_subsidence SourceExample2.dry = true
  /\ eval (source_fn SourceExample.pt_env SourceExample2.dry 0
             SourceExample.replicas SourceExample.phi)
       {| states := []; additional_states := [] |}
     = Ok (zeros SourceExample.phi)
  /\ eval (_get_thermodynamic_variables SourceExample2.dry SourceExample.phi)
       {| states := []; additional_states := [] |}
     = Ok [("theta", SourceExample.phi)].
Proof.
  split; [reflexivity |]. split; [reflexivity |].
  apply (no_source_without_water SourceExample.pt_env SourceExample2.dry
           0%nat SourceExample.replicas SourceExample.phi
           {| states := []; additional_states := [] |}).
  reflexivity.
Defined.

(** X14. The thermodynamic variables of the potential temperature equation
    with a [water.Water] model always hold a potential temperature [theta]:
    for the scalar [theta] it is [phi] itself, next to [zz], [T], [q_l] and
    [q_i]; for the scalar [theta_li] it is the one that the model derives
    from the temperature, and [theta_li] is [phi]. *)
Theorem thermodynamic_variables_of_potential_temperature self phi s ts w :
  model (_thermodynamics (base self)) = WaterModel w ->
  eval (_get_thermodynamic_variables self phi) s = Ok ts ->
  exists q_t rho_thermal,
    lookup "q_t" (states s) = Some q_t
    /\ lookup "rho_thermal" (states s) = Some rho_thermal
    /\ let zz := get_default (additional_states s) "zz"
                   (map_structure1 zeros_like phi) in
       let temperature :=
         saturation_adjustment w (_scalar_name (base self)) phi rho_thermal
           q_t zz in
       let partition :=
         equilibrium_phase_partition w temperature rho_thermal q_t in
       (_scalar_name (base self) = "theta" ->
        ts = [("theta", phi); ("zz", zz); ("T", temperature);
              ("q_l", fst partition); ("q_i", snd partition)])
       /\ (_scalar_name (base self) = "theta_li" ->
           exists theta,
             lookup "theta"
               (potential_temperatures w temperature q_t rho_thermal zz)
             = Some theta
             /\ ts = [("theta_li", phi); ("zz", zz); ("T", temperature);
                      ("theta", theta); ("q_l", fst partition);
                      ("q_i", snd partition)]).
Proof.
  intros Hw E.
  destruct (pt_thermodynamic_variables_spec _ _ _ _ _ Hw E)
    as (q_t & rho_thermal & Hqt & Hrt & Hts).
  exists q_t, rho_thermal. split; [exact Hqt |]. split; [exact Hrt |].
  cbv zeta in *. split.
  - intro Hn. rewrite Hn in *. cbn in Hts. exact Hts.
  - intro Hn. rewrite Hn in *. cbn in Hts.
    destruct Hts as (theta & Hth & Hts). exists theta. split; assumption.
Qed.

Lemma thermodynamic_variables_of_potential_temperature_witness :
  exists q_t rho_thermal,
    lookup "q_t" (states SourceExample.at_rest) = Some q_t
    /\ lookup "rho_thermal" (states SourceExample.at_rest) = Some rho_thermal
    /\ let zz := get_default (additional_states SourceExample.at_rest) "zz"
                   (map_structure1 zeros_like SourceExample.phi) in
       let temperature :=
         saturation_adjustment SourceExample.PT.water "theta_li"
           SourceExample.phi rho_thermal q_t zz in
       let partition :=
         equilibrium_phase_partition SourceExample.PT.water temperature
           rho_thermal q_t in
       ("theta_li" = "theta" ->
        [("theta_li", SourceExample.phi); ("zz", zeros SourceExample.phi);
         ("T", SourceExample.phi); ("theta", SourceExample.phi);
         ("q_l", zeros SourceExample.phi); ("q_i", zeros SourceExample.phi)]
        = [("theta", SourceExample.phi); ("zz", zz); ("T", temperature);
           ("q_l", fst partition); ("q_i", snd partition)])
       /\ ("theta_li" = "theta_li" ->
           exists theta,
             lookup "theta"
               (potential_temperatures SourceExample.PT.water temperature q_t
                  rho_thermal zz)
             = Some theta
             /\ [("theta_li", SourceExample.phi);
                 ("zz", zeros SourceExample.phi);
                 ("T", SourceExample.phi); ("theta", SourceExample.phi);
                 ("q_l", zeros SourceExample.phi);
                 ("q_i", zeros SourceExample.phi)]
                = [("theta_li", SourceExample.phi); ("zz", zz);
                   ("T", temperature); ("theta", theta);
                   ("q_l", fst partition); ("q_i", snd partition)]).
Proof.
  apply (thermodynamic_variables_of_potential_temperature
           SourceExample.pt_obj SourceExample.phi SourceExample.at_rest
           [("theta_li", SourceExample.phi); ("zz", zeros SourceExample.phi);
            ("T", SourceExample.phi); ("theta", SourceExample.phi);
            ("q_l", zeros SourceExample.phi);
            ("q_i", zeros SourceExample.phi)]
           SourceExample.PT.water).
  - reflexivity.
  - reflexivity.
Defined.

End PotentialTemperatureVariables.

(** * The helper variables of the wall models *)

Module WallHelpers.

(** X15. The helper variables of the wall models for the total energy
    equation are the fields of [states] named by [KEYS_VELOCITY] and the
    potential temperature [theta] of the thermodynamic variables, and no
    other key; a name of [KEYS_VELOCITY] that [states] does not hold is a
    [KeyError], raised before the thermodynamic variables are computed. *)
Theorem wall_helper_variables_of_total_energy self KEYS_VELOCITY phi s :
  (forall h,
      eval (TotalEnergy._get_wall_diffusive_flux_helper_variables self
              KEYS_VELOCITY phi) s = Ok h ->
      exists ts theta,
        eval (TotalEnergy._get_thermodynamic_variables self phi) s = Ok ts
        /\ lookup "theta" ts = Some theta
        /\ lookup "theta" h = Some theta
        /\ (forall key,
              In key KEYS_VELOCITY -> key <> "theta" ->
              lookup key h = lookup key (states s) /\ lookup key h <> None)
        /\ (forall key,
              ~ In key KEYS_VELOCITY -> key <> "theta" ->
              lookup key h = None))
  /\ ((exists key, In key KEYS_VELOCITY /\ lookup key (states s) = None) ->
      exists key,
        In key KEYS_VELOCITY
        /\ eval (TotalEnergy._get_wall_diffusive_flux_helper_variables self
                   KEYS_VELOCITY phi) s = Err (KeyError key)).
Proof.
  unfold TotalEnergy._get_wall_diffusive_flux_helper_variables. split.
  - intros h E.
    step_as E Eh helper. step_as E Ets ts. step_as E Eth theta.
    rewrite eval_lift in Eth. apply getitem_ok in Eth.
    rewrite eval_ret in E. apply Ok_inj in E. subst h.
    destruct (states_of_spec _ _ _ _ Eh) as [Hin Hout].
    exists ts, theta. split; [reflexivity |]. split; [exact Eth |].
    split; [apply lookup_dict_set_eq |]. split.
    + intros key Hk Hne.
      rewrite lookup_dict_set_neq by (apply String.eqb_neq; exact Hne).
      destruct (Hin key Hk) as (v & Hv & Hh). rewrite Hh, Hv.
      split; [reflexivity | discriminate].
    + intros key Hk Hne.
      rewrite lookup_dict_set_neq by (apply String.eqb_neq; exact Hne).
      rewrite (Hout key Hk). reflexivity.
  - intro Hmiss.
    destruct (states_of_missing KEYS_VELOCITY [] s Hmiss)
      as (key & Hin & _ & E).
    exists key. split; [exact Hin |].
    next. rewrite E. reflexivity.
Qed.

Lemma wall_helper_variables_of_total_energy_witness :
  (exists ts theta,
      eval (TotalEnergy._get_thermodynamic_variables SourceExample.te_obj
              SourceExample.phi) SourceExample.moving = Ok ts
      /\ lookup "theta" ts = Some theta
      /\ lookup "theta"
           [("u", SourceExample.velocity); ("v", SourceExample.velocity);
            ("w", SourceExample.velocity); ("theta", SourceExample.phi)]
         = Some theta
      /\ (forall key,
            In key ["u"; "v"; "w"] -> key <> "theta" ->
            lookup key
              [("u", SourceExample.velocity); ("v", SourceExample.velocity);
               ("w", SourceExample.velocity); ("theta", SourceExample.phi)]
            = lookup key (states SourceExample.moving)
            /\ lookup key
                 [("u", SourceExample.velocity); ("v", SourceExample.velocity);
                  ("w", SourceExample.velocity); ("theta", SourceExample.phi)]
               <> None)
      /\ (forall key,
            ~ In key ["u"; "v"; "w"] -> key <> "theta" ->
            lookup key
              [("u", SourceExample.velocity); ("v", SourceExample.velocity);
               ("w", SourceExample.velocity); ("theta", SourceExample.phi)]
            = None))
  /\ exists key,
      In key ["u"; "v"; "w"]
      /\ eval (TotalEnergy._get_wall_diffusive_flux_helper_variables
                 SourceExample.te_obj ["u"; "v"; "w"] SourceExample.phi)
           SourceExample2.cached = Err (KeyError key).
Proof.
  split.
  - apply (proj1 (wall_helper_variables_of_total_energy SourceExample.te_obj
                    ["u"; "v"; "w"] SourceExample.phi SourceExample.moving)).
    run_states.
  - apply (proj2 (wall_helper_variables_of_total_energy SourceExample.te_obj
                    ["u"; "v"; "w"] SourceExample.phi SourceExample2.cached)).
    exists "u". split; [left; reflexivity | reflexivity].
Defined.

(** X16. The helper variables of the wall models for the potential
    temperature equation hold every thermodynamic variable, and the fields
    of [states] named by [KEYS_VELOCITY] under the names that are not
    thermodynamic variables; a name of [KEYS_VELOCITY] that [states] does
    not hold is a [KeyError]. *)
Theorem wall_helper_variables_of_potential_temperature self KEYS_VELOCITY phi
    s :
  (forall h,
      eval (PotentialTemperature._get_wall_diffusive_flux_helper_variables
              self KEYS_VELOCITY phi) s = Ok h ->
      exists ts,
        eval (PotentialTemperature._get_thermodynamic_variables self phi) s
        = Ok ts
        /\ (forall key v, lookup key ts = Some v -> lookup key h = Some v)
        /\ (forall key,
              In key KEYS_VELOCITY -> lookup key ts = None ->
              lookup key h = lookup key (states s) /\ lookup key h <> None)
        /\ (forall key,
              ~ In key KEYS_VELOCITY -> lookup key ts = None ->
              lookup key h = None))
  /\ ((exists key, In key KEYS_VELOCITY /\ lookup key (states s) = None) ->
      exists key,
        In key KEYS_VELOCITY
        /\ eval (PotentialTemperature._get_wall_diffusive_flux_helper_variables
                   self KEYS_VELOCITY phi) s = Err (KeyError key)).
Proof.
  unfold PotentialTemperature._get_wall_diffusive_flux_helper_variables.
  split.
  - intros h E.
    step_as E Eh helper. step_as E Ets ts.
    rewrite eval_ret in E. apply Ok_inj in E. subst h.
    destruct (states_of_spec _ _ _ _ Eh) as [Hin Hout].
    assert (Hnd : NoDup (keys ts)).
    { destruct (model (_thermodynamics (PotentialTemperature.base self)))
        as [w |] eqn:Hw.
      - destruct (PotentialTemperatureVariables.pt_thermodynamic_variables_spec
                    _ _ _ _ _ Hw Ets) as (q_t & rho_thermal & _ & _ & Hts).
        cbv zeta in Hts.
        destruct (String.eqb _ "theta_li").
        + destruct Hts as (theta & _ & ->).
          repeat apply NoDup_dict_set. constructor.
        + subst ts. repeat apply NoDup_dict_set. constructor.
      - unfold PotentialTemperature._get_thermodynamic_variables in Ets.
        rewrite Hw in Ets. rewrite eval_ret in Ets. apply Ok_inj in Ets.
        subst ts. apply NoDup_dict_set. constructor. }
    exists ts. split; [reflexivity |]. split; [| split].
    + intros key v Hv. rewrite lookup_dict_update_NoDup by exact Hnd.
      rewrite Hv. reflexivity.
    + intros key Hk Hnone. rewrite lookup_dict_update_NoDup by exact Hnd.
      rewrite Hnone. destruct (Hin key Hk) as (v & Hv & Hh).
      rewrite Hh, Hv. split; [reflexivity | discriminate].
    + intros key Hk Hnone. rewrite lookup_dict_update_NoDup by exact Hnd.
      rewrite Hnone. rewrite (Hout key Hk). reflexivity.
  - intro Hmiss.
    destruct (states_of_missing KEYS_VELOCITY [] s Hmiss)
      as (key & Hin & _ & E).
    exists key. split; [exact Hin |].
    next. rewrite E. reflexivity.
Qed.

Lemma wall_helper_variables_of_potential_temperature_witness :
  (exists ts,
      eval (PotentialTemperature._get_thermodynamic_variables
              SourceExample.pt_obj SourceExample.phi) SourceExample.moving
      = Ok ts
      /\ (forall key v,
            lookup key ts = Some v ->
            lookup key SourceExample2.pt_helpers = Some v)
      /\ (forall key,
            In key ["u"; "v"; "w"] -> lookup key ts = None ->
            lookup key SourceExample2.pt_helpers
            = lookup key (states SourceExample.moving)
            /\ lookup key SourceExample2.pt_helpers <> None)
      /\ (forall key,
            ~ In key ["u"; "v"; "w"] -> lookup key ts = None ->
            lookup key SourceExample2.pt_helpers = None))
  /\ exists key,
      In key ["u"; "v"; "w"]
      /\ eval (PotentialTemperature._get_wall_diffusive_flux_helper_variables
                 SourceExample.pt_obj ["u"; "v"; "w"] SourceExample.phi)
           SourceExample2.cached = Err (KeyError key).
Proof.
  split.
  - apply (proj1 (wall_helper_variables_of_potential_temperature
                    SourceExample.pt_obj ["u"; "v"; "w"] SourceExample.phi
                    SourceExample.moving)).
    run_states.
  - apply (proj2 (wall_helper_variables_of_potential_temperature
                    SourceExample.pt_obj ["u"; "v"; "w"] SourceExample.phi
                    SourceExample2.cached)).
    exists "u". split; [left; reflexivity | reflexivity].
Defined.

End WallHelpers.

(** * The effective viscosity *)

Module TotalEnergyViscosity.
Import TotalEnergy TotalEnergySpec TotalEnergyFacts TotalEnergyRun
  TotalEnergySgs.

Lemma zip1_eddy_zero (nu : Qc) (row : Tensor1) :
  zip1 Qcmult (map (Qcplus nu) (map (fun _ => 0) row)) row
  = Ok (scale1 nu row).
Proof.
  induction row as [| x row IH]; simpl.
  - reflexivity.
  - rewrite IH. simpl.
    replace ((nu + 0) * x) with (nu * x) by ring. reflexivity.
Qed.

Lemma tmul_eddy_zero (nu : Qc) (r : Tensor2) :
  tmul (add_scalar nu (zeros_like r)) r = Ok (scale2 nu r).
Proof.
  unfold tmul, add_scalar, zeros_like.
  induction r as [| row r IH]; simpl.
  - reflexivity.
  - rewrite zip1_eddy_zero. simpl. rewrite IH. reflexivity.
Qed.

Lemma map_structure2_eddy_zero (nu : Qc) (rho : FlowFieldVal) :
  map_structure2 (fun nu_t rho_i => tmul (add_scalar nu nu_t) rho_i)
    (zeros rho) rho
  = Ok (map_structure1 (scale2 nu) rho).
Proof.
  unfold zeros, map_structure1.
  induction rho as [| r rho IH]; simpl.
  - reflexivity.
  - rewrite tmul_eddy_zero. simpl. rewrite IH. reflexivity.
Qed.

(** With an eddy viscosity of zeros the effective viscosity is the
    molecular one. *)
Lemma viscosity_eddy_zero self rho s :
  lookup "nu_t" (additional_states s) = Some (zeros rho) ->
  eval (viscosity self rho) s
  = Ok (map_structure1 (scale2 (nu (_params (base self)))) rho).
Proof.
  intro Hnu. unfold viscosity.
  destruct (use_sgs (_params (base self))).
  - next. rewrite eval_read_additional_eq, (getitem_some _ _ _ Hnu).
    rewrite eval_lift. apply map_structure2_eddy_zero.
  - reflexivity.
Qed.

(** X17. A subgrid-scale model whose eddy viscosity [nu_t] is zero
    everywhere changes nothing: the source of the total energy equation is
    the one computed without the subgrid-scale model, with the molecular
    viscosity alone. *)
Theorem eddy_viscosity_of_zeros env self rid reps phi s rho :
  lookup KEY_RHO (states s) = Some rho ->
  lookup "nu_t" (additional_states s) = Some (zeros rho) ->
  eval (source_fn env self rid reps phi) s
  = eval (source_fn env (without_sgs self) rid reps phi) s.
Proof.
  intros Hrho Hnu. unfold source_fn.
  change (require_water (without_sgs self)) with (require_water self).
  rewrite !eval_bindM by (solve [prove_read_only]).
  destruct (eval (require_water self) s) as [w |]; [| reflexivity].
  rewrite !eval_bindM by (solve [prove_read_only]).
  rewrite eval_read_states_eq, (getitem_some _ _ _ Hrho).
  rewrite !eval_bindM by (solve [prove_read_only]).
  destruct (eval (read_states "rho_thermal") s) as [rho_thermal |];
    [| reflexivity].
  change (_get_thermodynamic_variables (without_sgs self) phi)
    with (_get_thermodynamic_variables self phi).
  rewrite !eval_bindM by (solve [prove_read_only]).
  destruct (eval (_get_thermodynamic_variables self phi) s) as [ts |];
    [| reflexivity].
  rewrite !eval_bindM by (solve [prove_read_only]).
  rewrite (viscosity_eddy_zero self rho s Hnu).
  rewrite (viscosity_eddy_zero (without_sgs self) rho s Hnu).
  reflexivity.
Qed.

Lemma eddy_viscosity_of_zeros_witness :
  use_sgs (_params (base SourceExample2.te_sgs)) = true
  /\ eval (source_fn (SourceExample.TE.env SourceExample.same SourceExample.same)
             SourceExample2.te_sgs 0 SourceExample.replicas SourceExample.phi)
       SourceExample2.moving_sgs
     = eval (source_fn
               (SourceExample.TE.env SourceExample.same SourceExample.same)
               (without_sgs SourceExample2.te_sgs) 0 SourceExample.replicas
               SourceExample.phi)
         SourceExample2.moving_sgs.
Proof.
  split; [reflexivity |].
  apply (eddy_viscosity_of_zeros
           (SourceExample.TE.env SourceExample.same SourceExample.same)
           SourceExample2.te_sgs 0%nat SourceExample.replicas
           SourceExample.phi SourceExample2.moving_sgs
           (SourceExample.constant (q 2 1) SourceExample.phi)).
  - reflexivity.
  - reflexivity.
Defined.

End TotalEnergyViscosity.

(** * The names of the monitor variables *)

Module MonitorNames.
Import Monitor MonitorSpec.

Lemma split_not_nil (sep : ascii) (s : string) : split sep s <> [].
Proof.
  destruct s as [| c r]; simpl.
  - discriminate.
  - destruct (Ascii.eqb c sep); [discriminate |].
    destruct (split sep r); discriminate.
Qed.

(** A name splits into one piece more than it has delimiters. *)
Lemma split_length (s : string) :
  List.length (split _MONITOR_NAME_DELIMITER s) = S (count_delimiters s).
Proof.
  induction s as [| c r IH]; simpl.
  - reflexivity.
  - destruct (Ascii.eqb c _MONITOR_NAME_DELIMITER).
    + simpl. rewrite IH. reflexivity.
    + destruct (split _MONITOR_NAME_DELIMITER r) as [| piece pieces] eqn:E.
      * exfalso. exact (split_not_nil _ _ E).
      * simpl in *. exact IH.
Qed.

(** The first piece of a name that begins with a piece free of delimiters. *)
Lemma split_app (a b : string) :
  no_delimiter a = true ->
  split _MONITOR_NAME_DELIMITER (a ++ String _MONITOR_NAME_DELIMITER b)
  = a :: split _MONITOR_NAME_DELIMITER b.
Proof.
  unfold no_delimiter. induction a as [| c a IH]; simpl; intro Ha.
  - reflexivity.
  - destruct (Ascii.eqb c _MONITOR_NAME_DELIMITER); [discriminate Ha |].
    rewrite (IH Ha). reflexivity.
Qed.

Lemma split_whole (a : string) :
  no_delimiter a = true -> split _MONITOR_NAME_DELIMITER a = [a].
Proof.
  unfold no_delimiter. induction a as [| c a IH]; simpl; intro Ha.
  - reflexivity.
  - destruct (Ascii.eqb c _MONITOR_NAME_DELIMITER); [discriminate Ha |].
    rewrite (IH Ha). reflexivity.
Qed.

(** The type of a name whose third piece is [t]. *)
Lemma statistic_type_third (key t : string) (st : StatisticType) :
  list_get (split _MONITOR_NAME_DELIMITER key) 2 = Ok t ->
  (lower t = value st -> statistic_type key = Ok st)
  /\ (lower t <> value MOMENT -> lower t <> value RAW ->
      lower t <> value SUBITER_SCALAR -> statistic_type key = Ok UNKNOWN).
Proof.
  intro Hget. unfold statistic_type. rewrite Hget. cbn [bind]. split.
  - intro Hl. rewrite Hl. destruct st; reflexivity.
  - intros H1 H2 H3.
    apply String.eqb_neq in H1, H2, H3. rewrite H1, H2, H3. reflexivity.
Qed.

Lemma append_piece (a b x : string) (c : ascii) :
  (a ++ String c b) ++ x = a ++ String c (b ++ x).
Proof.
  induction a as [| d a IH]; simpl.
  - reflexivity.
  - rewrite IH. reflexivity.
Qed.

Lemma template_pieces (module t metric : string) :
  no_delimiter module = true -> no_delimiter t = true ->
  list_get
    (split _MONITOR_NAME_DELIMITER (MONITOR_KEY_TEMPLATE module t metric)) 2
  = Ok t.
Proof.
  intros Hm Ht. unfold MONITOR_KEY_TEMPLATE.
  change ("MONITOR_" ++ module ++ "_" ++ t ++ "_" ++ metric)
    with ("MONITOR"
          ++ String _MONITOR_NAME_DELIMITER
               (module
                ++ String _MONITOR_NAME_DELIMITER
                     (t ++ String _MONITOR_NAME_DELIMITER metric))).
  rewrite split_app by reflexivity.
  rewrite split_app by exact Hm.
  rewrite split_app by exact Ht.
  reflexivity.
Qed.

(** X18. The statistic type of a key written with the template
    [MONITOR_{module}_{statistic_type}_{metric_name}] is read back from the
    key, in any letter case and whatever the metric name, provided that
    neither the module nor the type holds the delimiter [_]; a type that is
    none of [moment], [raw] and [subiter-scalar] reads as [UNKNOWN]. *)
Theorem statistic_type_of_template (module t metric : string) :
  no_delimiter module = true ->
  no_delimiter t = true ->
  (forall st, lower t = value st ->
              statistic_type (MONITOR_KEY_TEMPLATE module t metric) = Ok st)
  /\ (lower t <> value MOMENT -> lower t <> value RAW ->
      lower t <> value SUBITER_SCALAR ->
      statistic_type (MONITOR_KEY_TEMPLATE module t metric) = Ok UNKNOWN).
Proof.
  intros Hm Ht.
  pose proof (template_pieces module t metric Hm Ht) as Hget.
  split.
  - intros st Hl. exact (proj1 (statistic_type_third _ _ st Hget) Hl).
  - exact (proj2 (statistic_type_third _ _ UNKNOWN Hget)).
Qed.

Lemma statistic_type_of_template_witness :
  statistic_type "MONITOR_velocity_Raw_u_max" = Ok RAW
  /\ statistic_type "MONITOR_velocity_rms_u" = Ok UNKNOWN.
Proof.
  split.
  - apply (proj1 (statistic_type_of_template "velocity" "Raw" "u_max"
                    eq_refl eq_refl) RAW).
    reflexivity.
  - apply (proj2 (statistic_type_of_template "velocity" "rms" "u"
                    eq_refl eq_refl)); discriminate.
Defined.

(** X19. [statistic_type] looks at the third piece of the key between
    delimiters and at nothing else: a key with fewer than two delimiters is
    an [IndexError], and with a delimiter in the module name the type is read
    from the module name: the key of the module [a_b] has the type of the
    key of the module [a] and of the type [b]. *)
Theorem statistic_type_reads_third_piece :
  (forall key,
      (count_delimiters key < 2)%nat -> statistic_type key = Err IndexError)
  /\ (forall key,
        (2 <= count_delimiters key)%nat -> exists st, statistic_type key = Ok st)
  /\ (forall a b t metric,
        no_delimiter a = true -> no_delimiter b = true ->
        statistic_type (MONITOR_KEY_TEMPLATE (a ++ "_" ++ b) t metric)
        = statistic_type (MONITOR_KEY_TEMPLATE a b metric)).
Proof.
  split; [| split].
  - intros key Hlt. unfold statistic_type, list_get.
    pose proof (split_length key) as Hlen.
    destruct (nth_error (split _MONITOR_NAME_DELIMITER key) 2) as [x |] eqn:E.
    + assert (2 < List.length (split _MONITOR_NAME_DELIMITER key))%nat.
      { apply nth_error_Some. rewrite E. discriminate. }
      lia.
    + reflexivity.
  - intros key Hge. unfold statistic_type, list_get.
    pose proof (split_length key) as Hlen.
    destruct (nth_error (split _MONITOR_NAME_DELIMITER key) 2) as [x |] eqn:E.
    + cbn [bind].
      destruct (String.eqb (lower x) (value MOMENT)); [eauto |].
      destruct (String.eqb (lower x) (value RAW)); [eauto |].
      destruct (String.eqb (lower x) (value SUBITER_SCALAR)); eauto.
    + apply nth_error_None in E. lia.
  - intros a b t metric Ha Hb.
    assert (H1 : list_get
                   (split _MONITOR_NAME_DELIMITER
                      (MONITOR_KEY_TEMPLATE (a ++ "_" ++ b) t metric)) 2
                 = Ok b).
    { unfold MONITOR_KEY_TEMPLATE.
      replace ("MONITOR_" ++ (a ++ "_" ++ b) ++ "_" ++ t ++ "_" ++ metric)
        with ("MONITOR"
              ++ String _MONITOR_NAME_DELIMITER
                   (a ++ String _MONITOR_NAME_DELIMITER
                      (b ++ String _MONITOR_NAME_DELIMITER
                         (t ++ "_" ++ metric)))).
      - rewrite split_app by reflexivity.
        rewrite split_app by exact Ha.
        rewrite split_app by exact Hb.
        reflexivity.
      - cbn [append]. rewrite append_piece. reflexivity. }
    pose proof (template_pieces a b metric Ha Hb) as H2.
    unfold statistic_type. rewrite H1, H2. reflexivity.
Qed.

Lemma statistic_type_reads_third_piece_witness :
  statistic_type "MONITOR_velocity" = Err IndexError
  /\ (exists st, statistic_type "MONITOR_velocity_raw" = Ok st)
  /\ statistic_type "MONITOR_boundary_layer_raw_u"
     = statistic_type "MONITOR_boundary_layer_u".
Proof.
  split; [| split].
  - apply (proj1 statistic_type_reads_third_piece). simpl. lia.
  - apply (proj1 (proj2 statistic_type_reads_third_piece)). simpl. lia.
  - apply (proj2 (proj2 statistic_type_reads_third_piece)
             "boundary" "layer" "raw" "u"); reflexivity.
Defined.

End MonitorNames.

(** * The dictionary of the monitor *)

Module MonitorData.
Import Monitor MonitorSpec.

Lemma shape_eqb_eq (a b : list nat) : shape_eqb a b = true <-> a = b.
Proof.
  revert b. induction a as [| x a IH]; intros [| y b]; simpl;
    try (split; [discriminate | discriminate]); try tauto.
  rewrite andb_true_iff, Nat.eqb_eq, IH. split.
  - intros [-> ->]. reflexivity.
  - intro H. injection H as -> ->. auto.
Qed.

Lemma data_lookup_set_eq (key : string) (val : Value) (m : MonitorDataType) :
  data_lookup key (data_set key val m) = Some val.
Proof.
  induction m as [| [k v] m IH]; simpl.
  - rewrite String.eqb_refl. reflexivity.
  - destruct (String.eqb key k) eqn:E; simpl; rewrite E; auto.
Qed.

Lemma data_lookup_set_neq (key key' : string) (val : Value)
    (m : MonitorDataType) :
  key <> key' ->
  data_lookup key (data_set key' val m) = data_lookup key m.
Proof.
  intro Hne. apply String.eqb_neq in Hne.
  induction m as [| [k v] m IH]; simpl.
  - rewrite Hne. reflexivity.
  - destruct (String.eqb key' k) eqn:E; simpl.
    + apply String.eqb_eq in E. subst k. rewrite Hne. reflexivity.
    + destruct (String.eqb key k); auto.
Qed.

(** Writing a value of the cached shape under a name that is there keeps
    the names and the shapes. *)
Lemma data_set_names_shapes (key : string) (val cached : Value)
    (m : MonitorDataType) :
  data_lookup key m = Some cached ->
  shape_of val = shape_of cached ->
  names (data_set key val m) = names m
  /\ shapes (data_set key val m) = shapes m.
Proof.
  intros Hl Hs. induction m as [| [k v] m IH]; simpl in *.
  - discriminate Hl.
  - destruct (String.eqb key k) eqn:E.
    + injection Hl as ->. simpl. rewrite Hs. auto.
    + destruct (IH Hl) as [Hn Hsh]. unfold names, shapes in *. simpl.
      rewrite Hn, Hsh. auto.
Qed.

(** X20. [update] writes a monitor variable exactly when the monitor holds
    a tensor under the name and the value is a tensor of the same shape. The
    new tensor is then read back under the name; the other variables, the
    names, the shapes of all variables and the answers of [check_key] are as
    before. Otherwise it raises and writes nothing: a [ValueError] for a name
    that the monitor does not hold and for a tensor of another shape, an
    [AttributeError] when the value is a Python list, or when the monitor
    holds a Python list under the name (the initial moment when
    [periodic_dims] is [None]), which has no attribute [shape]. *)
Theorem update_keeps_names_and_shapes self varname val :
  (forall self',
      update self varname val = Ok self' ->
      data_lookup varname (data self') = Some val
      /\ (forall key,
            key <> varname ->
            data_lookup key (data self') = data_lookup key (data self))
      /\ names (data self') = names (data self)
      /\ shapes (data self') = shapes (data self)
      /\ (forall varnames,
            check_key self' varnames = check_key self varnames))
  /\ ((exists self', update self varname val = Ok self')
      <-> exists t cached,
            val = TensorValue t
            /\ data_lookup varname (data self) = Some (TensorValue cached)
            /\ tensor_shape t = tensor_shape cached)
  /\ (data_lookup varname (data self) = None ->
      update self varname val = Err ValueError)
  /\ (forall held l,
        data_lookup varname (data self) = Some held ->
        val = ListValue l ->
        update self varname val = Err AttributeError)
  /\ (forall t l,
        data_lookup varname (data self) = Some (ListValue l) ->
        val = TensorValue t ->
        update self varname val = Err AttributeError)
  /\ (forall t cached,
        data_lookup varname (data self) = Some (TensorValue cached) ->
        val = TensorValue t ->
        tensor_shape t <> tensor_shape cached ->
        update self varname val = Err ValueError).
Proof.
  unfold update, check_key, _is_key, data_getitem, data.
  destruct (data_lookup varname (_data self)) as [held |] eqn:Hl;
    cbn [negb bind].
  - destruct val as [t | l]; cbn [shape_of bind].
    + destruct held as [cached | l]; cbn [shape_of bind].
      * destruct (shape_eqb (tensor_shape t) (tensor_shape cached)) eqn:Hs;
          cbn [negb].
        -- apply shape_eqb_eq in Hs.
           assert (Hshape : shape_of (TensorValue t)
                            = shape_of (TensorValue cached)).
           { simpl. rewrite Hs. reflexivity. }
           destruct (data_set_names_shapes _ _ _ _ Hl Hshape) as [Hn Hsh].
           split; [| split; [| split; [| split; [| split]]]].
           ++ intros self' H. apply Ok_inj in H. subst self'. cbn [_data].
              split; [apply data_lookup_set_eq |].
              split; [intros key Hk; apply data_lookup_set_neq; exact Hk |].
              split; [exact Hn |]. split; [exact Hsh |].
              assert (Hkey : forall name,
                         match data_lookup name
                                 (data_set varname (TensorValue t) (_data self))
                         with Some _ => true | None => false end
                         = match data_lookup name (_data self)
                           with Some _ => true | None => false end).
              { intro name. destruct (string_dec name varname) as [-> | Hne].
                - rewrite data_lookup_set_eq, Hl. reflexivity.
                - rewrite data_lookup_set_neq by exact Hne. reflexivity. }
              intros [name | names0].
              ** apply Hkey.
              ** induction names0 as [| name names0 IH]; simpl;
                   [reflexivity |].
                 rewrite Hkey, IH. reflexivity.
           ++ split; [intros _; exists t, cached; auto | intros _; eauto].
           ++ intro H. discriminate H.
           ++ intros held l _ H. discriminate H.
           ++ intros t' l H. discriminate H.
           ++ intros t' c Hc Ht Hne. apply Some_inj in Hc.
              injection Hc as <-. injection Ht as <-. contradiction.
        -- split; [| split; [| split; [| split; [| split]]]].
           ++ intros self' H. discriminate H.
           ++ split.
              ** intros (self' & H). discriminate H.
              ** intros (t' & c & Ht & Hc & Hsh). apply Some_inj in Hc.
                 injection Hc as <-. injection Ht as <-.
                 apply shape_eqb_eq in Hsh. congruence.
           ++ intro H. discriminate H.
           ++ intros held l _ H. discriminate H.
           ++ intros t' l H. discriminate H.
           ++ intros t' c _ _ _. reflexivity.
      * split; [| split; [| split; [| split; [| split]]]].
        -- intros self' H. discriminate H.
        -- split.
           ++ intros (self' & H). discriminate H.
           ++ intros (t' & c & _ & Hc & _). discriminate Hc.
        -- intro H. discriminate H.
        -- intros held l' _ H. discriminate H.
        -- intros t' l' _ _. reflexivity.
        -- intros t' c Hc. discriminate Hc.
    + split; [| split; [| split; [| split; [| split]]]].
      * intros self' H. discriminate H.
      * split.
        -- intros (self' & H). discriminate H.
        -- intros (t' & c & Ht & _). discriminate Ht.
      * intro H. discriminate H.
      * intros held' l' _ _. reflexivity.
      * intros t' l' _ H. discriminate H.
      * intros t' c _ H. discriminate H.
  - split; [| split; [| split; [| split; [| split]]]].
    + intros self' H. discriminate H.
    + split.
      * intros (self' & H). discriminate H.
      * intros (t' & c & _ & Hc & _). discriminate Hc.
    + intros _. reflexivity.
    + intros held l H. discriminate H.
    + intros t l H. discriminate H.
    + intros t c H. discriminate H.
Qed.

(** On the example: a field of the held shape is written; a scalar under the
    name of the field and a name that is not held are a [ValueError]; the
    moment, held as a list, cannot be updated. *)
Lemma update_keeps_names_and_shapes_witness :
  (exists self',
      update MonitorExample.monitor "MONITOR_velocity_raw_u"
        (TensorValue (MonitorExample.field (q 1 1) (q 2 1))) = Ok self')
  /\ update MonitorExample.monitor "MONITOR_velocity_raw_u"
       (TensorValue (MonitorExample.scalar (q 1 1))) = Err ValueError
  /\ update MonitorExample.monitor "MONITOR_velocity_raw_v"
       (TensorValue (MonitorExample.field (q 1 1) (q 2 1))) = Err ValueError
  /\ update MonitorExample.monitor "MONITOR_velocity_moment_u"
       (TensorValue {| tensor_shape := [1; 1]%nat;
                       tensor_entries := [q 1 1] |})
     = Err AttributeError.
Proof.
  split; [| split; [| split]].
  - apply (proj1 (proj2 (update_keeps_names_and_shapes
                           MonitorExample.monitor "MONITOR_velocity_raw_u"
                           (TensorValue
                              (MonitorExample.field (q 1 1) (q 2 1)))))).
    exists (MonitorExample.field (q 1 1) (q 2 1)), (MonitorExample.field 0 0).
    repeat split; reflexivity.
  - apply (proj2 (proj2 (proj2 (proj2 (proj2
             (update_keeps_names_and_shapes
                MonitorExample.monitor "MONITOR_velocity_raw_u"
                (TensorValue (MonitorExample.scalar (q 1 1))))))))
             (MonitorExample.scalar (q 1 1)) (MonitorExample.field 0 0)).
    + reflexivity.
    + reflexivity.
    + discriminate.
  - apply (proj1 (proj2 (proj2
             (update_keeps_names_and_shapes
                MonitorExample.monitor "MONITOR_velocity_raw_v"
                (TensorValue (MonitorExample.field (q 1 1) (q 2 1))))))).
    reflexivity.
  - apply (proj1 (proj2 (proj2 (proj2 (proj2
             (update_keeps_names_and_shapes
                MonitorExample.monitor "MONITOR_velocity_moment_u"
                (TensorValue {| tensor_shape := [1; 1]%nat;
                                tensor_entries := [q 1 1] |}))))))
             {| tensor_shape := [1; 1]%nat; tensor_entries := [q 1 1] |}
             [{| tensor_shape := [1; 1]%nat; tensor_entries := [0] |}]).
    + reflexivity.
    + reflexivity.
Defined.

(** X21. The names that [monitor_var_init] selects among the helper
    variables are names for which [_is_monitor_variable] holds, the first
    looking for the pattern at the head of the name and the second anywhere
    in it; and every key written with the template is selected when its
    module name is empty or begins with a letter, a digit, an underscore or a
    plus sign. *)
Theorem selected_names_are_monitor_variables :
  (forall helper_var_keys varname,
      In varname (monitor_var_names helper_var_keys) ->
      In varname helper_var_keys /\ _is_monitor_variable varname = true)
  /\ (forall module t metric,
        begins_in_class module = true ->
        regex_match (MONITOR_KEY_TEMPLATE module t metric) = true).
Proof.
  split.
  - intros keys varname Hin. unfold monitor_var_names in Hin.
    apply filter_In in Hin. destruct Hin as [Hin Hm]. split; [exact Hin |].
    unfold regex_match in Hm. unfold _is_monitor_variable.
    set (l := list_ascii_of_string varname) in *.
    destruct l as [| c l]; [discriminate Hm |].
    cbn [search_from]. rewrite Hm. reflexivity.
  - intros module t metric Hb.
    unfold regex_match, MONITOR_KEY_TEMPLATE.
    destruct module as [| c module]; simpl in *.
    + reflexivity.
    + unfold match_here. simpl. exact Hb.
Qed.

Lemma selected_names_are_monitor_variables_witness :
  (In "MONITOR_velocity_raw_u" ["MONITOR_velocity_raw_u"; "nu_t"]
   /\ _is_monitor_variable "MONITOR_velocity_raw_u" = true)
  /\ regex_match (MONITOR_KEY_TEMPLATE "velocity" "raw" "u") = true.
Proof.
  split.
  - apply (proj1 selected_names_are_monitor_variables
             ["MONITOR_velocity_raw_u"; "nu_t"] "MONITOR_velocity_raw_u").
    left. reflexivity.
  - apply (proj2 selected_names_are_monitor_variables "velocity" "raw" "u").
    reflexivity.
Defined.

End MonitorData.

(** * The time filter of the monitor *)

Module MonitorFilter.
Import Monitor MonitorSpec.

Lemma zip1_entry (op : Qc -> Qc -> Qc) (a b c : Tensor1) (i : nat) (x y : Qc) :
  zip1 op a b = Ok c ->
  nth_error a i = Some x -> nth_error b i = Some y ->
  nth_error c i = Some (op x y).
Proof.
  intros Hz Hx Hy.
  destruct (nth_error c i) as [z |] eqn:Hc.
  - destruct (zip1_nth _ _ _ _ Hz _ _ Hc) as (x' & y' & Hx' & Hy' & ->).
    congruence.
  - apply nth_error_None in Hc. rewrite (zip1_length _ _ _ _ Hz) in Hc.
    assert (i < List.length a)%nat by (apply nth_error_Some; congruence).
    lia.
Qed.

(** Both types hold the integers of at most 24 bits. *)
Lemma representable_small (t : IntType) (x : Z) :
  (- 2 ^ 24 <= x <= 2 ^ 24)%Z -> representable t x = true.
Proof.
  intro H. unfold representable, min_value, max_value.
  apply andb_true_iff. rewrite !Z.leb_le.
  destruct t; cbn [bits].
  - change (2 ^ (32 - 1))%Z with 2147483648%Z.
    change (2 ^ 24)%Z with 16777216%Z in H. lia.
  - change (2 ^ (64 - 1))%Z with 9223372036854775808%Z.
    change (2 ^ 24)%Z with 16777216%Z in H. lia.
Qed.

(** The arithmetic of the type is exact on the results that it holds. *)
Lemma wrap_representable (t : IntType) (x : Z) :
  representable t x = true -> wrap t x = x.
Proof.
  unfold representable, min_value, max_value, wrap. intro H.
  apply andb_true_iff in H. rewrite !Z.leb_le in H.
  destruct t; cbn [bits] in *.
  - change (2 ^ (32 - 1))%Z with 2147483648%Z in *.
    change (2 ^ 32)%Z with 4294967296%Z.
    rewrite Z.mod_small by lia. lia.
  - change (2 ^ (64 - 1))%Z with 9223372036854775808%Z in *.
    change (2 ^ 64)%Z with 18446744073709551616%Z.
    rewrite Z.mod_small by lia. lia.
Qed.

(** The cast of an integer of at most 24 bits is exact. *)
Lemma float32_of_int_small (n : Z) :
  (0 <= n <= 2 ^ 24)%Z -> float32_of_int n = Q2Qc (inject_Z n).
Proof.
  intro H. unfold float32_of_int.
  destruct (Z.abs n <? 2 ^ 24)%Z eqn:E; [reflexivity |].
  apply Z.ltb_ge in E.
  assert (Hn : n = (2 ^ 24)%Z) by lia. subst n.
  apply Qc_is_canon. vm_compute. reflexivity.
Qed.

(** X22. The time filter on a step of type [int32] or [int64], for a start
    and an end of the averaging that the type holds. The filter applies
    exactly when time averaging is on, a step is given, and the step lies
    after [_averaging_start_step] and not after [_averaging_end_step];
    without a step the statistic is returned as it is. On a step after the
    start, when the count [step - _averaging_start_step + 1] is at most
    [2^24], the count is computed without wrap-around, is at least 2 and is
    cast to [float32] as it is, so that two tensors of one shape give a
    tensor of this shape whose entries are
    [prev_stat + (statistic - prev_stat) / count]: the division is never by
    zero, and the value held before the first filtered step has the weight
    of one sample. *)
Theorem time_filter_weighs_by_step_count self step :
  representable (dtype step) (step_value step) = true ->
  representable (dtype step) (_averaging_start_step self) = true ->
  (forall last,
      _averaging_end_step self = Some last ->
      representable (dtype step) last = true) ->
  let first := _averaging_start_step self in
  let count := (step_value step - first + 1)%Z in
  should_time_filter self None = Ok false
  /\ (forall statistic prev_stat,
        apply_time_filter self None statistic prev_stat = Ok statistic)
  /\ should_time_filter self (Some step)
     = Ok (_time_averaging self
           && (first <? step_value step)%Z
           && match _averaging_end_step self with
              | None => true
              | Some last => (step_value step <=? last)%Z
              end)
  /\ ((first < step_value step)%Z ->
      (count <= 2 ^ 24)%Z ->
      (2 <= count)%Z
      /\ Q2Qc (inject_Z count) <> 0
      /\ forall statistic prev_stat,
          tensor_shape statistic = tensor_shape prev_stat ->
          List.length (tensor_entries statistic)
          = List.length (tensor_entries prev_stat) ->
          exists new,
            apply_time_filter self (Some step) (TensorValue statistic)
              (TensorValue prev_stat) = Ok (TensorValue new)
            /\ tensor_shape new = tensor_shape prev_stat
            /\ List.length (tensor_entries new)
               = List.length (tensor_entries prev_stat)
            /\ forall i p x,
                nth_error (tensor_entries prev_stat) i = Some p ->
                nth_error (tensor_entries statistic) i = Some x ->
                nth_error (tensor_entries new) i
                = Some (p + (x - p) / Q2Qc (inject_Z count))).
Proof.
  intros _ Hrs Hre first count.
  split.
  { unfold should_time_filter. destruct (_time_averaging self); reflexivity. }
  split; [reflexivity |].
  split.
  { unfold should_time_filter, as_constant. fold first. unfold first at 1.
    rewrite Hrs.
    destruct (_time_averaging self); cbn [negb bind andb]; [| reflexivity].
    destruct (_averaging_end_step self) as [last |].
    - rewrite (Hre last eq_refl). reflexivity.
    - reflexivity. }
  intros Hlo Hcount.
  assert (H24 : (2 ^ 24 = 16777216)%Z) by reflexivity.
  split; [unfold count; lia |].
  split.
  { intro H0.
    assert (Hq : inject_Z count == 0).
    { rewrite <- (Qred_correct (inject_Z count)).
      change (this (Q2Qc (inject_Z count)) == 0). rewrite H0. reflexivity. }
    unfold Qeq in Hq. cbn [Qnum Qden inject_Z] in Hq. unfold count in Hq.
    lia. }
  intros statistic prev_stat Hshape Hlen.
  unfold apply_time_filter, as_constant. rewrite Hrs. cbn [bind].
  fold first.
  rewrite (wrap_representable (dtype step) (step_value step - first))
    by (apply representable_small; unfold count in Hcount; lia).
  rewrite (wrap_representable (dtype step) (step_value step - first + 1))
    by (apply representable_small; unfold count in Hcount; lia).
  rewrite float32_of_int_small by (unfold count in Hcount; lia).
  fold count. unfold filter_tensor.
  rewrite (proj2 (MonitorData.shape_eqb_eq _ _) (eq_sym Hshape)).
  destruct (zip1_total
              (fun prev_stat0 statistic0 =>
                 prev_stat0 + (statistic0 - prev_stat0) / Q2Qc (inject_Z count))
              (tensor_entries prev_stat) (tensor_entries statistic)
              (eq_sym Hlen)) as (entries & Hz).
  rewrite Hz. cbn [bind].
  eexists. split; [reflexivity |]. cbn [tensor_shape tensor_entries].
  split; [reflexivity |].
  split; [exact (zip1_length _ _ _ _ Hz) |].
  intros i p x Hp Hx. exact (zip1_entry _ _ _ _ i _ _ Hz Hp Hx).
Qed.

(** The averaging starts at step 10 and ends at step 20: the filter applies
    on the step 12 of type [int32], the count is 3, and the previous value 2
    and the new value 5 give 2 + (5 - 2) / 3 = 3. *)
Lemma time_filter_weighs_by_step_count_witness :
  should_time_filter MonitorExample.monitor
    (Some {| dtype := int32; step_value := 12 |}) = Ok true
  /\ apply_time_filter MonitorExample.monitor
       (Some {| dtype := int32; step_value := 12 |})
       (TensorValue (MonitorExample.scalar (q 5 1)))
       (TensorValue (MonitorExample.scalar (q 2 1)))
     = Ok (TensorValue (MonitorExample.scalar (q 3 1))).
Proof.
  destruct (time_filter_weighs_by_step_count MonitorExample.monitor
              {| dtype := int32; step_value := 12 |}
              eq_refl eq_refl)
    as (_ & _ & Hfilter & Hcount).
  { intros last H. injection H as <-. reflexivity. }
  split; [exact Hfilter |].
  destruct Hcount as (_ & _ & Happly).
  { reflexivity. }
  { vm_compute. discriminate. }
  destruct (Happly (MonitorExample.scalar (q 5 1))
              (MonitorExample.scalar (q 2 1)) eq_refl eq_refl)
    as (new & Hnew & Hshape & Hlen & Hentries).
  rewrite Hnew. f_equal. f_equal.
  destruct new as [sh entries]. cbn [tensor_shape tensor_entries] in *.
  unfold MonitorExample.scalar. f_equal; [exact Hshape |].
  destruct entries as [| e [| e' entries]]; try discriminate Hlen.
  f_equal.
  specialize (Hentries 0%nat (q 2 1) (q 5 1) eq_refl eq_refl).
  cbn [nth_error] in Hentries. apply Some_inj in Hentries. rewrite Hentries.
  apply Qc_is_canon. reflexivity.
Defined.

End MonitorFilter.

(** * Keys that the boundary update cannot serve *)

Module OutflowMissing.
Import Outflow OutflowSpec OutflowFacts OutflowTotal OutflowTheorems.

(** X23. One key that cannot be served fails the whole update: when the
    pattern finds in a key of [additional_states] a variable that is not in
    [states], or whose buffer [bc_<var>_0_1] is not in [additional_states],
    the update returns no dictionary. *)
Theorem unserved_key_fails_the_update gr replicas st ast p i key val var :
  nth_error ast i = Some (key, val) ->
  Regex.search key = Some var ->
  lookup var st = None \/ lookup ("bc_" ++ var ++ "_0_1") ast = None ->
  forall out, get_boundary_update_fn gr replicas st ast p <> Ok out.
Proof.
  intros Hi Hs Hmiss out Hrun.
  destruct (get_boundary_update_fn_ok _ _ _ _ _ _ Hrun)
    as (um & mo & mi & _ & _ & _ & Hmap).
  destruct (update_items_frame _ _ _ _ _ _ _ Hmap) as [_ Hitems].
  destruct (Hitems _ _ _ Hi) as (new & _ & Hupd).
  rewrite Hs in Hupd.
  destruct (update_boundary_values_entry _ _ _ _ _ _ _ Hupd)
    as (bc & phi & Hbc & Hphi & _).
  destruct Hmiss as [H | H]; congruence.
Qed.

(** The pressure is not among the states of the example: a buffer for it
    fails the update, with the [KeyError] of its name. *)
Lemma unserved_key_fails_the_update_witness :
  (forall out,
      get_boundary_update_fn single_replica_reduce OutflowExample.replicas
        OutflowExample.states [("bc_p_0_1", [[[q 4 1]]])]
        OutflowExample.params <> Ok out)
  /\ get_boundary_update_fn single_replica_reduce OutflowExample.replicas
       OutflowExample.states [("bc_p_0_1", [[[q 4 1]]])]
       OutflowExample.params = Err (KeyError "p").
Proof.
  split; [| reflexivity].
  apply (unserved_key_fails_the_update single_replica_reduce
           OutflowExample.replicas OutflowExample.states
           [("bc_p_0_1", [[[q 4 1]]])] OutflowExample.params
           0%nat "bc_p_0_1" [[[q 4 1]]] "p").
  - reflexivity.
  - reflexivity.
  - left. reflexivity.
Defined.

End OutflowMissing.

(** * What the constructors establish *)

Module Constructors.

(** X24. The constructor of [TotalEnergy] checks the name before the
    thermodynamics model: a name other than [e_t] that the base class
    accepts is an [AssertionError] whatever the model. The object that it
    returns is named [e_t], keeps the arguments of the call, and holds the
    cloud model and the microphysics model built on its [water.Water]
    model. *)
Theorem total_energy_constructor env kernel_op params scalar_name
    (thermodynamics : ThermodynamicsManager TotalEnergy.Water) :
  (forall d,
      scalar_name <> "e_t" ->
      TotalEnergy.derive env params scalar_name = Ok d ->
      TotalEnergy.__init__ env kernel_op params scalar_name thermodynamics
      = Err AssertionError)
  /\ (forall obj,
        TotalEnergy.__init__ env kernel_op params scalar_name thermodynamics
        = Ok obj ->
        _scalar_name (TotalEnergy.base obj) = "e_t"
        /\ scalar_name = "e_t"
        /\ _kernel_op (TotalEnergy.base obj) = kernel_op
        /\ _params (TotalEnergy.base obj) = params
        /\ _thermodynamics (TotalEnergy.base obj) = thermodynamics
        /\ exists w,
            model thermodynamics = WaterModel w
            /\ TotalEnergy._cloud obj = Some (TotalEnergy.new_Cloud env w)
            /\ TotalEnergy._microphysics obj
               = Some (TotalEnergy.new_MicrophysicsKW1978 env params w)).
Proof.
  unfold TotalEnergy.__init__, ScalarGeneric_init. split.
  - intros [[sp h] g] Hn Hd. rewrite Hd. cbn [bind].
    apply String.eqb_neq in Hn. unfold TotalEnergy.TOTAL_ENERGY_VARNAME.
    rewrite Hn. reflexivity.
  - intros obj H.
    inv_bind H. inv_bind Ha. destruct a0 as [[sp h] g].
    apply Ok_inj in Ha. subst a. inv_bind H. cbn [_thermodynamics] in H.
    destruct (String.eqb scalar_name TotalEnergy.TOTAL_ENERGY_VARNAME) eqn:Hn;
      [| discriminate Ha].
    apply String.eqb_eq in Hn.
    destruct (model thermodynamics) as [w |] eqn:Hm; [| discriminate H].
    apply Ok_inj in H. subst obj. cbn.
    repeat (split; [first [exact Hn | reflexivity] |]).
    exists w. auto.
Qed.

Lemma total_energy_constructor_witness :
  TotalEnergy.__init__ SourceExample.te_env SourceExample.kernel_op
    (SourceExample.params (Some 2%nat)) "theta"
    SourceExample.TE.ideal_gas = Err AssertionError
  /\ _scalar_name (TotalEnergy.base SourceExample.te_obj) = "e_t".
Proof.
  split.
  - apply (proj1 (total_energy_constructor SourceExample.te_env
                    SourceExample.kernel_op
                    (SourceExample.params (Some 2%nat)) "theta"
                    SourceExample.TE.ideal_gas)
             (SourceExample.scalar_theta "theta", (q 1 1, q 1 1, q 1 2),
              Some 2%nat)).
    + discriminate.
    + reflexivity.
  - apply (proj2 (total_energy_constructor SourceExample.te_env
                    SourceExample.kernel_op
                    (SourceExample.params (Some 2%nat)) "e_t"
                    SourceExample.TE.thermodynamics) SourceExample.te_obj).
    reflexivity.
Defined.

(** X25. The object that the constructor of [PotentialTemperature] returns
    is named [theta] or [theta_li] and keeps the arguments of the call; it
    holds a cloud model and a microphysics model, built on its model,
    exactly when this model is a [water.Water], and [None] for both
    otherwise. *)
Theorem potential_temperature_constructor env kernel_op params scalar_name
    (thermodynamics : ThermodynamicsManager PotentialTemperature.Water) obj :
  PotentialTemperature.__init__ env kernel_op params scalar_name
    thermodynamics = Ok obj ->
  (scalar_name = "theta" \/ scalar_name = "theta_li")
  /\ _scalar_name (PotentialTemperature.base obj) = scalar_name
  /\ _kernel_op (PotentialTemperature.base obj) = kernel_op
  /\ _params (PotentialTemperature.base obj) = params
  /\ _thermodynamics (PotentialTemperature.base obj) = thermodynamics
  /\ match model thermodynamics with
     | WaterModel w =>
         PotentialTemperature._cloud obj
         = Some (PotentialTemperature.new_Cloud env w)
         /\ PotentialTemperature._microphysics obj
            = Some (PotentialTemperature.new_MicrophysicsKW1978 env w)
     | OtherModel =>
         PotentialTemperature._cloud obj = None
         /\ PotentialTemperature._microphysics obj = None
     end.
Proof.
  unfold PotentialTemperature.__init__, ScalarGeneric_init. intro H.
  inv_bind H. inv_bind Ha. destruct a0 as [[sp h] g].
  apply Ok_inj in Ha. subst a. inv_bind H. cbn [_thermodynamics] in H.
  assert (Hn : scalar_name = "theta" \/ scalar_name = "theta_li").
  { unfold PotentialTemperature.string_in,
      PotentialTemperature._POTENTIAL_TEMPERATURE_VARNAME in Ha.
    simpl in Ha.
    destruct (String.eqb scalar_name "theta") eqn:H1.
    - left. apply String.eqb_eq. exact H1.
    - destruct (String.eqb scalar_name "theta_li") eqn:H2.
      + right. apply String.eqb_eq. exact H2.
      + discriminate Ha. }
  destruct (model thermodynamics) as [w |] eqn:Hm; cbn in H;
    apply Ok_inj in H; subst obj; cbn; auto 10.
Qed.

Lemma potential_temperature_constructor_witness :
  ("theta" = "theta" \/ "theta" = "theta_li")
  /\ _scalar_name (PotentialTemperature.base SourceExample2.dry) = "theta"
  /\ _kernel_op (PotentialTemperature.base SourceExample2.dry)
     = SourceExample.kernel_op
  /\ _params (PotentialTemperature.base SourceExample2.dry)
     = SourceExample.params (Some 2%nat)
  /\ _thermodynamics (PotentialTemperature.base SourceExample2.dry)
     = {| model := OtherModel |}
  /\ PotentialTemperature._cloud SourceExample2.dry = None
  /\ PotentialTemperature._microphysics SourceExample2.dry = None.
Proof.
  apply (potential_temperature_constructor SourceExample.pt_env
           SourceExample.kernel_op (SourceExample.params (Some 2%nat))
           "theta" {| model := OtherModel |} SourceExample2.dry).
  reflexivity.
Defined.

(** Without the constructor the flags are not tied to the gravity axis: an
    object made by hand with the radiation term and no axis raises the
    [TypeError] of the index [None]. *)
Lemma radiation_without_axis_is_a_type_error :
  eval (TotalEnergy.source_fn SourceExample.te_env
          (SourceExample.TE.object zeros zeros None true false false) 0
          SourceExample.replicas SourceExample.phi) SourceExample.moving
  = Err TypeError.
Proof. reflexivity. Qed.

End Constructors.
